(** * IW02 / lab02: [currency_exchange_rate.py]

    A shallow embedding of the command-line client and the properties of
    its validation, date-sampling, service-call and orchestration code.

    Conventions of the embedding:
    - Python [int] is [Z]; [float] is IEEE 754 binary64, taken from the
      standard library's [SpecFloat] with [prec = 53] and [emax = 1024];
    - [str] is a list of Unicode code points; white space, letters,
      decimal digits and the uppercase mapping are the tables of Unicode
      14.0.0, the version behind the [str] methods and the [re] module of
      CPython 3.11;
    - [datetime] is a proleptic Gregorian ordinal ([date.toordinal()])
      together with the time of day in microseconds; [strftime("%Y")]
      writes a year as the GNU C library does, without padding;
    - a raised exception is the [Err] branch of [res];
    - console output, the log, the output directory and the HTTP calls
      made so far are the fields of an explicit [world], which also holds
      the file system's answer to every request to create a directory or
      to open a file.  The console takes every line ([sys.stdout]'s
      encoding and error handler are the environment's, not the
      script's), and [logging] swallows the errors of its handlers. *)

From Stdlib Require Import ZArith Lia List Bool Sorted.
From Stdlib Require Import Strings.Byte.
From Stdlib Require Import Floats.SpecFloat.
From Stdlib Require Import Reals Lra.
From stdpp Require Import base option list gmap.

Local Open Scope Z_scope.

(* ===================================================================== *)
(** ** Strings *)

(** A [str]: its code points, in order. *)
Definition str : Type := list Z.

(** String literals: a literal stands for the list of the codes of its
    (ASCII) characters. *)
Inductive str_literal :=
| literal_nil
| literal_cons (c : Z) (s : str_literal).

Definition literal_of_bytes (l : list Byte.byte) : str_literal :=
  fold_right (fun b s => literal_cons (Z.of_N (Byte.to_N b)) s) literal_nil l.

Fixpoint bytes_of_literal (s : str_literal) : option (list Byte.byte) :=
  match s with
  | literal_nil => Some []
  | literal_cons c s' =>
      match Byte.of_N (Z.to_N c), bytes_of_literal s' with
      | Some b, Some l => if (32 <=? c) && (c <? 127) then Some (b :: l) else None
      | _, _ => None
      end
  end.

Declare Scope str_scope.
Delimit Scope str_scope with str.
Bind Scope str_scope with str.
Set Warnings "-via-type-remapping,-via-type-mismatch".
String Notation str literal_of_bytes bytes_of_literal
  (via str_literal mapping [[nil] => literal_nil, [cons] => literal_cons])
  : str_scope.
Set Warnings "via-type-remapping,via-type-mismatch".
Open Scope str_scope.

(* ===================================================================== *)
(** ** Exceptions *)

(** The taxonomy of the specification (section 7). *)
Inductive error_kind :=
| InvalidArgument | NetworkError | HttpError | ProtocolError | ServiceError.

Set Warnings "-register-all".

(** JSON documents as Python decodes them ([resp.json()]): [None], [bool],
    [int], [float], [str], [list] and [dict] (insertion ordered). *)
Inductive pyval :=
| PNone
| PBool (b : bool)
| PInt (z : Z)
| PFloat (x : spec_float)
| PStr (s : str)
| PList (l : list pyval)
| PDict (kvs : list (str * pyval)).

(** One constructor per [raise SystemExit(f"...")] of the script; the
    arguments are the values interpolated into the f-string. *)
Inductive message :=
| MsgCurrencyRequired (field : str)
    (* f"{field} currency is required." *)
| MsgNotThreeLetters (field code : str)
    (* f"{field} must be a 3-letter code (got '{code}')." *)
| MsgBadDate (field date_str : str)
    (* f"{field} must be in YYYY-MM-DD format (got '{date_str}')." *)
| MsgNumDates
    (* "num-dates must be >= 2" *)
| MsgEndBeforeStart
    (* "end-date must be on or after start-date" *)
| MsgNetwork (e : str)
    (* f"Network error: {e}" *)
| MsgHttp (status_code : Z) (details : str)
    (* f"HTTP error {resp.status_code}. Details: {... or 'No details.'}" *)
| MsgInvalidJson
    (* "Invalid JSON response from service." *)
| MsgUnexpectedPayload
    (* "Unexpected payload structure." *)
| MsgService (err : pyval)
    (* f"Service error: {err}" *)
| MsgBatchArgs
    (* "For batch mode provide --from, --to, --start-date, ..." *)
| MsgSingleArgs.
    (* "Provide --from, --to, and --date (YYYY-MM-DD)" *)

Definition kind_of (m : message) : error_kind :=
  match m with
  | MsgCurrencyRequired _ | MsgNotThreeLetters _ _ | MsgBadDate _ _
  | MsgNumDates | MsgEndBeforeStart | MsgBatchArgs | MsgSingleArgs =>
      InvalidArgument
  | MsgNetwork _ => NetworkError
  | MsgHttp _ _ => HttpError
  | MsgInvalidJson | MsgUnexpectedPayload => ProtocolError
  | MsgService _ => ServiceError
  end.

(** The exceptions the script raises or lets through.  [UnicodeEncodeError]
    and [OSError] come from writing a result file; the script catches
    neither. *)
Inductive exn :=
| SystemExit (m : message)
| ValueError
| OverflowError
| ZeroDivisionError
| UnicodeEncodeError
| OSError.

Inductive res (A : Type) :=
| Ok (a : A)
| Err (e : exn).
Arguments Ok {A} a.
Arguments Err {A} e.

Definition rbind {A B} (r : res A) (k : A -> res B) : res B :=
  match r with
  | Ok a => k a
  | Err e => Err e
  end.

Notation "'let*' x ':=' r 'in' k" := (rbind r (fun x => k))
  (at level 10, x name, r at level 100, k at level 200).

Fixpoint rmap {A B} (f : A -> res B) (l : list A) : res (list B) :=
  match l with
  | [] => Ok []
  | a :: l' =>
      let* b := f a in
      let* bs := rmap f l' in
      Ok (b :: bs)
  end.

(* ===================================================================== *)
(** ** The Unicode Character Database, version 14.0.0 *)

Module UCD.

(** White space: the characters [str.isspace] accepts and [str.strip]
    removes (bidirectional class WS, B or S, or category Zs), as ranges of
    code points. *)
Definition SPACE : list (Z * Z) :=
  [(0x9, 0xD); (0x1C, 0x20); (0x85, 0x85); (0xA0, 0xA0); (0x1680, 0x1680);
   (0x2000, 0x200A); (0x2028, 0x2029); (0x202F, 0x202F); (0x205F, 0x205F);
   (0x3000, 0x3000)].

(** Letters: the characters of the categories Lu, Ll, Lt, Lm and Lo, which
    [str.isalpha] accepts, as ranges of code points. *)
Definition ALPHA : list (Z * Z) :=
  [(0x41,0x5A); (0x61,0x7A); (0xAA,0xAA); (0xB5,0xB5); (0xBA,0xBA);
   (0xC0,0xD6); (0xD8,0xF6); (0xF8,0x2C1); (0x2C6,0x2D1); (0x2E0,0x2E4);
   (0x2EC,0x2EC); (0x2EE,0x2EE); (0x370,0x374); (0x376,0x377); (0x37A,0x37D);
   (0x37F,0x37F); (0x386,0x386); (0x388,0x38A); (0x38C,0x38C); (0x38E,0x3A1);
   (0x3A3,0x3F5); (0x3F7,0x481); (0x48A,0x52F); (0x531,0x556); (0x559,0x559);
   (0x560,0x588); (0x5D0,0x5EA); (0x5EF,0x5F2); (0x620,0x64A); (0x66E,0x66F);
   (0x671,0x6D3); (0x6D5,0x6D5); (0x6E5,0x6E6); (0x6EE,0x6EF); (0x6FA,0x6FC);
   (0x6FF,0x6FF); (0x710,0x710); (0x712,0x72F); (0x74D,0x7A5); (0x7B1,0x7B1);
   (0x7CA,0x7EA); (0x7F4,0x7F5); (0x7FA,0x7FA); (0x800,0x815); (0x81A,0x81A);
   (0x824,0x824); (0x828,0x828); (0x840,0x858); (0x860,0x86A); (0x870,0x887);
   (0x889,0x88E); (0x8A0,0x8C9); (0x904,0x939); (0x93D,0x93D); (0x950,0x950);
   (0x958,0x961); (0x971,0x980); (0x985,0x98C); (0x98F,0x990); (0x993,0x9A8);
   (0x9AA,0x9B0); (0x9B2,0x9B2); (0x9B6,0x9B9); (0x9BD,0x9BD); (0x9CE,0x9CE);
   (0x9DC,0x9DD); (0x9DF,0x9E1); (0x9F0,0x9F1); (0x9FC,0x9FC); (0xA05,0xA0A);
   (0xA0F,0xA10); (0xA13,0xA28); (0xA2A,0xA30); (0xA32,0xA33); (0xA35,0xA36);
   (0xA38,0xA39); (0xA59,0xA5C); (0xA5E,0xA5E); (0xA72,0xA74); (0xA85,0xA8D);
   (0xA8F,0xA91); (0xA93,0xAA8); (0xAAA,0xAB0); (0xAB2,0xAB3); (0xAB5,0xAB9);
   (0xABD,0xABD); (0xAD0,0xAD0); (0xAE0,0xAE1); (0xAF9,0xAF9); (0xB05,0xB0C);
   (0xB0F,0xB10); (0xB13,0xB28); (0xB2A,0xB30); (0xB32,0xB33); (0xB35,0xB39);
   (0xB3D,0xB3D); (0xB5C,0xB5D); (0xB5F,0xB61); (0xB71,0xB71); (0xB83,0xB83);
   (0xB85,0xB8A); (0xB8E,0xB90); (0xB92,0xB95); (0xB99,0xB9A); (0xB9C,0xB9C);
   (0xB9E,0xB9F); (0xBA3,0xBA4); (0xBA8,0xBAA); (0xBAE,0xBB9); (0xBD0,0xBD0);
   (0xC05,0xC0C); (0xC0E,0xC10); (0xC12,0xC28); (0xC2A,0xC39); (0xC3D,0xC3D);
   (0xC58,0xC5A); (0xC5D,0xC5D); (0xC60,0xC61); (0xC80,0xC80); (0xC85,0xC8C);
   (0xC8E,0xC90); (0xC92,0xCA8); (0xCAA,0xCB3); (0xCB5,0xCB9); (0xCBD,0xCBD);
   (0xCDD,0xCDE); (0xCE0,0xCE1); (0xCF1,0xCF2); (0xD04,0xD0C); (0xD0E,0xD10);
   (0xD12,0xD3A); (0xD3D,0xD3D); (0xD4E,0xD4E); (0xD54,0xD56); (0xD5F,0xD61);
   (0xD7A,0xD7F); (0xD85,0xD96); (0xD9A,0xDB1); (0xDB3,0xDBB); (0xDBD,0xDBD);
   (0xDC0,0xDC6); (0xE01,0xE30); (0xE32,0xE33); (0xE40,0xE46); (0xE81,0xE82);
   (0xE84,0xE84); (0xE86,0xE8A); (0xE8C,0xEA3); (0xEA5,0xEA5); (0xEA7,0xEB0);
   (0xEB2,0xEB3); (0xEBD,0xEBD); (0xEC0,0xEC4); (0xEC6,0xEC6); (0xEDC,0xEDF);
   (0xF00,0xF00); (0xF40,0xF47); (0xF49,0xF6C); (0xF88,0xF8C);
   (0x1000,0x102A); (0x103F,0x103F); (0x1050,0x1055); (0x105A,0x105D);
   (0x1061,0x1061); (0x1065,0x1066); (0x106E,0x1070); (0x1075,0x1081);
   (0x108E,0x108E); (0x10A0,0x10C5); (0x10C7,0x10C7); (0x10CD,0x10CD);
   (0x10D0,0x10FA); (0x10FC,0x1248); (0x124A,0x124D); (0x1250,0x1256);
   (0x1258,0x1258); (0x125A,0x125D); (0x1260,0x1288); (0x128A,0x128D);
   (0x1290,0x12B0); (0x12B2,0x12B5); (0x12B8,0x12BE); (0x12C0,0x12C0);
   (0x12C2,0x12C5); (0x12C8,0x12D6); (0x12D8,0x1310); (0x1312,0x1315);
   (0x1318,0x135A); (0x1380,0x138F); (0x13A0,0x13F5); (0x13F8,0x13FD);
   (0x1401,0x166C); (0x166F,0x167F); (0x1681,0x169A); (0x16A0,0x16EA);
   (0x16F1,0x16F8); (0x1700,0x1711); (0x171F,0x1731); (0x1740,0x1751);
   (0x1760,0x176C); (0x176E,0x1770); (0x1780,0x17B3); (0x17D7,0x17D7);
   (0x17DC,0x17DC); (0x1820,0x1878); (0x1880,0x1884); (0x1887,0x18A8);
   (0x18AA,0x18AA); (0x18B0,0x18F5); (0x1900,0x191E); (0x1950,0x196D);
   (0x1970,0x1974); (0x1980,0x19AB); (0x19B0,0x19C9); (0x1A00,0x1A16);
   (0x1A20,0x1A54); (0x1AA7,0x1AA7); (0x1B05,0x1B33); (0x1B45,0x1B4C);
   (0x1B83,0x1BA0); (0x1BAE,0x1BAF); (0x1BBA,0x1BE5); (0x1C00,0x1C23);
   (0x1C4D,0x1C4F); (0x1C5A,0x1C7D); (0x1C80,0x1C88); (0x1C90,0x1CBA);
   (0x1CBD,0x1CBF); (0x1CE9,0x1CEC); (0x1CEE,0x1CF3); (0x1CF5,0x1CF6);
   (0x1CFA,0x1CFA); (0x1D00,0x1DBF); (0x1E00,0x1F15); (0x1F18,0x1F1D);
   (0x1F20,0x1F45); (0x1F48,0x1F4D); (0x1F50,0x1F57); (0x1F59,0x1F59);
   (0x1F5B,0x1F5B); (0x1F5D,0x1F5D); (0x1F5F,0x1F7D); (0x1F80,0x1FB4);
   (0x1FB6,0x1FBC); (0x1FBE,0x1FBE); (0x1FC2,0x1FC4); (0x1FC6,0x1FCC);
   (0x1FD0,0x1FD3); (0x1FD6,0x1FDB); (0x1FE0,0x1FEC); (0x1FF2,0x1FF4);
   (0x1FF6,0x1FFC); (0x2071,0x2071); (0x207F,0x207F); (0x2090,0x209C);
   (0x2102,0x2102); (0x2107,0x2107); (0x210A,0x2113); (0x2115,0x2115);
   (0x2119,0x211D); (0x2124,0x2124); (0x2126,0x2126); (0x2128,0x2128);
   (0x212A,0x212D); (0x212F,0x2139); (0x213C,0x213F); (0x2145,0x2149);
   (0x214E,0x214E); (0x2183,0x2184); (0x2C00,0x2CE4); (0x2CEB,0x2CEE);
   (0x2CF2,0x2CF3); (0x2D00,0x2D25); (0x2D27,0x2D27); (0x2D2D,0x2D2D);
   (0x2D30,0x2D67); (0x2D6F,0x2D6F); (0x2D80,0x2D96); (0x2DA0,0x2DA6);
   (0x2DA8,0x2DAE); (0x2DB0,0x2DB6); (0x2DB8,0x2DBE); (0x2DC0,0x2DC6);
   (0x2DC8,0x2DCE); (0x2DD0,0x2DD6); (0x2DD8,0x2DDE); (0x2E2F,0x2E2F);
   (0x3005,0x3006); (0x3031,0x3035); (0x303B,0x303C); (0x3041,0x3096);
   (0x309D,0x309F); (0x30A1,0x30FA); (0x30FC,0x30FF); (0x3105,0x312F);
   (0x3131,0x318E); (0x31A0,0x31BF); (0x31F0,0x31FF); (0x3400,0x4DBF);
   (0x4E00,0xA48C); (0xA4D0,0xA4FD); (0xA500,0xA60C); (0xA610,0xA61F);
   (0xA62A,0xA62B); (0xA640,0xA66E); (0xA67F,0xA69D); (0xA6A0,0xA6E5);
   (0xA717,0xA71F); (0xA722,0xA788); (0xA78B,0xA7CA); (0xA7D0,0xA7D1);
   (0xA7D3,0xA7D3); (0xA7D5,0xA7D9); (0xA7F2,0xA801); (0xA803,0xA805);
   (0xA807,0xA80A); (0xA80C,0xA822); (0xA840,0xA873); (0xA882,0xA8B3);
   (0xA8F2,0xA8F7); (0xA8FB,0xA8FB); (0xA8FD,0xA8FE); (0xA90A,0xA925);
   (0xA930,0xA946); (0xA960,0xA97C); (0xA984,0xA9B2); (0xA9CF,0xA9CF);
   (0xA9E0,0xA9E4); (0xA9E6,0xA9EF); (0xA9FA,0xA9FE); (0xAA00,0xAA28);
   (0xAA40,0xAA42); (0xAA44,0xAA4B); (0xAA60,0xAA76); (0xAA7A,0xAA7A);
   (0xAA7E,0xAAAF); (0xAAB1,0xAAB1); (0xAAB5,0xAAB6); (0xAAB9,0xAABD);
   (0xAAC0,0xAAC0); (0xAAC2,0xAAC2); (0xAADB,0xAADD); (0xAAE0,0xAAEA);
   (0xAAF2,0xAAF4); (0xAB01,0xAB06); (0xAB09,0xAB0E); (0xAB11,0xAB16);
   (0xAB20,0xAB26); (0xAB28,0xAB2E); (0xAB30,0xAB5A); (0xAB5C,0xAB69);
   (0xAB70,0xABE2); (0xAC00,0xD7A3); (0xD7B0,0xD7C6); (0xD7CB,0xD7FB);
   (0xF900,0xFA6D); (0xFA70,0xFAD9); (0xFB00,0xFB06); (0xFB13,0xFB17);
   (0xFB1D,0xFB1D); (0xFB1F,0xFB28); (0xFB2A,0xFB36); (0xFB38,0xFB3C);
   (0xFB3E,0xFB3E); (0xFB40,0xFB41); (0xFB43,0xFB44); (0xFB46,0xFBB1);
   (0xFBD3,0xFD3D); (0xFD50,0xFD8F); (0xFD92,0xFDC7); (0xFDF0,0xFDFB);
   (0xFE70,0xFE74); (0xFE76,0xFEFC); (0xFF21,0xFF3A); (0xFF41,0xFF5A);
   (0xFF66,0xFFBE); (0xFFC2,0xFFC7); (0xFFCA,0xFFCF); (0xFFD2,0xFFD7);
   (0xFFDA,0xFFDC); (0x10000,0x1000B); (0x1000D,0x10026); (0x10028,0x1003A);
   (0x1003C,0x1003D); (0x1003F,0x1004D); (0x10050,0x1005D); (0x10080,0x100FA);
   (0x10280,0x1029C); (0x102A0,0x102D0); (0x10300,0x1031F); (0x1032D,0x10340);
   (0x10342,0x10349); (0x10350,0x10375); (0x10380,0x1039D); (0x103A0,0x103C3);
   (0x103C8,0x103CF); (0x10400,0x1049D); (0x104B0,0x104D3); (0x104D8,0x104FB);
   (0x10500,0x10527); (0x10530,0x10563); (0x10570,0x1057A); (0x1057C,0x1058A);
   (0x1058C,0x10592); (0x10594,0x10595); (0x10597,0x105A1); (0x105A3,0x105B1);
   (0x105B3,0x105B9); (0x105BB,0x105BC); (0x10600,0x10736); (0x10740,0x10755);
   (0x10760,0x10767); (0x10780,0x10785); (0x10787,0x107B0); (0x107B2,0x107BA);
   (0x10800,0x10805); (0x10808,0x10808); (0x1080A,0x10835); (0x10837,0x10838);
   (0x1083C,0x1083C); (0x1083F,0x10855); (0x10860,0x10876); (0x10880,0x1089E);
   (0x108E0,0x108F2); (0x108F4,0x108F5); (0x10900,0x10915); (0x10920,0x10939);
   (0x10980,0x109B7); (0x109BE,0x109BF); (0x10A00,0x10A00); (0x10A10,0x10A13);
   (0x10A15,0x10A17); (0x10A19,0x10A35); (0x10A60,0x10A7C); (0x10A80,0x10A9C);
   (0x10AC0,0x10AC7); (0x10AC9,0x10AE4); (0x10B00,0x10B35); (0x10B40,0x10B55);
   (0x10B60,0x10B72); (0x10B80,0x10B91); (0x10C00,0x10C48); (0x10C80,0x10CB2);
   (0x10CC0,0x10CF2); (0x10D00,0x10D23); (0x10E80,0x10EA9); (0x10EB0,0x10EB1);
   (0x10F00,0x10F1C); (0x10F27,0x10F27); (0x10F30,0x10F45); (0x10F70,0x10F81);
   (0x10FB0,0x10FC4); (0x10FE0,0x10FF6); (0x11003,0x11037); (0x11071,0x11072);
   (0x11075,0x11075); (0x11083,0x110AF); (0x110D0,0x110E8); (0x11103,0x11126);
   (0x11144,0x11144); (0x11147,0x11147); (0x11150,0x11172); (0x11176,0x11176);
   (0x11183,0x111B2); (0x111C1,0x111C4); (0x111DA,0x111DA); (0x111DC,0x111DC);
   (0x11200,0x11211); (0x11213,0x1122B); (0x11280,0x11286); (0x11288,0x11288);
   (0x1128A,0x1128D); (0x1128F,0x1129D); (0x1129F,0x112A8); (0x112B0,0x112DE);
   (0x11305,0x1130C); (0x1130F,0x11310); (0x11313,0x11328); (0x1132A,0x11330);
   (0x11332,0x11333); (0x11335,0x11339); (0x1133D,0x1133D); (0x11350,0x11350);
   (0x1135D,0x11361); (0x11400,0x11434); (0x11447,0x1144A); (0x1145F,0x11461);
   (0x11480,0x114AF); (0x114C4,0x114C5); (0x114C7,0x114C7); (0x11580,0x115AE);
   (0x115D8,0x115DB); (0x11600,0x1162F); (0x11644,0x11644); (0x11680,0x116AA);
   (0x116B8,0x116B8); (0x11700,0x1171A); (0x11740,0x11746); (0x11800,0x1182B);
   (0x118A0,0x118DF); (0x118FF,0x11906); (0x11909,0x11909); (0x1190C,0x11913);
   (0x11915,0x11916); (0x11918,0x1192F); (0x1193F,0x1193F); (0x11941,0x11941);
   (0x119A0,0x119A7); (0x119AA,0x119D0); (0x119E1,0x119E1); (0x119E3,0x119E3);
   (0x11A00,0x11A00); (0x11A0B,0x11A32); (0x11A3A,0x11A3A); (0x11A50,0x11A50);
   (0x11A5C,0x11A89); (0x11A9D,0x11A9D); (0x11AB0,0x11AF8); (0x11C00,0x11C08);
   (0x11C0A,0x11C2E); (0x11C40,0x11C40); (0x11C72,0x11C8F); (0x11D00,0x11D06);
   (0x11D08,0x11D09); (0x11D0B,0x11D30); (0x11D46,0x11D46); (0x11D60,0x11D65);
   (0x11D67,0x11D68); (0x11D6A,0x11D89); (0x11D98,0x11D98); (0x11EE0,0x11EF2);
   (0x11FB0,0x11FB0); (0x12000,0x12399); (0x12480,0x12543); (0x12F90,0x12FF0);
   (0x13000,0x1342E); (0x14400,0x14646); (0x16800,0x16A38); (0x16A40,0x16A5E);
   (0x16A70,0x16ABE); (0x16AD0,0x16AED); (0x16B00,0x16B2F); (0x16B40,0x16B43);
   (0x16B63,0x16B77); (0x16B7D,0x16B8F); (0x16E40,0x16E7F); (0x16F00,0x16F4A);
   (0x16F50,0x16F50); (0x16F93,0x16F9F); (0x16FE0,0x16FE1); (0x16FE3,0x16FE3);
   (0x17000,0x187F7); (0x18800,0x18CD5); (0x18D00,0x18D08); (0x1AFF0,0x1AFF3);
   (0x1AFF5,0x1AFFB); (0x1AFFD,0x1AFFE); (0x1B000,0x1B122); (0x1B150,0x1B152);
   (0x1B164,0x1B167); (0x1B170,0x1B2FB); (0x1BC00,0x1BC6A); (0x1BC70,0x1BC7C);
   (0x1BC80,0x1BC88); (0x1BC90,0x1BC99); (0x1D400,0x1D454); (0x1D456,0x1D49C);
   (0x1D49E,0x1D49F); (0x1D4A2,0x1D4A2); (0x1D4A5,0x1D4A6); (0x1D4A9,0x1D4AC);
   (0x1D4AE,0x1D4B9); (0x1D4BB,0x1D4BB); (0x1D4BD,0x1D4C3); (0x1D4C5,0x1D505);
   (0x1D507,0x1D50A); (0x1D50D,0x1D514); (0x1D516,0x1D51C); (0x1D51E,0x1D539);
   (0x1D53B,0x1D53E); (0x1D540,0x1D544); (0x1D546,0x1D546); (0x1D54A,0x1D550);
   (0x1D552,0x1D6A5); (0x1D6A8,0x1D6C0); (0x1D6C2,0x1D6DA); (0x1D6DC,0x1D6FA);
   (0x1D6FC,0x1D714); (0x1D716,0x1D734); (0x1D736,0x1D74E); (0x1D750,0x1D76E);
   (0x1D770,0x1D788); (0x1D78A,0x1D7A8); (0x1D7AA,0x1D7C2); (0x1D7C4,0x1D7CB);
   (0x1DF00,0x1DF1E); (0x1E100,0x1E12C); (0x1E137,0x1E13D); (0x1E14E,0x1E14E);
   (0x1E290,0x1E2AD); (0x1E2C0,0x1E2EB); (0x1E7E0,0x1E7E6); (0x1E7E8,0x1E7EB);
   (0x1E7ED,0x1E7EE); (0x1E7F0,0x1E7FE); (0x1E800,0x1E8C4); (0x1E900,0x1E943);
   (0x1E94B,0x1E94B); (0x1EE00,0x1EE03); (0x1EE05,0x1EE1F); (0x1EE21,0x1EE22);
   (0x1EE24,0x1EE24); (0x1EE27,0x1EE27); (0x1EE29,0x1EE32); (0x1EE34,0x1EE37);
   (0x1EE39,0x1EE39); (0x1EE3B,0x1EE3B); (0x1EE42,0x1EE42); (0x1EE47,0x1EE47);
   (0x1EE49,0x1EE49); (0x1EE4B,0x1EE4B); (0x1EE4D,0x1EE4F); (0x1EE51,0x1EE52);
   (0x1EE54,0x1EE54); (0x1EE57,0x1EE57); (0x1EE59,0x1EE59); (0x1EE5B,0x1EE5B);
   (0x1EE5D,0x1EE5D); (0x1EE5F,0x1EE5F); (0x1EE61,0x1EE62); (0x1EE64,0x1EE64);
   (0x1EE67,0x1EE6A); (0x1EE6C,0x1EE72); (0x1EE74,0x1EE77); (0x1EE79,0x1EE7C);
   (0x1EE7E,0x1EE7E); (0x1EE80,0x1EE89); (0x1EE8B,0x1EE9B); (0x1EEA1,0x1EEA3);
   (0x1EEA5,0x1EEA9); (0x1EEAB,0x1EEBB); (0x20000,0x2A6DF); (0x2A700,0x2B738);
   (0x2B740,0x2B81D); (0x2B820,0x2CEA1); (0x2CEB0,0x2EBE0); (0x2F800,0x2FA1D);
   (0x30000,0x3134A)].

(** Decimal digits: the characters of category Nd, which [\d] matches and
    [int] reads.  They come in runs of ten, 0 to 9; the list holds the
    code point of each run's zero. *)
Definition DECIMAL : list Z :=
  [0x30; 0x660; 0x6F0; 0x7C0; 0x966; 0x9E6; 0xA66; 0xAE6; 0xB66; 0xBE6; 0xC66;
   0xCE6; 0xD66; 0xDE6; 0xE50; 0xED0; 0xF20; 0x1040; 0x1090; 0x17E0; 0x1810;
   0x1946; 0x19D0; 0x1A80; 0x1A90; 0x1B50; 0x1BB0; 0x1C40; 0x1C50; 0xA620;
   0xA8D0; 0xA900; 0xA9D0; 0xA9F0; 0xAA50; 0xABF0; 0xFF10; 0x104A0; 0x10D30;
   0x11066; 0x110F0; 0x11136; 0x111D0; 0x112F0; 0x11450; 0x114D0; 0x11650;
   0x116C0; 0x11730; 0x118E0; 0x11950; 0x11C50; 0x11D50; 0x11DA0; 0x16A60;
   0x16AC0; 0x16B50; 0x1D7CE; 0x1D7D8; 0x1D7E2; 0x1D7EC; 0x1D7F6; 0x1E140;
   0x1E2F0; 0x1E950; 0x1FBF0].

(** The full uppercase mapping: each character whose uppercase form is
    not the character itself, with that form (one to three characters). *)
Definition UPPER : list (Z * list Z) :=
  [(0x61,[0x41]); (0x62,[0x42]); (0x63,[0x43]); (0x64,[0x44]); (0x65,[0x45]);
   (0x66,[0x46]); (0x67,[0x47]); (0x68,[0x48]); (0x69,[0x49]); (0x6A,[0x4A]);
   (0x6B,[0x4B]); (0x6C,[0x4C]); (0x6D,[0x4D]); (0x6E,[0x4E]); (0x6F,[0x4F]);
   (0x70,[0x50]); (0x71,[0x51]); (0x72,[0x52]); (0x73,[0x53]); (0x74,[0x54]);
   (0x75,[0x55]); (0x76,[0x56]); (0x77,[0x57]); (0x78,[0x58]); (0x79,[0x59]);
   (0x7A,[0x5A]); (0xB5,[0x39C]); (0xDF,[0x53;0x53]); (0xE0,[0xC0]);
   (0xE1,[0xC1]); (0xE2,[0xC2]); (0xE3,[0xC3]); (0xE4,[0xC4]); (0xE5,[0xC5]);
   (0xE6,[0xC6]); (0xE7,[0xC7]); (0xE8,[0xC8]); (0xE9,[0xC9]); (0xEA,[0xCA]);
   (0xEB,[0xCB]); (0xEC,[0xCC]); (0xED,[0xCD]); (0xEE,[0xCE]); (0xEF,[0xCF]);
   (0xF0,[0xD0]); (0xF1,[0xD1]); (0xF2,[0xD2]); (0xF3,[0xD3]); (0xF4,[0xD4]);
   (0xF5,[0xD5]); (0xF6,[0xD6]); (0xF8,[0xD8]); (0xF9,[0xD9]); (0xFA,[0xDA]);
   (0xFB,[0xDB]); (0xFC,[0xDC]); (0xFD,[0xDD]); (0xFE,[0xDE]); (0xFF,[0x178]);
   (0x101,[0x100]); (0x103,[0x102]); (0x105,[0x104]); (0x107,[0x106]);
   (0x109,[0x108]); (0x10B,[0x10A]); (0x10D,[0x10C]); (0x10F,[0x10E]);
   (0x111,[0x110]); (0x113,[0x112]); (0x115,[0x114]); (0x117,[0x116]);
   (0x119,[0x118]); (0x11B,[0x11A]); (0x11D,[0x11C]); (0x11F,[0x11E]);
   (0x121,[0x120]); (0x123,[0x122]); (0x125,[0x124]); (0x127,[0x126]);
   (0x129,[0x128]); (0x12B,[0x12A]); (0x12D,[0x12C]); (0x12F,[0x12E]);
   (0x131,[0x49]); (0x133,[0x132]); (0x135,[0x134]); (0x137,[0x136]);
   (0x13A,[0x139]); (0x13C,[0x13B]); (0x13E,[0x13D]); (0x140,[0x13F]);
   (0x142,[0x141]); (0x144,[0x143]); (0x146,[0x145]); (0x148,[0x147]);
   (0x149,[0x2BC;0x4E]); (0x14B,[0x14A]); (0x14D,[0x14C]); (0x14F,[0x14E]);
   (0x151,[0x150]); (0x153,[0x152]); (0x155,[0x154]); (0x157,[0x156]);
   (0x159,[0x158]); (0x15B,[0x15A]); (0x15D,[0x15C]); (0x15F,[0x15E]);
   (0x161,[0x160]); (0x163,[0x162]); (0x165,[0x164]); (0x167,[0x166]);
   (0x169,[0x168]); (0x16B,[0x16A]); (0x16D,[0x16C]); (0x16F,[0x16E]);
   (0x171,[0x170]); (0x173,[0x172]); (0x175,[0x174]); (0x177,[0x176]);
   (0x17A,[0x179]); (0x17C,[0x17B]); (0x17E,[0x17D]); (0x17F,[0x53]);
   (0x180,[0x243]); (0x183,[0x182]); (0x185,[0x184]); (0x188,[0x187]);
   (0x18C,[0x18B]); (0x192,[0x191]); (0x195,[0x1F6]); (0x199,[0x198]);
   (0x19A,[0x23D]); (0x19E,[0x220]); (0x1A1,[0x1A0]); (0x1A3,[0x1A2]);
   (0x1A5,[0x1A4]); (0x1A8,[0x1A7]); (0x1AD,[0x1AC]); (0x1B0,[0x1AF]);
   (0x1B4,[0x1B3]); (0x1B6,[0x1B5]); (0x1B9,[0x1B8]); (0x1BD,[0x1BC]);
   (0x1BF,[0x1F7]); (0x1C5,[0x1C4]); (0x1C6,[0x1C4]); (0x1C8,[0x1C7]);
   (0x1C9,[0x1C7]); (0x1CB,[0x1CA]); (0x1CC,[0x1CA]); (0x1CE,[0x1CD]);
   (0x1D0,[0x1CF]); (0x1D2,[0x1D1]); (0x1D4,[0x1D3]); (0x1D6,[0x1D5]);
   (0x1D8,[0x1D7]); (0x1DA,[0x1D9]); (0x1DC,[0x1DB]); (0x1DD,[0x18E]);
   (0x1DF,[0x1DE]); (0x1E1,[0x1E0]); (0x1E3,[0x1E2]); (0x1E5,[0x1E4]);
   (0x1E7,[0x1E6]); (0x1E9,[0x1E8]); (0x1EB,[0x1EA]); (0x1ED,[0x1EC]);
   (0x1EF,[0x1EE]); (0x1F0,[0x4A;0x30C]); (0x1F2,[0x1F1]); (0x1F3,[0x1F1]);
   (0x1F5,[0x1F4]); (0x1F9,[0x1F8]); (0x1FB,[0x1FA]); (0x1FD,[0x1FC]);
   (0x1FF,[0x1FE]); (0x201,[0x200]); (0x203,[0x202]); (0x205,[0x204]);
   (0x207,[0x206]); (0x209,[0x208]); (0x20B,[0x20A]); (0x20D,[0x20C]);
   (0x20F,[0x20E]); (0x211,[0x210]); (0x213,[0x212]); (0x215,[0x214]);
   (0x217,[0x216]); (0x219,[0x218]); (0x21B,[0x21A]); (0x21D,[0x21C]);
   (0x21F,[0x21E]); (0x223,[0x222]); (0x225,[0x224]); (0x227,[0x226]);
   (0x229,[0x228]); (0x22B,[0x22A]); (0x22D,[0x22C]); (0x22F,[0x22E]);
   (0x231,[0x230]); (0x233,[0x232]); (0x23C,[0x23B]); (0x23F,[0x2C7E]);
   (0x240,[0x2C7F]); (0x242,[0x241]); (0x247,[0x246]); (0x249,[0x248]);
   (0x24B,[0x24A]); (0x24D,[0x24C]); (0x24F,[0x24E]); (0x250,[0x2C6F]);
   (0x251,[0x2C6D]); (0x252,[0x2C70]); (0x253,[0x181]); (0x254,[0x186]);
   (0x256,[0x189]); (0x257,[0x18A]); (0x259,[0x18F]); (0x25B,[0x190]);
   (0x25C,[0xA7AB]); (0x260,[0x193]); (0x261,[0xA7AC]); (0x263,[0x194]);
   (0x265,[0xA78D]); (0x266,[0xA7AA]); (0x268,[0x197]); (0x269,[0x196]);
   (0x26A,[0xA7AE]); (0x26B,[0x2C62]); (0x26C,[0xA7AD]); (0x26F,[0x19C]);
   (0x271,[0x2C6E]); (0x272,[0x19D]); (0x275,[0x19F]); (0x27D,[0x2C64]);
   (0x280,[0x1A6]); (0x282,[0xA7C5]); (0x283,[0x1A9]); (0x287,[0xA7B1]);
   (0x288,[0x1AE]); (0x289,[0x244]); (0x28A,[0x1B1]); (0x28B,[0x1B2]);
   (0x28C,[0x245]); (0x292,[0x1B7]); (0x29D,[0xA7B2]); (0x29E,[0xA7B0]);
   (0x345,[0x399]); (0x371,[0x370]); (0x373,[0x372]); (0x377,[0x376]);
   (0x37B,[0x3FD]); (0x37C,[0x3FE]); (0x37D,[0x3FF]);
   (0x390,[0x399;0x308;0x301]); (0x3AC,[0x386]); (0x3AD,[0x388]);
   (0x3AE,[0x389]); (0x3AF,[0x38A]); (0x3B0,[0x3A5;0x308;0x301]);
   (0x3B1,[0x391]); (0x3B2,[0x392]); (0x3B3,[0x393]); (0x3B4,[0x394]);
   (0x3B5,[0x395]); (0x3B6,[0x396]); (0x3B7,[0x397]); (0x3B8,[0x398]);
   (0x3B9,[0x399]); (0x3BA,[0x39A]); (0x3BB,[0x39B]); (0x3BC,[0x39C]);
   (0x3BD,[0x39D]); (0x3BE,[0x39E]); (0x3BF,[0x39F]); (0x3C0,[0x3A0]);
   (0x3C1,[0x3A1]); (0x3C2,[0x3A3]); (0x3C3,[0x3A3]); (0x3C4,[0x3A4]);
   (0x3C5,[0x3A5]); (0x3C6,[0x3A6]); (0x3C7,[0x3A7]); (0x3C8,[0x3A8]);
   (0x3C9,[0x3A9]); (0x3CA,[0x3AA]); (0x3CB,[0x3AB]); (0x3CC,[0x38C]);
   (0x3CD,[0x38E]); (0x3CE,[0x38F]); (0x3D0,[0x392]); (0x3D1,[0x398]);
   (0x3D5,[0x3A6]); (0x3D6,[0x3A0]); (0x3D7,[0x3CF]); (0x3D9,[0x3D8]);
   (0x3DB,[0x3DA]); (0x3DD,[0x3DC]); (0x3DF,[0x3DE]); (0x3E1,[0x3E0]);
   (0x3E3,[0x3E2]); (0x3E5,[0x3E4]); (0x3E7,[0x3E6]); (0x3E9,[0x3E8]);
   (0x3EB,[0x3EA]); (0x3ED,[0x3EC]); (0x3EF,[0x3EE]); (0x3F0,[0x39A]);
   (0x3F1,[0x3A1]); (0x3F2,[0x3F9]); (0x3F3,[0x37F]); (0x3F5,[0x395]);
   (0x3F8,[0x3F7]); (0x3FB,[0x3FA]); (0x430,[0x410]); (0x431,[0x411]);
   (0x432,[0x412]); (0x433,[0x413]); (0x434,[0x414]); (0x435,[0x415]);
   (0x436,[0x416]); (0x437,[0x417]); (0x438,[0x418]); (0x439,[0x419]);
   (0x43A,[0x41A]); (0x43B,[0x41B]); (0x43C,[0x41C]); (0x43D,[0x41D]);
   (0x43E,[0x41E]); (0x43F,[0x41F]); (0x440,[0x420]); (0x441,[0x421]);
   (0x442,[0x422]); (0x443,[0x423]); (0x444,[0x424]); (0x445,[0x425]);
   (0x446,[0x426]); (0x447,[0x427]); (0x448,[0x428]); (0x449,[0x429]);
   (0x44A,[0x42A]); (0x44B,[0x42B]); (0x44C,[0x42C]); (0x44D,[0x42D]);
   (0x44E,[0x42E]); (0x44F,[0x42F]); (0x450,[0x400]); (0x451,[0x401]);
   (0x452,[0x402]); (0x453,[0x403]); (0x454,[0x404]); (0x455,[0x405]);
   (0x456,[0x406]); (0x457,[0x407]); (0x458,[0x408]); (0x459,[0x409]);
   (0x45A,[0x40A]); (0x45B,[0x40B]); (0x45C,[0x40C]); (0x45D,[0x40D]);
   (0x45E,[0x40E]); (0x45F,[0x40F]); (0x461,[0x460]); (0x463,[0x462]);
   (0x465,[0x464]); (0x467,[0x466]); (0x469,[0x468]); (0x46B,[0x46A]);
   (0x46D,[0x46C]); (0x46F,[0x46E]); (0x471,[0x470]); (0x473,[0x472]);
   (0x475,[0x474]); (0x477,[0x476]); (0x479,[0x478]); (0x47B,[0x47A]);
   (0x47D,[0x47C]); (0x47F,[0x47E]); (0x481,[0x480]); (0x48B,[0x48A]);
   (0x48D,[0x48C]); (0x48F,[0x48E]); (0x491,[0x490]); (0x493,[0x492]);
   (0x495,[0x494]); (0x497,[0x496]); (0x499,[0x498]); (0x49B,[0x49A]);
   (0x49D,[0x49C]); (0x49F,[0x49E]); (0x4A1,[0x4A0]); (0x4A3,[0x4A2]);
   (0x4A5,[0x4A4]); (0x4A7,[0x4A6]); (0x4A9,[0x4A8]); (0x4AB,[0x4AA]);
   (0x4AD,[0x4AC]); (0x4AF,[0x4AE]); (0x4B1,[0x4B0]); (0x4B3,[0x4B2]);
   (0x4B5,[0x4B4]); (0x4B7,[0x4B6]); (0x4B9,[0x4B8]); (0x4BB,[0x4BA]);
   (0x4BD,[0x4BC]); (0x4BF,[0x4BE]); (0x4C2,[0x4C1]); (0x4C4,[0x4C3]);
   (0x4C6,[0x4C5]); (0x4C8,[0x4C7]); (0x4CA,[0x4C9]); (0x4CC,[0x4CB]);
   (0x4CE,[0x4CD]); (0x4CF,[0x4C0]); (0x4D1,[0x4D0]); (0x4D3,[0x4D2]);
   (0x4D5,[0x4D4]); (0x4D7,[0x4D6]); (0x4D9,[0x4D8]); (0x4DB,[0x4DA]);
   (0x4DD,[0x4DC]); (0x4DF,[0x4DE]); (0x4E1,[0x4E0]); (0x4E3,[0x4E2]);
   (0x4E5,[0x4E4]); (0x4E7,[0x4E6]); (0x4E9,[0x4E8]); (0x4EB,[0x4EA]);
   (0x4ED,[0x4EC]); (0x4EF,[0x4EE]); (0x4F1,[0x4F0]); (0x4F3,[0x4F2]);
   (0x4F5,[0x4F4]); (0x4F7,[0x4F6]); (0x4F9,[0x4F8]); (0x4FB,[0x4FA]);
   (0x4FD,[0x4FC]); (0x4FF,[0x4FE]); (0x501,[0x500]); (0x503,[0x502]);
   (0x505,[0x504]); (0x507,[0x506]); (0x509,[0x508]); (0x50B,[0x50A]);
   (0x50D,[0x50C]); (0x50F,[0x50E]); (0x511,[0x510]); (0x513,[0x512]);
   (0x515,[0x514]); (0x517,[0x516]); (0x519,[0x518]); (0x51B,[0x51A]);
   (0x51D,[0x51C]); (0x51F,[0x51E]); (0x521,[0x520]); (0x523,[0x522]);
   (0x525,[0x524]); (0x527,[0x526]); (0x529,[0x528]); (0x52B,[0x52A]);
   (0x52D,[0x52C]); (0x52F,[0x52E]); (0x561,[0x531]); (0x562,[0x532]);
   (0x563,[0x533]); (0x564,[0x534]); (0x565,[0x535]); (0x566,[0x536]);
   (0x567,[0x537]); (0x568,[0x538]); (0x569,[0x539]); (0x56A,[0x53A]);
   (0x56B,[0x53B]); (0x56C,[0x53C]); (0x56D,[0x53D]); (0x56E,[0x53E]);
   (0x56F,[0x53F]); (0x570,[0x540]); (0x571,[0x541]); (0x572,[0x542]);
   (0x573,[0x543]); (0x574,[0x544]); (0x575,[0x545]); (0x576,[0x546]);
   (0x577,[0x547]); (0x578,[0x548]); (0x579,[0x549]); (0x57A,[0x54A]);
   (0x57B,[0x54B]); (0x57C,[0x54C]); (0x57D,[0x54D]); (0x57E,[0x54E]);
   (0x57F,[0x54F]); (0x580,[0x550]); (0x581,[0x551]); (0x582,[0x552]);
   (0x583,[0x553]); (0x584,[0x554]); (0x585,[0x555]); (0x586,[0x556]);
   (0x587,[0x535;0x552]); (0x10D0,[0x1C90]); (0x10D1,[0x1C91]);
   (0x10D2,[0x1C92]); (0x10D3,[0x1C93]); (0x10D4,[0x1C94]); (0x10D5,[0x1C95]);
   (0x10D6,[0x1C96]); (0x10D7,[0x1C97]); (0x10D8,[0x1C98]); (0x10D9,[0x1C99]);
   (0x10DA,[0x1C9A]); (0x10DB,[0x1C9B]); (0x10DC,[0x1C9C]); (0x10DD,[0x1C9D]);
   (0x10DE,[0x1C9E]); (0x10DF,[0x1C9F]); (0x10E0,[0x1CA0]); (0x10E1,[0x1CA1]);
   (0x10E2,[0x1CA2]); (0x10E3,[0x1CA3]); (0x10E4,[0x1CA4]); (0x10E5,[0x1CA5]);
   (0x10E6,[0x1CA6]); (0x10E7,[0x1CA7]); (0x10E8,[0x1CA8]); (0x10E9,[0x1CA9]);
   (0x10EA,[0x1CAA]); (0x10EB,[0x1CAB]); (0x10EC,[0x1CAC]); (0x10ED,[0x1CAD]);
   (0x10EE,[0x1CAE]); (0x10EF,[0x1CAF]); (0x10F0,[0x1CB0]); (0x10F1,[0x1CB1]);
   (0x10F2,[0x1CB2]); (0x10F3,[0x1CB3]); (0x10F4,[0x1CB4]); (0x10F5,[0x1CB5]);
   (0x10F6,[0x1CB6]); (0x10F7,[0x1CB7]); (0x10F8,[0x1CB8]); (0x10F9,[0x1CB9]);
   (0x10FA,[0x1CBA]); (0x10FD,[0x1CBD]); (0x10FE,[0x1CBE]); (0x10FF,[0x1CBF]);
   (0x13F8,[0x13F0]); (0x13F9,[0x13F1]); (0x13FA,[0x13F2]); (0x13FB,[0x13F3]);
   (0x13FC,[0x13F4]); (0x13FD,[0x13F5]); (0x1C80,[0x412]); (0x1C81,[0x414]);
   (0x1C82,[0x41E]); (0x1C83,[0x421]); (0x1C84,[0x422]); (0x1C85,[0x422]);
   (0x1C86,[0x42A]); (0x1C87,[0x462]); (0x1C88,[0xA64A]); (0x1D79,[0xA77D]);
   (0x1D7D,[0x2C63]); (0x1D8E,[0xA7C6]); (0x1E01,[0x1E00]); (0x1E03,[0x1E02]);
   (0x1E05,[0x1E04]); (0x1E07,[0x1E06]); (0x1E09,[0x1E08]); (0x1E0B,[0x1E0A]);
   (0x1E0D,[0x1E0C]); (0x1E0F,[0x1E0E]); (0x1E11,[0x1E10]); (0x1E13,[0x1E12]);
   (0x1E15,[0x1E14]); (0x1E17,[0x1E16]); (0x1E19,[0x1E18]); (0x1E1B,[0x1E1A]);
   (0x1E1D,[0x1E1C]); (0x1E1F,[0x1E1E]); (0x1E21,[0x1E20]); (0x1E23,[0x1E22]);
   (0x1E25,[0x1E24]); (0x1E27,[0x1E26]); (0x1E29,[0x1E28]); (0x1E2B,[0x1E2A]);
   (0x1E2D,[0x1E2C]); (0x1E2F,[0x1E2E]); (0x1E31,[0x1E30]); (0x1E33,[0x1E32]);
   (0x1E35,[0x1E34]); (0x1E37,[0x1E36]); (0x1E39,[0x1E38]); (0x1E3B,[0x1E3A]);
   (0x1E3D,[0x1E3C]); (0x1E3F,[0x1E3E]); (0x1E41,[0x1E40]); (0x1E43,[0x1E42]);
   (0x1E45,[0x1E44]); (0x1E47,[0x1E46]); (0x1E49,[0x1E48]); (0x1E4B,[0x1E4A]);
   (0x1E4D,[0x1E4C]); (0x1E4F,[0x1E4E]); (0x1E51,[0x1E50]); (0x1E53,[0x1E52]);
   (0x1E55,[0x1E54]); (0x1E57,[0x1E56]); (0x1E59,[0x1E58]); (0x1E5B,[0x1E5A]);
   (0x1E5D,[0x1E5C]); (0x1E5F,[0x1E5E]); (0x1E61,[0x1E60]); (0x1E63,[0x1E62]);
   (0x1E65,[0x1E64]); (0x1E67,[0x1E66]); (0x1E69,[0x1E68]); (0x1E6B,[0x1E6A]);
   (0x1E6D,[0x1E6C]); (0x1E6F,[0x1E6E]); (0x1E71,[0x1E70]); (0x1E73,[0x1E72]);
   (0x1E75,[0x1E74]); (0x1E77,[0x1E76]); (0x1E79,[0x1E78]); (0x1E7B,[0x1E7A]);
   (0x1E7D,[0x1E7C]); (0x1E7F,[0x1E7E]); (0x1E81,[0x1E80]); (0x1E83,[0x1E82]);
   (0x1E85,[0x1E84]); (0x1E87,[0x1E86]); (0x1E89,[0x1E88]); (0x1E8B,[0x1E8A]);
   (0x1E8D,[0x1E8C]); (0x1E8F,[0x1E8E]); (0x1E91,[0x1E90]); (0x1E93,[0x1E92]);
   (0x1E95,[0x1E94]); (0x1E96,[0x48;0x331]); (0x1E97,[0x54;0x308]);
   (0x1E98,[0x57;0x30A]); (0x1E99,[0x59;0x30A]); (0x1E9A,[0x41;0x2BE]);
   (0x1E9B,[0x1E60]); (0x1EA1,[0x1EA0]); (0x1EA3,[0x1EA2]); (0x1EA5,[0x1EA4]);
   (0x1EA7,[0x1EA6]); (0x1EA9,[0x1EA8]); (0x1EAB,[0x1EAA]); (0x1EAD,[0x1EAC]);
   (0x1EAF,[0x1EAE]); (0x1EB1,[0x1EB0]); (0x1EB3,[0x1EB2]); (0x1EB5,[0x1EB4]);
   (0x1EB7,[0x1EB6]); (0x1EB9,[0x1EB8]); (0x1EBB,[0x1EBA]); (0x1EBD,[0x1EBC]);
   (0x1EBF,[0x1EBE]); (0x1EC1,[0x1EC0]); (0x1EC3,[0x1EC2]); (0x1EC5,[0x1EC4]);
   (0x1EC7,[0x1EC6]); (0x1EC9,[0x1EC8]); (0x1ECB,[0x1ECA]); (0x1ECD,[0x1ECC]);
   (0x1ECF,[0x1ECE]); (0x1ED1,[0x1ED0]); (0x1ED3,[0x1ED2]); (0x1ED5,[0x1ED4]);
   (0x1ED7,[0x1ED6]); (0x1ED9,[0x1ED8]); (0x1EDB,[0x1EDA]); (0x1EDD,[0x1EDC]);
   (0x1EDF,[0x1EDE]); (0x1EE1,[0x1EE0]); (0x1EE3,[0x1EE2]); (0x1EE5,[0x1EE4]);
   (0x1EE7,[0x1EE6]); (0x1EE9,[0x1EE8]); (0x1EEB,[0x1EEA]); (0x1EED,[0x1EEC]);
   (0x1EEF,[0x1EEE]); (0x1EF1,[0x1EF0]); (0x1EF3,[0x1EF2]); (0x1EF5,[0x1EF4]);
   (0x1EF7,[0x1EF6]); (0x1EF9,[0x1EF8]); (0x1EFB,[0x1EFA]); (0x1EFD,[0x1EFC]);
   (0x1EFF,[0x1EFE]); (0x1F00,[0x1F08]); (0x1F01,[0x1F09]); (0x1F02,[0x1F0A]);
   (0x1F03,[0x1F0B]); (0x1F04,[0x1F0C]); (0x1F05,[0x1F0D]); (0x1F06,[0x1F0E]);
   (0x1F07,[0x1F0F]); (0x1F10,[0x1F18]); (0x1F11,[0x1F19]); (0x1F12,[0x1F1A]);
   (0x1F13,[0x1F1B]); (0x1F14,[0x1F1C]); (0x1F15,[0x1F1D]); (0x1F20,[0x1F28]);
   (0x1F21,[0x1F29]); (0x1F22,[0x1F2A]); (0x1F23,[0x1F2B]); (0x1F24,[0x1F2C]);
   (0x1F25,[0x1F2D]); (0x1F26,[0x1F2E]); (0x1F27,[0x1F2F]); (0x1F30,[0x1F38]);
   (0x1F31,[0x1F39]); (0x1F32,[0x1F3A]); (0x1F33,[0x1F3B]); (0x1F34,[0x1F3C]);
   (0x1F35,[0x1F3D]); (0x1F36,[0x1F3E]); (0x1F37,[0x1F3F]); (0x1F40,[0x1F48]);
   (0x1F41,[0x1F49]); (0x1F42,[0x1F4A]); (0x1F43,[0x1F4B]); (0x1F44,[0x1F4C]);
   (0x1F45,[0x1F4D]); (0x1F50,[0x3A5;0x313]); (0x1F51,[0x1F59]);
   (0x1F52,[0x3A5;0x313;0x300]); (0x1F53,[0x1F5B]);
   (0x1F54,[0x3A5;0x313;0x301]); (0x1F55,[0x1F5D]);
   (0x1F56,[0x3A5;0x313;0x342]); (0x1F57,[0x1F5F]); (0x1F60,[0x1F68]);
   (0x1F61,[0x1F69]); (0x1F62,[0x1F6A]); (0x1F63,[0x1F6B]); (0x1F64,[0x1F6C]);
   (0x1F65,[0x1F6D]); (0x1F66,[0x1F6E]); (0x1F67,[0x1F6F]); (0x1F70,[0x1FBA]);
   (0x1F71,[0x1FBB]); (0x1F72,[0x1FC8]); (0x1F73,[0x1FC9]); (0x1F74,[0x1FCA]);
   (0x1F75,[0x1FCB]); (0x1F76,[0x1FDA]); (0x1F77,[0x1FDB]); (0x1F78,[0x1FF8]);
   (0x1F79,[0x1FF9]); (0x1F7A,[0x1FEA]); (0x1F7B,[0x1FEB]); (0x1F7C,[0x1FFA]);
   (0x1F7D,[0x1FFB]); (0x1F80,[0x1F08;0x399]); (0x1F81,[0x1F09;0x399]);
   (0x1F82,[0x1F0A;0x399]); (0x1F83,[0x1F0B;0x399]); (0x1F84,[0x1F0C;0x399]);
   (0x1F85,[0x1F0D;0x399]); (0x1F86,[0x1F0E;0x399]); (0x1F87,[0x1F0F;0x399]);
   (0x1F88,[0x1F08;0x399]); (0x1F89,[0x1F09;0x399]); (0x1F8A,[0x1F0A;0x399]);
   (0x1F8B,[0x1F0B;0x399]); (0x1F8C,[0x1F0C;0x399]); (0x1F8D,[0x1F0D;0x399]);
   (0x1F8E,[0x1F0E;0x399]); (0x1F8F,[0x1F0F;0x399]); (0x1F90,[0x1F28;0x399]);
   (0x1F91,[0x1F29;0x399]); (0x1F92,[0x1F2A;0x399]); (0x1F93,[0x1F2B;0x399]);
   (0x1F94,[0x1F2C;0x399]); (0x1F95,[0x1F2D;0x399]); (0x1F96,[0x1F2E;0x399]);
   (0x1F97,[0x1F2F;0x399]); (0x1F98,[0x1F28;0x399]); (0x1F99,[0x1F29;0x399]);
   (0x1F9A,[0x1F2A;0x399]); (0x1F9B,[0x1F2B;0x399]); (0x1F9C,[0x1F2C;0x399]);
   (0x1F9D,[0x1F2D;0x399]); (0x1F9E,[0x1F2E;0x399]); (0x1F9F,[0x1F2F;0x399]);
   (0x1FA0,[0x1F68;0x399]); (0x1FA1,[0x1F69;0x399]); (0x1FA2,[0x1F6A;0x399]);
   (0x1FA3,[0x1F6B;0x399]); (0x1FA4,[0x1F6C;0x399]); (0x1FA5,[0x1F6D;0x399]);
   (0x1FA6,[0x1F6E;0x399]); (0x1FA7,[0x1F6F;0x399]); (0x1FA8,[0x1F68;0x399]);
   (0x1FA9,[0x1F69;0x399]); (0x1FAA,[0x1F6A;0x399]); (0x1FAB,[0x1F6B;0x399]);
   (0x1FAC,[0x1F6C;0x399]); (0x1FAD,[0x1F6D;0x399]); (0x1FAE,[0x1F6E;0x399]);
   (0x1FAF,[0x1F6F;0x399]); (0x1FB0,[0x1FB8]); (0x1FB1,[0x1FB9]);
   (0x1FB2,[0x1FBA;0x399]); (0x1FB3,[0x391;0x399]); (0x1FB4,[0x386;0x399]);
   (0x1FB6,[0x391;0x342]); (0x1FB7,[0x391;0x342;0x399]);
   (0x1FBC,[0x391;0x399]); (0x1FBE,[0x399]); (0x1FC2,[0x1FCA;0x399]);
   (0x1FC3,[0x397;0x399]); (0x1FC4,[0x389;0x399]); (0x1FC6,[0x397;0x342]);
   (0x1FC7,[0x397;0x342;0x399]); (0x1FCC,[0x397;0x399]); (0x1FD0,[0x1FD8]);
   (0x1FD1,[0x1FD9]); (0x1FD2,[0x399;0x308;0x300]);
   (0x1FD3,[0x399;0x308;0x301]); (0x1FD6,[0x399;0x342]);
   (0x1FD7,[0x399;0x308;0x342]); (0x1FE0,[0x1FE8]); (0x1FE1,[0x1FE9]);
   (0x1FE2,[0x3A5;0x308;0x300]); (0x1FE3,[0x3A5;0x308;0x301]);
   (0x1FE4,[0x3A1;0x313]); (0x1FE5,[0x1FEC]); (0x1FE6,[0x3A5;0x342]);
   (0x1FE7,[0x3A5;0x308;0x342]); (0x1FF2,[0x1FFA;0x399]);
   (0x1FF3,[0x3A9;0x399]); (0x1FF4,[0x38F;0x399]); (0x1FF6,[0x3A9;0x342]);
   (0x1FF7,[0x3A9;0x342;0x399]); (0x1FFC,[0x3A9;0x399]); (0x214E,[0x2132]);
   (0x2170,[0x2160]); (0x2171,[0x2161]); (0x2172,[0x2162]); (0x2173,[0x2163]);
   (0x2174,[0x2164]); (0x2175,[0x2165]); (0x2176,[0x2166]); (0x2177,[0x2167]);
   (0x2178,[0x2168]); (0x2179,[0x2169]); (0x217A,[0x216A]); (0x217B,[0x216B]);
   (0x217C,[0x216C]); (0x217D,[0x216D]); (0x217E,[0x216E]); (0x217F,[0x216F]);
   (0x2184,[0x2183]); (0x24D0,[0x24B6]); (0x24D1,[0x24B7]); (0x24D2,[0x24B8]);
   (0x24D3,[0x24B9]); (0x24D4,[0x24BA]); (0x24D5,[0x24BB]); (0x24D6,[0x24BC]);
   (0x24D7,[0x24BD]); (0x24D8,[0x24BE]); (0x24D9,[0x24BF]); (0x24DA,[0x24C0]);
   (0x24DB,[0x24C1]); (0x24DC,[0x24C2]); (0x24DD,[0x24C3]); (0x24DE,[0x24C4]);
   (0x24DF,[0x24C5]); (0x24E0,[0x24C6]); (0x24E1,[0x24C7]); (0x24E2,[0x24C8]);
   (0x24E3,[0x24C9]); (0x24E4,[0x24CA]); (0x24E5,[0x24CB]); (0x24E6,[0x24CC]);
   (0x24E7,[0x24CD]); (0x24E8,[0x24CE]); (0x24E9,[0x24CF]); (0x2C30,[0x2C00]);
   (0x2C31,[0x2C01]); (0x2C32,[0x2C02]); (0x2C33,[0x2C03]); (0x2C34,[0x2C04]);
   (0x2C35,[0x2C05]); (0x2C36,[0x2C06]); (0x2C37,[0x2C07]); (0x2C38,[0x2C08]);
   (0x2C39,[0x2C09]); (0x2C3A,[0x2C0A]); (0x2C3B,[0x2C0B]); (0x2C3C,[0x2C0C]);
   (0x2C3D,[0x2C0D]); (0x2C3E,[0x2C0E]); (0x2C3F,[0x2C0F]); (0x2C40,[0x2C10]);
   (0x2C41,[0x2C11]); (0x2C42,[0x2C12]); (0x2C43,[0x2C13]); (0x2C44,[0x2C14]);
   (0x2C45,[0x2C15]); (0x2C46,[0x2C16]); (0x2C47,[0x2C17]); (0x2C48,[0x2C18]);
   (0x2C49,[0x2C19]); (0x2C4A,[0x2C1A]); (0x2C4B,[0x2C1B]); (0x2C4C,[0x2C1C]);
   (0x2C4D,[0x2C1D]); (0x2C4E,[0x2C1E]); (0x2C4F,[0x2C1F]); (0x2C50,[0x2C20]);
   (0x2C51,[0x2C21]); (0x2C52,[0x2C22]); (0x2C53,[0x2C23]); (0x2C54,[0x2C24]);
   (0x2C55,[0x2C25]); (0x2C56,[0x2C26]); (0x2C57,[0x2C27]); (0x2C58,[0x2C28]);
   (0x2C59,[0x2C29]); (0x2C5A,[0x2C2A]); (0x2C5B,[0x2C2B]); (0x2C5C,[0x2C2C]);
   (0x2C5D,[0x2C2D]); (0x2C5E,[0x2C2E]); (0x2C5F,[0x2C2F]); (0x2C61,[0x2C60]);
   (0x2C65,[0x23A]); (0x2C66,[0x23E]); (0x2C68,[0x2C67]); (0x2C6A,[0x2C69]);
   (0x2C6C,[0x2C6B]); (0x2C73,[0x2C72]); (0x2C76,[0x2C75]); (0x2C81,[0x2C80]);
   (0x2C83,[0x2C82]); (0x2C85,[0x2C84]); (0x2C87,[0x2C86]); (0x2C89,[0x2C88]);
   (0x2C8B,[0x2C8A]); (0x2C8D,[0x2C8C]); (0x2C8F,[0x2C8E]); (0x2C91,[0x2C90]);
   (0x2C93,[0x2C92]); (0x2C95,[0x2C94]); (0x2C97,[0x2C96]); (0x2C99,[0x2C98]);
   (0x2C9B,[0x2C9A]); (0x2C9D,[0x2C9C]); (0x2C9F,[0x2C9E]); (0x2CA1,[0x2CA0]);
   (0x2CA3,[0x2CA2]); (0x2CA5,[0x2CA4]); (0x2CA7,[0x2CA6]); (0x2CA9,[0x2CA8]);
   (0x2CAB,[0x2CAA]); (0x2CAD,[0x2CAC]); (0x2CAF,[0x2CAE]); (0x2CB1,[0x2CB0]);
   (0x2CB3,[0x2CB2]); (0x2CB5,[0x2CB4]); (0x2CB7,[0x2CB6]); (0x2CB9,[0x2CB8]);
   (0x2CBB,[0x2CBA]); (0x2CBD,[0x2CBC]); (0x2CBF,[0x2CBE]); (0x2CC1,[0x2CC0]);
   (0x2CC3,[0x2CC2]); (0x2CC5,[0x2CC4]); (0x2CC7,[0x2CC6]); (0x2CC9,[0x2CC8]);
   (0x2CCB,[0x2CCA]); (0x2CCD,[0x2CCC]); (0x2CCF,[0x2CCE]); (0x2CD1,[0x2CD0]);
   (0x2CD3,[0x2CD2]); (0x2CD5,[0x2CD4]); (0x2CD7,[0x2CD6]); (0x2CD9,[0x2CD8]);
   (0x2CDB,[0x2CDA]); (0x2CDD,[0x2CDC]); (0x2CDF,[0x2CDE]); (0x2CE1,[0x2CE0]);
   (0x2CE3,[0x2CE2]); (0x2CEC,[0x2CEB]); (0x2CEE,[0x2CED]); (0x2CF3,[0x2CF2]);
   (0x2D00,[0x10A0]); (0x2D01,[0x10A1]); (0x2D02,[0x10A2]); (0x2D03,[0x10A3]);
   (0x2D04,[0x10A4]); (0x2D05,[0x10A5]); (0x2D06,[0x10A6]); (0x2D07,[0x10A7]);
   (0x2D08,[0x10A8]); (0x2D09,[0x10A9]); (0x2D0A,[0x10AA]); (0x2D0B,[0x10AB]);
   (0x2D0C,[0x10AC]); (0x2D0D,[0x10AD]); (0x2D0E,[0x10AE]); (0x2D0F,[0x10AF]);
   (0x2D10,[0x10B0]); (0x2D11,[0x10B1]); (0x2D12,[0x10B2]); (0x2D13,[0x10B3]);
   (0x2D14,[0x10B4]); (0x2D15,[0x10B5]); (0x2D16,[0x10B6]); (0x2D17,[0x10B7]);
   (0x2D18,[0x10B8]); (0x2D19,[0x10B9]); (0x2D1A,[0x10BA]); (0x2D1B,[0x10BB]);
   (0x2D1C,[0x10BC]); (0x2D1D,[0x10BD]); (0x2D1E,[0x10BE]); (0x2D1F,[0x10BF]);
   (0x2D20,[0x10C0]); (0x2D21,[0x10C1]); (0x2D22,[0x10C2]); (0x2D23,[0x10C3]);
   (0x2D24,[0x10C4]); (0x2D25,[0x10C5]); (0x2D27,[0x10C7]); (0x2D2D,[0x10CD]);
   (0xA641,[0xA640]); (0xA643,[0xA642]); (0xA645,[0xA644]); (0xA647,[0xA646]);
   (0xA649,[0xA648]); (0xA64B,[0xA64A]); (0xA64D,[0xA64C]); (0xA64F,[0xA64E]);
   (0xA651,[0xA650]); (0xA653,[0xA652]); (0xA655,[0xA654]); (0xA657,[0xA656]);
   (0xA659,[0xA658]); (0xA65B,[0xA65A]); (0xA65D,[0xA65C]); (0xA65F,[0xA65E]);
   (0xA661,[0xA660]); (0xA663,[0xA662]); (0xA665,[0xA664]); (0xA667,[0xA666]);
   (0xA669,[0xA668]); (0xA66B,[0xA66A]); (0xA66D,[0xA66C]); (0xA681,[0xA680]);
   (0xA683,[0xA682]); (0xA685,[0xA684]); (0xA687,[0xA686]); (0xA689,[0xA688]);
   (0xA68B,[0xA68A]); (0xA68D,[0xA68C]); (0xA68F,[0xA68E]); (0xA691,[0xA690]);
   (0xA693,[0xA692]); (0xA695,[0xA694]); (0xA697,[0xA696]); (0xA699,[0xA698]);
   (0xA69B,[0xA69A]); (0xA723,[0xA722]); (0xA725,[0xA724]); (0xA727,[0xA726]);
   (0xA729,[0xA728]); (0xA72B,[0xA72A]); (0xA72D,[0xA72C]); (0xA72F,[0xA72E]);
   (0xA733,[0xA732]); (0xA735,[0xA734]); (0xA737,[0xA736]); (0xA739,[0xA738]);
   (0xA73B,[0xA73A]); (0xA73D,[0xA73C]); (0xA73F,[0xA73E]); (0xA741,[0xA740]);
   (0xA743,[0xA742]); (0xA745,[0xA744]); (0xA747,[0xA746]); (0xA749,[0xA748]);
   (0xA74B,[0xA74A]); (0xA74D,[0xA74C]); (0xA74F,[0xA74E]); (0xA751,[0xA750]);
   (0xA753,[0xA752]); (0xA755,[0xA754]); (0xA757,[0xA756]); (0xA759,[0xA758]);
   (0xA75B,[0xA75A]); (0xA75D,[0xA75C]); (0xA75F,[0xA75E]); (0xA761,[0xA760]);
   (0xA763,[0xA762]); (0xA765,[0xA764]); (0xA767,[0xA766]); (0xA769,[0xA768]);
   (0xA76B,[0xA76A]); (0xA76D,[0xA76C]); (0xA76F,[0xA76E]); (0xA77A,[0xA779]);
   (0xA77C,[0xA77B]); (0xA77F,[0xA77E]); (0xA781,[0xA780]); (0xA783,[0xA782]);
   (0xA785,[0xA784]); (0xA787,[0xA786]); (0xA78C,[0xA78B]); (0xA791,[0xA790]);
   (0xA793,[0xA792]); (0xA794,[0xA7C4]); (0xA797,[0xA796]); (0xA799,[0xA798]);
   (0xA79B,[0xA79A]); (0xA79D,[0xA79C]); (0xA79F,[0xA79E]); (0xA7A1,[0xA7A0]);
   (0xA7A3,[0xA7A2]); (0xA7A5,[0xA7A4]); (0xA7A7,[0xA7A6]); (0xA7A9,[0xA7A8]);
   (0xA7B5,[0xA7B4]); (0xA7B7,[0xA7B6]); (0xA7B9,[0xA7B8]); (0xA7BB,[0xA7BA]);
   (0xA7BD,[0xA7BC]); (0xA7BF,[0xA7BE]); (0xA7C1,[0xA7C0]); (0xA7C3,[0xA7C2]);
   (0xA7C8,[0xA7C7]); (0xA7CA,[0xA7C9]); (0xA7D1,[0xA7D0]); (0xA7D7,[0xA7D6]);
   (0xA7D9,[0xA7D8]); (0xA7F6,[0xA7F5]); (0xAB53,[0xA7B3]); (0xAB70,[0x13A0]);
   (0xAB71,[0x13A1]); (0xAB72,[0x13A2]); (0xAB73,[0x13A3]); (0xAB74,[0x13A4]);
   (0xAB75,[0x13A5]); (0xAB76,[0x13A6]); (0xAB77,[0x13A7]); (0xAB78,[0x13A8]);
   (0xAB79,[0x13A9]); (0xAB7A,[0x13AA]); (0xAB7B,[0x13AB]); (0xAB7C,[0x13AC]);
   (0xAB7D,[0x13AD]); (0xAB7E,[0x13AE]); (0xAB7F,[0x13AF]); (0xAB80,[0x13B0]);
   (0xAB81,[0x13B1]); (0xAB82,[0x13B2]); (0xAB83,[0x13B3]); (0xAB84,[0x13B4]);
   (0xAB85,[0x13B5]); (0xAB86,[0x13B6]); (0xAB87,[0x13B7]); (0xAB88,[0x13B8]);
   (0xAB89,[0x13B9]); (0xAB8A,[0x13BA]); (0xAB8B,[0x13BB]); (0xAB8C,[0x13BC]);
   (0xAB8D,[0x13BD]); (0xAB8E,[0x13BE]); (0xAB8F,[0x13BF]); (0xAB90,[0x13C0]);
   (0xAB91,[0x13C1]); (0xAB92,[0x13C2]); (0xAB93,[0x13C3]); (0xAB94,[0x13C4]);
   (0xAB95,[0x13C5]); (0xAB96,[0x13C6]); (0xAB97,[0x13C7]); (0xAB98,[0x13C8]);
   (0xAB99,[0x13C9]); (0xAB9A,[0x13CA]); (0xAB9B,[0x13CB]); (0xAB9C,[0x13CC]);
   (0xAB9D,[0x13CD]); (0xAB9E,[0x13CE]); (0xAB9F,[0x13CF]); (0xABA0,[0x13D0]);
   (0xABA1,[0x13D1]); (0xABA2,[0x13D2]); (0xABA3,[0x13D3]); (0xABA4,[0x13D4]);
   (0xABA5,[0x13D5]); (0xABA6,[0x13D6]); (0xABA7,[0x13D7]); (0xABA8,[0x13D8]);
   (0xABA9,[0x13D9]); (0xABAA,[0x13DA]); (0xABAB,[0x13DB]); (0xABAC,[0x13DC]);
   (0xABAD,[0x13DD]); (0xABAE,[0x13DE]); (0xABAF,[0x13DF]); (0xABB0,[0x13E0]);
   (0xABB1,[0x13E1]); (0xABB2,[0x13E2]); (0xABB3,[0x13E3]); (0xABB4,[0x13E4]);
   (0xABB5,[0x13E5]); (0xABB6,[0x13E6]); (0xABB7,[0x13E7]); (0xABB8,[0x13E8]);
   (0xABB9,[0x13E9]); (0xABBA,[0x13EA]); (0xABBB,[0x13EB]); (0xABBC,[0x13EC]);
   (0xABBD,[0x13ED]); (0xABBE,[0x13EE]); (0xABBF,[0x13EF]);
   (0xFB00,[0x46;0x46]); (0xFB01,[0x46;0x49]); (0xFB02,[0x46;0x4C]);
   (0xFB03,[0x46;0x46;0x49]); (0xFB04,[0x46;0x46;0x4C]); (0xFB05,[0x53;0x54]);
   (0xFB06,[0x53;0x54]); (0xFB13,[0x544;0x546]); (0xFB14,[0x544;0x535]);
   (0xFB15,[0x544;0x53B]); (0xFB16,[0x54E;0x546]); (0xFB17,[0x544;0x53D]);
   (0xFF41,[0xFF21]); (0xFF42,[0xFF22]); (0xFF43,[0xFF23]); (0xFF44,[0xFF24]);
   (0xFF45,[0xFF25]); (0xFF46,[0xFF26]); (0xFF47,[0xFF27]); (0xFF48,[0xFF28]);
   (0xFF49,[0xFF29]); (0xFF4A,[0xFF2A]); (0xFF4B,[0xFF2B]); (0xFF4C,[0xFF2C]);
   (0xFF4D,[0xFF2D]); (0xFF4E,[0xFF2E]); (0xFF4F,[0xFF2F]); (0xFF50,[0xFF30]);
   (0xFF51,[0xFF31]); (0xFF52,[0xFF32]); (0xFF53,[0xFF33]); (0xFF54,[0xFF34]);
   (0xFF55,[0xFF35]); (0xFF56,[0xFF36]); (0xFF57,[0xFF37]); (0xFF58,[0xFF38]);
   (0xFF59,[0xFF39]); (0xFF5A,[0xFF3A]); (0x10428,[0x10400]);
   (0x10429,[0x10401]); (0x1042A,[0x10402]); (0x1042B,[0x10403]);
   (0x1042C,[0x10404]); (0x1042D,[0x10405]); (0x1042E,[0x10406]);
   (0x1042F,[0x10407]); (0x10430,[0x10408]); (0x10431,[0x10409]);
   (0x10432,[0x1040A]); (0x10433,[0x1040B]); (0x10434,[0x1040C]);
   (0x10435,[0x1040D]); (0x10436,[0x1040E]); (0x10437,[0x1040F]);
   (0x10438,[0x10410]); (0x10439,[0x10411]); (0x1043A,[0x10412]);
   (0x1043B,[0x10413]); (0x1043C,[0x10414]); (0x1043D,[0x10415]);
   (0x1043E,[0x10416]); (0x1043F,[0x10417]); (0x10440,[0x10418]);
   (0x10441,[0x10419]); (0x10442,[0x1041A]); (0x10443,[0x1041B]);
   (0x10444,[0x1041C]); (0x10445,[0x1041D]); (0x10446,[0x1041E]);
   (0x10447,[0x1041F]); (0x10448,[0x10420]); (0x10449,[0x10421]);
   (0x1044A,[0x10422]); (0x1044B,[0x10423]); (0x1044C,[0x10424]);
   (0x1044D,[0x10425]); (0x1044E,[0x10426]); (0x1044F,[0x10427]);
   (0x104D8,[0x104B0]); (0x104D9,[0x104B1]); (0x104DA,[0x104B2]);
   (0x104DB,[0x104B3]); (0x104DC,[0x104B4]); (0x104DD,[0x104B5]);
   (0x104DE,[0x104B6]); (0x104DF,[0x104B7]); (0x104E0,[0x104B8]);
   (0x104E1,[0x104B9]); (0x104E2,[0x104BA]); (0x104E3,[0x104BB]);
   (0x104E4,[0x104BC]); (0x104E5,[0x104BD]); (0x104E6,[0x104BE]);
   (0x104E7,[0x104BF]); (0x104E8,[0x104C0]); (0x104E9,[0x104C1]);
   (0x104EA,[0x104C2]); (0x104EB,[0x104C3]); (0x104EC,[0x104C4]);
   (0x104ED,[0x104C5]); (0x104EE,[0x104C6]); (0x104EF,[0x104C7]);
   (0x104F0,[0x104C8]); (0x104F1,[0x104C9]); (0x104F2,[0x104CA]);
   (0x104F3,[0x104CB]); (0x104F4,[0x104CC]); (0x104F5,[0x104CD]);
   (0x104F6,[0x104CE]); (0x104F7,[0x104CF]); (0x104F8,[0x104D0]);
   (0x104F9,[0x104D1]); (0x104FA,[0x104D2]); (0x104FB,[0x104D3]);
   (0x10597,[0x10570]); (0x10598,[0x10571]); (0x10599,[0x10572]);
   (0x1059A,[0x10573]); (0x1059B,[0x10574]); (0x1059C,[0x10575]);
   (0x1059D,[0x10576]); (0x1059E,[0x10577]); (0x1059F,[0x10578]);
   (0x105A0,[0x10579]); (0x105A1,[0x1057A]); (0x105A3,[0x1057C]);
   (0x105A4,[0x1057D]); (0x105A5,[0x1057E]); (0x105A6,[0x1057F]);
   (0x105A7,[0x10580]); (0x105A8,[0x10581]); (0x105A9,[0x10582]);
   (0x105AA,[0x10583]); (0x105AB,[0x10584]); (0x105AC,[0x10585]);
   (0x105AD,[0x10586]); (0x105AE,[0x10587]); (0x105AF,[0x10588]);
   (0x105B0,[0x10589]); (0x105B1,[0x1058A]); (0x105B3,[0x1058C]);
   (0x105B4,[0x1058D]); (0x105B5,[0x1058E]); (0x105B6,[0x1058F]);
   (0x105B7,[0x10590]); (0x105B8,[0x10591]); (0x105B9,[0x10592]);
   (0x105BB,[0x10594]); (0x105BC,[0x10595]); (0x10CC0,[0x10C80]);
   (0x10CC1,[0x10C81]); (0x10CC2,[0x10C82]); (0x10CC3,[0x10C83]);
   (0x10CC4,[0x10C84]); (0x10CC5,[0x10C85]); (0x10CC6,[0x10C86]);
   (0x10CC7,[0x10C87]); (0x10CC8,[0x10C88]); (0x10CC9,[0x10C89]);
   (0x10CCA,[0x10C8A]); (0x10CCB,[0x10C8B]); (0x10CCC,[0x10C8C]);
   (0x10CCD,[0x10C8D]); (0x10CCE,[0x10C8E]); (0x10CCF,[0x10C8F]);
   (0x10CD0,[0x10C90]); (0x10CD1,[0x10C91]); (0x10CD2,[0x10C92]);
   (0x10CD3,[0x10C93]); (0x10CD4,[0x10C94]); (0x10CD5,[0x10C95]);
   (0x10CD6,[0x10C96]); (0x10CD7,[0x10C97]); (0x10CD8,[0x10C98]);
   (0x10CD9,[0x10C99]); (0x10CDA,[0x10C9A]); (0x10CDB,[0x10C9B]);
   (0x10CDC,[0x10C9C]); (0x10CDD,[0x10C9D]); (0x10CDE,[0x10C9E]);
   (0x10CDF,[0x10C9F]); (0x10CE0,[0x10CA0]); (0x10CE1,[0x10CA1]);
   (0x10CE2,[0x10CA2]); (0x10CE3,[0x10CA3]); (0x10CE4,[0x10CA4]);
   (0x10CE5,[0x10CA5]); (0x10CE6,[0x10CA6]); (0x10CE7,[0x10CA7]);
   (0x10CE8,[0x10CA8]); (0x10CE9,[0x10CA9]); (0x10CEA,[0x10CAA]);
   (0x10CEB,[0x10CAB]); (0x10CEC,[0x10CAC]); (0x10CED,[0x10CAD]);
   (0x10CEE,[0x10CAE]); (0x10CEF,[0x10CAF]); (0x10CF0,[0x10CB0]);
   (0x10CF1,[0x10CB1]); (0x10CF2,[0x10CB2]); (0x118C0,[0x118A0]);
   (0x118C1,[0x118A1]); (0x118C2,[0x118A2]); (0x118C3,[0x118A3]);
   (0x118C4,[0x118A4]); (0x118C5,[0x118A5]); (0x118C6,[0x118A6]);
   (0x118C7,[0x118A7]); (0x118C8,[0x118A8]); (0x118C9,[0x118A9]);
   (0x118CA,[0x118AA]); (0x118CB,[0x118AB]); (0x118CC,[0x118AC]);
   (0x118CD,[0x118AD]); (0x118CE,[0x118AE]); (0x118CF,[0x118AF]);
   (0x118D0,[0x118B0]); (0x118D1,[0x118B1]); (0x118D2,[0x118B2]);
   (0x118D3,[0x118B3]); (0x118D4,[0x118B4]); (0x118D5,[0x118B5]);
   (0x118D6,[0x118B6]); (0x118D7,[0x118B7]); (0x118D8,[0x118B8]);
   (0x118D9,[0x118B9]); (0x118DA,[0x118BA]); (0x118DB,[0x118BB]);
   (0x118DC,[0x118BC]); (0x118DD,[0x118BD]); (0x118DE,[0x118BE]);
   (0x118DF,[0x118BF]); (0x16E60,[0x16E40]); (0x16E61,[0x16E41]);
   (0x16E62,[0x16E42]); (0x16E63,[0x16E43]); (0x16E64,[0x16E44]);
   (0x16E65,[0x16E45]); (0x16E66,[0x16E46]); (0x16E67,[0x16E47]);
   (0x16E68,[0x16E48]); (0x16E69,[0x16E49]); (0x16E6A,[0x16E4A]);
   (0x16E6B,[0x16E4B]); (0x16E6C,[0x16E4C]); (0x16E6D,[0x16E4D]);
   (0x16E6E,[0x16E4E]); (0x16E6F,[0x16E4F]); (0x16E70,[0x16E50]);
   (0x16E71,[0x16E51]); (0x16E72,[0x16E52]); (0x16E73,[0x16E53]);
   (0x16E74,[0x16E54]); (0x16E75,[0x16E55]); (0x16E76,[0x16E56]);
   (0x16E77,[0x16E57]); (0x16E78,[0x16E58]); (0x16E79,[0x16E59]);
   (0x16E7A,[0x16E5A]); (0x16E7B,[0x16E5B]); (0x16E7C,[0x16E5C]);
   (0x16E7D,[0x16E5D]); (0x16E7E,[0x16E5E]); (0x16E7F,[0x16E5F]);
   (0x1E922,[0x1E900]); (0x1E923,[0x1E901]); (0x1E924,[0x1E902]);
   (0x1E925,[0x1E903]); (0x1E926,[0x1E904]); (0x1E927,[0x1E905]);
   (0x1E928,[0x1E906]); (0x1E929,[0x1E907]); (0x1E92A,[0x1E908]);
   (0x1E92B,[0x1E909]); (0x1E92C,[0x1E90A]); (0x1E92D,[0x1E90B]);
   (0x1E92E,[0x1E90C]); (0x1E92F,[0x1E90D]); (0x1E930,[0x1E90E]);
   (0x1E931,[0x1E90F]); (0x1E932,[0x1E910]); (0x1E933,[0x1E911]);
   (0x1E934,[0x1E912]); (0x1E935,[0x1E913]); (0x1E936,[0x1E914]);
   (0x1E937,[0x1E915]); (0x1E938,[0x1E916]); (0x1E939,[0x1E917]);
   (0x1E93A,[0x1E918]); (0x1E93B,[0x1E919]); (0x1E93C,[0x1E91A]);
   (0x1E93D,[0x1E91B]); (0x1E93E,[0x1E91C]); (0x1E93F,[0x1E91D]);
   (0x1E940,[0x1E91E]); (0x1E941,[0x1E91F]); (0x1E942,[0x1E920]);
   (0x1E943,[0x1E921])].

End UCD.

(* ===================================================================== *)
(** ** The [str] methods the script calls *)

Module PyStr.

(** The character a one-character literal holds. *)
Definition char (s : str) : Z :=
  match s with
  | c :: _ => c
  | [] => -1
  end.

Definition in_range (c : Z) (r : Z * Z) : bool :=
  (fst r <=? c) && (c <=? snd r).

(** [str.isspace] on one character. *)
Definition isspace (c : Z) : bool := existsb (in_range c) UCD.SPACE.

(** [str.isalpha] on one character. *)
Definition is_letter (c : Z) : bool := existsb (in_range c) UCD.ALPHA.

(** The zero of the run of decimal digits [c] belongs to. *)
Definition digit_zero (c : Z) : option Z :=
  find (fun z => (z <=? c) && (c <? z + 10)) UCD.DECIMAL.

(** [str.isdecimal] on one character: what [\d] matches. *)
Definition is_digit (c : Z) : bool :=
  match digit_zero c with
  | Some _ => true
  | None => false
  end.

(** The value [int] gives to a decimal digit. *)
Definition dig (c : Z) : Z :=
  match digit_zero c with
  | Some z => c - z
  | None => 0
  end.

Fixpoint assoc (c : Z) (l : list (Z * list Z)) : option (list Z) :=
  match l with
  | [] => None
  | (k, v) :: l' => if c =? k then Some v else assoc c l'
  end.

(** [str.upper] on one character. *)
Definition upper_char (c : Z) : str :=
  match assoc c UCD.UPPER with
  | Some u => u
  | None => [c]
  end.

Fixpoint lstrip (s : str) : str :=
  match s with
  | c :: s' => if isspace c then lstrip s' else s
  | [] => []
  end.

(** [rstrip]: a character is dropped when it is white space and all that
    follows it has been dropped. *)
Fixpoint rstrip (s : str) : str :=
  match s with
  | c :: s' =>
      match rstrip s' with
      | [] => if isspace c then [] else [c]
      | t => c :: t
      end
  | [] => []
  end.

Definition strip (s : str) : str := rstrip (lstrip s).

Fixpoint upper (s : str) : str :=
  match s with
  | c :: s' => upper_char c ++ upper s'
  | [] => []
  end.

Fixpoint all_chars (p : Z -> bool) (s : str) : bool :=
  match s with
  | c :: s' => p c && all_chars p s'
  | [] => true
  end.

(** [str.isalpha]: at least one character and all of them letters. *)
Definition isalpha (s : str) : bool :=
  match s with
  | [] => false
  | _ => all_chars is_letter s
  end.

Definition len (s : str) : Z := Z.of_nat (length s).

(** Truth value of a string: [bool(s)]. *)
Definition truthy (s : str) : bool :=
  match s with
  | [] => false
  | _ => true
  end.

(** [a == b] *)
Fixpoint eqb (a b : str) : bool :=
  match a, b with
  | [], [] => true
  | x :: a', y :: b' => (x =? y) && eqb a' b'
  | _, _ => false
  end.

(** A surrogate code point: no UTF-8 encoder takes it. *)
Definition is_surrogate (c : Z) : bool := (0xD800 <=? c) && (c <=? 0xDFFF).

(** [s.encode("utf-8")] succeeds. *)
Definition utf8_ok (s : str) : bool :=
  all_chars (fun c => negb (is_surrogate c)) s.

(* The character classes are table look-ups: [simpl] and [cbn] leave
   them folded. *)
Arguments isspace : simpl never.
Arguments is_letter : simpl never.
Arguments digit_zero : simpl never.
Arguments is_digit : simpl never.
Arguments dig : simpl never.
Arguments upper_char : simpl never.

End PyStr.

(* ===================================================================== *)
(** ** Validator *)

Definition validate_currency (code field : str) : res str :=
  if negb (PyStr.truthy code) then
    Err (SystemExit (MsgCurrencyRequired field))
  else
    let code := PyStr.upper (PyStr.strip code) in
    if negb (PyStr.len code =? 3) || negb (PyStr.isalpha code) then
      Err (SystemExit (MsgNotThreeLetters field code))
    else Ok code.

(* ===================================================================== *)
(** ** Calendar arithmetic of [datetime] *)

Module Calendar.

Definition MINYEAR : Z := 1.
Definition MAXYEAR : Z := 9999.
(** [date.max.toordinal()] *)
Definition MAXORDINAL : Z := 3652059.

Definition is_leap (year : Z) : bool :=
  (year mod 4 =? 0) && (negb (year mod 100 =? 0) || (year mod 400 =? 0)).

Definition days_before_year (year : Z) : Z :=
  let y := year - 1 in
  y * 365 + y / 4 - y / 100 + y / 400.

Definition DAYS_IN_MONTH (month : Z) : Z :=
  match month with
  | 1 => 31 | 2 => 28 | 3 => 31 | 4 => 30 | 5 => 31 | 6 => 30
  | 7 => 31 | 8 => 31 | 9 => 30 | 10 => 31 | 11 => 30 | 12 => 31
  | _ => -1
  end.

Definition DAYS_BEFORE_MONTH (month : Z) : Z :=
  match month with
  | 1 => 0 | 2 => 31 | 3 => 59 | 4 => 90 | 5 => 120 | 6 => 151
  | 7 => 181 | 8 => 212 | 9 => 243 | 10 => 273 | 11 => 304 | 12 => 334
  | _ => -1
  end.

Definition days_in_month (year month : Z) : Z :=
  if (month =? 2) && is_leap year then 29 else DAYS_IN_MONTH month.

Definition days_before_month (year month : Z) : Z :=
  DAYS_BEFORE_MONTH month + (if (2 <? month) && is_leap year then 1 else 0).

Definition ymd2ord (year month day : Z) : Z :=
  days_before_year year + days_before_month year month + day.

Definition DI400Y : Z := 146097.
Definition DI100Y : Z := 36524.
Definition DI4Y : Z := 1461.

(** Ordinal to (year, month, day). *)
Definition ord2ymd (n : Z) : Z * Z * Z :=
  let n := n - 1 in
  let n400 := n / DI400Y in
  let n := n mod DI400Y in
  let year := n400 * 400 + 1 in
  let n100 := n / DI100Y in
  let n := n mod DI100Y in
  let n4 := n / DI4Y in
  let n := n mod DI4Y in
  let n1 := n / 365 in
  let n := n mod 365 in
  let year := year + n100 * 100 + n4 * 4 + n1 in
  if (n1 =? 4) || (n100 =? 4) then (year - 1, 12, 31)
  else
    let leapyear := (n1 =? 3) && (negb (n4 =? 24) || (n100 =? 3)) in
    let month := Z.shiftr (n + 50) 5 in
    let preceding :=
      DAYS_BEFORE_MONTH month + (if (2 <? month) && leapyear then 1 else 0) in
    if n <? preceding then
      let month := month - 1 in
      let preceding :=
        preceding
        - (DAYS_IN_MONTH month + (if (month =? 2) && leapyear then 1 else 0)) in
      (year, month, n - preceding + 1)
    else (year, month, n - preceding + 1).

End Calendar.

(** A [datetime]: the ordinal of its calendar date and the microseconds
    elapsed since midnight. *)
Record datetime := mk_datetime { ordinal : Z; tod : Z }.

Definition US_PER_DAY : Z := 86400000000.

(** The values the [datetime] type holds. *)
Definition valid_datetime (d : datetime) : Prop :=
  1 <= ordinal d <= Calendar.MAXORDINAL /\ 0 <= tod d < US_PER_DAY.

#[global] Instance datetime_eq_dec : EqDecision datetime.
Proof. solve_decision. Defined.

(** [datetime(year, month, day)]: midnight of that day, [ValueError] when
    the fields are out of range. *)
Definition datetime_ymd (year month day : Z) : res datetime :=
  if negb ((Calendar.MINYEAR <=? year) && (year <=? Calendar.MAXYEAR)) then
    Err ValueError
  else if negb ((1 <=? month) && (month <=? 12)) then Err ValueError
  else if negb ((1 <=? day) && (day <=? Calendar.days_in_month year month))
  then Err ValueError
  else Ok (mk_datetime (Calendar.ymd2ord year month day) 0).

(** [d.date()] *)
Definition date_of (d : datetime) : Z := ordinal d.

(** Comparison of two [datetime]s, field by field. *)
Definition dt_le (a b : datetime) : Prop :=
  ordinal a < ordinal b \/ (ordinal a = ordinal b /\ tod a <= tod b).

Definition dt_lt (a b : datetime) : Prop :=
  ordinal a < ordinal b \/ (ordinal a = ordinal b /\ tod a < tod b).

(** [timedelta]: only [days] is read by the script; the rest of the
    difference is kept in [td_us], 0 <= [td_us] < [US_PER_DAY]. *)
Record timedelta := mk_timedelta { td_days : Z; td_us : Z }.

(** [a - b] for two [datetime]s, normalised as [timedelta] does. *)
Definition dt_sub (a b : datetime) : timedelta :=
  let total := (ordinal a - ordinal b) * US_PER_DAY + (tod a - tod b) in
  mk_timedelta (total / US_PER_DAY) (total mod US_PER_DAY).

(** [timedelta(days=k)] *)
Definition timedelta_of_days (k : Z) : res timedelta :=
  if (-999999999 <=? k) && (k <=? 999999999) then Ok (mk_timedelta k 0)
  else Err OverflowError.

(** [d + td] *)
Definition dt_add (d : datetime) (td : timedelta) : res datetime :=
  let total := tod d + td_us td in
  let o := ordinal d + td_days td + total / US_PER_DAY in
  if (1 <=? o) && (o <=? Calendar.MAXORDINAL)
  then Ok (mk_datetime o (total mod US_PER_DAY))
  else Err OverflowError.

(* ===================================================================== *)
(** ** [datetime.strptime(s, "%Y-%m-%d")] *)

Module Strptime.
Import PyStr.

(** Character class [[lo-hi]]. *)
Definition cls (lo hi : str) (c : Z) : bool :=
  (char lo <=? c) && (c <=? char hi).

Section Regex.
Context {A : Type}.

(** [x|y]: the right branch is tried when the left one, with all that
    follows it, has failed. *)
Definition orelse (x y : option A) : option A :=
  match x with Some _ => x | None => y end.

Definition re_lit (x : str) (k : str -> option A) (s : str) : option A :=
  match s with
  | c :: rest => if c =? char x then k rest else None
  | [] => None
  end.

Definition re_one (p : Z -> bool) (k : Z -> str -> option A) (s : str)
  : option A :=
  match s with
  | a :: rest => if p a then k (dig a) rest else None
  | [] => None
  end.

(** Two characters, read as the integer [int()] makes of them. *)
Definition re_two (p1 p2 : Z -> bool) (k : Z -> str -> option A) (s : str)
  : option A :=
  match s with
  | a :: b :: rest =>
      if p1 a && p2 b
      then k ((if is_digit a then 10 * dig a else 0) + dig b) rest
      else None
  | _ => None
  end.

(** [(?P<Y>\d\d\d\d)] *)
Definition re_Y (k : Z -> str -> option A) (s : str) : option A :=
  match s with
  | a :: b :: c :: d :: rest =>
      if is_digit a && is_digit b && is_digit c && is_digit d
      then k (1000 * dig a + 100 * dig b + 10 * dig c + dig d) rest
      else None
  | _ => None
  end.

(** [(?P<m>1[0-2]|0[1-9]|[1-9])] *)
Definition re_m (k : Z -> str -> option A) (s : str) : option A :=
  orelse (re_two (cls "1" "1") (cls "0" "2") k s)
    (orelse (re_two (cls "0" "0") (cls "1" "9") k s)
       (re_one (cls "1" "9") k s)).

(** [(?P<d>3[0-1]|[1-2]\d|0[1-9]|[1-9]| [1-9])] *)
Definition re_d (k : Z -> str -> option A) (s : str) : option A :=
  orelse (re_two (cls "3" "3") (cls "0" "1") k s)
    (orelse (re_two (cls "1" "2") is_digit k s)
       (orelse (re_two (cls "0" "0") (cls "1" "9") k s)
          (orelse (re_one (cls "1" "9") k s)
             (re_two (cls " " " ") (cls "1" "9") k s)))).
End Regex.

(** [format_regex.match(data_string)]: the groups and what is left of
    the string after the match. *)
Definition regex_match (s : str) : option (Z * Z * Z * str) :=
  re_Y (fun y =>
    re_lit "-" (re_m (fun m =>
      re_lit "-" (re_d (fun d rest => Some (y, m, d, rest)))))) s.

Definition strptime (s : str) : res datetime :=
  match regex_match s with
  | None => Err ValueError   (* does not match format *)
  | Some (y, m, d, rest) =>
      if truthy rest then Err ValueError   (* unconverted data remains *)
      else datetime_ymd y m d
  end.

End Strptime.

Definition parse_date (date_str field : str) : res datetime :=
  match Strptime.strptime date_str with
  | Ok d => Ok d
  | Err _ => Err (SystemExit (MsgBadDate field date_str))
  end.

(* ===================================================================== *)
(** ** [float] arithmetic: IEEE 754 binary64 *)

Module Float64.

Definition prec : Z := 53.
Definition emax : Z := 1024.

(** An integer as an exact, not yet rounded, binary number. *)
Definition exact (i : Z) : spec_float :=
  match i with
  | Z0 => S754_zero false
  | Zpos p => S754_finite false p 0
  | Zneg p => S754_finite true p 0
  end.

(** [float(i)]: the nearest double, ties to even; [OverflowError] when
    the integer is too large for a double. *)
Definition of_int (i : Z) : res spec_float :=
  match binary_normalize prec emax i 0 false with
  | S754_infinity _ => Err OverflowError
  | x => Ok x
  end.

(** [a / b] on two [int]s: the correctly rounded quotient. *)
Definition int_truediv (a b : Z) : res spec_float :=
  if b =? 0 then Err ZeroDivisionError
  else
    match SFdiv prec emax (exact a) (exact b) with
    | S754_infinity _ => Err OverflowError
    | q => Ok q
    end.

(** [i * x] for an [int] and a [float]. *)
Definition int_mul (i : Z) (x : spec_float) : res spec_float :=
  let* fi := of_int i in
  Ok (SFmul prec emax fi x).

(** [m / 2^k] rounded to the nearest integer, ties to even ([0 < k]). *)
Definition rne_shift (m k : Z) : Z :=
  let q := m / 2 ^ k in
  match m mod 2 ^ k ?= 2 ^ (k - 1) with
  | Lt => q
  | Gt => q + 1
  | Eq => if Z.even q then q else q + 1
  end.

(** [round(x)] with one argument: the nearest [int], ties to even. *)
Definition py_round (x : spec_float) : res Z :=
  match x with
  | S754_zero _ => Ok 0
  | S754_infinity _ => Err OverflowError
  | S754_nan => Err ValueError
  | S754_finite s m e =>
      let a := if 0 <=? e then Zpos m * 2 ^ e else rne_shift (Zpos m) (- e) in
      Ok (if s then - a else a)
  end.

End Float64.

(* ===================================================================== *)
(** ** Date sampler *)

(** [range(n)] *)
Definition range (n : Z) : list Z := map Z.of_nat (seq 0 (Z.to_nat n)).

(** The loop that removes repeated calendar dates: [seen] is the set of
    dates met so far, [out] the list being built. *)
Definition dedup_step (acc : gset Z * list datetime) (d : datetime)
  : gset Z * list datetime :=
  let '(seen, out) := acc in
  if decide (date_of d ∈ seen) then (seen, out)
  else ({[date_of d]} ∪ seen, out ++ [d]).

Definition dedup_by_date (ds : list datetime) : list datetime :=
  snd (foldl dedup_step (∅, []) ds).

(** The date computed for index [i]:
    [start + timedelta(days=round(i * step))]. *)
Definition sample (start : datetime) (step : spec_float) (i : Z)
  : res datetime :=
  let* x := Float64.int_mul i step in
  let* k := Float64.py_round x in
  let* td := timedelta_of_days k in
  dt_add start td.

Definition evenly_spaced_dates (start end_ : datetime) (n : Z)
  : res (list datetime) :=
  if n <? 2 then Err (SystemExit MsgNumDates)
  else
    let delta_days := td_days (dt_sub end_ start) in
    if delta_days <? 0 then Err (SystemExit MsgEndBeforeStart)
    else if n =? 2 then Ok [start; end_]
    else
      let* step := Float64.int_truediv delta_days (n - 1) in
      let* ds := rmap (sample start step) (range n) in
      (* n >= 3 here, so ds[0] and ds[-1] exist *)
      let ds := <[0%nat := start]> ds in
      let ds := <[pred (length ds) := end_]> ds in
      Ok (dedup_by_date ds).

(* ===================================================================== *)
(** ** Range warning and request builder *)

Definition RANGE_FIRST : datetime := mk_datetime (Calendar.ymd2ord 2025 1 1) 0.
Definition RANGE_LAST : datetime := mk_datetime (Calendar.ymd2ord 2025 9 15) 0.

Definition dt_leb (a b : datetime) : bool :=
  (ordinal a <? ordinal b) || ((ordinal a =? ordinal b) && (tod a <=? tod b)).


Module Fmt.
Import PyStr.

Definition digit_char (z : Z) : Z := 48 + z mod 10.

Definition two_digits (z : Z) : str := [digit_char (z / 10); digit_char z].

Definition four_digits (z : Z) : str :=
  digit_char (z / 1000) :: digit_char (z / 100) :: two_digits z.

(** [%Y]: the year in decimal, as many digits as it has.  (The GNU C
    library does not pad it; a year has four digits from 1000 on.) *)
Definition format_year (y : Z) : str :=
  if y <? 10 then [digit_char y]
  else if y <? 100 then two_digits y
  else if y <? 1000 then digit_char (y / 100) :: two_digits y
  else four_digits y.

(** [d.strftime("%Y-%m-%d")] *)
Definition strftime_ymd (d : datetime) : str :=
  let '(y, m, dd) := Calendar.ord2ymd (ordinal d) in
  format_year y ++ "-" ++ two_digits m ++ "-" ++ two_digits dd.

(** [s.rstrip("/")] *)
Fixpoint rstrip_slash (s : str) : str :=
  match s with
  | c :: s' =>
      match rstrip_slash s' with
      | [] => if c =? char "/" then [] else [c]
      | t => c :: t
      end
  | [] => []
  end.

(** [s.lstrip("/")] *)
Fixpoint lstrip_slash (s : str) : str :=
  match s with
  | c :: s' => if c =? char "/" then lstrip_slash s' else s
  | [] => []
  end.

End Fmt.

Definition build_url (base_url from_cur to_cur : str)
    (date_str : option str) : str :=
  let q := "?from=" ++ from_cur ++ "&to=" ++ to_cur in
  let q :=
    match date_str with
    | Some ds => if PyStr.truthy ds then q ++ "&date=" ++ ds else q
    | None => q
    end in
  Fmt.rstrip_slash base_url ++ "/" ++ Fmt.lstrip_slash q.

(* ===================================================================== *)
(** ** Paths: [pathlib] on a POSIX system *)

Module Path.
Import PyStr.

(** [s.split("/")], with the part read so far in [cur]. *)
Fixpoint split_from (cur s : str) : list str :=
  match s with
  | c :: s' =>
      if c =? char "/" then cur :: split_from [] s'
      else split_from (cur ++ [c]) s'
  | [] => [cur]
  end.

Definition split (s : str) : list str := split_from [] s.

(** The components [pathlib] keeps of a relative path: empty ones and
    [.] are dropped, [..] is kept. *)
Definition parts (s : str) : list str :=
  List.filter (fun x => negb (eqb x "") && negb (eqb x ".")) (split s).

(** ["/".join(l)] *)
Fixpoint sep_join (l : list str) : str :=
  match l with
  | [] => []
  | [x] => x
  | x :: l' => x ++ "/" ++ sep_join l'
  end.

(** [str(Path(dir) / name)] for a relative [dir]: an absolute [name]
    replaces [dir]; its root is [//] when it starts with exactly two
    slashes. *)
Definition join (dir name : str) : str :=
  match name with
  | c :: _ =>
      if c =? char "/" then
        let rel := Fmt.lstrip_slash name in
        let root :=
          if (length name =? length rel + 2)%nat then "//" else "/" in
        root ++ sep_join (parts rel)
      else sep_join (parts dir ++ parts name)
  | [] => sep_join (parts dir)
  end.

(** The characters a file name may hold: those UTF-8 encodes, and the
    surrogates U+DC80 to U+DCFF, which [os.fsencode] turns back into the
    bytes they stand for. *)
Definition fs_char (c : Z) : bool :=
  negb (is_surrogate c) || ((0xDC80 <=? c) && (c <=? 0xDCFF)).

End Path.

(* ===================================================================== *)
(** ** The world the script acts on *)

(** A line written by [print]; one constructor per [print] of the script. *)
Inductive out_line :=
| OutWarnRange (d : Z)
    (* f"... {d.date()} is outside the suggested test range ..." *)
| OutRequesting (url : str)
    (* f"-> Requesting: {url}" *)
| OutSaved (path : str)
    (* f"Saved to {save_path}" *)
| OutBatch (from_cur to_cur : option str) (s e : Z) (steps : nat)
    (* f"Batch: {from}/{to} {s.date()}..{e.date()} in {len(dates)} steps" *)
| OutFailed (d : Z) (ex : message).
    (* f"{d.date()}: {ex}" *)

(** A record written by [logger.error]. *)
Inductive log_entry :=
| LogNetwork (url e : str)
| LogHttp (status_code : Z) (url text : str)
| LogInvalidJson (url text : str)
| LogUnexpectedPayload (payload : pyval)
| LogService (url : str) (err : pyval).

(** What [requests.post] hands back: [json_body] is [None] when the body
    is not valid JSON ([resp.json()] raises [ValueError]). *)
Record response := mk_response {
  status_code : Z;
  text : str;
  json_body : option pyval
}.

Inductive post_outcome :=
| PostRaises (e : str)          (* requests.RequestException *)
| PostReturns (resp : response).

(** [resp.ok]: the status is not a 4xx or 5xx one. *)
Definition resp_ok (r : response) : bool :=
  negb ((400 <=? status_code r) && (status_code r <? 600)).

(** What a file holds after [json.dump] into it: the whole JSON text of a
    value, or, when the dump was cut short (by a string that UTF-8 cannot
    encode, or by the file system), the part of the text that was written
    before. *)
Inductive file :=
| FileJson (v : pyval)
| FileCut (v : pyval).

(** What the script asks of the file system. *)
Inductive fs_op :=
| Mkdir (dir : str)       (* DATA_DIR.mkdir(exist_ok=True) *)
| Open (path : str)       (* open(path, "w", encoding="utf-8") *)
| Write (path : str).     (* the writes to the open file, and its close *)

Record world := mk_world {
  files : gmap str file;         (* the files written: path -> content *)
  stdout : list out_line;
  log : list log_entry;
  posts : list (str * str);      (* the requests sent: (url, api key) *)
  (* the file system: whether it carries out an operation, given the
     files written so far; when it does not, [OSError] is raised *)
  fs : gmap str file -> fs_op -> bool
}.

(** Commands: they read and change the world, and return or raise. *)
Definition M (A : Type) : Type := world -> res A * world.

Definition ret {A} (a : A) : M A := fun w => (Ok a, w).
Definition raise {A} (e : exn) : M A := fun w => (Err e, w).
Definition lift {A} (r : res A) : M A := fun w => (r, w).

Definition bind {A B} (c : M A) (k : A -> M B) : M B :=
  fun w =>
    match c w with
    | (Ok a, w') => k a w'
    | (Err e, w') => (Err e, w')
    end.

Notation "'let!' x ':=' c 'in' k" := (bind c (fun x => k))
  (at level 10, x name, c at level 100, k at level 200).

(** [try: c  except SystemExit as ex: h ex] *)
Definition try_except_SystemExit {A} (c : M A) (h : message -> M A) : M A :=
  fun w =>
    match c w with
    | (Err (SystemExit m), w') => h m w'
    | r => r
    end.

(** [for x in l: body x] *)
Fixpoint for_each {A} (l : list A) (body : A -> M unit) : M unit :=
  match l with
  | [] => ret tt
  | x :: l' => let! _ := body x in for_each l' body
  end.

Definition print (l : out_line) : M unit :=
  fun w =>
    (Ok tt, mk_world (files w) (stdout w ++ [l]) (log w) (posts w) (fs w)).

Definition logger_error (l : log_entry) : M unit :=
  fun w =>
    (Ok tt, mk_world (files w) (stdout w) (log w ++ [l]) (posts w) (fs w)).

(** [json.dump(v, f, ensure_ascii=False, indent=2)] into a UTF-8 text
    file goes through: no string of [v], key or value, holds a
    surrogate. *)
Fixpoint encodable (v : pyval) : bool :=
  match v with
  | PStr s => PyStr.utf8_ok s
  | PList l => forallb encodable l
  | PDict kvs =>
      forallb (fun kv => let '(k, x) := kv in PyStr.utf8_ok k && encodable x)
        kvs
  | _ => true
  end.

(** [dir.mkdir(exist_ok=True)] *)
Definition mkdir (dir : str) : M unit :=
  fun w => if fs w (files w) (Mkdir dir) then (Ok tt, w) else (Err OSError, w).

Definition set_file (path : str) (content : file) (w : world) : world :=
  mk_world (<[path := content]> (files w)) (stdout w) (log w) (posts w)
    (fs w).

(** [with open(path, "w", encoding="utf-8") as f: json.dump(content, f, ...)].
    [open] raises when the name cannot be encoded, holds a null
    character, or the file system refuses; nothing is changed then.  Once
    the file is open it is empty, and [json.dump] writes the text of
    [content] piece by piece: when the file system refuses a write (or
    the final flush) the block ends in [OSError], and a string that cannot
    be encoded raises [UnicodeEncodeError]; both leave what was written
    before. *)
Definition write_file (path : str) (content : pyval) : M unit :=
  fun w =>
    if negb (PyStr.all_chars Path.fs_char path) then (Err UnicodeEncodeError, w)
    else if existsb (Z.eqb 0) path then (Err ValueError, w)
    else if negb (fs w (files w) (Open path)) then (Err OSError, w)
    else if negb (fs w (files w) (Write path))
         then (Err OSError, set_file path (FileCut content) w)
    else if encodable content then (Ok tt, set_file path (FileJson content) w)
    else (Err UnicodeEncodeError, set_file path (FileCut content) w).

Definition warn_if_out_of_range (d : datetime) (enabled : bool) : M unit :=
  if negb enabled then ret tt
  else if negb (dt_leb RANGE_FIRST d && dt_leb d RANGE_LAST)
  then print (OutWarnRange (date_of d))
  else ret tt.

(** Truth value of a decoded JSON value: [bool(v)]. *)
Definition truthy (v : pyval) : bool :=
  match v with
  | PNone => false
  | PBool b => b
  | PInt z => negb (z =? 0)
  | PFloat (S754_zero _) => false
  | PFloat _ => true
  | PStr s => PyStr.truthy s
  | PList l => match l with [] => false | _ => true end
  | PDict kvs => match kvs with [] => false | _ => true end
  end.

(** [payload.get(key)] on the items of a [dict]. *)
Fixpoint dict_get (kvs : list (str * pyval)) (key : str) : option pyval :=
  match kvs with
  | [] => None
  | (k, v) :: kvs' => if PyStr.eqb k key then Some v else dict_get kvs' key
  end.

(** The [argparse.Namespace] of [parse_args]. *)
Record args := mk_args {
  from_cur : option str;
  to_cur : option str;
  date : option str;
  start_date : option str;
  end_date : option str;
  num_dates : option Z;
  base_url : str;
  api_key : str;
  warn_outside_range : bool
}.

Definition opt_truthy (o : option str) : bool :=
  match o with Some s => PyStr.truthy s | None => false end.

Definition num_truthy (o : option Z) : bool :=
  match o with Some z => negb (z =? 0) | None => false end.

Definition opt_str (o : option str) : str := default "" o.

(** The output directory, relative to the project root. *)
Definition DATA_DIR : str := "data".

Section Service.

(** The remote service: its answer to a request, which may depend on
    the requests sent before. *)
Variable service : list (str * str) -> str -> str -> post_outcome.

(** [requests.post(url, data={"key": api_key}, timeout=15)] *)
Definition requests_post (url api_key : str) : M post_outcome :=
  fun w =>
    (Ok (service (posts w) url api_key),
     mk_world (files w) (stdout w) (log w) (posts w ++ [(url, api_key)])
       (fs w)).

Definition call_service (url api_key : str) : M pyval :=
  let! o := requests_post url api_key in
  match o with
  | PostRaises e =>
      let! _ := logger_error (LogNetwork url e) in
      raise (SystemExit (MsgNetwork e))
  | PostReturns resp =>
      if negb (resp_ok resp) then
        let! _ :=
          logger_error
            (LogHttp (status_code resp) url (PyStr.strip (text resp))) in
        raise (SystemExit
                 (MsgHttp (status_code resp)
                    (if PyStr.truthy (PyStr.strip (text resp))
                     then PyStr.strip (text resp) else "No details.")))
      else
        match json_body resp with
        | None =>
            let! _ :=
              logger_error (LogInvalidJson url (take 400 (text resp))) in
            raise (SystemExit MsgInvalidJson)
        | Some payload =>
            match payload with
            | PDict kvs =>
                let err := default PNone (dict_get kvs "error") in
                if truthy err then
                  let! _ := logger_error (LogService url err) in
                  raise (SystemExit (MsgService err))
                else ret payload
            | _ =>
                let! _ := logger_error (LogUnexpectedPayload payload) in
                raise (SystemExit MsgUnexpectedPayload)
            end
        end
  end.

Definition save_json (payload : pyval) (from_cur to_cur date_str : str)
  : M str :=
  let! _ := mkdir DATA_DIR in
  let fname := from_cur ++ "_" ++ to_cur ++ "_" ++ date_str ++ ".json" in
  let path := Path.join DATA_DIR fname in
  let! _ := write_file path payload in
  ret path.

Definition run_one (from_cur to_cur date_str base_url api_key : str)
    (warn_range : bool) : M unit :=
  let! f := lift (validate_currency from_cur "From") in
  let! t := lift (validate_currency to_cur "To") in
  let! d := lift (parse_date date_str "date") in
  let! _ := warn_if_out_of_range d warn_range in
  let url := build_url base_url f t (Some date_str) in
  let! _ := print (OutRequesting url) in
  let! payload := call_service url api_key in
  let! save_path := save_json payload f t date_str in
  print (OutSaved save_path).

Definition main (a : args) : M unit :=
  if opt_truthy (start_date a) || opt_truthy (end_date a)
     || num_truthy (num_dates a)
  then
    if negb (opt_truthy (from_cur a) && opt_truthy (to_cur a)
             && opt_truthy (start_date a) && opt_truthy (end_date a)
             && num_truthy (num_dates a))
    then raise (SystemExit MsgBatchArgs)
    else
      let! s := lift (parse_date (opt_str (start_date a)) "start-date") in
      let! e := lift (parse_date (opt_str (end_date a)) "end-date") in
      let! dates := lift (evenly_spaced_dates s e (default 0 (num_dates a))) in
      let! _ :=
        print (OutBatch (from_cur a) (to_cur a) (date_of s) (date_of e)
                 (length dates)) in
      for_each dates (fun d =>
        try_except_SystemExit
          (run_one (opt_str (from_cur a)) (opt_str (to_cur a))
             (Fmt.strftime_ymd d) (base_url a) (api_key a)
             (warn_outside_range a))
          (fun ex => print (OutFailed (date_of d) ex)))
  else
    if negb (opt_truthy (from_cur a) && opt_truthy (to_cur a)
             && opt_truthy (date a))
    then raise (SystemExit MsgSingleArgs)
    else
      run_one (opt_str (from_cur a)) (opt_str (to_cur a))
        (opt_str (date a)) (base_url a) (api_key a)
        (warn_outside_range a).

End Service.

(** The exit status of the process: 0 when [main] returns, 1 when it is
    left by an exception. *)
Definition exit_status {A} (r : res A) : Z :=
  match r with Ok _ => 0 | Err _ => 1 end.

(* ===================================================================== *)
(** ** The format [parse_date] accepts, stated on its own *)

Module DateFormat.
Import PyStr Strptime.

(** One of the ten characters 0 to 9. *)
Definition ascii_digit (c : Z) : bool := cls "0" "9" c.

(** Four decimal digits, of any script. *)
Inductive year_field : str -> Z -> Prop :=
| year_digits a b c d :
    is_digit a = true -> is_digit b = true ->
    is_digit c = true -> is_digit d = true ->
    year_field [a; b; c; d] (1000 * dig a + 100 * dig b + 10 * dig c + dig d).

(** A month number from 1 to 12 in one or two of the characters 0 to 9. *)
Inductive month_field : str -> Z -> Prop :=
| month_two a b :
    ascii_digit a = true -> ascii_digit b = true ->
    1 <= 10 * dig a + dig b <= 12 ->
    month_field [a; b] (10 * dig a + dig b)
| month_one a :
    ascii_digit a = true -> 1 <= dig a -> month_field [a] (dig a).

(** A day number from 1 to 31: two digits, the first one of the
    characters 0 to 9 and the second one too, unless the first is 1 or 2,
    when the second may be a decimal digit of any script; or one of the
    characters 1 to 9, alone or after a space. *)
Inductive day_field : str -> Z -> Prop :=
| day_two a b :
    ascii_digit a = true -> is_digit b = true ->
    ascii_digit b = true \/ 1 <= dig a <= 2 ->
    1 <= 10 * dig a + dig b <= 31 ->
    day_field [a; b] (10 * dig a + dig b)
| day_one a :
    ascii_digit a = true -> 1 <= dig a -> day_field [a] (dig a)
| day_space a :
    ascii_digit a = true -> 1 <= dig a -> day_field [char " "; a] (dig a).

Definition lenient_ymd (s : str) (y m d : Z) : Prop :=
  exists ys ms ds,
    s = ys ++ "-" ++ ms ++ "-" ++ ds
    /\ year_field ys y /\ month_field ms m /\ day_field ds d.

(** The strict form: [dddd-dd-dd], every [d] one of the characters 0 to
    9. *)
Definition strict_ymd (s : str) : bool :=
  match s with
  | [y1; y2; y3; y4; h1; m1; m2; h2; d1; d2] =>
      ascii_digit y1 && ascii_digit y2 && ascii_digit y3 && ascii_digit y4
      && (h1 =? char "-") && ascii_digit m1 && ascii_digit m2
      && (h2 =? char "-") && ascii_digit d1 && ascii_digit d2
  | _ => false
  end.

End DateFormat.

(* ===================================================================== *)
(** ** The real number a float stands for *)

(** [2^e] for an integer exponent of either sign. *)
Definition bpow (e : Z) : R := powerRZ 2 e.

(** Value of a float that is zero or positive and finite. *)
Definition SF2R (x : spec_float) : R :=
  match x with
  | S754_finite false m e => IZR (Zpos m) * bpow e
  | _ => 0
  end.

Definition nonneg_finite (x : spec_float) : Prop :=
  match x with
  | S754_zero false | S754_finite false _ _ => True
  | _ => False
  end.

Definition is_infinity (x : spec_float) : bool :=
  match x with S754_infinity _ => true | _ => false end.

(** The relative and the absolute error bound of one rounding. *)
Definition u52 : R := bpow (-52).
Definition eta : R := bpow (-1074).

(** The exponent of the last place of a double of magnitude [2^e]. *)
Local Abbreviation F := (fexp Float64.prec Float64.emax).

(** The mantissa and the exponent [binary_round_aux] arrives at, before it
    is classified as zero, finite or infinite. *)
Definition bra_core (mx ex : Z) (lx : location) : Z * Z :=
  let '(mrs', e') := shr_fexp Float64.prec Float64.emax mx ex lx in
  let '(mrs'', e'') :=
    shr_fexp Float64.prec Float64.emax
      (round_nearest_even (shr_m mrs') (loc_of_shr_record mrs')) e' loc_Exact in
  (shr_m mrs'', e'').

(** The state of the shifter after [k] steps on the mantissa [mx]: the
    quotient, the bit shifted out last, and whether a bit shifted out
    before was set. *)
Definition shifted (mx k : Z) (mrs : shr_record) : Prop :=
  shr_m mrs = mx / 2 ^ k
  /\ (k = 0 -> shr_r mrs = false /\ shr_s mrs = false)
  /\ (0 < k ->
      shr_r mrs = Z.odd (mx / 2 ^ (k - 1))
      /\ shr_s mrs = negb (mx mod 2 ^ (k - 1) =? 0)).

(** [r] is [V] rounded to the nearest multiple of [2^f], ties to the even
    multiple. *)
Definition RN (V : R) (f : Z) (r : R) : Prop :=
  exists z : Z,
    r = (IZR z * bpow f)%R
    /\ (2 * (r - V) <= bpow f)%R /\ (2 * (V - r) <= bpow f)%R
    /\ ((2 * (r - V) = bpow f \/ 2 * (V - r) = bpow f)%R -> Z.even z = true).

(* ===================================================================== *)
(** ** Vocabulary of the statements about the service and the batch *)

(** The request was answered with a success status and a body that
    decodes to a JSON object with the items [kvs]. *)
Definition envelope_reply (o : post_outcome) (kvs : list (str * pyval))
  : Prop :=
  exists resp,
    o = PostReturns resp /\ resp_ok resp = true
    /\ json_body resp = Some (PDict kvs).

(** The world after one more request has been recorded. *)
Definition posted (w : world) (url api_key : str) : world :=
  mk_world (files w) (stdout w) (log w) (posts w ++ [(url, api_key)])
    (fs w).

(** The world after one more log record. *)
Definition logged (w : world) (l : log_entry) : world :=
  mk_world (files w) (stdout w) (log w ++ [l]) (posts w) (fs w).

(** The file [save_json] writes for a currency pair and a date str. *)
Definition json_path (f t date_str : str) : str :=
  "data/" ++ f ++ "_" ++ t ++ "_" ++ date_str ++ ".json".

(** The lines that close the handling of one date: saved, or failed. *)
Definition is_outcome (l : out_line) : bool :=
  match l with
  | OutSaved _ | OutFailed _ _ => true
  | _ => false
  end.

(** [l] reports what became of the query for the date [d]. *)
Definition outcome_for (d : datetime) (l : out_line) : Prop :=
  (exists ex, l = OutFailed (date_of d) ex)
  \/ (exists f t, l = OutSaved (json_path f t (Fmt.strftime_ymd d))).

(** The five arguments of batch mode are all given. *)
Definition batch_args_given (a : args) : Prop :=
  opt_truthy (from_cur a) && opt_truthy (to_cur a)
  && opt_truthy (start_date a) && opt_truthy (end_date a)
  && num_truthy (num_dates a) = true.

(** Fixtures for the worked examples. *)

(** A reply that is a JSON object and carries the error value [err]. *)
Definition reply_with_error (err : pyval)
  : list (str * str) -> str -> str -> post_outcome :=
  fun _ _ _ =>
    PostReturns (mk_response 200 "(body)" (Some (PDict [("error", err); ("data", PNone)]))).

(** Nothing written, printed, logged or sent yet, and a file system that
    carries out every operation. *)
Definition empty_world : world := mk_world ∅ [] [] [] (fun _ _ => true).

(** A service that answers every request with a rate, but drops the
    second connection. *)
Definition flaky_service
  : list (str * str) -> str -> str -> post_outcome :=
  fun sent _ _ =>
    if (length sent =? 1)%nat then PostRaises "timed out"
    else PostReturns
           (mk_response 200 "(body)"
              (Some (PDict [("error", PStr ""); ("data", PDict [("rate", PInt 1)])]))).

Definition batch_args : args :=
  mk_args (Some "usd") (Some "eur") None (Some "2025-01-01")
    (Some "2025-01-31") (Some 5) "http://localhost:8080/" "k" false.

Definition day_2025_01_01 : datetime := mk_datetime (Calendar.ymd2ord 2025 1 1) 0.
Definition day_2025_01_10 : datetime := mk_datetime (Calendar.ymd2ord 2025 1 10) 0.
Definition day_2025_01_31 : datetime := mk_datetime (Calendar.ymd2ord 2025 1 31) 0.

(** Strictly ascending by calendar date. *)
Fixpoint ascending (l : list datetime) : Prop :=
  match l with
  | [] => True
  | d :: l' =>
      match l' with
      | [] => True
      | d' :: _ => date_of d < date_of d' /\ ascending l'
      end
  end.

(** Ordered by calendar date, repetitions allowed. *)
Definition date_le (a b : datetime) : Prop := date_of a <= date_of b.

(** The invariant of the loop: [seen] holds the dates of [out]. *)
Definition seen_matches (acc : gset Z * list datetime) : Prop :=
  forall z, z ∈ acc.1 <-> In z (map date_of acc.2).

(* ===================================================================== *)
(** ** Vocabulary of the further properties *)

(** A str made of white space only. *)
Definition blank (s : str) : Prop := PyStr.all_chars PyStr.isspace s = true.

(** A str made of slashes only. *)
Definition slashes (s : str) : Prop :=
  PyStr.all_chars (fun c => c =? PyStr.char "/") s = true.

(** The query part of a request: the two codes, and the date when one is
    given. *)
Definition query_of (from_cur to_cur : str) (date_str : option str)
  : str :=
  "?from=" ++ from_cur ++ "&to=" ++ to_cur
  ++ match date_str with
      | Some ds => if PyStr.truthy ds then "&date=" ++ ds else ""
      | None => ""
      end.

(** The detail text of an HTTP error: the body without surrounding white
    space, or a fixed text when that is empty. *)
Definition http_details (body : str) : str :=
  if PyStr.truthy (PyStr.strip body) then PyStr.strip body else "No details.".

(** The lines [warn_if_out_of_range] prints. *)
Definition range_warning (d : datetime) (enabled : bool) : list out_line :=
  if enabled && negb (dt_leb RANGE_FIRST d && dt_leb d RANGE_LAST)
  then [OutWarnRange (date_of d)] else [].

(** One of the three batch arguments is given. *)
Definition batch_requested (a : args) : Prop :=
  opt_truthy (start_date a) || opt_truthy (end_date a)
  || num_truthy (num_dates a) = true.

(** The three arguments of single mode are all given. *)
Definition single_args_given (a : args) : Prop :=
  opt_truthy (from_cur a) && opt_truthy (to_cur a) && opt_truthy (date a)
  = true.

(** The world with more lines on the console. *)
Definition printed (w : world) (l : list out_line) : world :=
  mk_world (files w) (stdout w ++ l) (log w) (posts w) (fs w).

(** The messages of [validate_currency] and [parse_date]. *)
Definition is_validation_message (m : message) : bool :=
  match m with
  | MsgCurrencyRequired _ | MsgNotThreeLetters _ _ | MsgBadDate _ _ => true
  | _ => false
  end.

(** The messages of [call_service]. *)
Definition is_service_message (m : message) : bool :=
  match m with
  | MsgNetwork _ | MsgHttp _ _ | MsgInvalidJson | MsgUnexpectedPayload
  | MsgService _ => true
  | _ => false
  end.

(** An exception other than [SystemExit]. *)
Definition not_an_exit (e : exn) : Prop := forall m, e <> SystemExit m.

(** [d] stands in [ds] at a place before which no entry has its date. *)
Definition first_of_its_date (ds : list datetime) (d : datetime) : Prop :=
  exists ds1 ds2,
    ds = ds1 ++ d :: ds2 /\ ~ In (date_of d) (map date_of ds1).

(** [date(1000, 1, 1).toordinal()]: from this day on a year is written
    with four digits by every C library's [strftime]. *)
Definition ORDINAL_YEAR_1000 : Z := Calendar.ymd2ord 1000 1 1.

(** The second half of [ord2ymd]: month and day of the day [n] (counted
    from 0) of a year, leap or not. *)
Definition month_day (leapyear : bool) (n : Z) : Z * Z :=
  let month := Z.shiftr (n + 50) 5 in
  let preceding :=
    Calendar.DAYS_BEFORE_MONTH month
    + (if (2 <? month) && leapyear then 1 else 0) in
  if n <? preceding then
    let month := month - 1 in
    let preceding :=
      preceding
      - (Calendar.DAYS_IN_MONTH month
         + (if (month =? 2) && leapyear then 1 else 0)) in
    (month, n - preceding + 1)
  else (month, n - preceding + 1).

(** [f] holds on [0 .. k-1]. *)
Fixpoint all_upto (k : nat) (f : Z -> bool) : bool :=
  match k with
  | O => true
  | S k' => f (Z.of_nat k') && all_upto k' f
  end.

(** The year that starts [a] centuries, [b] four-year spans and [c] years
    into a 400-year period: the days before it, and whether it is leap, as
    [ord2ymd] computes them. *)
Definition year_index_ok (a b c : Z) : bool :=
  let y := 1 + 100 * a + 4 * b + c in
  (Calendar.days_before_year y =? 36524 * a + 1461 * b + 365 * c)
  && Bool.eqb (Calendar.is_leap y)
       ((c =? 3) && (negb (b =? 24) || (a =? 3))).

(** The last day of a leap year that is not the last of its century. *)
Definition leap_end_ok (a b : Z) : bool :=
  Calendar.ymd2ord (100 * a + 4 * b + 4) 12 31
  =? 36524 * a + 1461 * b + 1461.

(** Month and day of the day [n] of a year. *)
Definition month_day_ok (leapyear : bool) (n : Z) : bool :=
  let '(m, d) := month_day leapyear n in
  (1 <=? m) && (m <=? 12) && (1 <=? d)
  && (d <=? (if (m =? 2) && leapyear then 29 else Calendar.DAYS_IN_MONTH m))
  && (Calendar.DAYS_BEFORE_MONTH m
      + (if (2 <? m) && leapyear then 1 else 0) + d =? n + 1).

(** The last day of the month [m] of the year [y] of a 400-year period
    lies in that period (and before its last year, unless [y] is that
    year). *)
Definition month_end_ok (y m : Z) : bool :=
  (0 <=? Calendar.days_before_year y)
  && (0 <=? Calendar.days_before_month y m)
  && (Calendar.ymd2ord y m (Calendar.days_in_month y m)
      <=? (if y =? 400 then 146097 else 145731)).

(** [r] is the offset computed for the index [j]:
    [round(j * step)]. *)
Definition offset_of (step : spec_float) (j : nat) (r : Z) : Prop :=
  exists x,
    Float64.int_mul (Z.of_nat j) step = Ok x /\ Float64.py_round x = Ok r.

(** The date [d] is less than one day from the [i]-th of the [n]
    positions that divide the days from [start] to [end_] evenly:
    [|(d - start) - i * (end_ - start) / (n - 1)| < 1], in days. *)
Definition near_position (start end_ : datetime) (n i : Z) (d : datetime)
  : Prop :=
  Z.abs ((date_of d - date_of start) * (n - 1)
         - i * (date_of end_ - date_of start)) < n - 1.

(** A reply as [call_service] lets it through: a JSON object whose error
    value is false. *)
Definition clean_payload (v : pyval) : Prop :=
  exists kvs,
    v = PDict kvs /\ truthy (default PNone (dict_get kvs "error")) = false.

(** A currency code as [validate_currency] returns it: three letters
    that are their own uppercase form. *)
Definition currency_code (c : str) : Prop :=
  length c = 3%nat /\ PyStr.all_chars PyStr.is_letter c = true
  /\ PyStr.upper c = c.

(** The name of a result file: [data/FROM_TO_date.json] with two
    currency codes. *)
Definition result_path (p : str) : Prop :=
  exists f t date_str,
    p = json_path f t date_str /\ currency_code f /\ currency_code t.

(** What a result file may hold: the JSON text of a clean payload, whole
    (the payload can be encoded then) or cut short. *)
Definition result_file (c : file) : Prop :=
  exists v,
    clean_payload v
    /\ (c = FileJson v /\ encodable v = true \/ c = FileCut v).

(** From [w] to [w'] the output directory has only gained results: each
    file is as it was, or is a result file. *)
Definition only_results_written (w w' : world) : Prop :=
  forall p,
    files w' !! p = files w !! p
    \/ (exists c, files w' !! p = Some c /\ result_file c /\ result_path p).

(** A service that answers every request with a JSON object that depends
    on the URL only, carries no error and can be encoded. *)
Definition answers_with
    (service : list (str * str) -> str -> str -> post_outcome)
    (reply : str -> list (str * pyval)) : Prop :=
  forall sent url key,
    envelope_reply (service sent url key) (reply url)
    /\ truthy (default PNone (dict_get (reply url) "error")) = false
    /\ encodable (PDict (reply url)) = true.

(** The file system carries out every operation asked of it. *)
Definition willing (w : world) : Prop :=
  forall written op, fs w written op = true.

(** A character a file name can hold without leaving its directory: no
    slash, no null character, and one the file system encodes. *)
Definition name_char (c : Z) : bool :=
  negb (c =? 47) && negb (c =? 0) && Path.fs_char c.

(** A string of such characters. *)
Definition plain_name (s : str) : Prop := PyStr.all_chars name_char s = true.

(** What [save_json] does with a payload and a path once the name is known
    to be plain: the requests to the file system, and the dump. *)
Definition save_outcome (payload : pyval) (path : str) (w : world)
  : res str * world :=
  if negb (fs w (files w) (Mkdir DATA_DIR)) then (Err OSError, w)
  else if negb (fs w (files w) (Open path)) then (Err OSError, w)
  else if negb (fs w (files w) (Write path))
       then (Err OSError, set_file path (FileCut payload) w)
  else if encodable payload
       then (Ok path, set_file path (FileJson payload) w)
       else (Err UnicodeEncodeError, set_file path (FileCut payload) w).

(** The stage at which a query that got as far as [call_service] stands:
    the codes it was made for, the payload received, and the worlds before
    and after the request. *)
Definition answered
    (service : list (str * str) -> str -> str -> post_outcome)
    (from_cur to_cur date_str base_url api_key : str)
    (w : world) (f t : str) (payload : pyval) (w1 w2 : world) : Prop :=
  validate_currency from_cur "From" = Ok f
  /\ validate_currency to_cur "To" = Ok t
  /\ call_service service (build_url base_url f t (Some date_str)) api_key w1
     = (Ok payload, w2)
  /\ files w1 = files w.

(** Every JSON document the service sends can be written to a UTF-8
    file: it holds no surrogate. *)
Definition encodable_replies
    (service : list (str * str) -> str -> str -> post_outcome) : Prop :=
  forall sent url key resp p,
    service sent url key = PostReturns resp ->
    json_body resp = Some p -> encodable p = true.

(** A service whose answer holds a lone surrogate, as the JSON text
    ["\ud800"] decodes to. *)
Definition surrogate_service
  : list (str * str) -> str -> str -> post_outcome :=
  fun _ _ _ =>
    PostReturns
      (mk_response 200 "(body)"
         (Some (PDict [("error", PStr ""); ("data", PStr [0xD800])]))).

(** An exception the loop of [main] does not catch comes from writing a
    file: the file system refused, or the service sent what cannot be
    encoded. *)
Definition write_failure
    (service : list (str * str) -> str -> str -> post_outcome)
    (w : world) (e : exn) : Prop :=
  (e = OSError /\ ~ willing w)
  \/ (e = UnicodeEncodeError /\ ~ encodable_replies service).

(** * Properties *)

Ltac bools :=
  repeat match goal with
    | H : _ && _ = true |- _ => apply andb_true_iff in H; destruct H
    | H : _ || _ = false |- _ => apply orb_false_iff in H; destruct H
    | H : negb _ = true |- _ => apply negb_true_iff in H
    | H : negb _ = false |- _ => apply negb_false_iff in H
    | H : (_ <=? _) = true |- _ => apply Z.leb_le in H
    | H : (_ <=? _) = false |- _ => apply Z.leb_gt in H
    | H : (_ <? _) = true |- _ => apply Z.ltb_lt in H
    | H : (_ <? _) = false |- _ => apply Z.ltb_ge in H
    | H : (_ =? _) = true |- _ => apply Z.eqb_eq in H
    | H : (_ =? _) = false |- _ => apply Z.eqb_neq in H
    end.

(** ** The arithmetic on worked values *)

(** [1 / 3], [3652058 / 999] and [257 / 6] are the doubles CPython
    prints for them, given by mantissa and exponent. *)
Example truediv_values :
  Float64.int_truediv 1 3 = Ok (S754_finite false 6004799503160661 (-54))
  /\ Float64.int_truediv 3652058 999
     = Ok (S754_finite false 8038999472096823 (-41))
  /\ Float64.int_truediv 257 6
     = Ok (S754_finite false 6028255751219883 (-47)).
Proof. repeat split; vm_compute; reflexivity. Qed.

(** [float(2**53 + 1)] and [float(2**53 + 3)] round to even, and
    [float(2**1024)] overflows. *)
Example of_int_values :
  Float64.of_int (2 ^ 53 + 1) = Ok (S754_finite false 4503599627370496 1)
  /\ Float64.of_int (2 ^ 53 + 3) = Ok (S754_finite false 4503599627370498 1)
  /\ Float64.of_int (2 ^ 1024) = Err OverflowError.
Proof. repeat split; vm_compute; reflexivity. Qed.

(** [round(0.5) = 0], [round(1.5) = 2], [round(2.5) = 2],
    [round(7.5) = 8] and [round(22.5) = 22]. *)
Example py_round_values :
  Float64.py_round (S754_finite false 1 (-1)) = Ok 0
  /\ Float64.py_round (S754_finite false 3 (-1)) = Ok 2
  /\ Float64.py_round (S754_finite false 5 (-1)) = Ok 2
  /\ Float64.py_round (S754_finite false 15 (-1)) = Ok 8
  /\ Float64.py_round (S754_finite false 45 (-1)) = Ok 22.
Proof. repeat split; reflexivity. Qed.

(** [evenly_spaced_dates(2025-01-01, 2025-01-31, 5)]: the offsets are
    0, 8, 15, 22 and 30 days. *)
Example sampler_january :
  evenly_spaced_dates day_2025_01_01 day_2025_01_31 5
  = Ok (map (fun o => mk_datetime (Calendar.ymd2ord 2025 1 1 + o) 0)
          [0; 8; 15; 22; 30]).
Proof. vm_compute. reflexivity. Qed.

(** Dates sampled more densely than the days there are: the repeated
    ones are dropped. *)
Example sampler_dense :
  evenly_spaced_dates day_2025_01_01
    (mk_datetime (Calendar.ymd2ord 2025 1 3) 0) 7
  = Ok (map (fun o => mk_datetime (Calendar.ymd2ord 2025 1 1 + o) 0)
          [0; 1; 2]).
Proof. vm_compute. reflexivity. Qed.

(** ** The character tables *)

(** The facts about the tables that the proofs below rest on.  Each is a
    finite check on the table, run by the kernel. *)

Section TableFacts.
Import PyStr.

Lemma in_range_spec c r : in_range c r = true <-> fst r <= c <= snd r.
Proof. unfold in_range. rewrite andb_true_iff, !Z.leb_le. tauto. Qed.

Lemma in_table c (T : list (Z * Z)) :
  existsb (in_range c) T = true <-> exists r, In r T /\ fst r <= c <= snd r.
Proof.
  rewrite existsb_exists. split; intros [r [Hr Hc]]; exists r; split; auto;
    now apply in_range_spec.
Qed.

Lemma assoc_In c l u : assoc c l = Some u -> In (c, u) l.
Proof.
  induction l as [|[k v] l IH]; [discriminate|]. cbn.
  destruct (c =? k) eqn:E.
  - intros [= ->]. apply Z.eqb_eq in E. subst. now left.
  - intros H. right. auto.
Qed.

Lemma upper_char_cases c :
  (assoc c UCD.UPPER = None /\ upper_char c = [c])
  \/ (exists u, In (c, u) UCD.UPPER /\ upper_char c = u).
Proof.
  unfold upper_char. destruct (assoc c UCD.UPPER) as [u|] eqn:E.
  - right. exists u. split; [now apply assoc_In | reflexivity].
  - left. split; reflexivity.
Qed.

(** A property of the 128 ASCII codes, checked on each. *)
Lemma ascii_check (P : Z -> bool) :
  forallb P (map Z.of_nat (seq 0 128)) = true ->
  forall c, 0 <= c < 128 -> P c = true.
Proof.
  intros H c Hc. rewrite forallb_forall in H. apply H.
  apply in_map_iff. exists (Z.to_nat c). split; [lia|].
  apply in_seq. lia.
Qed.

Lemma table_disjoint :
  forallb (fun a => forallb (fun s => (snd a <? fst s) || (snd s <? fst a))
                      UCD.SPACE) UCD.ALPHA = true.
Proof. vm_compute. reflexivity. Qed.

(** No letter is white space. *)
Lemma letter_not_space c : is_letter c = true -> isspace c = false.
Proof.
  intros Ha. destruct (isspace c) eqn:Hs; [exfalso | reflexivity].
  apply in_table in Ha as [a [Ia Ha]]. apply in_table in Hs as [s [Is Hs]].
  pose proof table_disjoint as D. rewrite forallb_forall in D.
  specialize (D a Ia). rewrite forallb_forall in D. specialize (D s Is).
  apply orb_true_iff in D as [D | D]; apply Z.ltb_lt in D; lia.
Qed.

Lemma letters_plain :
  forallb (fun r => (47 <? fst r)
                    && ((snd r <? 0xD800) || (0xDFFF <? fst r)))
    UCD.ALPHA = true.
Proof. vm_compute. reflexivity. Qed.

(** A letter is no slash, no null character and no surrogate. *)
Lemma letter_plain c :
  is_letter c = true -> 47 < c /\ is_surrogate c = false.
Proof.
  intros Ha. apply in_table in Ha as [a [Ia Ha]].
  pose proof letters_plain as D. rewrite forallb_forall in D.
  specialize (D a Ia). apply andb_true_iff in D as [D1 D2].
  apply Z.ltb_lt in D1. split; [lia|].
  unfold is_surrogate. apply andb_false_iff.
  apply orb_true_iff in D2 as [D2 | D2]; apply Z.ltb_lt in D2;
    [left | right]; apply Z.leb_gt; lia.
Qed.

Lemma upper_keys :
  forallb (fun e => negb (isspace (fst e)) && (128 <=? fst e)
                    || ((97 <=? fst e) && (fst e <=? 122)))
    UCD.UPPER = true.
Proof. vm_compute. reflexivity. Qed.

Lemma upper_images :
  forallb (fun e =>
             match snd e with
             | [] => false
             | u => forallb (fun c => negb (isspace c)
                                      && match assoc c UCD.UPPER with
                                         | Some _ => false
                                         | None => true
                                         end) u
             end) UCD.UPPER = true.
Proof. vm_compute. reflexivity. Qed.

(** White space is its own uppercase form. *)
Lemma upper_char_space c : isspace c = true -> upper_char c = [c].
Proof.
  intros Hs. destruct (upper_char_cases c) as [[_ H] | [u [Hin _]]]; [exact H|].
  exfalso. pose proof upper_keys as D. rewrite forallb_forall in D.
  specialize (D _ Hin). cbn [fst] in D.
  apply orb_true_iff in D as [D | D].
  - apply andb_true_iff in D as [D _]. rewrite Hs in D. discriminate D.
  - apply andb_true_iff in D as [D1 D2].
    apply Z.leb_le in D1. apply Z.leb_le in D2.
    pose proof (ascii_check (fun c => negb ((97 <=? c) && (c <=? 122))
                                      || negb (isspace c))) as X.
    specialize (X ltac:(vm_compute; reflexivity) c ltac:(lia)).
    cbv beta in X. apply orb_true_iff in X as [X | X].
    + apply negb_true_iff, andb_false_iff in X as [X | X];
        apply Z.leb_gt in X; lia.
    + apply negb_true_iff in X. congruence.
Qed.

Lemma upper_image c u c' :
  In (c, u) UCD.UPPER -> In c' u ->
  isspace c' = false /\ assoc c' UCD.UPPER = None.
Proof.
  intros Hin Hc'. pose proof upper_images as D. rewrite forallb_forall in D.
  specialize (D _ Hin). cbn [snd] in D.
  destruct u as [|x u]; [destruct Hc'|].
  rewrite forallb_forall in D. specialize (D _ Hc').
  apply andb_true_iff in D as [D1 D2]. apply negb_true_iff in D1.
  split; [exact D1|]. now destruct (assoc c' UCD.UPPER).
Qed.

(** The uppercase form of a character that is not white space holds no
    white space. *)
Lemma upper_char_not_space c c' :
  isspace c = false -> In c' (upper_char c) -> isspace c' = false.
Proof.
  intros Hs Hc'. destruct (upper_char_cases c) as [[_ H] | [u [Hin H]]];
    rewrite H in Hc'.
  - destruct Hc' as [<- | []]. exact Hs.
  - now apply (upper_image c u c').
Qed.

(** It is never empty. *)
Lemma upper_char_nonempty c : upper_char c <> [].
Proof.
  destruct (upper_char_cases c) as [[_ H] | [u [Hin H]]]; rewrite H;
    [discriminate|].
  pose proof upper_images as D. rewrite forallb_forall in D.
  specialize (D _ Hin). cbn [snd] in D. now destruct u.
Qed.

(** Uppercasing once is enough: every character of an uppercase form is
    its own uppercase form. *)
Lemma upper_char_idem c c' : In c' (upper_char c) -> upper_char c' = [c'].
Proof.
  intros Hc'. destruct (upper_char_cases c) as [[Hn H] | [u [Hin H]]];
    rewrite H in Hc'.
  - destruct Hc' as [<- | []]. exact H.
  - destruct (upper_image c u c' Hin Hc') as [_ Hn].
    unfold upper_char. now rewrite Hn.
Qed.

(** On ASCII, uppercasing turns a-z into A-Z and changes nothing else. *)
Lemma upper_char_ascii c :
  c < 128 ->
  upper_char c = [if (97 <=? c) && (c <=? 122) then c - 32 else c].
Proof.
  intros Hc. destruct (Z.ltb_spec c 0) as [Hneg | Hpos].
  - replace ((97 <=? c) && (c <=? 122)) with false
      by (symmetry; apply andb_false_iff; left; apply Z.leb_gt; lia).
    destruct (upper_char_cases c) as [[_ H] | [u [Hin _]]]; [exact H|].
    exfalso. pose proof upper_keys as D. rewrite forallb_forall in D.
    specialize (D _ Hin). cbn [fst] in D.
    apply orb_true_iff in D as [D | D]; apply andb_true_iff in D as [D1 D2];
      apply Z.leb_le in D2; try apply Z.leb_le in D1; lia.
  - pose proof (ascii_check
                  (fun c => match upper_char c with
                            | [u] => u =? (if (97 <=? c) && (c <=? 122)
                                           then c - 32 else c)
                            | _ => false
                            end)) as X.
    specialize (X ltac:(vm_compute; reflexivity) c ltac:(lia)).
    cbv beta in X. destruct (upper_char c) as [|u [|? ?]]; try discriminate X.
    apply Z.eqb_eq in X. now subst.
Qed.

(** The ASCII letters are A-Z and a-z, and the ASCII white space is TAB,
    LF, VT, FF, CR, FS, GS, RS, US and the space. *)
Lemma ascii_classes c :
  0 <= c < 128 ->
  is_letter c = ((65 <=? c) && (c <=? 90) || (97 <=? c) && (c <=? 122))
  /\ isspace c = ((9 <=? c) && (c <=? 13) || (28 <=? c) && (c <=? 32)).
Proof.
  intros Hc.
  pose proof (ascii_check
                (fun c =>
                   Bool.eqb (is_letter c)
                     ((65 <=? c) && (c <=? 90) || (97 <=? c) && (c <=? 122))
                   && Bool.eqb (isspace c)
                        ((9 <=? c) && (c <=? 13) || (28 <=? c) && (c <=? 32))))
    as X.
  specialize (X ltac:(vm_compute; reflexivity) c Hc).
  cbv beta in X. apply andb_true_iff in X as [X1 X2].
  split; now apply eqb_prop.
Qed.

Lemma digit_zero_spec c z :
  digit_zero c = Some z -> In z UCD.DECIMAL /\ z <= c < z + 10.
Proof.
  unfold digit_zero. intros H. apply find_some in H as [Hin H].
  apply andb_true_iff in H as [H1 H2].
  apply Z.leb_le in H1. apply Z.ltb_lt in H2. auto.
Qed.

(** A decimal digit has a value from 0 to 9. *)
Lemma dig_range c : 0 <= dig c <= 9.
Proof.
  unfold dig. destruct (digit_zero c) as [z|] eqn:E; [|lia].
  apply digit_zero_spec in E. lia.
Qed.

Lemma decimal_runs :
  forallb (fun z => ((z =? 48) || (128 <=? z))
                    && ((z + 9 <? 0xD800) || (0xDFFF <? z)))
    UCD.DECIMAL = true.
Proof. vm_compute. reflexivity. Qed.

(** The characters 0 to 9 are decimal digits, with the value they show. *)
Lemma ascii_digit_is_digit c :
  48 <= c <= 57 -> is_digit c = true /\ dig c = c - 48.
Proof.
  intros Hc. unfold is_digit, dig, digit_zero, UCD.DECIMAL.
  cbn [find].
  replace ((48 <=? c) && (c <? 48 + 10)) with true; [auto|].
  symmetry. apply andb_true_iff. split; [apply Z.leb_le | apply Z.ltb_lt]; lia.
Qed.

(** A decimal digit is one of the characters 0 to 9 or lies outside
    ASCII; it is no surrogate. *)
Lemma digit_plain c :
  is_digit c = true -> (48 <= c <= 57 \/ 128 <= c) /\ is_surrogate c = false.
Proof.
  unfold is_digit. destruct (digit_zero c) as [z|] eqn:E; [|discriminate].
  intros _. apply digit_zero_spec in E as [Hin Hc].
  pose proof decimal_runs as D. rewrite forallb_forall in D.
  specialize (D _ Hin). apply andb_true_iff in D as [D1 D2].
  split.
  - apply orb_true_iff in D1 as [D1 | D1];
      [apply Z.eqb_eq in D1 | apply Z.leb_le in D1]; lia.
  - unfold is_surrogate. apply andb_false_iff.
    apply orb_true_iff in D2 as [D2 | D2]; apply Z.ltb_lt in D2;
      [left | right]; apply Z.leb_gt; lia.
Qed.

End TableFacts.

(** ** Validator: currency codes *)

Section CurrencyFacts.
Import PyStr.

Lemma isalpha_all s :
  length s = 3%nat -> isalpha s = all_chars is_letter s.
Proof. destruct s; [discriminate | reflexivity]. Qed.

Lemma len_3 s : (len s =? 3) = true <-> length s = 3%nat.
Proof. unfold len. rewrite Z.eqb_eq. lia. Qed.

Lemma truthy_empty s : truthy s = false <-> s = "".
Proof. destruct s; simpl; split; congruence. Qed.

Lemma all_chars_app p a b :
  all_chars p (a ++ b) = all_chars p a && all_chars p b.
Proof.
  induction a as [|c a IH]; [reflexivity|]. cbn [app all_chars]. rewrite IH.
  now rewrite andb_assoc.
Qed.

Lemma all_chars_In p s :
  all_chars p s = true <-> forall c, In c s -> p c = true.
Proof.
  induction s as [|c s IH]; cbn [all_chars In].
  - split; [intros _ c [] | reflexivity].
  - rewrite andb_true_iff, IH. split.
    + intros [H1 H2] x [<- | Hx]; auto.
    + intros H. split; [apply H; now left | intros x Hx; apply H; now right].
Qed.

(** What [lstrip] removes is white space, and what it leaves does not
    start with white space. *)
Lemma lstrip_spec s :
  exists a,
    s = a ++ lstrip s /\ all_chars isspace a = true
    /\ forall c, head (lstrip s) = Some c -> isspace c = false.
Proof.
  induction s as [|c s (a & Hs & Ha & Hh)].
  - exists []. split; [reflexivity|]. split; [reflexivity|]. intros c [=].
  - cbn [lstrip]. destruct (isspace c) eqn:E.
    + exists (c :: a). split; [cbn [app]; now f_equal|]. split; [|exact Hh].
      cbn [all_chars]. now rewrite E.
    + exists []. split; [reflexivity|]. split; [reflexivity|].
      intros x [= <-]. exact E.
Qed.

(** The same at the other end. *)
Lemma rstrip_spec s :
  exists b,
    s = rstrip s ++ b /\ all_chars isspace b = true
    /\ (forall c, last (rstrip s) = Some c -> isspace c = false)
    /\ (rstrip s <> [] -> head (rstrip s) = head s).
Proof.
  induction s as [|c s (b & Hs & Hb & Hl & Hh)].
  - exists []. split; [reflexivity|]. split; [reflexivity|].
    split; [intros c [=] | reflexivity].
  - cbn [rstrip]. destruct (rstrip s) as [|x t] eqn:E.
    + destruct (isspace c) eqn:Ec.
      * exists (c :: b). cbn [app] in Hs. subst s.
        split; [reflexivity|]. split; [cbn [all_chars]; now rewrite Ec|].
        split; [intros y [=] | congruence].
      * exists b. cbn [app] in Hs. subst s.
        split; [reflexivity|]. split; [exact Hb|].
        split; [intros y [= <-]; exact Ec | reflexivity].
    + exists b. split; [cbn [app]; now f_equal|]. split; [exact Hb|].
      split; [|reflexivity].
      intros y Hy. apply Hl. exact Hy.
Qed.

(** [strip] removes the white space at both ends and nothing else. *)
Lemma strip_spec s :
  exists a b,
    s = a ++ strip s ++ b /\ blank a /\ blank b
    /\ (forall c, head (strip s) = Some c -> isspace c = false)
    /\ (forall c, last (strip s) = Some c -> isspace c = false).
Proof.
  unfold strip, blank.
  destruct (lstrip_spec s) as (a & Hs & Ha & Hh).
  destruct (rstrip_spec (lstrip s)) as (b & Hs' & Hb & Hl & Hh').
  exists a, b. split; [now rewrite <- Hs'|]. split; [exact Ha|].
  split; [exact Hb|]. split; [|exact Hl].
  intros c Hc. apply Hh. rewrite <- Hh'; [exact Hc|].
  intros E. rewrite E in Hc. discriminate Hc.
Qed.

Lemma upper_app a b : upper (a ++ b) = upper a ++ upper b.
Proof.
  induction a as [|c a IH]; [reflexivity|]. cbn [app upper]. rewrite IH.
  now rewrite app_assoc.
Qed.

Lemma upper_concat s : upper s = concat (map upper_char s).
Proof.
  induction s as [|c s IH]; [reflexivity|]. cbn [upper map concat].
  now rewrite IH.
Qed.

Lemma upper_fixed s :
  (forall c, In c s -> upper_char c = [c]) -> upper s = s.
Proof.
  induction s as [|c s IH]; [reflexivity|]. intros H. cbn [upper].
  rewrite (H c) by now left. rewrite IH; [reflexivity|].
  intros x Hx. apply H. now right.
Qed.

Lemma upper_idem s : upper (upper s) = upper s.
Proof.
  induction s as [|c s IH]; [reflexivity|]. cbn [upper].
  rewrite upper_app, IH.
  f_equal. apply upper_fixed. intros x Hx. now apply (upper_char_idem c).
Qed.

(** What an accepted code is. *)
Lemma validate_currency_Ok code field r :
  validate_currency code field = Ok r <->
  code <> "" /\ r = upper (strip code)
  /\ length r = 3%nat /\ all_chars is_letter r = true.
Proof.
  unfold validate_currency.
  destruct (truthy code) eqn:Ht; cbn [negb].
  2:{ apply truthy_empty in Ht. split; [discriminate|]. now intros [H _]. }
  assert (Hne : code <> "") by (intros ->; discriminate).
  destruct (len (upper (strip code)) =? 3) eqn:Hl; cbn [negb orb].
  - apply len_3 in Hl. rewrite (isalpha_all _ Hl).
    destruct (all_chars is_letter (upper (strip code))) eqn:Ha; cbn [negb].
    + split.
      * intros [= <-]. repeat split; assumption.
      * now intros (_ & -> & _).
    + split; [discriminate|]. intros (_ & -> & _ & Hu). congruence.
  - split; [discriminate|]. intros (_ & -> & Hlen & _).
    apply len_3 in Hlen. congruence.
Qed.

(** What a rejected code is told. *)
Lemma validate_currency_Err code field e :
  validate_currency code field = Err e ->
  exists m, e = SystemExit m /\ is_validation_message m = true.
Proof.
  unfold validate_currency.
  destruct (negb (truthy code)); [intros [= <-]; eauto|].
  destruct (negb _ || negb _); [intros [= <-]; eauto | discriminate].
Qed.

End CurrencyFacts.

(** The methods on strings outside ASCII: [upper] may lengthen a string,
    and letters of every script are letters. *)
Example validate_currency_unicode :
  (* 'ßa' becomes 'SSA' *)
  validate_currency [0xDF; 0x61] "From" = Ok "SSA"
  (* 'äöü' becomes 'ÄÖÜ' *)
  /\ validate_currency [0xE4; 0xF6; 0xFC] "From" = Ok [0xC4; 0xD6; 0xDC]
  (* three CJK ideographs are three letters *)
  /\ validate_currency [0x4E2D; 0x6587; 0x5B57] "To"
     = Ok [0x4E2D; 0x6587; 0x5B57]
  (* a no-break space and a line separator are stripped *)
  /\ validate_currency ([0xA0] ++ "usd" ++ [0x2028]) "To" = Ok "USD"
  /\ validate_currency "us1" "To"
     = Err (SystemExit (MsgNotThreeLetters "To" "US1")).
Proof. repeat split; vm_compute; reflexivity. Qed.

(** C5. [validate_currency] trims its argument (the white space at both
    ends goes, and nothing else) and uppercases it character by character
    (on ASCII: a-z become A-Z, all else stays); it returns that
    normalised code exactly when it is made of exactly three alphabetic
    characters, and in every other case, the empty argument included, it
    fails with an [InvalidArgument] exit. *)
Theorem validate_currency_spec (code field : str) :
  let trimmed := PyStr.strip code in
  let norm := PyStr.upper trimmed in
  let three_letters :=
    length norm = 3%nat /\ PyStr.all_chars PyStr.is_letter norm = true in
  (exists a b,
      code = a ++ trimmed ++ b /\ blank a /\ blank b
      /\ (forall c, head trimmed = Some c -> PyStr.isspace c = false)
      /\ (forall c, last trimmed = Some c -> PyStr.isspace c = false))
  /\ norm = concat (map PyStr.upper_char trimmed)
  /\ (forall c, c < 128 ->
        PyStr.upper_char c
        = [if (97 <=? c) && (c <=? 122) then c - 32 else c])
  /\ PyStr.upper norm = norm
  /\ (forall r, validate_currency code field = Ok r <-> r = norm /\ three_letters)
  /\ (code = "" \/ ~ three_letters <->
        exists m, validate_currency code field = Err (SystemExit m)
                  /\ kind_of m = InvalidArgument)
  /\ (forall e, validate_currency code field = Err e ->
        (code = "" /\ e = SystemExit (MsgCurrencyRequired field))
        \/ (code <> "" /\ e = SystemExit (MsgNotThreeLetters field norm))).
Proof.
  intros trimmed norm three_letters.
  assert (Hok : forall r, validate_currency code field = Ok r <->
                          r = norm /\ three_letters).
  { intros r. unfold validate_currency. fold trimmed. fold norm.
    destruct (PyStr.truthy code) eqn:Ht; cbn [negb].
    - destruct (PyStr.len norm =? 3) eqn:Hl; cbn [negb orb].
      + apply len_3 in Hl.
        rewrite (isalpha_all _ Hl).
        destruct (PyStr.all_chars PyStr.is_letter norm) eqn:Ha; cbn [negb].
        * split; [intros [= <-]; repeat split; assumption|].
          intros [-> _]. reflexivity.
        * split; [discriminate|]. intros [_ [_ H]]. discriminate H.
      + split; [discriminate|]. intros [_ [H _]].
        apply len_3 in H. congruence.
    - apply truthy_empty in Ht. split; [discriminate|].
      intros [_ [Hlen _]]. subst norm trimmed. rewrite Ht in Hlen.
      discriminate Hlen. }
  split; [apply strip_spec|].
  split; [apply upper_concat|].
  split; [exact upper_char_ascii|].
  split; [apply upper_idem|].
  split; [exact Hok|]. split.
  - split.
    + intros Hbad. unfold validate_currency. fold trimmed. fold norm.
      destruct (negb (PyStr.truthy code)) eqn:Ht.
      { eexists; split; reflexivity. }
      destruct (negb (PyStr.len norm =? 3) || negb (PyStr.isalpha norm))
        eqn:Hn.
      { eexists; split; reflexivity. }
      exfalso. bools. destruct Hbad as [He | Hbad];
        [apply truthy_empty in He; congruence|].
      apply Hbad.
      assert (Hl : length norm = 3%nat) by (unfold PyStr.len in *; lia).
      split; [exact Hl|]. now rewrite <- (isalpha_all _ Hl).
    + intros [m [Hm _]].
      destruct (PyStr.truthy code) eqn:Ht;
        [right | left; now apply truthy_empty].
      intros H3.
      pose proof (proj2 (Hok norm) (conj eq_refl H3)) as Hn.
      rewrite Hn in Hm. discriminate Hm.
  - intros e. unfold validate_currency. fold trimmed. fold norm.
    destruct (PyStr.truthy code) eqn:Ht; cbn [negb].
    + destruct (negb (PyStr.len norm =? 3) || negb (PyStr.isalpha norm));
        [|discriminate].
      intros [= <-]. right. split; [|reflexivity].
      intros ->. discriminate Ht.
    + intros [= <-]. left. split; [|reflexivity]. now apply truthy_empty.
Qed.
(** ** Validator: dates *)

Section StrptimeFacts.
Import PyStr Strptime DateFormat.
Context {A : Type}.
Implicit Types (k : Z -> str -> option A) (s rest : str).

Lemma orelse_Some (x y : option A) r :
  orelse x y = Some r -> x = Some r \/ (x = None /\ y = Some r).
Proof. destruct x; simpl; intros H; [left | right]; auto. Qed.

Lemma cls_spec lo hi c :
  cls lo hi c = true <-> char lo <= c <= char hi.
Proof.
  unfold cls. rewrite andb_true_iff, !Z.leb_le. tauto.
Qed.

Lemma ascii_digit_spec c : ascii_digit c = true <-> 48 <= c <= 57.
Proof. unfold ascii_digit. now rewrite cls_spec. Qed.

Lemma re_lit_inv x (kk : str -> option A) s r :
  re_lit x kk s = Some r -> exists rest, s = char x :: rest /\ kk rest = Some r.
Proof.
  destruct s as [|c rest]; simpl; [discriminate|].
  destruct (c =? char x) eqn:E; [|discriminate].
  apply Z.eqb_eq in E. subst. eauto.
Qed.

Lemma re_Y_inv k s r :
  re_Y k s = Some r ->
  exists ys y rest, s = ys ++ rest /\ year_field ys y /\ k y rest = Some r.
Proof.
  destruct s as [|a [|b [|c [|d rest]]]]; simpl; try discriminate.
  destruct (is_digit a && is_digit b && is_digit c && is_digit d) eqn:E;
    [|discriminate].
  intros Hk. bools.
  exists [a; b; c; d]. do 2 eexists.
  split; [reflexivity|]. split; [now constructor | exact Hk].
Qed.

Lemma re_one_inv p k s r :
  re_one p k s = Some r ->
  exists a rest, s = a :: rest /\ p a = true /\ k (dig a) rest = Some r.
Proof.
  destruct s as [|a rest]; simpl; [discriminate|].
  destruct (p a) eqn:E; [|discriminate]. eauto.
Qed.

Lemma re_two_inv p1 p2 k s r :
  re_two p1 p2 k s = Some r ->
  exists a b rest,
    s = a :: b :: rest /\ p1 a = true /\ p2 b = true
    /\ k ((if is_digit a then 10 * dig a else 0) + dig b) rest = Some r.
Proof.
  destruct s as [|a [|b rest]]; simpl; try discriminate.
  destruct (p1 a && p2 b) eqn:E; [|discriminate]. bools. eauto 10.
Qed.

(** A character class of ASCII digits, as bounds on the code and on the
    digit's value. *)
Lemma cls_digit lo hi c :
  48 <= char lo -> char hi <= 57 -> cls lo hi c = true ->
  char lo <= c <= char hi /\ is_digit c = true /\ dig c = c - 48.
Proof.
  intros Hlo Hhi H. apply cls_spec in H.
  destruct (ascii_digit_is_digit c) as [H1 H2]; [lia|].
  split; [exact H|]. split; [exact H1|]. exact H2.
Qed.

Ltac classes :=
  repeat match goal with
    | H : cls _ _ _ = true |- _ =>
        apply cls_digit in H;
        [cbn [char] in H; destruct H as (? & ? & ?) | cbn; lia | cbn; lia]
    | H : ascii_digit _ = true |- _ =>
        apply cls_digit in H;
        [cbn [char] in H; destruct H as (? & ? & ?) | cbn; lia | cbn; lia]
    end.

Ltac fields :=
  constructor; try (apply ascii_digit_spec; lia); auto; try lia.

Lemma re_m_inv k s r :
  re_m k s = Some r ->
  exists ms m rest, s = ms ++ rest /\ month_field ms m /\ k m rest = Some r.
Proof.
  unfold re_m. intros H.
  apply orelse_Some in H as [H | [_ H]];
    [|apply orelse_Some in H as [H | [_ H]]].
  1-2: apply re_two_inv in H as (a & b & rest & -> & Ha & Hb & Hk);
    classes;
    replace (is_digit a) with true in Hk by congruence;
    exists [a; b], (10 * dig a + dig b), rest;
    (split; [reflexivity|]); (split; [|exact Hk]);
    fields.
  - apply re_one_inv in H as (a & rest & -> & Ha & Hk).
    classes.
    exists [a], (dig a), rest.
    split; [reflexivity|]. split; [|exact Hk].
    fields.
Qed.

Lemma re_d_inv k s r :
  re_d k s = Some r ->
  exists ds d rest, s = ds ++ rest /\ day_field ds d /\ k d rest = Some r.
Proof.
  unfold re_d. intros H.
  apply orelse_Some in H as [H | [_ H]];
    [|apply orelse_Some in H as [H | [_ H]];
      [|apply orelse_Some in H as [H | [_ H]];
        [|apply orelse_Some in H as [H | [_ H]]]]].
  - apply re_two_inv in H as (a & b & rest & -> & Ha & Hb & Hk).
    classes.
    replace (is_digit a) with true in Hk by congruence.
    exists [a; b], (10 * dig a + dig b), rest.
    split; [reflexivity|]. split; [|exact Hk].
    apply day_two; try (apply ascii_digit_spec; lia); auto; [|lia].
    left. apply ascii_digit_spec. lia.
  - apply re_two_inv in H as (a & b & rest & -> & Ha & Hb & Hk).
    classes.
    replace (is_digit a) with true in Hk by congruence.
    pose proof (dig_range b).
    exists [a; b], (10 * dig a + dig b), rest.
    split; [reflexivity|]. split; [|exact Hk].
    apply day_two; try (apply ascii_digit_spec; lia); auto; [|lia].
    right. lia.
  - apply re_two_inv in H as (a & b & rest & -> & Ha & Hb & Hk).
    classes.
    replace (is_digit a) with true in Hk by congruence.
    exists [a; b], (10 * dig a + dig b), rest.
    split; [reflexivity|]. split; [|exact Hk].
    apply day_two; try (apply ascii_digit_spec; lia); auto; [|lia].
    left. apply ascii_digit_spec. lia.
  - apply re_one_inv in H as (a & rest & -> & Ha & Hk).
    classes.
    exists [a], (dig a), rest.
    split; [reflexivity|]. split; [|exact Hk].
    apply day_one; [apply ascii_digit_spec|]; lia.
  - apply re_two_inv in H as (a & b & rest & -> & Ha & Hb & Hk).
    apply cls_spec in Ha. cbn [char] in Ha.
    assert (a = 32) by lia. subst a.
    replace (is_digit 32) with false in Hk by (vm_compute; reflexivity).
    classes. cbn in Hk.
    exists [char " "; b], (dig b), rest.
    split; [reflexivity|]. split; [|exact Hk].
    apply day_space; [apply ascii_digit_spec|]; lia.
Qed.

(** The other way round: a well-formed field is matched. *)

Lemma re_Y_complete k ys y rest :
  year_field ys y -> re_Y k (ys ++ rest) = k y rest.
Proof.
  intros [a b c d Ha Hb Hc Hd]. cbn [app re_Y].
  now rewrite Ha, Hb, Hc, Hd.
Qed.

Lemma cls_false lo hi c :
  c < char lo \/ char hi < c -> cls lo hi c = false.
Proof.
  intros H. unfold cls. apply andb_false_iff.
  destruct H; [left | right]; apply Z.leb_gt; lia.
Qed.

Lemma cls_true lo hi c : char lo <= c <= char hi -> cls lo hi c = true.
Proof. intros H. now apply cls_spec. Qed.

Lemma re_m_complete k ms m rest r :
  month_field ms m ->
  k m (char "-" :: rest) = Some r ->
  re_m k (ms ++ char "-" :: rest) = Some r.
Proof.
  intros [a b Ha Hb Hr | a Ha Hr] Hk;
    unfold re_m, re_two, re_one; cbn [app].
  - classes.
    replace (is_digit a) with true by congruence.
    destruct (cls "1" "1" a && cls "0" "2" b) eqn:E1;
      [now rewrite Hk|].
    destruct (cls "0" "0" a && cls "1" "9" b) eqn:E2;
      [now rewrite Hk|].
    exfalso.
    apply andb_false_iff in E1, E2. unfold cls in *. cbn [char] in *.
    destruct E1 as [E1|E1], E2 as [E2|E2];
      apply andb_false_iff in E1, E2;
      destruct E1 as [E1|E1], E2 as [E2|E2]; bools; lia.
  - classes.
    rewrite (cls_false "0" "2" (char "-")) by (cbn; lia).
    rewrite (cls_false "1" "9" (char "-")) by (cbn; lia).
    rewrite !andb_false_r. cbn [orelse].
    rewrite (cls_true "1" "9" a) by (cbn [char]; lia). exact Hk.
Qed.

Lemma re_d_complete k ds d r :
  day_field ds d ->
  k d "" = Some r ->
  re_d k ds = Some r.
Proof.
  intros [a b Ha Hb Hor Hr | a Ha Hr | a Ha Hr] Hk;
    unfold re_d, re_two, re_one.
  - classes. pose proof (dig_range b) as Rb.
    replace (is_digit a) with true by congruence.
    destruct (cls "3" "3" a && cls "0" "1" b) eqn:E1;
      [now rewrite Hk|].
    destruct (cls "1" "2" a && is_digit b) eqn:E2; [now rewrite Hk|].
    destruct (cls "0" "0" a && cls "1" "9" b) eqn:E3;
      [now rewrite Hk|].
    exfalso. rewrite Hb, andb_true_r in E2.
    apply andb_false_iff in E1, E3. unfold cls in *. cbn [char] in *.
    destruct Hor as [Hor | Hor].
    + apply ascii_digit_spec in Hor.
      destruct (ascii_digit_is_digit b Hor) as [_ Db].
      destruct E1 as [E1|E1], E3 as [E3|E3];
        apply andb_false_iff in E1, E2, E3;
        destruct E1 as [E1|E1], E2 as [E2|E2], E3 as [E3|E3]; bools; lia.
    + apply andb_false_iff in E2. destruct E2 as [E2|E2]; bools; lia.
  - classes. cbn [orelse].
    rewrite (cls_true "1" "9" a) by (cbn [char]; lia). now rewrite Hk.
  - classes. cbn [char].
    rewrite (cls_false "3" "3" 32), (cls_false "1" "2" 32),
      (cls_false "0" "0" 32), (cls_false "1" "9" 32) by (cbn; lia).
    cbn [andb orelse].
    rewrite (cls_true " " " " 32) by (cbn; lia).
    rewrite (cls_true "1" "9" a) by (cbn [char]; lia).
    replace (is_digit 32) with false by (vm_compute; reflexivity).
    cbn. now rewrite ?Hk.
Qed.

End StrptimeFacts.

Section ParseDateFacts.
Import PyStr Strptime DateFormat.

Lemma year_field_range ys y : year_field ys y -> 0 <= y <= 9999.
Proof.
  intros [a b c d Ha Hb Hc Hd].
  pose proof (dig_range a). pose proof (dig_range b).
  pose proof (dig_range c). pose proof (dig_range d). lia.
Qed.

Lemma month_field_range ms m : month_field ms m -> 1 <= m <= 12.
Proof.
  intros [a b Ha Hb Hr | a Ha Hr]; [|pose proof (dig_range a)]; lia.
Qed.

Lemma day_field_range ds d : day_field ds d -> 1 <= d <= 31.
Proof.
  intros [a b Ha Hb Hor Hr | a Ha Hr | a Ha Hr];
    try pose proof (dig_range a); lia.
Qed.

Lemma regex_match_lenient s y m d :
  regex_match s = Some (y, m, d, "") <-> lenient_ymd s y m d.
Proof.
  unfold regex_match, lenient_ymd. split.
  - intros H.
    apply re_Y_inv in H as (ys & y' & r1 & -> & Hy & H).
    apply re_lit_inv in H as (r2 & -> & H).
    apply re_m_inv in H as (ms & m' & r3 & -> & Hm & H).
    apply re_lit_inv in H as (r4 & -> & H).
    apply re_d_inv in H as (ds & d' & r5 & -> & Hd & H).
    injection H as -> -> -> ->.
    exists ys, ms, ds. rewrite app_nil_r. auto.
  - intros (ys & ms & ds & -> & Hy & Hm & Hd).
    rewrite (re_Y_complete _ ys y _ Hy).
    change ("-" ++ ms ++ "-" ++ ds)
      with (char "-" :: (ms ++ char "-" :: ds)).
    cbn [re_lit]. rewrite Z.eqb_refl.
    apply (re_m_complete _ ms m); [exact Hm|].
    cbn [re_lit]. rewrite Z.eqb_refl.
    now apply (re_d_complete _ ds d).
Qed.

Lemma regex_match_functional s y m d y' m' d' :
  lenient_ymd s y m d -> lenient_ymd s y' m' d' ->
  y = y' /\ m = m' /\ d = d'.
Proof.
  intros H H'. apply regex_match_lenient in H, H'.
  rewrite H in H'. now injection H' as -> -> ->.
Qed.

Lemma datetime_ymd_Ok y m d dt :
  datetime_ymd y m d = Ok dt <->
  (1 <= y <= 9999 /\ 1 <= m <= 12 /\ 1 <= d <= Calendar.days_in_month y m
   /\ dt = mk_datetime (Calendar.ymd2ord y m d) 0).
Proof.
  unfold datetime_ymd, Calendar.MINYEAR, Calendar.MAXYEAR.
  destruct (negb ((1 <=? y) && (y <=? 9999))) eqn:Ey.
  { split; [discriminate|]. intros (Hy & _).
    apply negb_true_iff, andb_false_iff in Ey as [E|E]; bools; lia. }
  destruct (negb ((1 <=? m) && (m <=? 12))) eqn:Em.
  { split; [discriminate|]. intros (_ & Hm & _).
    apply negb_true_iff, andb_false_iff in Em as [E|E]; bools; lia. }
  destruct (negb ((1 <=? d) && (d <=? Calendar.days_in_month y m))) eqn:Ed.
  { split; [discriminate|]. intros (_ & _ & Hd & _).
    apply negb_true_iff, andb_false_iff in Ed as [E|E]; bools; lia. }
  bools. split.
  - intros [= <-]. repeat split; lia.
  - intros (_ & _ & _ & ->). reflexivity.
Qed.

(** What an accepted date string is. *)
Lemma parse_date_lenient s field dt :
  parse_date s field = Ok dt <->
  exists y m d,
    lenient_ymd s y m d
    /\ 1 <= y /\ d <= Calendar.days_in_month y m
    /\ dt = mk_datetime (Calendar.ymd2ord y m d) 0.
Proof.
  unfold parse_date, strptime. split.
  - destruct (regex_match s) as [[[[y m] d] rest]|] eqn:E; [|discriminate].
    destruct (truthy rest) eqn:Hr; [discriminate|].
    apply truthy_empty in Hr. subst rest.
    destruct (datetime_ymd y m d) as [dt'|] eqn:Hd; [|discriminate].
    intros [= <-]. apply datetime_ymd_Ok in Hd as (Hy & Hm & Hdd & ->).
    apply regex_match_lenient in E.
    exists y, m, d. repeat split; try assumption; lia.
  - intros (y & m & d & Hl & Hy & Hd & ->).
    pose proof Hl as (ys & ms & ds & _ & Fy & Fm & Fd).
    apply year_field_range in Fy. apply month_field_range in Fm.
    apply day_field_range in Fd.
    apply regex_match_lenient in Hl. rewrite Hl. cbn [truthy].
    assert (Hok : datetime_ymd y m d
                  = Ok (mk_datetime (Calendar.ymd2ord y m d) 0)).
    { apply datetime_ymd_Ok. repeat split; lia. }
    now rewrite Hok.
Qed.

Lemma parse_date_Err s field e :
  parse_date s field = Err e -> e = SystemExit (MsgBadDate field s).
Proof.
  unfold parse_date. destruct (strptime s); [discriminate|].
  now intros [= <-].
Qed.

End ParseDateFacts.

(** C4, as the code has it. [parse_date] succeeds exactly on the strings
    made of a year in four decimal digits (of any script: [\d] matches
    them all), a hyphen, a month from 1 to 12 written with one or two of
    the characters 0 to 9, a hyphen and a day from 1 to 31 written with one
    or two digits (the second of any script after a 1 or a 2) or with a
    space and one digit, with nothing before or after, whose three numbers
    name a calendar day of a year from 1 on; it then returns midnight of
    that day. On every other string it fails with an [InvalidArgument]
    exit that quotes the field name and the string. *)
Theorem parse_date_spec (s field : str) :
  (forall dt,
      parse_date s field = Ok dt <->
      exists y m d,
        DateFormat.lenient_ymd s y m d
        /\ 1 <= y /\ d <= Calendar.days_in_month y m
        /\ dt = mk_datetime (Calendar.ymd2ord y m d) 0)
  /\ ((forall dt, parse_date s field <> Ok dt) <->
      parse_date s field = Err (SystemExit (MsgBadDate field s)))
  /\ kind_of (MsgBadDate field s) = InvalidArgument.
Proof.
  split; [|split; [|reflexivity]].
  - intros dt. apply parse_date_lenient.
  - unfold parse_date. destruct (Strptime.strptime s) as [dt|e].
    + split; [intros H; now destruct (H dt) | discriminate].
    + split; [reflexivity | intros _ dt; discriminate].
Qed.

(** C4, as the specification words it, fails in both directions: a date
    written without zero padding is accepted, and so is one whose year is
    written in full-width digits, while a string in the strict form that
    names no calendar day is rejected.  (Full-width digits in the month
    are not accepted.) *)
Lemma parse_date_not_strict :
  (DateFormat.strict_ymd "2025-1-5" = false
   /\ parse_date "2025-1-5" "date"
      = Ok (mk_datetime (Calendar.ymd2ord 2025 1 5) 0))
  /\ (DateFormat.strict_ymd ([0xFF12; 0xFF10; 0xFF12; 0xFF15] ++ "-01-01")
      = false
      /\ parse_date ([0xFF12; 0xFF10; 0xFF12; 0xFF15] ++ "-01-01") "date"
         = Ok (mk_datetime (Calendar.ymd2ord 2025 1 1) 0)
      /\ parse_date ("2025-" ++ [0xFF10; 0xFF11] ++ "-01") "date"
         = Err (SystemExit
                  (MsgBadDate "date" ("2025-" ++ [0xFF10; 0xFF11] ++ "-01"))))
  /\ (DateFormat.strict_ymd "2025-02-30" = true
      /\ parse_date "2025-02-30" "date"
         = Err (SystemExit (MsgBadDate "date" "2025-02-30"))).
Proof. repeat split; vm_compute; reflexivity. Qed.
(** ** Service client *)

Section ServiceFacts.
Variable service : list (str * str) -> str -> str -> post_outcome.

Lemma call_service_envelope url key w kvs :
  envelope_reply (service (posts w) url key) kvs ->
  call_service service url key w =
    let err := default PNone (dict_get kvs "error") in
    if truthy err
    then (Err (SystemExit (MsgService err)),
          logged (posted w url key) (LogService url err))
    else (Ok (PDict kvs), posted w url key).
Proof.
  intros (resp & Ho & Hok & Hb).
  unfold call_service, bind, requests_post. rewrite Ho.
  rewrite Hok. cbn [negb]. rewrite Hb. cbn zeta.
  destruct (truthy (default PNone (dict_get kvs "error"))); reflexivity.
Qed.

Lemma truthy_str s : truthy (PStr s) = true <-> s <> "".
Proof. destruct s; simpl; split; congruence. Qed.

End ServiceFacts.

(** C6, as the code has it. When the reply is a JSON object,
    [call_service] fails with a [ServiceError] exit that carries the value
    of the error field, after logging it, exactly when that value is true
    in Python's sense, which for a str means non-empty; an absent error
    field counts as [None]. When the value is false (the empty str
    included) the object is returned unchanged. *)
Theorem call_service_error_field
    (service : list (str * str) -> str -> str -> post_outcome)
    (url key : str) (w : world) (kvs : list (str * pyval)) :
  envelope_reply (service (posts w) url key) kvs ->
  let err := default PNone (dict_get kvs "error") in
  let r := call_service service url key w in
  (truthy err = true <-> r.1 = Err (SystemExit (MsgService err)))
  /\ (truthy err = true -> r.2 = logged (posted w url key) (LogService url err))
  /\ (truthy err = false <-> r.1 = Ok (PDict kvs))
  /\ kind_of (MsgService err) = ServiceError
  /\ (forall s, err = PStr s -> (truthy err = true <-> s <> "")).
Proof.
  intros H err r. subst r. rewrite (call_service_envelope _ _ _ _ _ H).
  fold err. cbn zeta.
  assert (Hstr : forall s, err = PStr s -> (truthy err = true <-> s <> "")).
  { intros s ->. apply truthy_str. }
  destruct (truthy err) eqn:E; cbn [fst snd].
  - split; [split; reflexivity|]. split; [reflexivity|].
    split; [split; discriminate|]. split; [reflexivity | exact Hstr].
  - split; [split; discriminate|]. split; [discriminate|].
    split; [split; reflexivity|]. split; [reflexivity | exact Hstr].
Qed.

Lemma call_service_error_field_witness :
  (call_service (reply_with_error (PStr "invalid currency")) "u" "k"
     empty_world).1
  = Err (SystemExit (MsgService (PStr "invalid currency"))).
Proof.
  apply (call_service_error_field
           (reply_with_error (PStr "invalid currency")) "u" "k" empty_world
           [("error", PStr "invalid currency"); ("data", PNone)]).
  - eexists. repeat split; reflexivity.
  - reflexivity.
Defined.

(** C6, as the specification words it, fails: an error value that is not
    a str at all, such as [true], also ends in a [ServiceError]. *)
Lemma call_service_error_not_string :
  (call_service (reply_with_error (PBool true)) "u" "k" empty_world).1
    = Err (SystemExit (MsgService (PBool true)))
  /\ kind_of (MsgService (PBool true)) = ServiceError
  /\ ~ (exists s, dict_get [("error", PBool true); ("data", PNone)] "error"
                  = Some (PStr s) /\ s <> "").
Proof.
  split; [reflexivity|]. split; [reflexivity|].
  intros (s & H & _). discriminate H.
Qed.

(** C10. A JSON object without an "error" key, or with an error value that
    is false in Python's sense ([None], [False], 0, the empty str,
    list or object), is a success: [call_service] returns the object itself
    and raises nothing. *)
Theorem call_service_missing_or_falsy_error
    (service : list (str * str) -> str -> str -> post_outcome)
    (url key : str) (w : world) (kvs : list (str * pyval)) :
  envelope_reply (service (posts w) url key) kvs ->
  dict_get kvs "error" = None
  \/ (exists v, dict_get kvs "error" = Some v /\ truthy v = false) ->
  call_service service url key w = (Ok (PDict kvs), posted w url key).
Proof.
  intros H Herr. rewrite (call_service_envelope _ _ _ _ _ H). cbn zeta.
  destruct Herr as [-> | (v & -> & Hv)]; simpl.
  - reflexivity.
  - now rewrite Hv.
Qed.

Lemma call_service_missing_or_falsy_error_witness :
  call_service (fun _ _ _ =>
                  PostReturns (mk_response 200 "(body)"
                                 (Some (PDict [("data", PNone)]))))
    "u" "k" empty_world
  = (Ok (PDict [("data", PNone)]), posted empty_world "u" "k")
  /\ call_service (reply_with_error PNone) "u" "k" empty_world
     = (Ok (PDict [("error", PNone); ("data", PNone)]),
        posted empty_world "u" "k").
Proof.
  split.
  - apply call_service_missing_or_falsy_error.
    + eexists. repeat split; reflexivity.
    + left. reflexivity.
  - apply (call_service_missing_or_falsy_error (reply_with_error PNone)).
    + eexists. repeat split; reflexivity.
    + right. exists PNone. split; reflexivity.
Defined.

(** ** Output files: the path of a result *)

Section PathFacts.
Import PyStr.

Lemma eqb_eq a b : eqb a b = true <-> a = b.
Proof.
  revert b. induction a as [|x a IH]; intros [|y b]; cbn;
    try (split; [discriminate | congruence]); [tauto|].
  rewrite andb_true_iff, Z.eqb_eq, IH. split; [intros [-> ->] | intros [= -> ->]]; auto.
Qed.

Lemma eqb_refl a : eqb a a = true.
Proof. now apply eqb_eq. Qed.

Lemma eqb_neq a b : eqb a b = false <-> a <> b.
Proof.
  rewrite <- eqb_eq. destruct (eqb a b); split; congruence.
Qed.

Lemma split_from_plain cur s :
  (forall c, In c s -> c <> 47) -> Path.split_from cur s = [cur ++ s].
Proof.
  revert cur. induction s as [|c s IH]; intros cur H; cbn [Path.split_from].
  - now rewrite app_nil_r.
  - assert (Hc : c <> 47) by (apply H; now left).
    cbn [char]. apply Z.eqb_neq in Hc. rewrite Hc.
    rewrite IH by (intros x Hx; apply H; now right).
    now rewrite <- app_assoc.
Qed.

(** A name without a slash is put into the directory as it is. *)
Lemma join_plain name :
  (forall c, In c name -> c <> 47) -> name <> "" -> name <> "." ->
  Path.join DATA_DIR name = "data/" ++ name.
Proof.
  intros H Hne Hdot. unfold Path.join.
  destruct name as [|c name']; [congruence|].
  assert (Hc : c <> 47) by (apply H; now left).
  cbn [char]. apply Z.eqb_neq in Hc. rewrite Hc.
  unfold Path.parts at 2, Path.split.
  rewrite split_from_plain by exact H. cbn [app List.filter].
  apply eqb_neq in Hne, Hdot. rewrite Hne, Hdot. cbn [negb andb].
  reflexivity.
Qed.

Lemma name_char_spec c :
  name_char c = true <-> c <> 47 /\ c <> 0 /\ Path.fs_char c = true.
Proof.
  unfold name_char. rewrite !andb_true_iff, !negb_true_iff, !Z.eqb_neq.
  tauto.
Qed.

Lemma letter_name_char c : is_letter c = true -> name_char c = true.
Proof.
  intros H. apply letter_plain in H as [H1 H2]. apply name_char_spec.
  split; [lia|]. split; [lia|]. unfold Path.fs_char. now rewrite H2.
Qed.

Lemma digit_name_char c : is_digit c = true -> name_char c = true.
Proof.
  intros H. apply digit_plain in H as [H1 H2]. apply name_char_spec.
  split; [lia|]. split; [lia|]. unfold Path.fs_char. now rewrite H2.
Qed.

Lemma plain_name_app a b : plain_name a -> plain_name b -> plain_name (a ++ b).
Proof.
  unfold plain_name. intros Ha Hb. now rewrite all_chars_app, Ha, Hb.
Qed.

Lemma plain_name_letters s :
  all_chars is_letter s = true -> plain_name s.
Proof.
  unfold plain_name. rewrite !all_chars_In. intros H c Hc.
  apply letter_name_char. auto.
Qed.

(** The file name made of three plain parts is plain, and is neither
    empty nor a dot. *)
Lemma file_name_plain f t d :
  plain_name f -> plain_name t -> plain_name d ->
  let fname := f ++ "_" ++ t ++ "_" ++ d ++ ".json" in
  plain_name fname /\ fname <> "" /\ fname <> ".".
Proof.
  intros Hf Ht Hd fname. split; [|split].
  - subst fname. repeat apply plain_name_app; try assumption; reflexivity.
  - subst fname. intros E. apply (f_equal (@length Z)) in E.
    rewrite !length_app in E. cbn in E. lia.
  - subst fname. intros E. apply (f_equal (@length Z)) in E.
    rewrite !length_app in E. cbn in E. lia.
Qed.

Lemma plain_name_chars s :
  plain_name s ->
  (forall c, In c s -> c <> 47)
  /\ all_chars Path.fs_char s = true /\ existsb (Z.eqb 0) s = false.
Proof.
  unfold plain_name. intros H. rewrite all_chars_In in H.
  split; [|split].
  - intros c Hc. now apply H, name_char_spec in Hc.
  - apply all_chars_In. intros c Hc. now apply H, name_char_spec in Hc.
  - destruct (existsb (Z.eqb 0) s) eqn:E; [|reflexivity].
    apply existsb_exists in E as (c & Hc & E). apply Z.eqb_eq in E. subst c.
    apply H, name_char_spec in Hc. now destruct Hc as (_ & Hc & _).
Qed.

(** [save_json] on plain names: the file is [data/FROM_TO_date.json]. *)
Lemma save_json_plain payload f t d w :
  plain_name f -> plain_name t -> plain_name d ->
  save_json payload f t d w = save_outcome payload (json_path f t d) w.
Proof.
  intros Hf Ht Hd.
  destruct (file_name_plain f t d Hf Ht Hd) as (Hp & Hne & Hdot).
  cbv zeta in Hp, Hne, Hdot.
  destruct (plain_name_chars _ Hp) as (Hslash & Hfs & Hnul).
  unfold save_json, save_outcome, bind, mkdir.
  destruct (fs w (files w) (Mkdir DATA_DIR)); [|reflexivity]. cbn [negb].
  rewrite (join_plain _ Hslash Hne Hdot).
  change ("data/" ++ f ++ "_" ++ t ++ "_" ++ d ++ ".json")
    with (json_path f t d).
  unfold write_file.
  assert (Hfs' : all_chars Path.fs_char (json_path f t d) = true).
  { unfold json_path. rewrite all_chars_app, Hfs. reflexivity. }
  assert (Hnul' : existsb (Z.eqb 0) (json_path f t d) = false).
  { unfold json_path. rewrite existsb_app. rewrite Hnul. reflexivity. }
  rewrite Hfs', Hnul'. cbn [negb].
  destruct (fs w (files w) (Open (json_path f t d))); [|reflexivity].
  cbn [negb].
  destruct (fs w (files w) (Write (json_path f t d))); [|reflexivity].
  cbn [negb]. destruct (encodable payload); reflexivity.
Qed.

(** An accepted currency code and an accepted date are plain names. *)
Lemma validate_currency_plain code field r :
  validate_currency code field = Ok r -> plain_name r.
Proof.
  intros H. apply validate_currency_Ok in H as (_ & _ & _ & H).
  now apply plain_name_letters.
Qed.

Lemma parse_date_plain s field d : parse_date s field = Ok d -> plain_name s.
Proof.
  intros H. apply parse_date_lenient in H as (y & m & dd & H & _).
  destruct H as (ys & ms & ds & -> & Hy & Hm & Hd).
  assert (Dg : forall c, DateFormat.ascii_digit c = true -> name_char c = true).
  { intros c Hc. apply digit_name_char. apply ascii_digit_spec in Hc.
    now apply ascii_digit_is_digit. }
  unfold plain_name.
  destruct Hy as [a b c e Ha Hb Hc He].
  destruct Hm as [a1 b1 Ha1 Hb1 _ | a1 Ha1 _];
    destruct Hd as [a2 b2 Ha2 Hb2 _ _ | a2 Ha2 _ | a2 Ha2 _];
    cbn [app all_chars char];
    rewrite ?(digit_name_char _ Ha), ?(digit_name_char _ Hb),
      ?(digit_name_char _ Hc), ?(digit_name_char _ He),
      ?(Dg _ Ha1), ?(Dg _ Hb1), ?(Dg _ Ha2), ?(digit_name_char _ Hb2);
    reflexivity.
Qed.

End PathFacts.
(** ** Orchestrator: one query *)

Section RunOneFacts.
Variable service : list (str * str) -> str -> str -> post_outcome.

(** [call_service] neither prints nor writes a file, and the only
    exception it raises is [SystemExit]. *)
Lemma call_service_effects url key w r w' :
  call_service service url key w = (r, w') ->
  files w' = files w /\ stdout w' = stdout w /\ fs w' = fs w
  /\ (forall e, r = Err e ->
        exists m, e = SystemExit m /\ is_service_message m = true).
Proof.
  unfold call_service, bind, requests_post, logger_error, raise, ret.
  destruct (service (posts w) url key) as [e0 | resp]; cbn.
  - intros [= <- <-]. cbn. repeat split. intros e [= <-]. eauto.
  - destruct (resp_ok resp); cbn.
    + destruct (json_body resp) as [payload|]; cbn.
      * destruct payload as [ | | | | | | kvs]; cbn;
          try (intros [= <- <-]; cbn; repeat split;
               intros e [= <-]; eauto).
        destruct (truthy (default PNone (dict_get kvs "error"))); cbn;
          intros [= <- <-]; cbn; repeat split;
          intros e; try discriminate; intros [= <-]; eauto.
      * intros [= <- <-]. cbn. repeat split. intros e [= <-]. eauto.
    + intros [= <- <-]. cbn. repeat split. intros e [= <-]. eauto.
Qed.

Lemma warn_effects d enabled w :
  exists l,
    warn_if_out_of_range d enabled w = (Ok tt, printed w l)
    /\ List.filter is_outcome l = [].
Proof.
  unfold warn_if_out_of_range, printed.
  destruct (negb enabled).
  - exists []. rewrite app_nil_r. destruct w; auto.
  - destruct (negb (dt_leb RANGE_FIRST d && dt_leb d RANGE_LAST)).
    + eexists [_]. split; reflexivity.
    + exists []. rewrite app_nil_r. destruct w; auto.
Qed.

(** A payload that [call_service] returns is a JSON object of the service
    with a false error value, and nothing but the request has happened. *)
Lemma call_service_Ok url key w p w' :
  call_service service url key w = (Ok p, w') ->
  w' = posted w url key
  /\ exists kvs,
       p = PDict kvs
       /\ envelope_reply (service (posts w) url key) kvs
       /\ truthy (default PNone (dict_get kvs "error")) = false.
Proof.
  unfold call_service, bind, requests_post, logger_error, raise, ret.
  destruct (service (posts w) url key) as [e0 | resp] eqn:Eo; cbn;
    [discriminate|].
  destruct (resp_ok resp) eqn:Eok; cbn; [|discriminate].
  destruct (json_body resp) as [payload|] eqn:Eb; cbn; [|discriminate].
  destruct payload as [ | | | | | | kvs]; cbn; try discriminate.
  destruct (truthy (default PNone (dict_get kvs "error"))) eqn:Et; cbn;
    [discriminate|].
  intros [= <- <-]. split; [reflexivity|].
  exists kvs. split; [reflexivity|]. split; [|exact Et].
  exists resp. auto.
Qed.

Lemma call_service_posts url key w :
  posts (call_service service url key w).2 = posts w ++ [(url, key)]
  /\ (forall p, (call_service service url key w).1 = Ok p ->
        log (call_service service url key w).2 = log w).
Proof.
  unfold call_service, bind, requests_post, logger_error, raise, ret.
  destruct (service (posts w) url key) as [e0 | resp]; cbn;
    [split; [reflexivity | discriminate]|].
  destruct (resp_ok resp); cbn; [|split; [reflexivity | discriminate]].
  destruct (json_body resp) as [payload|]; cbn;
    [|split; [reflexivity | discriminate]].
  destruct payload as [ | | | | | | kvs]; cbn;
    try (split; [reflexivity | discriminate]).
  destruct (truthy (default PNone (dict_get kvs "error"))); cbn;
    split; try reflexivity; discriminate.
Qed.

Lemma warn_prints d enabled w :
  warn_if_out_of_range d enabled w
  = (Ok tt, printed w (range_warning d enabled)).
Proof.
  unfold warn_if_out_of_range, range_warning, printed.
  destruct enabled; cbn [negb andb].
  - destruct (negb (dt_leb RANGE_FIRST d && dt_leb d RANGE_LAST));
      [reflexivity|].
    unfold ret. rewrite app_nil_r. now destruct w.
  - unfold ret. rewrite app_nil_r. now destruct w.
Qed.

(** What saving does to the output directory. *)
Lemma save_outcome_effects payload path w r w' :
  save_outcome payload path w = (r, w') ->
  stdout w' = stdout w /\ log w' = log w /\ posts w' = posts w
  /\ fs w' = fs w
  /\ match r with
     | Ok p =>
         p = path /\ encodable payload = true
         /\ files w' = <[path := FileJson payload]> (files w)
     | Err e =>
         (e = OSError /\ w' = w /\ ~ willing w)
         \/ (e = UnicodeEncodeError /\ encodable payload = false
             /\ files w' = <[path := FileCut payload]> (files w))
         \/ (e = OSError /\ ~ willing w
             /\ files w' = <[path := FileCut payload]> (files w))
     end.
Proof.
  unfold save_outcome.
  destruct (fs w (files w) (Mkdir DATA_DIR)) eqn:E1; cbn [negb].
  2:{ intros [= <- <-]. repeat split. left. repeat split.
      intros W. rewrite W in E1. discriminate E1. }
  destruct (fs w (files w) (Open path)) eqn:E2; cbn [negb].
  2:{ intros [= <- <-]. repeat split. left. repeat split.
      intros W. rewrite W in E2. discriminate E2. }
  destruct (fs w (files w) (Write path)) eqn:E3; cbn [negb].
  2:{ intros [= <- <-]. repeat split. right. right. repeat split.
      intros W. rewrite W in E3. discriminate E3. }
  destruct (encodable payload) eqn:E; intros [= <- <-]; cbn; auto 10.
Qed.

(** The pipeline, stage by stage. *)
Lemma run_one_cases from_cur to_cur date_str base_url api_key warn w :
  run_one service from_cur to_cur date_str base_url api_key warn w
  = match validate_currency from_cur "From" with
    | Err e => (Err e, w)
    | Ok f =>
        match validate_currency to_cur "To" with
        | Err e => (Err e, w)
        | Ok t =>
            match parse_date date_str "date" with
            | Err e => (Err e, w)
            | Ok d =>
                let url := build_url base_url f t (Some date_str) in
                let w1 :=
                  printed w (range_warning d warn ++ [OutRequesting url]) in
                match call_service service url api_key w1 with
                | (Ok payload, w2) =>
                    match save_outcome payload (json_path f t date_str) w2
                    with
                    | (Ok p, w3) => (Ok tt, printed w3 [OutSaved p])
                    | (Err e, w3) => (Err e, w3)
                    end
                | (Err e, w2) => (Err e, w2)
                end
            end
        end
    end.
Proof.
  unfold run_one, bind, lift.
  destruct (validate_currency from_cur "From") as [f|] eqn:Hf; [|reflexivity].
  destruct (validate_currency to_cur "To") as [t|] eqn:Ht; [|reflexivity].
  destruct (parse_date date_str "date") as [d|] eqn:Hd; [|reflexivity].
  rewrite warn_prints. unfold print at 1, printed.
  cbn [files stdout log posts fs].
  rewrite <- app_assoc.
  destruct (call_service service _ api_key _) as [[payload|e] w2];
    [|reflexivity].
  rewrite save_json_plain
    by eauto using validate_currency_plain, parse_date_plain.
  destruct (save_outcome payload (json_path f t date_str) w2)
    as [[p|e] w3]; reflexivity.
Qed.

(** What one run of the pipeline does to the output directory and to the
    console. *)
Lemma run_one_effects from_cur to_cur date_str base_url api_key warn w :
  forall r w',
    run_one service from_cur to_cur date_str base_url api_key warn w
    = (r, w') ->
    exists l,
      stdout w' = stdout w ++ l /\ fs w' = fs w /\
      match r with
      | Ok _ =>
          exists f t payload w1 w2,
            answered service from_cur to_cur date_str base_url api_key w
              f t payload w1 w2
            /\ encodable payload = true
            /\ files w' = <[json_path f t date_str := FileJson payload]> (files w)
            /\ List.filter is_outcome l
               = [OutSaved (json_path f t date_str)]
      | Err e =>
          List.filter is_outcome l = []
          /\ ((files w' = files w
               /\ exists m, e = SystemExit m
                            /\ (is_validation_message m = true
                                \/ is_service_message m = true))
              \/ (exists f t payload w1 w2,
                    answered service from_cur to_cur date_str base_url api_key w
                      f t payload w1 w2
                    /\ ((e = OSError /\ files w' = files w /\ ~ willing w)
                        \/ (e = UnicodeEncodeError
                            /\ encodable payload = false
                            /\ files w'
                               = <[json_path f t date_str := FileCut payload]>
                                   (files w))
                        \/ (e = OSError /\ ~ willing w
                            /\ files w'
                               = <[json_path f t date_str := FileCut payload]>
                                   (files w)))))
      end.
Proof.
  intros r w'. unfold run_one, bind, lift.
  destruct (validate_currency from_cur "From") as [f|e1] eqn:Hf.
  2:{ intros [= <- <-]. exists []. rewrite app_nil_r.
      apply validate_currency_Err in Hf as (m & -> & Hm). eauto 10. }
  destruct (validate_currency to_cur "To") as [t|e2] eqn:Ht.
  2:{ intros [= <- <-]. exists []. rewrite app_nil_r.
      apply validate_currency_Err in Ht as (m & -> & Hm). eauto 10. }
  destruct (parse_date date_str "date") as [d|e3] eqn:Hd.
  2:{ intros [= <- <-]. exists []. rewrite app_nil_r.
      apply parse_date_Err in Hd as ->. eauto 10. }
  destruct (warn_effects d warn w) as (l0 & -> & Hl0).
  unfold print at 1, printed. cbn [files stdout log posts fs].
  set (url := build_url base_url f t (Some date_str)).
  set (w1 := mk_world _ _ _ _ _).
  destruct (call_service service url api_key w1) as [[payload|e4] w2] eqn:Hc.
  - apply call_service_effects in Hc as Hc'.
    destruct Hc' as (Hfiles & Hout & Hfs & _).
    rewrite save_json_plain
      by eauto using validate_currency_plain, parse_date_plain.
    destruct (save_outcome payload (json_path f t date_str) w2)
      as [[p|e5] w3] eqn:Hs.
    + apply save_outcome_effects in Hs as (So & _ & _ & Sf & -> & Se & Sw).
      unfold print. intros [= <- <-]. cbn [files stdout fs].
      exists (l0 ++ [OutRequesting url]
              ++ [OutSaved (json_path f t date_str)]).
      split.
      { rewrite So, Hout. subst w1. cbn [stdout].
        now rewrite <- !app_assoc. }
      split; [now rewrite Sf, Hfs|].
      exists f, t, payload, w1, w2.
      split; [repeat split; assumption|]. split; [exact Se|].
      split; [now rewrite Sw, Hfiles|].
      rewrite !List.filter_app, Hl0. reflexivity.
    + apply save_outcome_effects in Hs as (So & _ & _ & Sf & Se).
      intros [= <- <-].
      exists (l0 ++ [OutRequesting url]). split.
      { rewrite So, Hout. subst w1. cbn [stdout].
        now rewrite <- !app_assoc. }
      split; [now rewrite Sf, Hfs|].
      split; [rewrite List.filter_app, Hl0; reflexivity|].
      right. exists f, t, payload, w1, w2.
      split; [repeat split; assumption|].
      destruct Se as [(-> & -> & Sn) | [(-> & Se & Sw) | (-> & Sn & Sw)]].
      * left. split; [reflexivity|]. split; [exact Hfiles|].
        intros W. apply Sn. intros x op. rewrite Hfs. apply W.
      * right. left. split; [reflexivity|]. split; [exact Se|].
        now rewrite Sw, Hfiles.
      * right. right. split; [reflexivity|]. split.
        { intros W. apply Sn. intros x op. rewrite Hfs. apply W. }
        now rewrite Sw, Hfiles.
  - apply call_service_effects in Hc as (Hfiles & Hout & Hfs & He).
    intros [= <- <-].
    exists (l0 ++ [OutRequesting url]). split.
    { rewrite Hout. subst w1. cbn [stdout]. now rewrite <- !app_assoc. }
    split; [now rewrite Hfs|].
    split; [rewrite List.filter_app, Hl0; reflexivity|].
    left. split; [now rewrite Hfiles|].
    destruct (He e4 eq_refl) as (m & -> & Hm). eauto.
Qed.

End RunOneFacts.

(** C7. A query that fails at a stage before persistence
    (validation of a currency or of the date, network, HTTP status, JSON
    decoding, envelope shape, service error: the failures that are raised
    as [SystemExit]) leaves the output directory as it was.  Any other
    failure is one of writing the file, after [call_service] has returned
    a payload; and the directory changes only then: the one file written
    holds that payload, whole when the run succeeds and cut short when the
    payload cannot be encoded or the file system fails while it is
    written.  With a willing file system and a service whose replies can
    be encoded no write fails, and every failing query leaves the
    directory as it was. *)
Theorem run_one_failure_writes_nothing
    (service : list (str * str) -> str -> str -> post_outcome)
    (from_cur to_cur date_str base_url api_key : str) (warn : bool)
    (w w' : world) (r : res unit) :
  run_one service from_cur to_cur date_str base_url api_key warn w = (r, w') ->
  (forall m, r = Err (SystemExit m) ->
     files w' = files w
     /\ (is_validation_message m = true \/ is_service_message m = true))
  /\ (forall e, r = Err e -> not_an_exit e ->
        exists f t payload w1 w2,
          call_service service (build_url base_url f t (Some date_str))
            api_key w1 = (Ok payload, w2)
          /\ files w1 = files w)
  /\ (files w' <> files w ->
      exists f t payload w1 w2,
        call_service service (build_url base_url f t (Some date_str))
          api_key w1 = (Ok payload, w2)
        /\ files w1 = files w
        /\ ((r = Ok tt
             /\ files w'
                = <[json_path f t date_str := FileJson payload]> (files w))
            \/ ((r = Err UnicodeEncodeError \/ r = Err OSError)
                /\ files w'
                   = <[json_path f t date_str := FileCut payload]> (files w))))
  /\ (willing w -> encodable_replies service ->
      forall e, r = Err e -> files w' = files w).
Proof.
  intros H. apply run_one_effects in H as (l & _ & _ & H).
  destruct r as [[]|e].
  - destruct H as (f & t & payload & w1 & w2 & (_ & _ & Hc & Hw1) & _
                   & Hfiles & _).
    split; [discriminate|]. split; [discriminate|].
    split; [|discriminate].
    intros _. exists f, t, payload, w1, w2. auto.
  - destruct H as (_ & [(Hfiles & m & -> & Hm)
                       | (f & t & payload & w1 & w2 & (_ & _ & Hc & Hw1) & He)]).
    + split; [intros m' [= <-]; auto|].
      split; [intros e [= <-] Hn; now destruct (Hn m)|].
      split; [|auto].
      intros Hne. now destruct Hne.
    + split.
      { intros m [= ->]. destruct He as [[[=] _] | [[[=] _] | [[=] _]]]. }
      split; [intros e' _ _; exists f, t, payload, w1, w2; auto|].
      split.
      { intros Hne. exists f, t, payload, w1, w2.
        split; [exact Hc|]. split; [exact Hw1|].
        destruct He as [(-> & Hf & _) | [(-> & _ & Hf) | (-> & _ & Hf)]];
          [now destruct Hne| |]; right; auto. }
      intros W Henc e' _.
      destruct He as [(_ & Hf & _) | [(_ & Hp & _) | (_ & Hn & _)]];
        [exact Hf| |now destruct Hn].
      apply call_service_Ok in Hc as (_ & kvs & -> & (resp & Ho & _ & Hb) & _).
      rewrite (Henc _ _ _ _ _ Ho Hb) in Hp. discriminate Hp.
Qed.

Lemma run_one_failure_writes_nothing_witness :
  files (run_one (reply_with_error (PStr "invalid currency"))
           "USD" "EUR" "2025-06-01" "http://localhost:8080" "k" false
           empty_world).2
  = files empty_world.
Proof.
  pose proof (run_one_failure_writes_nothing
                (reply_with_error (PStr "invalid currency"))
                "USD" "EUR" "2025-06-01" "http://localhost:8080" "k" false
                empty_world _ _ (surjective_pairing _)) as (H & _).
  eapply H. vm_compute. reflexivity.
Defined.
(** ** Orchestrator: batch mode *)

Section BatchFacts.
Variable service : list (str * str) -> str -> str -> post_outcome.
Variables (from_cur to_cur base_url api_key : str) (warn : bool).

(** The body of the loop of [main]. *)
Let attempt (d : datetime) : M unit :=
  try_except_SystemExit
    (run_one service from_cur to_cur (Fmt.strftime_ymd d) base_url api_key
       warn)
    (fun ex => print (OutFailed (date_of d) ex)).

(** One date: the loop body prints exactly one closing line about that
    date and returns, unless the result file could not be written; then
    it raises, and no closing line is printed. *)
Lemma attempt_cases d w :
  exists l,
    stdout (attempt d w).2 = stdout w ++ l
    /\ fs (attempt d w).2 = fs w
    /\ match (attempt d w).1 with
       | Ok _ =>
           exists o, List.filter is_outcome l = [o] /\ outcome_for d o
       | Err e => List.filter is_outcome l = [] /\ write_failure service w e
       end.
Proof.
  unfold attempt, try_except_SystemExit.
  destruct (run_one service from_cur to_cur (Fmt.strftime_ymd d) base_url
              api_key warn w) as [r w1] eqn:Hr.
  apply run_one_effects in Hr as (l & Hout & Hfs & Hr).
  destruct r as [[]|e].
  - destruct Hr as (f & t & payload & _ & _ & _ & _ & _ & Hl).
    exists l. cbn [fst snd]. split; [exact Hout|]. split; [exact Hfs|].
    exists (OutSaved (json_path f t (Fmt.strftime_ymd d))).
    split; [exact Hl|]. right. eauto.
  - destruct Hr as (Hl & [(_ & m & -> & _)
                         | (f & t & payload & w1' & w2 & Ha & He)]).
    + exists (l ++ [OutFailed (date_of d) m]). cbn [fst snd stdout fs print].
      split; [now rewrite Hout, <- app_assoc|]. split; [exact Hfs|].
      exists (OutFailed (date_of d) m).
      split; [rewrite List.filter_app, Hl; reflexivity|]. left. eauto.
    + assert (Hw : write_failure service w e).
      { destruct He as [(-> & _ & Hn) | [(-> & Hp & _) | (-> & Hn & _)]];
          [left; auto| |left; auto].
        right. split; [reflexivity|]. intros Henc.
        destruct Ha as (_ & _ & Hc & _).
        apply call_service_Ok in Hc as (_ & kvs & -> & (resp & Ho & _ & Hb) & _).
        rewrite (Henc _ _ _ _ _ Ho Hb) in Hp. discriminate Hp. }
      exists l.
      destruct He as [(-> & _) | [(-> & _) | (-> & _)]]; cbn [fst snd]; auto.
Qed.

(** The loop: the dates are handled in order, one closing line each, up to
    the first whose file cannot be written. *)
Lemma for_each_attempt dates :
  forall w,
  exists l k,
    stdout (for_each dates attempt w).2 = stdout w ++ l
    /\ fs (for_each dates attempt w).2 = fs w
    /\ Forall2 outcome_for (take k dates) (List.filter is_outcome l)
    /\ match (for_each dates attempt w).1 with
       | Ok _ => k = length dates
       | Err e => (k < length dates)%nat /\ write_failure service w e
       end.
Proof.
  induction dates as [|d dates IH]; intros w.
  - exists [], 0%nat. cbn. rewrite app_nil_r.
    repeat split. constructor.
  - destruct (attempt_cases d w) as (l1 & Ho1 & Hf1 & H1).
    cbn [for_each]. unfold bind.
    destruct (attempt d w) as [[[]|e] w1] eqn:Ea; cbn [fst snd] in *.
    + destruct H1 as (o & Hl1 & Hd).
      destruct (IH w1) as (l2 & k & Ho2 & Hf2 & Hall & Hr).
      exists (l1 ++ l2), (S k).
      split; [now rewrite Ho2, Ho1, <- app_assoc|].
      split; [now rewrite Hf2|].
      split; [rewrite List.filter_app, Hl1; now constructor|].
      destruct (for_each dates attempt w1).1 as [[]|e].
      * cbn [length]. now rewrite Hr.
      * destruct Hr as (Hk & Hw). split; [cbn [length]; lia|].
        unfold write_failure, willing in *. rewrite Hf1 in Hw. exact Hw.
    + destruct H1 as (Hl1 & Hw).
      exists l1, 0%nat.
      split; [exact Ho1|]. split; [exact Hf1|].
      split; [rewrite Hl1; constructor|].
      split; [cbn [length]; lia | exact Hw].
Qed.

End BatchFacts.

(** Batch mode with complete arguments, dates that parse and a sampler
    that returns: the batch line, then the loop. *)
Lemma main_batch
    (service : list (str * str) -> str -> str -> post_outcome)
    (a : args) (w : world) (s e : datetime) (dates : list datetime) :
  batch_args_given a ->
  parse_date (opt_str (start_date a)) "start-date" = Ok s ->
  parse_date (opt_str (end_date a)) "end-date" = Ok e ->
  evenly_spaced_dates s e (default 0 (num_dates a)) = Ok dates ->
  main service a w
  = for_each dates
      (fun d =>
         try_except_SystemExit
           (run_one service (opt_str (from_cur a)) (opt_str (to_cur a))
              (Fmt.strftime_ymd d) (base_url a) (api_key a)
              (warn_outside_range a))
           (fun ex => print (OutFailed (date_of d) ex)))
      (printed w
         [OutBatch (from_cur a) (to_cur a) (date_of s) (date_of e)
            (length dates)]).
Proof.
  unfold batch_args_given. intros Hargs Hs He Hd.
  unfold main. rewrite Hargs. cbn [negb].
  assert (Hst : opt_truthy (start_date a) = true)
    by (repeat (apply andb_true_iff in Hargs as [Hargs ?]); assumption).
  rewrite Hst. cbn [orb].
  unfold bind at 1, lift at 1. rewrite Hs.
  unfold bind at 1, lift at 1. rewrite He.
  unfold bind at 1, lift at 1. rewrite Hd.
  reflexivity.
Qed.

(** The worked example of the batch: the second connection is dropped,
    and the three dates after it are still queried and saved. *)
Example batch_flaky :
  (main flaky_service batch_args empty_world).1 = Ok tt
  /\ List.filter is_outcome (stdout (main flaky_service batch_args empty_world).2)
     = [OutSaved "data/USD_EUR_2025-01-01.json";
        OutFailed (Calendar.ymd2ord 2025 1 9) (MsgNetwork "timed out");
        OutSaved "data/USD_EUR_2025-01-16.json";
        OutSaved "data/USD_EUR_2025-01-23.json";
        OutSaved "data/USD_EUR_2025-01-31.json"].
Proof. split; vm_compute; reflexivity. Qed.



(** ** Date sampler *)

Section DeltaDays.

(** [(b - a).days] for two [datetime]s. *)
Lemma delta_days_eq a b :
  valid_datetime a -> valid_datetime b ->
  td_days (dt_sub b a)
  = ordinal b - ordinal a + (if tod a <=? tod b then 0 else -1).
Proof.
  intros [_ Ha] [_ Hb]. unfold dt_sub, US_PER_DAY in *. cbn [td_days].
  destruct (tod a <=? tod b) eqn:E; bools.
  - rewrite Z.add_0_r. symmetry. apply (Z.div_unique _ _ _ (tod b - tod a));
      lia.
  - symmetry.
    apply (Z.div_unique _ _ _ (tod b - tod a + 86400000000)); lia.
Qed.

Lemma delta_days_nonneg a b :
  valid_datetime a -> valid_datetime b -> dt_le a b ->
  0 <= td_days (dt_sub b a).
Proof.
  intros Ha Hb Hle. rewrite delta_days_eq by assumption.
  destruct Hle as [H | [H1 H2]]; destruct (tod a <=? tod b) eqn:E;
    bools; lia.
Qed.

Lemma delta_days_bound a b :
  valid_datetime a -> valid_datetime b ->
  td_days (dt_sub b a) <= Calendar.MAXORDINAL - 1.
Proof.
  intros Ha Hb. rewrite delta_days_eq by assumption.
  destruct Ha as [Ha _], Hb as [Hb _].
  destruct (tod a <=? tod b); lia.
Qed.

End DeltaDays.

(** C3. For two dates [start <= end], [evenly_spaced_dates start end 2]
    is the list [[start; end]] itself: the two arguments are returned as
    they are, no offset is computed. *)
Theorem sampler_two_is_endpoints (start end_ : datetime) :
  valid_datetime start -> valid_datetime end_ -> dt_le start end_ ->
  evenly_spaced_dates start end_ 2 = Ok [start; end_].
Proof.
  intros Hs He Hle. unfold evenly_spaced_dates.
  pose proof (delta_days_nonneg _ _ Hs He Hle) as Hd.
  apply Z.ltb_ge in Hd. rewrite Hd. reflexivity.
Qed.

Lemma sampler_two_is_endpoints_witness :
  evenly_spaced_dates day_2025_01_01 day_2025_01_10 2
  = Ok [day_2025_01_01; day_2025_01_10].
Proof.
  apply sampler_two_is_endpoints.
  - unfold valid_datetime. vm_compute. intuition discriminate.
  - unfold valid_datetime. vm_compute. intuition discriminate.
  - left. vm_compute. reflexivity.
Defined.

(** C2 on the code. With [start = end = 2025-01-01] and [n = 2] the date
    comes back twice: the return for [n == 2] is taken before the loop that
    removes repeated dates. With [n = 3] the same dates give the single
    entry. *)
Theorem sampler_same_day_two :
  evenly_spaced_dates day_2025_01_01 day_2025_01_01 2
  = Ok [day_2025_01_01; day_2025_01_01]
  /\ evenly_spaced_dates day_2025_01_01 day_2025_01_01 3
     = Ok [day_2025_01_01].
Proof. split; vm_compute; reflexivity. Qed.

(** C1 on the code. Whatever the date [d], [evenly_spaced_dates d d 2]
    holds [d] twice, so the result is neither strictly ascending nor free
    of repeated dates, although [d <= d] and [2 >= 2]. *)
Theorem sampler_two_repeats_date (d : datetime) :
  evenly_spaced_dates d d 2 = Ok [d; d]
  /\ ~ ascending [d; d]
  /\ ~ NoDup (map date_of [d; d]).
Proof.
  split; [|split].
  - unfold evenly_spaced_dates, dt_sub. cbn [td_days negb].
    replace ((ordinal d - ordinal d) * US_PER_DAY + (tod d - tod d)) with 0
      by lia.
    reflexivity.
  - cbn. lia.
  - cbn. rewrite NoDup_cons. intros [H _]. apply H. left.
Qed.

(* ===================================================================== *)
(** ** Rounding: how far a computed float lies above the exact value *)

Section Rounding.

Lemma digits2_pos_spec p :
  2 ^ (Zpos (digits2_pos p) - 1) <= Zpos p < 2 ^ Zpos (digits2_pos p).
Proof.
  induction p as [p IH | p IH |]; cbn [digits2_pos].
  - rewrite Pos2Z.inj_succ. replace (Z.succ (Z.pos (digits2_pos p)) - 1) with (Z.succ (Z.pos (digits2_pos p) - 1)) by lia.
    rewrite !Z.pow_succ_r by lia. lia.
  - rewrite Pos2Z.inj_succ. replace (Z.succ (Z.pos (digits2_pos p)) - 1) with (Z.succ (Z.pos (digits2_pos p) - 1)) by lia.
    rewrite !Z.pow_succ_r by lia. lia.
  - cbn. lia.
Qed.

Lemma shr_1_m mrs : 0 <= shr_m mrs -> shr_m (shr_1 mrs) = shr_m mrs / 2.
Proof.
  destruct mrs as [m r s]. cbn [shr_m]. intros Hm.
  destruct m as [|[p|p|]|p]; cbn [shr_1 shr_m]; try reflexivity; try lia.
  - apply (Z.div_unique _ _ _ 1); lia.
  - apply (Z.div_unique _ _ _ 0); lia.
Qed.

Lemma pow2_xI p : 2 ^ Zpos p~1 = 2 * (2 ^ Zpos p * 2 ^ Zpos p).
Proof.
  replace (Zpos p~1) with (Zpos p + Zpos p + 1) by lia.
  rewrite !Z.pow_add_r by lia. change (2 ^ 1) with 2. lia.
Qed.

Lemma pow2_xO p : 2 ^ Zpos p~0 = 2 ^ Zpos p * 2 ^ Zpos p.
Proof.
  replace (Zpos p~0) with (Zpos p + Zpos p) by lia.
  now rewrite Z.pow_add_r by lia.
Qed.

Lemma iter_shr_1_m p : forall mrs,
  0 <= shr_m mrs ->
  shr_m (SpecFloat.iter_pos shr_1 p mrs) = shr_m mrs / 2 ^ Zpos p.
Proof.
  assert (Hp : 0 < 2 ^ Zpos p) by (apply Z.pow_pos_nonneg; lia).
  induction p as [p IH | p IH |]; intros mrs Hm; cbn [SpecFloat.iter_pos].
  - assert (Hq : 0 < 2 ^ Zpos p) by (apply Z.pow_pos_nonneg; lia).
    assert (H1 : 0 <= shr_m (shr_1 mrs))
      by (rewrite shr_1_m by assumption; apply Z.div_pos; lia).
    assert (H2 : 0 <= shr_m (SpecFloat.iter_pos shr_1 p (shr_1 mrs)))
      by (rewrite IH by assumption; apply Z.div_pos; lia).
    rewrite IH, IH, shr_1_m by assumption.
    rewrite !Z.div_div by lia. now rewrite pow2_xI.
  - assert (Hq : 0 < 2 ^ Zpos p) by (apply Z.pow_pos_nonneg; lia).
    assert (H2 : 0 <= shr_m (SpecFloat.iter_pos shr_1 p mrs))
      by (rewrite IH by assumption; apply Z.div_pos; lia).
    rewrite IH, IH by assumption.
    rewrite !Z.div_div by lia. now rewrite pow2_xO.
  - rewrite shr_1_m by assumption. reflexivity.
Qed.

Lemma bpow_pos e : (0 < bpow e)%R.
Proof. apply powerRZ_lt. lra. Qed.

Lemma bpow_add a b : bpow (a + b) = (bpow a * bpow b)%R.
Proof. apply powerRZ_add. lra. Qed.

Lemma bpow_IZR n : 0 <= n -> bpow n = IZR (2 ^ n).
Proof.
  intros Hn. destruct n as [|p|p]; [reflexivity | | lia].
  unfold bpow. now rewrite <- Zpower_pos_powerRZ.
Qed.

Lemma bpow_le a b : a <= b -> (bpow a <= bpow b)%R.
Proof.
  intros H. replace b with (a + (b - a)) by lia. rewrite bpow_add.
  rewrite (bpow_IZR (b - a)) by lia.
  assert (H1 : 1 <= 2 ^ (b - a))
    by (pose proof (Z.pow_pos_nonneg 2 (b - a)); lia).
  apply IZR_le in H1. pose proof (bpow_pos a). nra.
Qed.

Lemma shift_le a n e :
  0 <= a -> 0 <= n ->
  (IZR (a / 2 ^ n) * bpow (e + n) <= IZR a * bpow e)%R.
Proof.
  intros Ha Hn. rewrite bpow_add, (bpow_IZR n) by assumption.
  assert (Hp : 0 < 2 ^ n) by (apply Z.pow_pos_nonneg; lia).
  assert (H : a / 2 ^ n * 2 ^ n <= a).
  { rewrite Z.mul_comm. apply Z.mul_div_le. lia. }
  apply IZR_le in H. rewrite mult_IZR in H.
  pose proof (bpow_pos e). nra.
Qed.

Lemma shr_spec mrs e n mrs' e' :
  0 <= shr_m mrs -> shr mrs e n = (mrs', e') ->
  e' = e + Z.max 0 n /\ shr_m mrs' = shr_m mrs / 2 ^ Z.max 0 n.
Proof.
  intros Hm. unfold shr. destruct n as [|p|p]; intros [= <- <-].
  - rewrite Z.add_0_r, Z.div_1_r. auto.
  - rewrite iter_shr_1_m by assumption. split; f_equal; lia.
  - cbn. rewrite Z.add_0_r, Z.div_1_r. auto.
Qed.

Lemma shr_record_of_loc_m m l : shr_m (shr_record_of_loc m l) = m.
Proof. destruct l as [|[]]; reflexivity. Qed.

Lemma rne_bounds m l :
  m <= round_nearest_even m l <= m + 1.
Proof.
  unfold round_nearest_even. destruct l as [|[]]; try destruct (Z.even m); lia.
Qed.

Lemma binary_round_aux_core sx mx ex lx :
  binary_round_aux Float64.prec Float64.emax sx mx ex lx
  = let '(m, e) := bra_core mx ex lx in
    match m with
    | Z0 => S754_zero sx
    | Zpos p =>
        if e <=? Float64.emax - Float64.prec then S754_finite sx p e
        else S754_infinity sx
    | Zneg _ => S754_nan
    end.
Proof.
  unfold binary_round_aux, bra_core.
  destruct (shr_fexp _ _ mx ex lx) as [mrs' e'].
  destruct (shr_fexp _ _ _ e' loc_Exact) as [mrs'' e'']. reflexivity.
Qed.

Lemma bra_core_bound mx ex lx m e :
  0 <= mx -> bra_core mx ex lx = (m, e) ->
  0 <= m
  /\ Z.max ex (F (Zdigits2 mx + ex)) <= e
  /\ (IZR m * bpow e
      <= IZR mx * bpow ex + bpow (Z.max ex (F (Zdigits2 mx + ex))))%R
  /\ (lx = loc_Exact ->
      (IZR m * bpow e <= IZR mx * bpow ex + bpow (F (Zdigits2 mx + ex)))%R).
Proof.
  intros Hmx. unfold bra_core, shr_fexp.
  set (n1 := F (Zdigits2 mx + ex) - ex).
  destruct (shr (shr_record_of_loc mx lx) ex n1) as [mrs1 e1] eqn:E1.
  pose proof E1 as E1'.
  apply shr_spec in E1 as [He1 Hm1];
    [|rewrite shr_record_of_loc_m; assumption].
  rewrite shr_record_of_loc_m in Hm1.
  set (m1 := round_nearest_even (shr_m mrs1) (loc_of_shr_record mrs1)).
  set (n2 := F (Zdigits2 m1 + e1) - e1).
  destruct (shr (shr_record_of_loc m1 loc_Exact) e1 n2) as [mrs2 e2] eqn:E2.
  assert (Hms : 0 <= shr_m mrs1)
    by (rewrite Hm1; apply Z.div_pos; [lia | apply Z.pow_pos_nonneg; lia]).
  assert (Hm1' : 0 <= m1) by (pose proof (rne_bounds (shr_m mrs1) (loc_of_shr_record mrs1)); lia).
  apply shr_spec in E2 as [He2 Hm2]; [|exact Hm1'].
  cbn [shr_m shr_record_of_loc] in Hm2.
  intros [= <- <-].
  assert (Hmax : Z.max ex (F (Zdigits2 mx + ex)) = e1) by lia.
  rewrite Hmax.
  assert (Hm : 0 <= shr_m mrs2)
    by (rewrite Hm2; apply Z.div_pos; [lia | apply Z.pow_pos_nonneg; lia]).
  assert (B2 : (IZR (shr_m mrs2) * bpow e2 <= IZR m1 * bpow e1)%R).
  { rewrite Hm2, He2. apply shift_le; lia. }
  assert (B1 : (IZR (shr_m mrs1) * bpow e1 <= IZR mx * bpow ex)%R).
  { rewrite Hm1, He1. apply shift_le; lia. }
  assert (Br : (IZR m1 <= IZR (shr_m mrs1) + 1)%R).
  { pose proof (rne_bounds (shr_m mrs1) (loc_of_shr_record mrs1)) as [_ H].
    apply IZR_le in H. rewrite plus_IZR in H. exact H. }
  pose proof (bpow_pos e1) as P1.
  split; [exact Hm|]. split; [lia|]. split; [nra|].
  intros ->.
  destruct (Z.max_spec 0 n1) as [[Hn Hx] | [Hn Hx]].
  - (* a shift took place *)
    replace (F (Zdigits2 mx + ex)) with e1 by lia. nra.
  - (* no shift: the rounding changes nothing *)
    assert (Hr : mrs1 = shr_record_of_loc mx loc_Exact /\ e1 = ex).
    { unfold shr in E1'. destruct n1; try lia; now injection E1'. }
    destruct Hr as [Hr ->]. subst m1. rewrite Hr in B2. cbn in B2.
    pose proof (bpow_pos (F (Zdigits2 mx + ex))). lra.
Qed.


Lemma fexp_eq x : F x = Z.max (x - 53) (-1074).
Proof. reflexivity. Qed.

Lemma bpow_max a b : (bpow (Z.max a b) <= bpow a + bpow b)%R.
Proof.
  pose proof (bpow_pos a). pose proof (bpow_pos b).
  destruct (Z.max_spec a b) as [[_ ->] | [_ ->]]; lra.
Qed.

Lemma Zdigits2_spec m :
  0 < m -> 2 ^ (Zdigits2 m - 1) <= m < 2 ^ Zdigits2 m.
Proof.
  destruct m as [|p|p]; try lia. intros _. apply digits2_pos_spec.
Qed.

Lemma Zdigits2_pos m : 0 < m -> 0 < Zdigits2 m.
Proof. destruct m; simpl; lia. Qed.

Lemma fexp_bound mx ex :
  0 < mx ->
  (bpow (F (Zdigits2 mx + ex)) <= IZR mx * bpow ex * u52 + eta)%R.
Proof.
  intros Hm. rewrite fexp_eq.
  eapply Rle_trans; [apply bpow_max|]. fold eta.
  apply Rplus_le_compat_r.
  replace (Zdigits2 mx + ex - 53) with ((Zdigits2 mx - 1) + (ex + -52)) by lia.
  rewrite !bpow_add. fold u52.
  pose proof (Zdigits2_spec mx Hm) as [Hlo _].
  pose proof (Zdigits2_pos mx Hm).
  rewrite (bpow_IZR (Zdigits2 mx - 1)) by lia.
  apply IZR_le in Hlo.
  pose proof (bpow_pos ex). pose proof (bpow_pos (-52)). unfold u52.
  rewrite <- Rmult_assoc.
  apply Rmult_le_compat_r; [lra|]. apply Rmult_le_compat_r; lra.
Qed.


Lemma binary_round_aux_value mx ex lx :
  0 <= mx ->
  let x := binary_round_aux Float64.prec Float64.emax false mx ex lx in
  is_infinity x = false ->
  nonneg_finite x
  /\ (0 <= SF2R x
      <= IZR mx * bpow ex + bpow (Z.max ex (F (Zdigits2 mx + ex))))%R
  /\ (lx = loc_Exact ->
      (SF2R x <= IZR mx * bpow ex + bpow (F (Zdigits2 mx + ex)))%R)
  /\ (forall m e, x = S754_finite false m e ->
        F (Zdigits2 mx + ex) <= e <= Float64.emax - Float64.prec).
Proof.
  intros Hmx x. subst x. rewrite binary_round_aux_core.
  destruct (bra_core mx ex lx) as [m e] eqn:E.
  apply bra_core_bound in E as (Hm & He & HG & HX); [|exact Hmx].
  pose proof (bpow_pos e). pose proof (bpow_pos ex).
  pose proof (bpow_pos (Z.max ex (F (Zdigits2 mx + ex)))).
  pose proof (bpow_pos (F (Zdigits2 mx + ex))).
  assert (0 <= IZR mx)%R by (now apply IZR_le).
  destruct m as [|p|p]; [| |lia].
  - intros _. cbn [nonneg_finite SF2R].
    split; [exact I|]. split; [nra|]. split; [intros _; nra | discriminate].
  - destruct (e <=? Float64.emax - Float64.prec) eqn:Ee; [|discriminate].
    intros _. cbn [nonneg_finite SF2R]. apply Z.leb_le in Ee.
    assert (0 < IZR (Zpos p))%R by (apply IZR_lt; lia).
    split; [exact I|]. split; [nra|]. split; [exact HX|].
    intros m' e' [= <- <-]. lia.
Qed.

Lemma Zdigits2_le m k : 0 < m -> m < 2 ^ k -> 0 <= k -> Zdigits2 m <= k.
Proof.
  intros Hm Hk Hk0. pose proof (Zdigits2_spec m Hm) as [Hlo _].
  pose proof (Zdigits2_pos m Hm).
  assert (2 ^ (Zdigits2 m - 1) < 2 ^ k) by lia.
  apply Z.pow_lt_mono_r_iff in H0; lia.
Qed.

Lemma Zdigits2_ge m k : 0 <= k -> 2 ^ k <= m -> k + 1 <= Zdigits2 m.
Proof.
  intros Hk Hm.
  assert (0 < m) by (pose proof (Z.pow_pos_nonneg 2 k); lia).
  pose proof (Zdigits2_spec m H) as [_ Hhi].
  pose proof (Zdigits2_pos m H).
  assert (2 ^ k < 2 ^ Zdigits2 m) by lia.
  apply Z.pow_lt_mono_r_iff in H1; lia.
Qed.

(** In the normal range the mantissa that comes out has 53 bits. *)
Lemma bra_core_normal mx ex lx m e :
  0 < mx -> 53 <= Zdigits2 mx -> -1074 <= Zdigits2 mx + ex - 53 ->
  bra_core mx ex lx = (m, e) ->
  2 ^ 52 <= m.
Proof.
  intros Hmx Hd Hn.
  unfold bra_core, shr_fexp.
  set (n1 := F (Zdigits2 mx + ex) - ex).
  destruct (shr (shr_record_of_loc mx lx) ex n1) as [mrs1 e1] eqn:E1.
  apply shr_spec in E1 as [He1 Hm1];
    [|rewrite shr_record_of_loc_m; lia].
  rewrite shr_record_of_loc_m in Hm1.
  set (m1 := round_nearest_even (shr_m mrs1) (loc_of_shr_record mrs1)).
  set (n2 := F (Zdigits2 m1 + e1) - e1).
  destruct (shr (shr_record_of_loc m1 loc_Exact) e1 n2) as [mrs2 e2] eqn:E2.
  assert (Hn1 : n1 = Zdigits2 mx - 53) by (subst n1; rewrite fexp_eq; lia).
  rewrite Z.max_r in Hm1, He1 by lia.
  pose proof (Zdigits2_spec mx Hmx) as [Hlo Hhi].
  assert (Hp : 0 < 2 ^ n1) by (apply Z.pow_pos_nonneg; lia).
  assert (Hms : 2 ^ 52 <= shr_m mrs1 < 2 ^ 53).
  { rewrite Hm1. split.
    - apply Z.div_le_lower_bound; [lia|].
      rewrite <- Z.pow_add_r by lia.
      replace (n1 + 52) with (Zdigits2 mx - 1) by lia. exact Hlo.
    - apply Z.div_lt_upper_bound; [lia|].
      rewrite <- Z.pow_add_r by lia.
      replace (n1 + 53) with (Zdigits2 mx) by lia. exact Hhi. }
  pose proof (rne_bounds (shr_m mrs1) (loc_of_shr_record mrs1)) as Hr.
  fold m1 in Hr.
  assert (Hm1' : 2 ^ 52 <= m1 <= 2 ^ 53) by lia.
  apply shr_spec in E2 as [He2 Hm2]; [|cbn; lia].
  cbn [shr_m shr_record_of_loc] in Hm2.
  intros [= <- <-]. rewrite Hm2.
  assert (Hd1 : 53 <= Zdigits2 m1 <= 54).
  { split; [apply (Zdigits2_ge m1 52); lia|].
    apply Zdigits2_le; lia. }
  assert (Hn2 : n2 = Zdigits2 m1 - 53) by (subst n2; rewrite fexp_eq; lia).
  destruct (Z.eq_dec (Zdigits2 m1) 53) as [E|E].
  - rewrite Hn2, E. cbn. rewrite Z.div_1_r. lia.
  - assert (E' : Zdigits2 m1 = 54) by lia.
    assert (2 ^ 53 <= m1).
    { assert (0 < m1) by lia.
      pose proof (Zdigits2_spec m1 H) as [Hlo1 _]. rewrite E' in Hlo1.
      exact Hlo1. }
    rewrite Hn2, E'. change (Z.max 0 (54 - 53)) with 1.
    apply Z.div_le_lower_bound; lia.
Qed.

Lemma binary_round_aux_normal mx ex lx :
  0 < mx -> 53 <= Zdigits2 mx -> -1074 <= Zdigits2 mx + ex - 53 ->
  Float64.emax - Float64.prec < Zdigits2 mx + ex - 53 ->
  is_infinity (binary_round_aux Float64.prec Float64.emax false mx ex lx)
  = true.
Proof.
  intros Hmx Hd Hn Hbig. rewrite binary_round_aux_core.
  destruct (bra_core mx ex lx) as [m e] eqn:E.
  pose proof (bra_core_normal _ _ _ _ _ Hmx Hd Hn E) as Hm.
  apply bra_core_bound in E as (_ & He & _); [|lia].
  rewrite fexp_eq in He.
  destruct m as [|p|p]; try lia.
  destruct (e <=? Float64.emax - Float64.prec) eqn:Ee; [|reflexivity].
  apply Z.leb_le in Ee. lia.
Qed.

Lemma iter_xO m d : Zpos (Pos.iter xO m d) = Zpos m * 2 ^ Zpos d.
Proof.
  induction d as [|d IH] using Pos.peano_ind.
  - change (Pos.iter xO m 1) with (m~0)%positive. lia.
  - rewrite Pos.iter_succ, Pos2Z.inj_xO, IH, Pos2Z.inj_succ, Z.pow_succ_r; lia.
Qed.

Lemma shl_align_spec mx ex ex' mz ez :
  shl_align mx ex ex' = (mz, ez) ->
  (IZR (Zpos mz) * bpow ez = IZR (Zpos mx) * bpow ex)%R
  /\ (ex <= ex' -> mz = mx /\ ez = ex).
Proof.
  unfold shl_align. destruct (ex' - ex) as [|d|d] eqn:E; intros [= <- <-].
  - auto.
  - split; auto.
  - split; [|lia]. rewrite iter_xO, mult_IZR.
    rewrite <- (bpow_IZR (Zpos d)) by lia.
    assert (Hex : ex = Zpos d + ex') by lia.
    rewrite Hex, bpow_add. ring.
Qed.

(** [float(i)] *)
Lemma of_int_value i x :
  0 <= i -> Float64.of_int i = Ok x ->
  nonneg_finite x
  /\ (0 <= SF2R x <= IZR i * (1 + u52) + eta)%R
  /\ i < 2 ^ 1024.
Proof.
  intros Hi. unfold Float64.of_int.
  destruct i as [|p|p]; [| |lia].
  - cbn [binary_normalize]. intros [= <-]. cbn [nonneg_finite SF2R].
    pose proof (bpow_pos (-1074)). unfold eta.
    split; [exact I|]. split; [lra|]. apply Z.pow_pos_nonneg; lia.
  - cbn [binary_normalize]. unfold binary_round.
    destruct (shl_align p 0 _) as [mz ez] eqn:Ea.
    apply shl_align_spec in Ea as [Hv Hsame].
    set (x0 := binary_round_aux _ _ false (Zpos mz) ez loc_Exact).
    intros Hx.
    assert (Hinf : is_infinity x0 = false) by (destruct x0; try reflexivity; discriminate).
    assert (x0 = x) by (destruct x0; try discriminate; congruence). subst x.
    pose proof (binary_round_aux_value (Zpos mz) ez loc_Exact ltac:(lia) Hinf)
      as (Hnn & [Hlo _] & HX & _).
    specialize (HX eq_refl). fold x0 in Hnn, Hlo, HX.
    pose proof (fexp_bound (Zpos mz) ez ltac:(lia)) as Hf.
    rewrite Hv, Rmult_1_r in HX, Hf.
    split; [exact Hnn|]. split; [split; [exact Hlo | lra]|].
    (* a larger integer would have given an infinity *)
    destruct (Z_lt_le_dec (Zpos p) (2 ^ 1024)) as [Hlt|Hge]; [exact Hlt|].
    exfalso.
    pose proof (Zdigits2_ge (Zpos p) 1024 ltac:(lia) Hge) as Hd.
    cbn [Zdigits2] in Hd.
    destruct Hsame as [-> ->].
    { rewrite fexp_eq. lia. }
    assert (is_infinity x0 = true); [|congruence].
    apply binary_round_aux_normal; cbn [Zdigits2]; unfold Float64.emax, Float64.prec; lia.
Qed.

Lemma div_core_spec (D k : positive) q e l :
  SFdiv_core_binary Float64.prec Float64.emax (Zpos D) 0 (Zpos k) 0 = (q, e, l) ->
  e = Z.min (F (Zdigits2 (Zpos D) - Zdigits2 (Zpos k))) 0
  /\ q = (Zpos D * 2 ^ (- e)) / Zpos k.
Proof.
  unfold SFdiv_core_binary.
  rewrite !Z.add_0_r, Z.sub_0_r.
  set (e' := Z.min (F (Zdigits2 (Zpos D) - Zdigits2 (Zpos k))) 0).
  set (m' := match 0 - e' with
             | 0 => Zpos D
             | Zpos _ => Z.shiftl (Zpos D) (0 - e')
             | Zneg _ => 0
             end).
  assert (Hm' : m' = Zpos D * 2 ^ (- e')).
  { subst m'. assert (He : e' <= 0) by (subst e'; lia).
    destruct (0 - e') as [|s|s] eqn:Es.
    - replace (- e') with 0 by lia. lia.
    - rewrite Z.shiftl_mul_pow2 by lia. f_equal. f_equal. lia.
    - lia. }
  destruct (Z.div_eucl m' (Zpos k)) as [q0 r0] eqn:Ed.
  intros [= <- <- <-]. split; [reflexivity|].
  rewrite <- Hm'. unfold Z.div. now rewrite Ed.
Qed.

(** The quotient handed to the rounding lies at or below [D / k], and its
    last place is small next to [D / k]. *)
Lemma div_core_bound (pD pk : positive) q e l :
  SFdiv_core_binary Float64.prec Float64.emax (Zpos pD) 0 (Zpos pk) 0
  = (q, e, l) ->
  0 <= q
  /\ (IZR q * bpow e * IZR (Zpos pk) <= IZR (Zpos pD))%R
  /\ (bpow (Z.max e (F (Zdigits2 q + e))) * IZR (Zpos pk)
      <= IZR (Zpos pD) * u52 + eta * IZR (Zpos pk))%R.
Proof.
  intros Ec. apply div_core_spec in Ec as [He Hq].
  assert (HkR : (0 < IZR (Zpos pk))%R) by (apply IZR_lt; lia).
  pose proof (bpow_pos (-1074)) as Heta. fold eta in Heta.
  pose proof (bpow_pos (-52)) as Hu. fold u52 in Hu.
  assert (He0 : e <= 0) by lia.
  assert (Hp : 0 < 2 ^ (- e)) by (apply Z.pow_pos_nonneg; lia).
  assert (Hq0 : 0 <= q) by (rewrite Hq; apply Z.div_pos; lia).
  (* the quotient lies below D / k *)
  assert (HqR : (IZR q * bpow e * IZR (Zpos pk) <= IZR (Zpos pD))%R).
  { assert (Hz : q * Zpos pk <= Zpos pD * 2 ^ (- e)).
    { rewrite Hq, Z.mul_comm. apply Z.mul_div_le. lia. }
    apply IZR_le in Hz. rewrite !mult_IZR in Hz.
    rewrite <- (bpow_IZR (- e)) in Hz by lia.
    assert (Hone : (bpow e * bpow (- e) = 1)%R).
    { rewrite <- bpow_add. replace (e + - e) with 0 by lia. reflexivity. }
    pose proof (bpow_pos e). pose proof (bpow_pos (- e)).
    assert (H1 : (IZR q * IZR (Zpos pk) * bpow e
                  <= IZR (Zpos pD) * bpow (- e) * bpow e)%R)
      by (apply Rmult_le_compat_r; lra).
    replace (IZR (Zpos pD) * bpow (- e) * bpow e)%R with (IZR (Zpos pD)) in H1
      by (rewrite Rmult_assoc, (Rmult_comm (bpow (- e))), Hone; ring).
    lra. }
  (* the last place of the quotient *)
  assert (Hulp : (bpow (Z.max e (F (Zdigits2 q + e))) * IZR (Zpos pk)
                  <= IZR (Zpos pD) * u52 + eta * IZR (Zpos pk))%R).
  { assert (He' : (bpow e * IZR (Zpos pk)
                   <= IZR (Zpos pD) * u52 + eta * IZR (Zpos pk))%R).
    { assert (bpow e <= bpow (F (Zdigits2 (Zpos pD) - Zdigits2 (Zpos pk))))%R
        by (apply bpow_le; lia).
      rewrite fexp_eq in H.
      pose proof (bpow_max (Zdigits2 (Zpos pD) - Zdigits2 (Zpos pk) - 53)
                    (-1074)) as Hmax.
      fold eta in Hmax.
      pose proof (Zdigits2_spec (Zpos pD) ltac:(lia)) as [HDlo _].
      pose proof (Zdigits2_spec (Zpos pk) ltac:(lia)) as [_ Hkhi].
      pose proof (Zdigits2_pos (Zpos pD) ltac:(lia)) as HdD.
      pose proof (Zdigits2_pos (Zpos pk) ltac:(lia)) as Hdk.
      set (dD := Zdigits2 (Zpos pD)) in *.
      set (dk := Zdigits2 (Zpos pk)) in *.
      assert (Hsplit : (bpow (dD - dk - 53) * IZR (Zpos pk)
                        <= IZR (Zpos pD) * u52)%R).
      { replace (dD - dk - 53) with ((dD - 1) + (- dk + -52)) by lia.
        rewrite !bpow_add. fold u52. rewrite (bpow_IZR (dD - 1)) by lia.
        apply IZR_le in HDlo. apply IZR_lt in Hkhi.
        rewrite <- (bpow_IZR dk) in Hkhi by lia.
        assert (Hone : (bpow (- dk) * bpow dk = 1)%R).
        { rewrite <- bpow_add. replace (- dk + dk) with 0 by lia.
          reflexivity. }
        pose proof (bpow_pos (- dk)). pose proof (bpow_pos dk).
        assert (bpow (- dk) * IZR (Zpos pk) <= 1)%R by nra.
        assert (0 <= IZR (2 ^ (dD - 1)))%R
          by (apply IZR_le; apply Z.pow_nonneg; lia).
        assert (IZR (2 ^ (dD - 1)) * (bpow (- dk) * IZR (Zpos pk))
                <= IZR (Zpos pD) * 1)%R
          by (apply Rmult_le_compat; nra).
        nra. }
      nra. }
    destruct (Z.max_spec e (F (Zdigits2 q + e))) as [[_ ->] | [_ ->]];
      [|exact He'].
    destruct (Z.eq_dec q 0) as [-> | Hq1].
    - (* the quotient is zero *)
      assert (bpow (F (Zdigits2 0 + e)) <= bpow e)%R.
      { apply bpow_le. rewrite fexp_eq. cbn [Zdigits2].
        assert (-1074 <= e) by (rewrite He, fexp_eq; lia). lia. }
      nra.
    - pose proof (fexp_bound q e ltac:(lia)) as Hf.
      assert (bpow (F (Zdigits2 q + e)) * IZR (Zpos pk)
              <= (IZR q * bpow e * u52 + eta) * IZR (Zpos pk))%R
        by (apply Rmult_le_compat_r; lra).
      nra. }
  auto.
Qed.

(** [a / b] on two integers. *)
Lemma int_truediv_value D k x :
  0 <= D -> 0 < k -> Float64.int_truediv D k = Ok x ->
  nonneg_finite x
  /\ (0 <= SF2R x)%R
  /\ (SF2R x * IZR k <= IZR D * (1 + u52) + eta * IZR k)%R.
Proof.
  intros HD Hk. unfold Float64.int_truediv.
  destruct (k =? 0) eqn:Ek; [apply Z.eqb_eq in Ek; lia|].
  assert (HkR : (0 < IZR k)%R) by (now apply IZR_lt).
  pose proof (bpow_pos (-1074)) as Heta. fold eta in Heta.
  pose proof (bpow_pos (-52)) as Hu. fold u52 in Hu.
  destruct D as [|pD|pD]; [| |lia]; destruct k as [|pk|pk]; try lia.
  - cbn [Float64.exact SFdiv xorb]. intros [= <-]. cbn [nonneg_finite SF2R].
    split; [exact I|]. split; [lra|]. nra.
  - cbn [Float64.exact SFdiv xorb].
    destruct (SFdiv_core_binary _ _ (Zpos pD) 0 (Zpos pk) 0) as [[q e] l] eqn:Ec.
    apply div_core_bound in Ec as (Hq0 & HqR & Hulp).
    set (x0 := binary_round_aux _ _ false q e l).
    intros Hx.
    assert (Hinf : is_infinity x0 = false)
      by (destruct x0; try reflexivity; discriminate).
    assert (x0 = x) by (destruct x0; try discriminate; congruence). subst x.
    pose proof (binary_round_aux_value q e l Hq0 Hinf)
      as (Hnn & [Hlo Hhi] & _ & _). fold x0 in Hnn, Hlo, Hhi.
    split; [exact Hnn|]. split; [exact Hlo|]. nra.
Qed.

(** [x * y] on two floats that are zero or positive. *)
Lemma mul_value x y :
  nonneg_finite x -> nonneg_finite y ->
  is_infinity (SFmul Float64.prec Float64.emax x y) = false ->
  nonneg_finite (SFmul Float64.prec Float64.emax x y)
  /\ (0 <= SF2R (SFmul Float64.prec Float64.emax x y)
      <= SF2R x * SF2R y * (1 + u52) + eta)%R.
Proof.
  pose proof (bpow_pos (-1074)) as Heta. fold eta in Heta.
  pose proof (bpow_pos (-52)) as Hu. fold u52 in Hu.
  destruct x as [[]| | |[] mx ex], y as [[]| | |[] my ey];
    cbn [nonneg_finite]; try tauto; intros _ _;
    cbn [SFmul xorb nonneg_finite SF2R].
  1-3: intros _; split; [exact I|]; split; [lra|];
       rewrite ?Rmult_0_l, ?Rmult_0_r, ?Rmult_0_l; lra.
  intros Hinf.
  pose proof (binary_round_aux_value (Zpos (mx * my)) (ex + ey) loc_Exact
                ltac:(lia) Hinf) as (Hnn & [Hlo _] & HX & _).
  specialize (HX eq_refl).
  pose proof (fexp_bound (Zpos (mx * my)) (ex + ey) ltac:(lia)) as Hf.
  split; [exact Hnn|]. split; [exact Hlo|].
  assert (HV : (IZR (Zpos (mx * my)) * bpow (ex + ey)
                = IZR (Zpos mx) * bpow ex * (IZR (Zpos my) * bpow ey))%R)
    by (rewrite Pos2Z.inj_mul, mult_IZR, bpow_add; ring).
  rewrite HV in HX, Hf. lra.
Qed.

Lemma rne_shift_bound m j D :
  0 <= m -> 0 < j -> 0 <= D ->
  2 * m < (2 * D + 1) * 2 ^ j ->
  0 <= Float64.rne_shift m j <= D.
Proof.
  intros Hm Hj HD Hlt. unfold Float64.rne_shift.
  assert (HP : 0 < 2 ^ (j - 1)) by (apply Z.pow_pos_nonneg; lia).
  assert (H2 : 2 ^ j = 2 * 2 ^ (j - 1)).
  { replace j with (Z.succ (j - 1)) at 1 by lia. apply Z.pow_succ_r. lia. }
  pose proof (Z.div_mod m (2 ^ j) ltac:(lia)) as Hdm.
  pose proof (Z.mod_pos_bound m (2 ^ j) ltac:(lia)) as Hr.
  assert (Hq0 : 0 <= m / 2 ^ j) by (apply Z.div_pos; lia).
  set (q := m / 2 ^ j) in *. set (r := m mod 2 ^ j) in *.
  set (P := 2 ^ (j - 1)) in *. rewrite H2 in *.
  assert (Hq : q <= D).
  { destruct (Z_le_gt_dec q D) as [H|H]; [exact H|]. exfalso.
    assert (2 * P * (D + 1) <= 2 * P * q)
      by (apply Z.mul_le_mono_nonneg_l; lia).
    lia. }
  destruct (r ?= P) eqn:Ec.
  - apply Z.compare_eq in Ec.
    assert (q <> D).
    { intros ->. lia. }
    destruct (Z.even q); lia.
  - lia.
  - apply Z.compare_gt_iff in Ec.
    assert (q <> D).
    { intros ->. lia. }
    lia.
Qed.

(** [round(x)] stays at or below [D] when [x] is below [D + 1/2]. *)
Lemma py_round_bound x r D :
  nonneg_finite x -> Float64.py_round x = Ok r -> 0 <= D ->
  (SF2R x < IZR D + / 2)%R ->
  0 <= r <= D.
Proof.
  destruct x as [[]| | |[] m e]; cbn [nonneg_finite]; try tauto; intros _.
  - cbn. intros [= <-]. lia.
  - cbn [Float64.py_round SF2R]. intros [= <-] HD Hlt.
    destruct (0 <=? e) eqn:Ee.
    + apply Z.leb_le in Ee. rewrite (bpow_IZR e) in Hlt by lia.
      rewrite <- mult_IZR in Hlt.
      assert (0 < 2 ^ e) by (apply Z.pow_pos_nonneg; lia).
      split; [lia|].
      assert (IZR (Zpos m * 2 ^ e) < IZR (D + 1))%R
        by (rewrite plus_IZR; lra).
      apply lt_IZR in H0. lia.
    + apply Z.leb_gt in Ee. apply rne_shift_bound; try lia.
      assert (Hone : (bpow e * bpow (- e) = 1)%R).
      { rewrite <- bpow_add. replace (e + - e) with 0 by lia. reflexivity. }
      pose proof (bpow_pos (- e)) as Hp.
      assert (H1 : (IZR (Zpos m) * bpow e * bpow (- e)
                    < (IZR D + / 2) * bpow (- e))%R)
        by (apply Rmult_lt_compat_r; lra).
      replace (IZR (Zpos m) * bpow e * bpow (- e))%R with (IZR (Zpos m)) in H1
        by (rewrite Rmult_assoc, Hone; ring).
      rewrite (bpow_IZR (- e)) in H1 by lia.
      apply lt_IZR. rewrite !mult_IZR, plus_IZR, mult_IZR. lra.
Qed.

Lemma bpow_neg_val n c :
  0 <= n -> IZR (2 ^ n) = c -> bpow (- n) = (/ c)%R.
Proof.
  intros Hn <-.
  assert (H : (bpow (- n) * IZR (2 ^ n) = 1)%R).
  { rewrite <- bpow_IZR, <- bpow_add by lia.
    replace (- n + n) with 0 by lia. reflexivity. }
  assert (0 < IZR (2 ^ n))%R by (apply IZR_lt, Z.pow_pos_nonneg; lia).
  apply (Rmult_eq_reg_r (IZR (2 ^ n))); [|lra].
  rewrite H. field. lra.
Qed.

Lemma u52_val : u52 = (/ 4503599627370496)%R.
Proof. apply (bpow_neg_val 52); [lia | reflexivity]. Qed.

Lemma eta_small : (0 < eta <= / 1125899906842624)%R.
Proof.
  split; [apply bpow_pos|].
  rewrite <- (bpow_neg_val 50 1125899906842624) by (lia || reflexivity).
  apply bpow_le. lia.
Qed.

Lemma eta_times_int i :
  0 <= i < 2 ^ 1024 -> (eta * IZR i <= / 1125899906842624)%R.
Proof.
  intros [Hi Hlt]. apply IZR_le in Hi. apply IZR_lt in Hlt.
  rewrite <- (bpow_IZR 1024) in Hlt by lia.
  assert (Hc : (eta * bpow 1024 = / 1125899906842624)%R).
  { unfold eta. rewrite <- bpow_add.
    apply (bpow_neg_val 50); [lia | reflexivity]. }
  rewrite <- Hc. pose proof (bpow_pos (-1074)) as H. fold eta in H.
  apply Rmult_le_compat_l; lra.
Qed.

(** The exact product of [float(i)] and [D / k], pushed up by one more
    rounding, is still short of [D + 1/2]. *)
Lemma product_below D k i (vi vs : R) :
  0 <= D <= Calendar.MAXORDINAL - 1 -> 0 <= i <= k -> 0 < k ->
  i < 2 ^ 1024 ->
  (0 <= vi <= IZR i * (1 + u52) + eta)%R ->
  (0 <= vs)%R ->
  (vs * IZR k <= IZR D * (1 + u52) + eta * IZR k)%R ->
  (vi * vs * (1 + u52) + eta < IZR D + / 2)%R.
Proof.
  intros HD Hi Hk Hi2 [Hi0 Hi1] Hs0 Hs.
  pose proof eta_small as [He0 He1].
  pose proof (eta_times_int i ltac:(lia)) as HB.
  assert (HDr : (0 <= IZR D <= 3652058)%R).
  { unfold Calendar.MAXORDINAL in HD.
    split; [apply IZR_le; lia|]. apply IZR_le. lia. }
  assert (HI : (0 <= IZR i <= IZR k)%R) by (split; apply IZR_le; lia).
  assert (HK : (1 <= IZR k)%R) by (apply IZR_le; lia).
  rewrite u52_val in *.
  set (Dr := IZR D) in *. set (I := IZR i) in *. set (K := IZR k) in *.
  set (a := (/ 4503599627370496)%R) in *.
  assert (Ha : (0 < a <= / 4503599627370496)%R) by (subst a; lra).
  assert (HDa : (0 <= Dr * (1 + a))%R) by (apply Rmult_le_pos; lra).
  (* vs <= Dr (1 + a) + eta *)
  assert (Hvs : (vs <= Dr * (1 + a) + eta)%R).
  { apply (Rmult_le_reg_r K); [lra|].
    assert (Dr * (1 + a) * 1 <= Dr * (1 + a) * K)%R
      by (apply Rmult_le_compat_l; lra).
    lra. }
  (* vs * I <= Dr (1 + a) + eta I *)
  assert (HvsI : (vs * I <= Dr * (1 + a) + eta * I)%R).
  { apply (Rmult_le_reg_r K); [lra|].
    assert ((vs * K) * I <= (Dr * (1 + a) + eta * K) * I)%R
      by (apply Rmult_le_compat_r; lra).
    assert (Dr * (1 + a) * I <= Dr * (1 + a) * K)%R
      by (apply Rmult_le_compat_l; lra).
    lra. }
  assert (Hvivs : (vi * vs <= (1 + a) * (vs * I) + eta * vs)%R).
  { replace ((1 + a) * (vs * I) + eta * vs)%R
      with ((I * (1 + a) + eta) * vs)%R by ring.
    apply Rmult_le_compat_r; lra. }
  assert (HeD : (eta * Dr <= / 1125899906842624 * 3652058)%R)
    by (apply Rmult_le_compat; lra).
  assert (Hee : (eta * eta <= / 1125899906842624 * / 1125899906842624)%R)
    by (apply Rmult_le_compat; lra).
  assert (Hevs : (eta * vs <= (1 + a) * (eta * Dr) + eta * eta)%R).
  { replace ((1 + a) * (eta * Dr) + eta * eta)%R
      with (eta * (Dr * (1 + a) + eta))%R by ring.
    apply Rmult_le_compat_l; lra. }
  (* every product is now a quantity of its own *)
  set (P := (vi * vs)%R) in *. clearbody P.
  set (Q := (vs * I)%R) in *. clearbody Q.
  set (R1 := (eta * vs)%R) in *. clearbody R1.
  set (E1 := (eta * Dr)%R) in *. clearbody E1.
  set (E2 := (eta * eta)%R) in *. clearbody E2.
  set (B := (eta * I)%R) in *. clearbody B.
  assert (HP3 : (P * (1 + a) <= ((1 + a) * Q + R1) * (1 + a))%R)
    by (apply Rmult_le_compat_r; lra).
  assert (HQ3 : ((1 + a) * Q * (1 + a)
                 <= (1 + a) * (Dr * (1 + a) + B) * (1 + a))%R).
  { apply Rmult_le_compat_r; [lra|]. apply Rmult_le_compat_l; lra. }
  assert (HR3 : (R1 * (1 + a) <= ((1 + a) * E1 + E2) * (1 + a))%R)
    by (apply Rmult_le_compat_r; lra).
  assert (HE5 : ((1 + a) * E1 * (1 + a)
                 <= (1 + a) * (/ 1125899906842624 * 3652058) * (1 + a))%R).
  { apply Rmult_le_compat_r; [lra|]. apply Rmult_le_compat_l; lra. }
  assert (HB3 : ((1 + a) * B * (1 + a)
                 <= (1 + a) * (/ 1125899906842624) * (1 + a))%R).
  { apply Rmult_le_compat_r; [lra|]. apply Rmult_le_compat_l; lra. }
  assert (HD3 : ((1 + a) * (Dr * (1 + a)) * (1 + a)
                 <= Dr + 3652058 * (4 * a))%R).
  { assert (Dr * (3 * a + 3 * a * a + a * a * a) <= 3652058 * (4 * a))%R.
    { apply Rmult_le_compat; try lra.
      - subst a. lra.
      - subst a. lra. }
    lra. }
  subst a. lra.
Qed.

(** The offset computed for index [i] lies between 0 and [D]. *)
Lemma offset_bound D k step i x r :
  0 <= D <= Calendar.MAXORDINAL - 1 -> 0 <= i <= k -> 0 < k ->
  Float64.int_truediv D k = Ok step ->
  Float64.int_mul i step = Ok x ->
  Float64.py_round x = Ok r ->
  0 <= r <= D.
Proof.
  intros HD Hi Hk Hstep Hx Hr.
  apply int_truediv_value in Hstep as (Hnns & Hs0 & Hs); [|lia|lia].
  unfold Float64.int_mul, rbind in Hx.
  destruct (Float64.of_int i) as [fi|] eqn:Efi; [|discriminate].
  injection Hx as <-.
  apply of_int_value in Efi as (Hnni & Hvi & Hi2); [|lia].
  assert (Hinf : is_infinity (SFmul Float64.prec Float64.emax fi step) = false).
  { destruct (SFmul _ _ fi step); try reflexivity. discriminate Hr. }
  pose proof (mul_value fi step Hnni Hnns Hinf) as (Hnnx & [Hx0 Hx1]).
  apply (py_round_bound _ _ _ Hnnx Hr); [lia|].
  pose proof (product_below D k i _ _ HD Hi Hk Hi2 Hvi Hs0 Hs). lra.
Qed.

End Rounding.

(* ===================================================================== *)
(** ** Date sampler: every sampled date lies in the interval *)

Section SamplerInterval.

Lemma rmap_Forall2 {A B} (f : A -> res B) (l : list A) (l' : list B) :
  rmap f l = Ok l' -> Forall2 (fun a b => f a = Ok b) l l'.
Proof.
  revert l'. induction l as [|a l IH]; intros l'; cbn [rmap].
  - intros [= <-]. constructor.
  - unfold rbind. destruct (f a) as [b|] eqn:Ea; [|discriminate].
    destruct (rmap f l) as [bs|]; [|discriminate].
    intros [= <-]. constructor; auto.
Qed.

Lemma range_bounds n i : In i (range n) -> 0 <= i < n.
Proof.
  unfold range. rewrite in_map_iff. intros (j & <- & Hj).
  apply in_seq in Hj. lia.
Qed.

Lemma range_length n : length (range n) = Z.to_nat n.
Proof. unfold range. now rewrite length_map, length_seq. Qed.

(** Removing repeated dates keeps only entries of the list. *)
Lemma dedup_step_Forall (P : datetime -> Prop) ds :
  forall acc,
    Forall P acc.2 -> Forall P ds ->
    Forall P (foldl dedup_step acc ds).2.
Proof.
  induction ds as [|d ds IH]; intros [seen out] Hout Hds; cbn [foldl].
  - exact Hout.
  - apply Forall_cons in Hds as [Hd Hds]. apply IH; [|exact Hds].
    unfold dedup_step. destruct (decide (date_of d ∈ seen)); cbn [snd].
    + exact Hout.
    + apply Forall_app. split; [exact Hout | now constructor].
Qed.

Lemma dedup_by_date_Forall (P : datetime -> Prop) ds :
  Forall P ds -> Forall P (dedup_by_date ds).
Proof. intros H. apply dedup_step_Forall; [constructor | exact H]. Qed.

(** [start + timedelta(days=r)] *)
Lemma dt_add_days start r d :
  valid_datetime start ->
  dt_add start (mk_timedelta r 0) = Ok d ->
  d = mk_datetime (ordinal start + r) (tod start).
Proof.
  intros [_ Ht]. unfold dt_add. cbn [td_days td_us].
  assert (Hq : (tod start + 0) / US_PER_DAY = 0)
    by (apply Z.div_small; lia).
  assert (Hm : (tod start + 0) mod US_PER_DAY = tod start)
    by (rewrite Z.add_0_r; apply Z.mod_small; lia).
  rewrite Hq, Hm, Z.add_0_r.
  destruct ((1 <=? ordinal start + r) && _); [|discriminate].
  now intros [= <-].
Qed.

Variables (start end_ : datetime).
Hypothesis Hstart : valid_datetime start.
Hypothesis Hend : valid_datetime end_.

Let D := td_days (dt_sub end_ start).

(** A date [r] days after [start], [0 <= r <= D], lies in the interval. *)
Lemma offset_in_interval r :
  0 <= r <= D ->
  let d := mk_datetime (ordinal start + r) (tod start) in
  dt_le start d /\ dt_le d end_.
Proof.
  intros Hr d. subst d D. rewrite delta_days_eq in Hr by assumption.
  unfold dt_le. cbn [ordinal tod].
  destruct (tod start <=? tod end_) eqn:E; bools; lia.
Qed.

Lemma sample_in_interval step k i d :
  0 <= D -> 0 < k -> 0 <= i <= k ->
  Float64.int_truediv D k = Ok step ->
  sample start step i = Ok d ->
  dt_le start d /\ dt_le d end_.
Proof.
  intros HD0 Hk Hi Hstep. unfold sample, rbind.
  destruct (Float64.int_mul i step) as [x|] eqn:Ex; [|discriminate].
  destruct (Float64.py_round x) as [r|] eqn:Er; [|discriminate].
  unfold timedelta_of_days.
  destruct ((-999999999 <=? r) && (r <=? 999999999)); [|discriminate].
  intros Hd. apply dt_add_days in Hd; [|exact Hstart]. subst d.
  pose proof (delta_days_bound _ _ Hstart Hend) as HDmax. fold D in HDmax.
  apply offset_in_interval.
  apply (offset_bound D k step i x r); auto; lia.
Qed.

End SamplerInterval.

Lemma Forall2_Forall_image {A B} (R : A -> B -> Prop) (P : B -> Prop) l l' :
  Forall2 R l l' ->
  (forall a b, In a l -> R a b -> P b) ->
  Forall P l'.
Proof.
  induction 1 as [|a b l l' Hab _ IH]; intros HP; constructor.
  - apply (HP a b); [now left | exact Hab].
  - apply IH. intros a' b' Hin. apply HP. now right.
Qed.

Lemma dt_le_refl d : dt_le d d.
Proof. right. split; [reflexivity | lia]. Qed.

(** C9. For two dates [start <= end] and [n >= 2], every entry of the list
    [evenly_spaced_dates] returns lies in the closed interval from [start]
    to [end]: each rounded offset is at least 0 and at most the number of
    days between the two dates. *)
Theorem sampler_within_interval (start end_ : datetime) (n : Z)
    (l : list datetime) :
  valid_datetime start -> valid_datetime end_ -> dt_le start end_ ->
  2 <= n ->
  evenly_spaced_dates start end_ n = Ok l ->
  Forall (fun d => dt_le start d /\ dt_le d end_) l.
Proof.
  intros Hs He Hle Hn. unfold evenly_spaced_dates.
  pose proof (delta_days_nonneg _ _ Hs He Hle) as HD.
  destruct (n <? 2) eqn:E2; [bools; lia|].
  destruct (td_days (dt_sub end_ start) <? 0) eqn:E0; [bools; lia|].
  assert (Hstart : dt_le start start /\ dt_le start end_)
    by (split; [apply dt_le_refl | exact Hle]).
  assert (Hend : dt_le start end_ /\ dt_le end_ end_)
    by (split; [exact Hle | apply dt_le_refl]).
  destruct (n =? 2) eqn:En.
  - intros [= <-].
    apply Forall_cons. split; [exact Hstart|].
    apply Forall_cons. split; [exact Hend | apply Forall_nil_2].
  - bools. unfold rbind.
    destruct (Float64.int_truediv _ (n - 1)) as [step|] eqn:Estep;
      [|discriminate].
    destruct (rmap (sample start step) (range n)) as [ds|] eqn:Eds;
      [|discriminate].
    intros [= <-]. apply dedup_by_date_Forall.
    apply Forall_insert; [|exact Hend].
    apply Forall_insert; [|exact Hstart].
    apply rmap_Forall2 in Eds.
    apply (Forall2_Forall_image _ _ _ _ Eds).
    intros i d Hi Hd. apply range_bounds in Hi.
    apply (sample_in_interval start end_ Hs He step (n - 1) i d);
      auto; lia.
Qed.

Lemma sampler_within_interval_witness :
  Forall (fun d => dt_le day_2025_01_01 d /\ dt_le d day_2025_01_31)
    (map (fun o => mk_datetime o 0)
       [739252; 739260; 739267; 739274; 739282]).
Proof.
  apply (sampler_within_interval day_2025_01_01 day_2025_01_31 5).
  - unfold valid_datetime. vm_compute. intuition discriminate.
  - unfold valid_datetime. vm_compute. intuition discriminate.
  - left. vm_compute. reflexivity.
  - lia.
  - vm_compute. reflexivity.
Defined.

(* ===================================================================== *)
(** ** Date sampler: a list is returned *)

(** A result below [2^972] is not an infinity. *)
Lemma core_finite mx ex lx :
  (forall m e, bra_core mx ex lx = (m, e) -> 0 < m ->
               (IZR m * bpow e < bpow 972)%R) ->
  is_infinity (binary_round_aux Float64.prec Float64.emax false mx ex lx)
  = false.
Proof.
  intros H. rewrite binary_round_aux_core.
  destruct (bra_core mx ex lx) as [m e] eqn:E.
  destruct m as [|p|p]; try reflexivity.
  destruct (e <=? Float64.emax - Float64.prec) eqn:Ee; [reflexivity|].
  exfalso. apply Z.leb_gt in Ee. unfold Float64.emax, Float64.prec in Ee.
  specialize (H (Zpos p) e eq_refl ltac:(lia)).
  assert (bpow 972 <= bpow e)%R by (apply bpow_le; lia).
  assert (1 <= IZR (Zpos p))%R by (apply IZR_le; lia).
  pose proof (bpow_pos e). nra.
Qed.

Lemma bpow_972_large : (8388608 <= bpow 972)%R.
Proof.
  change 8388608%R with (IZR (2 ^ 23)). rewrite <- bpow_IZR by lia.
  apply bpow_le. lia.
Qed.

Lemma int_truediv_returns D k :
  0 <= D <= Calendar.MAXORDINAL - 1 -> 0 < k ->
  exists x, Float64.int_truediv D k = Ok x.
Proof.
  intros HD Hk. unfold Float64.int_truediv.
  destruct (k =? 0) eqn:Ek; [apply Z.eqb_eq in Ek; lia|].
  destruct D as [|pD|pD]; [| |lia]; destruct k as [|pk|pk]; try lia.
  - cbn. eauto.
  - cbn [Float64.exact SFdiv xorb].
    destruct (SFdiv_core_binary _ _ (Zpos pD) 0 (Zpos pk) 0) as [[q e] l] eqn:Ec.
    apply div_core_bound in Ec as (Hq0 & HqR & Hulp).
    assert (Hinf : is_infinity
                     (binary_round_aux Float64.prec Float64.emax false q e l)
                   = false).
    { apply core_finite. intros m e' Hc Hm.
      apply bra_core_bound in Hc as (_ & _ & Hv & _); [|exact Hq0].
      pose proof eta_small as [He0 He1]. pose proof u52_val as Hu.
      pose proof bpow_972_large.
      assert (HkR : (1 <= IZR (Zpos pk))%R) by (apply IZR_le; lia).
      assert (HDR : (0 <= IZR (Zpos pD) <= 3652058)%R).
      { unfold Calendar.MAXORDINAL in HD. split; apply IZR_le; lia. }
      assert (Hk1 : (IZR m * bpow e' * IZR (Zpos pk)
                     <= (IZR (Zpos pD) * (1 + u52) + eta) * IZR (Zpos pk))%R).
      { assert (IZR m * bpow e' * IZR (Zpos pk)
                <= (IZR q * bpow e + bpow (Z.max e (F (Zdigits2 q + e))))
                   * IZR (Zpos pk))%R
          by (apply Rmult_le_compat_r; lra).
        assert (IZR (Zpos pD) * (1 + u52) * 1
                <= IZR (Zpos pD) * (1 + u52) * IZR (Zpos pk))%R.
        { apply Rmult_le_compat_l; [|lra]. rewrite Hu.
          apply Rmult_le_pos; lra. }
        lra. }
      apply Rmult_le_reg_r in Hk1; [|lra].
      rewrite Hu in Hk1. lra. }
    destruct (binary_round_aux _ _ false q e l); try discriminate; eauto.
Qed.

Lemma of_int_returns i :
  0 <= i < 2 ^ 970 -> exists x, Float64.of_int i = Ok x.
Proof.
  intros [Hi Hlt]. unfold Float64.of_int.
  destruct i as [|p|p]; [cbn; eauto| |lia].
  cbn [binary_normalize]. unfold binary_round.
  destruct (shl_align p 0 _) as [mz ez] eqn:Ea.
  apply shl_align_spec in Ea as [Hv _].
  assert (Hinf : is_infinity
                   (binary_round_aux Float64.prec Float64.emax false
                      (Zpos mz) ez loc_Exact) = false).
  { apply core_finite. intros m e Hc Hm.
    apply bra_core_bound in Hc as (_ & _ & _ & HX); [|lia].
    specialize (HX eq_refl).
    pose proof (fexp_bound (Zpos mz) ez ltac:(lia)) as Hf.
    rewrite Hv, Rmult_1_r in HX, Hf.
    pose proof eta_small as [He0 He1]. pose proof u52_val as Hu.
    apply IZR_lt in Hlt. rewrite <- (bpow_IZR 970) in Hlt by lia.
    assert (H1 : (bpow 972 = 4 * bpow 970)%R).
    { replace 972 with (2 + 970) by lia. rewrite bpow_add.
      rewrite (bpow_IZR 2) by lia. reflexivity. }
    assert (H2 : (1 <= bpow 970)%R).
    { change 1%R with (bpow 0). apply bpow_le. lia. }
    assert (0 < IZR (Zpos p))%R by (apply IZR_lt; lia).
    rewrite Hu in *. nra. }
  destruct (binary_round_aux _ _ false (Zpos mz) ez loc_Exact);
    try discriminate; eauto.
Qed.

Lemma py_round_returns x : nonneg_finite x -> exists r, Float64.py_round x = Ok r.
Proof.
  destruct x as [[]| | |[] m e]; cbn [nonneg_finite]; try tauto; intros _;
    cbn; eauto.
Qed.

(** The product [float(i) * step] is a finite float. *)
Lemma int_mul_returns D k step i :
  0 <= D <= Calendar.MAXORDINAL - 1 -> 0 <= i <= k -> 0 < k ->
  i < 2 ^ 970 ->
  Float64.int_truediv D k = Ok step ->
  exists x, Float64.int_mul i step = Ok x /\ nonneg_finite x.
Proof.
  intros HD Hi Hk Hi2 Hstep.
  apply int_truediv_value in Hstep as (Hnns & Hs0 & Hs); [|lia|lia].
  destruct (of_int_returns i ltac:(lia)) as [fi Efi].
  unfold Float64.int_mul, rbind. rewrite Efi. eexists. split; [reflexivity|].
  apply of_int_value in Efi as (Hnni & Hvi & Hi3); [|lia].
  apply mul_value; try assumption.
  destruct fi as [[]| | |[] mi ei], step as [[]| | |[] ms es];
    cbn [nonneg_finite] in Hnni, Hnns; try tauto; try reflexivity.
  cbn [SFmul xorb]. apply core_finite. intros m e Hc Hm.
  apply bra_core_bound in Hc as (_ & _ & _ & HX); [|lia].
  specialize (HX eq_refl).
  pose proof (fexp_bound (Zpos (mi * ms)) (ei + es) ltac:(lia)) as Hf.
  assert (HV : (IZR (Zpos (mi * ms)) * bpow (ei + es)
                = IZR (Zpos mi) * bpow ei * (IZR (Zpos ms) * bpow es))%R)
    by (rewrite Pos2Z.inj_mul, mult_IZR, bpow_add; ring).
  rewrite HV in HX, Hf. cbn [SF2R] in Hvi, Hs0, Hs.
  pose proof (product_below D k i _ _ HD Hi Hk Hi3 Hvi Hs0 Hs) as Hp.
  pose proof bpow_972_large.
  assert (IZR D <= 3652058)%R
    by (unfold Calendar.MAXORDINAL in HD; apply IZR_le; lia).
  lra.
Qed.

Section SamplerReturns.

Variables (start end_ : datetime).
Hypothesis Hstart : valid_datetime start.
Hypothesis Hend : valid_datetime end_.
Hypothesis Hle : dt_le start end_.

Let D := td_days (dt_sub end_ start).

Lemma sample_returns step k i :
  0 < k -> 0 <= i <= k -> i < 2 ^ 970 ->
  Float64.int_truediv D k = Ok step ->
  exists d, sample start step i = Ok d.
Proof.
  intros Hk Hi Hi2 Hstep.
  pose proof (delta_days_nonneg _ _ Hstart Hend Hle) as HD0. fold D in HD0.
  pose proof (delta_days_bound _ _ Hstart Hend) as HD1. fold D in HD1.
  destruct (int_mul_returns D k step i ltac:(lia) Hi Hk Hi2 Hstep)
    as (x & Ex & Hnn).
  destruct (py_round_returns x Hnn) as [r Er].
  pose proof (offset_bound D k step i x r ltac:(lia) Hi Hk Hstep Ex Er) as Hr.
  unfold sample, rbind. rewrite Ex, Er. unfold timedelta_of_days.
  unfold Calendar.MAXORDINAL in HD1.
  assert (Ht : (-999999999 <=? r) && (r <=? 999999999) = true).
  { apply andb_true_iff; split; apply Z.leb_le; lia. }
  rewrite Ht. unfold dt_add. cbn [td_days td_us].
  destruct Hstart as [Ho Htod].
  assert (Hq : (tod start + 0) / US_PER_DAY = 0)
    by (apply Z.div_small; lia).
  rewrite Hq, Z.add_0_r.
  subst D. rewrite delta_days_eq in Hr by assumption.
  destruct Hend as [Hoe _].
  assert (Hrange : (1 <=? ordinal start + r)
                   && (ordinal start + r <=? Calendar.MAXORDINAL) = true).
  { apply andb_true_iff; split; apply Z.leb_le;
      destruct (tod start <=? tod end_); lia. }
  rewrite Hrange. eauto.
Qed.

End SamplerReturns.

Lemma rmap_returns {A B} (f : A -> res B) (l : list A) :
  (forall a, In a l -> exists b, f a = Ok b) ->
  exists l', rmap f l = Ok l'.
Proof.
  induction l as [|a l IH]; intros H; cbn [rmap].
  - eauto.
  - destruct (H a ltac:(now left)) as [b Hb].
    destruct IH as [bs Hbs]; [intros a' Ha'; apply H; now right|].
    unfold rbind. rewrite Hb, Hbs. eauto.
Qed.

(** For [n] up to [2^970] the sampler returns a list: no conversion
    overflows and every sampled date exists. *)
Lemma sampler_returns (start end_ : datetime) (n : Z) :
  valid_datetime start -> valid_datetime end_ -> dt_le start end_ ->
  2 <= n <= 2 ^ 970 ->
  exists l, evenly_spaced_dates start end_ n = Ok l.
Proof.
  intros Hs He Hle [Hn Hn2]. unfold evenly_spaced_dates.
  pose proof (delta_days_nonneg _ _ Hs He Hle) as HD.
  pose proof (delta_days_bound _ _ Hs He) as HD1.
  destruct (n <? 2) eqn:E2; [bools; lia|].
  destruct (td_days (dt_sub end_ start) <? 0) eqn:E0; [bools; lia|].
  destruct (n =? 2); [eauto|].
  destruct (int_truediv_returns (td_days (dt_sub end_ start)) (n - 1))
    as [step Hstep]; [lia | lia |].
  unfold rbind. rewrite Hstep.
  destruct (rmap_returns (sample start step) (range n)) as [ds Hds].
  { intros i Hi. apply range_bounds in Hi.
    apply (sample_returns start end_ Hs He Hle step (n - 1)); auto; lia. }
  rewrite Hds. eauto.
Qed.

(* ===================================================================== *)
(** ** Rounding to nearest even, and its monotonicity *)

Section NearestEven.

Lemma shr_1_r mrs : 0 <= shr_m mrs -> shr_r (shr_1 mrs) = Z.odd (shr_m mrs).
Proof.
  destruct mrs as [m r s]. cbn [shr_m]. intros Hm.
  destruct m as [|[p|p|]|p]; cbn [shr_1 shr_r]; try reflexivity; lia.
Qed.

Lemma shr_1_s mrs : shr_s (shr_1 mrs) = shr_r mrs || shr_s mrs.
Proof.
  destruct mrs as [m r s].
  destruct m as [|[p|p|]|[p|p|]]; reflexivity.
Qed.

Lemma mod_pow2_succ a k :
  0 <= a -> 0 <= k ->
  a mod 2 ^ (k + 1) = a mod 2 ^ k + 2 ^ k * ((a / 2 ^ k) mod 2).
Proof.
  intros Ha Hk. rewrite Z.pow_add_r by lia. change (2 ^ 1) with 2.
  apply Z.rem_mul_r; [|lia].
  pose proof (Z.pow_pos_nonneg 2 k); lia.
Qed.

Lemma shifted_step mx k mrs :
  0 <= mx -> 0 <= k -> shifted mx k mrs -> shifted mx (k + 1) (shr_1 mrs).
Proof.
  intros Hmx Hk (Hm & H0 & H1).
  assert (Hp : 0 < 2 ^ k) by (apply Z.pow_pos_nonneg; lia).
  assert (Hm0 : 0 <= shr_m mrs) by (rewrite Hm; apply Z.div_pos; lia).
  split; [|split].
  - rewrite shr_1_m, Hm, Z.div_div by lia.
    rewrite Z.pow_add_r by lia. reflexivity.
  - lia.
  - intros _. replace (k + 1 - 1) with k by lia.
    rewrite shr_1_r, shr_1_s, Hm by assumption. split; [reflexivity|].
    destruct (Z.eq_dec k 0) as [-> | Hk0].
    + destruct (H0 eq_refl) as [-> ->]. cbn. now rewrite Z.mod_1_r.
    + destruct (H1 ltac:(lia)) as [-> ->].
      pose proof (mod_pow2_succ mx (k - 1) Hmx ltac:(lia)) as Hs.
      replace (k - 1 + 1) with k in Hs by lia.
      assert (Hq : 0 < 2 ^ (k - 1)) by (apply Z.pow_pos_nonneg; lia).
      pose proof (Z.mod_pos_bound mx (2 ^ (k - 1)) Hq) as Hb.
      rewrite Hs.
      destruct (Z.odd (mx / 2 ^ (k - 1))) eqn:Eo.
      * assert ((mx / 2 ^ (k - 1)) mod 2 = 1).
        { rewrite Zmod_odd, Eo. reflexivity. }
        rewrite H. cbn [orb]. symmetry. apply negb_true_iff, Z.eqb_neq. lia.
      * assert ((mx / 2 ^ (k - 1)) mod 2 = 0).
        { rewrite Zmod_odd, Eo. reflexivity. }
        rewrite H, Z.mul_0_r, Z.add_0_r. reflexivity.
Qed.

Lemma shifted_iter p : forall mx k mrs,
  0 <= mx -> 0 <= k -> shifted mx k mrs ->
  shifted mx (k + Zpos p) (SpecFloat.iter_pos shr_1 p mrs).
Proof.
  induction p as [p IH | p IH |]; intros mx k mrs Hmx Hk H;
    cbn [SpecFloat.iter_pos].
  - replace (k + Zpos p~1) with (k + 1 + Zpos p + Zpos p) by lia.
    apply IH; [lia | lia |]. apply IH; [lia | lia |].
    now apply shifted_step.
  - replace (k + Zpos p~0) with (k + Zpos p + Zpos p) by lia.
    apply IH; [lia | lia |]. now apply IH.
  - now apply shifted_step.
Qed.

(** Shifting an exact mantissa right and rounding to nearest even is
    [rne_shift]. *)
Lemma shr_round_exact mx p :
  0 <= mx ->
  let mrs := SpecFloat.iter_pos shr_1 p (shr_record_of_loc mx loc_Exact) in
  round_nearest_even (shr_m mrs) (loc_of_shr_record mrs)
  = Float64.rne_shift mx (Zpos p).
Proof.
  intros Hmx mrs.
  assert (H : shifted mx (0 + Zpos p) mrs).
  { apply shifted_iter; [lia | lia |].
    split; [cbn [shr_m shr_record_of_loc]; now rewrite Z.div_1_r|].
    split; [intros _; split; reflexivity | lia]. }
  destruct H as (Hm & _ & H1). destruct (H1 ltac:(lia)) as [Hr Hs].
  replace (0 + Zpos p) with (Zpos p) in * by lia.
  unfold Float64.rne_shift.
  pose proof (mod_pow2_succ mx (Zpos p - 1) Hmx ltac:(lia)) as Hmod.
  replace (Zpos p - 1 + 1) with (Zpos p) in Hmod by lia.
  assert (Hq : 0 < 2 ^ (Zpos p - 1)) by (apply Z.pow_pos_nonneg; lia).
  pose proof (Z.mod_pos_bound mx (2 ^ (Zpos p - 1)) Hq) as Hb.
  destruct mrs as [m r s]. cbn [shr_m shr_r shr_s] in *. subst m.
  rewrite Hmod, Zmod_odd, <- Hr.
  destruct r, s; cbn [loc_of_shr_record round_nearest_even];
    symmetry in Hs;
    [apply negb_true_iff, Z.eqb_neq in Hs
    |apply negb_false_iff, Z.eqb_eq in Hs
    |apply negb_true_iff, Z.eqb_neq in Hs
    |apply negb_false_iff, Z.eqb_eq in Hs].
  - replace (_ ?= _) with Gt; [reflexivity|]. symmetry.
    apply Z.compare_gt_iff. lia.
  - replace (_ ?= _) with Eq; [reflexivity|]. symmetry.
    apply Z.compare_eq_iff. lia.
  - replace (_ ?= _) with Lt; [reflexivity|]. symmetry.
    apply Z.compare_lt_iff. lia.
  - replace (_ ?= _) with Lt; [reflexivity|]. symmetry.
    apply Z.compare_lt_iff. lia.
Qed.


Lemma rne_shift_spec m k :
  0 <= m -> 0 < k ->
  let z := Float64.rne_shift m k in
  let d := z * 2 ^ k - m in
  2 * d <= 2 ^ k /\ - 2 ^ k <= 2 * d
  /\ (2 * d = 2 ^ k \/ 2 * d = - 2 ^ k -> Z.even z = true).
Proof.
  intros Hm Hk z d. subst d z. unfold Float64.rne_shift.
  assert (HP : 0 < 2 ^ (k - 1)) by (apply Z.pow_pos_nonneg; lia).
  assert (H2 : 2 ^ k = 2 * 2 ^ (k - 1)).
  { replace k with (Z.succ (k - 1)) at 1 by lia. apply Z.pow_succ_r. lia. }
  pose proof (Z.div_mod m (2 ^ k) ltac:(lia)) as Hdm.
  pose proof (Z.mod_pos_bound m (2 ^ k) ltac:(lia)) as Hr.
  set (q := m / 2 ^ k) in *. set (r := m mod 2 ^ k) in *.
  set (P := 2 ^ (k - 1)) in *. rewrite H2 in *.
  destruct (Z.compare_spec r P) as [Ec | Ec | Ec].
  - destruct (Z.even q) eqn:Eq.
    + split; [lia|]. split; [lia|]. intros _. exact Eq.
    + split; [lia|]. split; [lia|]. intros _.
      rewrite Z.even_add, Eq. reflexivity.
  - split; [lia|]. split; [lia|]. intros [H | H]; lia.
  - split; [lia|]. split; [lia|]. intros [H | H]; lia.
Qed.

Lemma RN_of_Z m z k e :
  0 <= k ->
  2 * (z * 2 ^ k - m) <= 2 ^ k -> - 2 ^ k <= 2 * (z * 2 ^ k - m) ->
  (2 * (z * 2 ^ k - m) = 2 ^ k \/ 2 * (z * 2 ^ k - m) = - 2 ^ k ->
   Z.even z = true) ->
  RN (IZR m * bpow e) (e + k) (IZR z * bpow (e + k)).
Proof.
  intros Hk Hhi Hlo Heven. exists z. split; [reflexivity|].
  rewrite bpow_add, (bpow_IZR k) by lia.
  pose proof (bpow_pos e) as Hb.
  set (d := z * 2 ^ k - m) in *.
  assert (Hd : (IZR z * (bpow e * IZR (2 ^ k)) - IZR m * bpow e
                = IZR d * bpow e)%R).
  { subst d. rewrite minus_IZR, mult_IZR. ring. }
  assert (Hd' : (IZR m * bpow e - IZR z * (bpow e * IZR (2 ^ k))
                 = - IZR d * bpow e)%R) by lra.
  rewrite Hd, Hd'.
  apply IZR_le in Hhi, Hlo. rewrite mult_IZR in Hhi, Hlo.
  rewrite opp_IZR in Hlo.
  split; [|split].
  - replace (2 * (IZR d * bpow e))%R with ((2 * IZR d) * bpow e)%R by ring.
    rewrite (Rmult_comm (bpow e)). apply Rmult_le_compat_r; lra.
  - replace (2 * (- IZR d * bpow e))%R with ((- (2 * IZR d)) * bpow e)%R by ring.
    rewrite (Rmult_comm (bpow e)). apply Rmult_le_compat_r; lra.
  - intros [H | H]; apply Heven.
    + left. apply eq_IZR. rewrite mult_IZR.
      apply (Rmult_eq_reg_r (bpow e)); lra.
    + right. apply eq_IZR. rewrite mult_IZR, opp_IZR.
      apply (Rmult_eq_reg_r (bpow e)); lra.
Qed.

Lemma RN_exact z f : RN (IZR z * bpow f) f (IZR z * bpow f).
Proof.
  exists z. pose proof (bpow_pos f).
  split; [reflexivity|]. split; [lra|]. split; [lra|].
  intros [H0 | H0]; lra.
Qed.

(** Rounding on one grid is monotone. *)
Lemma RN_mono V1 V2 f r1 r2 :
  RN V1 f r1 -> RN V2 f r2 -> (V1 <= V2)%R -> (r1 <= r2)%R.
Proof.
  intros (z1 & -> & H1a & H1b & H1e) (z2 & -> & H2a & H2b & H2e) HV.
  pose proof (bpow_pos f) as Hb.
  destruct (Z_le_gt_dec z1 z2) as [Hz | Hz].
  { apply Rmult_le_compat_r; [lra | now apply IZR_le]. }
  exfalso.
  assert (Hz' : (IZR z2 + 1 <= IZR z1)%R).
  { rewrite <- plus_IZR. apply IZR_le. lia. }
  assert (Hs : ((IZR z2 + 1) * bpow f <= IZR z1 * bpow f)%R)
    by (apply Rmult_le_compat_r; lra).
  assert (E1 : (2 * (IZR z1 * bpow f - V1) = bpow f)%R) by lra.
  assert (E2 : (2 * (V2 - IZR z2 * bpow f) = bpow f)%R) by lra.
  specialize (H1e (or_introl E1)). specialize (H2e (or_intror E2)).
  assert (Hz1 : z1 = z2 + 1).
  { apply eq_IZR. rewrite plus_IZR.
    apply (Rmult_eq_reg_r (bpow f)); lra. }
  subst z1. rewrite Z.even_add, H2e in H1e. discriminate.
Qed.

(** A multiple of [2^f] that bounds the value bounds its rounding. *)
Lemma RN_le_grid V f r g :
  RN V f r -> (V <= IZR g * bpow f)%R -> (r <= IZR g * bpow f)%R.
Proof. intros H HV. exact (RN_mono _ _ _ _ _ H (RN_exact g f) HV). Qed.

Lemma RN_ge_grid V f r g :
  RN V f r -> (IZR g * bpow f <= V)%R -> (IZR g * bpow f <= r)%R.
Proof. intros H HV. exact (RN_mono _ _ _ _ _ (RN_exact g f) H HV). Qed.

Lemma rne_shift_le m k :
  0 <= m -> 0 < k -> m / 2 ^ k <= Float64.rne_shift m k <= m / 2 ^ k + 1.
Proof.
  intros Hm Hk. unfold Float64.rne_shift.
  destruct (_ ?= _); try destruct (Z.even _); lia.
Qed.

(** On an exact input [binary_round_aux] rounds the value to the nearest
    multiple of the last place of its magnitude, ties to even. *)
Lemma bra_core_RN mx ex m e :
  0 < mx ->
  bra_core mx ex loc_Exact = (m, e) ->
  RN (IZR mx * bpow ex) (F (Zdigits2 mx + ex)) (IZR m * bpow e).
Proof.
  intros Hmx. unfold bra_core, shr_fexp.
  pose proof (Zdigits2_spec mx Hmx) as [Hdlo Hdhi].
  pose proof (Zdigits2_pos mx Hmx) as Hd.
  set (d := Zdigits2 mx) in *.
  set (n1 := F (d + ex) - ex).
  assert (Hn1 : d - 53 <= n1 /\ -1074 <= ex + n1)
    by (subst n1; rewrite fexp_eq; lia).
  (* the first shift and the rounding *)
  assert (H1 : exists m1 e1,
             shr (shr_record_of_loc mx loc_Exact) ex n1
             = (fst (shr (shr_record_of_loc mx loc_Exact) ex n1), e1)
             /\ round_nearest_even
                  (shr_m (fst (shr (shr_record_of_loc mx loc_Exact) ex n1)))
                  (loc_of_shr_record
                     (fst (shr (shr_record_of_loc mx loc_Exact) ex n1)))
                = m1
             /\ 0 <= m1 <= 2 ^ 53 /\ -1074 <= e1
             /\ RN (IZR mx * bpow ex) (F (d + ex)) (IZR m1 * bpow e1)).
  { destruct n1 as [|p|p] eqn:En.
    - exists mx, ex. cbn [shr fst shr_record_of_loc shr_m loc_of_shr_record
                       round_nearest_even].
      split; [reflexivity|]. split; [reflexivity|].
      assert (d <= 53) by lia.
      assert (mx < 2 ^ 53).
      { eapply Z.lt_le_trans; [exact Hdhi|].
        apply Z.pow_le_mono_r; lia. }
      split; [lia|]. split; [lia|].
      replace (F (d + ex)) with ex by lia. apply RN_exact.
    - exists (Float64.rne_shift mx (Zpos p)), (ex + Zpos p).
      cbn [shr fst]. split; [reflexivity|].
      split; [apply shr_round_exact; lia|].
      pose proof (rne_shift_le mx (Zpos p) ltac:(lia) ltac:(lia)) as Hle.
      assert (mx / 2 ^ Zpos p < 2 ^ 53).
      { apply Z.div_lt_upper_bound; [apply Z.pow_pos_nonneg; lia|].
        rewrite <- Z.pow_add_r by lia.
        eapply Z.lt_le_trans; [exact Hdhi|].
        apply Z.pow_le_mono_r; lia. }
      assert (0 <= mx / 2 ^ Zpos p)
        by (apply Z.div_pos; [lia | apply Z.pow_pos_nonneg; lia]).
      split; [lia|]. split; [lia|].
      replace (F (d + ex)) with (ex + Zpos p) by lia.
      pose proof (rne_shift_spec mx (Zpos p) ltac:(lia) ltac:(lia))
        as (Ha & Hb & Hc).
      apply RN_of_Z; try lia. intros [H4 | H4]; apply Hc; lia.
    - exists mx, ex. cbn [shr fst shr_record_of_loc shr_m loc_of_shr_record
                       round_nearest_even].
      split; [reflexivity|]. split; [reflexivity|].
      assert (d <= 53) by lia.
      assert (mx < 2 ^ 53).
      { eapply Z.lt_le_trans; [exact Hdhi|].
        apply Z.pow_le_mono_r; lia. }
      split; [lia|].
      assert (Hf : F (d + ex) <= ex) by lia.
      split; [rewrite fexp_eq in Hf; lia|].
      (* the value is already on the grid *)
      replace ex with (F (d + ex) + (ex - F (d + ex))) at 1 3 by lia.
      rewrite bpow_add, (bpow_IZR (ex - F (d + ex))) by lia.
      rewrite (Rmult_comm (bpow (F (d + ex)))), <- Rmult_assoc, <- mult_IZR.
      apply RN_exact. }
  destruct H1 as (m1 & e1 & E1 & Em1 & Hm1 & He1 & HRN).
  rewrite E1, Em1.
  (* the second shift changes nothing in the value *)
  set (n2 := F (Zdigits2 m1 + e1) - e1).
  destruct (shr (shr_record_of_loc m1 loc_Exact) e1 n2) as [mrs2 e2] eqn:E2.
  apply shr_spec in E2 as [He2 Hm2]; [|cbn; lia].
  cbn [shr_m shr_record_of_loc] in Hm2.
  intros [= <- <-].
  assert (Hsame : (IZR (shr_m mrs2) * bpow e2 = IZR m1 * bpow e1)%R).
  { destruct (Z_lt_le_dec m1 (2 ^ 53)) as [Hlt | Hge].
    - assert (Hn2 : n2 <= 0).
      { subst n2. rewrite fexp_eq.
        destruct (Z.eq_dec m1 0) as [-> | Hne]; [cbn [Zdigits2]; lia|].
        pose proof (Zdigits2_le m1 53 ltac:(lia) Hlt ltac:(lia)). lia. }
      rewrite Z.max_l in He2, Hm2 by lia.
      rewrite Z.div_1_r in Hm2. rewrite Hm2, He2, Z.add_0_r. reflexivity.
    - assert (Hm1e : m1 = 2 ^ 53) by lia.
      assert (Hd1 : Zdigits2 m1 = 54).
      { rewrite Hm1e. reflexivity. }
      assert (Hn2 : n2 = 1) by (subst n2; rewrite fexp_eq, Hd1; lia).
      rewrite Hn2 in He2, Hm2. change (Z.max 0 1) with 1 in *.
      rewrite Hm2, He2, Hm1e, bpow_add.
      change (2 ^ 53 / 2 ^ 1) with (2 ^ 52).
      rewrite (bpow_IZR 1) by lia.
      replace (IZR (2 ^ 53)) with (IZR (2 ^ 52) * IZR (2 ^ 1))%R
        by (rewrite <- mult_IZR; reflexivity).
      ring. }
  rewrite Hsame. exact HRN.
Qed.

(** The value of what [binary_round_aux] returns. *)
Lemma binary_round_aux_RN mx ex :
  0 < mx ->
  let x := binary_round_aux Float64.prec Float64.emax false mx ex loc_Exact in
  is_infinity x = false ->
  nonneg_finite x
  /\ RN (IZR mx * bpow ex) (F (Zdigits2 mx + ex)) (SF2R x).
Proof.
  intros Hmx x. subst x. rewrite binary_round_aux_core.
  destruct (bra_core mx ex loc_Exact) as [m e] eqn:E.
  pose proof (bra_core_RN mx ex m e Hmx E) as HRN.
  apply bra_core_bound in E as (Hm & _); [|lia].
  destruct m as [|p|p]; [| |lia].
  - intros _. cbn [nonneg_finite SF2R]. split; [exact I|].
    now rewrite Rmult_0_l in HRN.
  - destruct (e <=? Float64.emax - Float64.prec); [|discriminate].
    intros _. cbn [nonneg_finite SF2R]. split; [exact I | exact HRN].
Qed.

(** The magnitude of a positive mantissa with its exponent. *)
Lemma magnitude mx ex :
  0 < mx ->
  (bpow (Zdigits2 mx + ex - 1) <= IZR mx * bpow ex < bpow (Zdigits2 mx + ex))%R.
Proof.
  intros Hmx. pose proof (Zdigits2_spec mx Hmx) as [Hlo Hhi].
  pose proof (Zdigits2_pos mx Hmx) as Hd.
  apply IZR_le in Hlo. apply IZR_lt in Hhi.
  rewrite <- bpow_IZR in Hlo, Hhi by lia.
  pose proof (bpow_pos ex) as Hb.
  replace (Zdigits2 mx + ex - 1) with ((Zdigits2 mx - 1) + ex) by lia.
  rewrite !bpow_add. split.
  - apply Rmult_le_compat_r; lra.
  - apply Rmult_lt_compat_r; lra.
Qed.

Lemma bpow_lt_inv a b : (bpow a < bpow b)%R -> a < b.
Proof.
  intros H. destruct (Z_lt_le_dec a b) as [Hlt | Hge]; [exact Hlt|].
  apply bpow_le in Hge. lra.
Qed.

(** A power of two on a finer grid. *)
Lemma bpow_on_grid g f :
  f <= g -> bpow g = (IZR (2 ^ (g - f)) * bpow f)%R.
Proof.
  intros H. rewrite <- bpow_IZR, <- bpow_add by lia. f_equal. lia.
Qed.

(** Rounding is monotone in the exact value. *)
Lemma round_mono mx1 ex1 mx2 ex2 :
  0 < mx1 -> 0 < mx2 ->
  (IZR mx1 * bpow ex1 <= IZR mx2 * bpow ex2)%R ->
  let x1 := binary_round_aux Float64.prec Float64.emax false mx1 ex1 loc_Exact in
  let x2 := binary_round_aux Float64.prec Float64.emax false mx2 ex2 loc_Exact in
  is_infinity x1 = false -> is_infinity x2 = false ->
  (SF2R x1 <= SF2R x2)%R.
Proof.
  intros H1 H2 HV x1 x2 Hi1 Hi2.
  destruct (binary_round_aux_RN mx1 ex1 H1 Hi1) as [_ R1].
  destruct (binary_round_aux_RN mx2 ex2 H2 Hi2) as [_ R2].
  fold x1 in R1. fold x2 in R2.
  pose proof (magnitude mx1 ex1 H1) as [M1lo M1hi].
  pose proof (magnitude mx2 ex2 H2) as [M2lo M2hi].
  set (g1 := Zdigits2 mx1 + ex1) in *. set (g2 := Zdigits2 mx2 + ex2) in *.
  assert (Hg : g1 <= g2).
  { assert (bpow (g1 - 1) < bpow g2)%R by lra.
    apply bpow_lt_inv in H. lia. }
  destruct (Z.eq_dec g1 g2) as [Heq | Hne].
  { rewrite Heq in R1. exact (RN_mono _ _ _ _ _ R1 R2 HV). }
  destruct (Z_le_gt_dec (-1074) (g2 - 1)) as [Hn | Hs].
  - (* the power of two between the two values is on both grids *)
    assert (Hf2 : F g2 <= g2 - 1) by (rewrite fexp_eq; lia).
    assert (Hf1 : F g1 <= g2 - 1) by (rewrite fexp_eq; lia).
    assert (HG1 : (IZR mx1 * bpow ex1 <= bpow (g2 - 1))%R).
    { assert (bpow g1 <= bpow (g2 - 1))%R by (apply bpow_le; lia). lra. }
    apply Rle_trans with (bpow (g2 - 1)).
    + rewrite (bpow_on_grid (g2 - 1) (F g1) Hf1) in *.
      exact (RN_le_grid _ _ _ _ R1 HG1).
    + rewrite (bpow_on_grid (g2 - 1) (F g2) Hf2) in *.
      exact (RN_ge_grid _ _ _ _ R2 M2lo).
  - (* both values are below the smallest positive double *)
    assert (E1 : F g1 = -1074) by (rewrite fexp_eq; lia).
    assert (E2 : F g2 = -1074) by (rewrite fexp_eq; lia).
    rewrite E1 in R1. rewrite E2 in R2.
    exact (RN_mono _ _ _ _ _ R1 R2 HV).
Qed.

(** [float(i)] grows with [i]. *)
Lemma of_int_mono i j fi fj :
  0 <= i <= j ->
  Float64.of_int i = Ok fi -> Float64.of_int j = Ok fj ->
  (SF2R fi <= SF2R fj)%R.
Proof.
  intros [Hi Hij] Ei Ej.
  destruct i as [|pi|pi]; [| |lia].
  { apply of_int_value in Ej as (_ & [Hj _] & _); [|lia].
    injection Ei as <-. exact Hj. }
  destruct j as [|pj|pj]; try lia.
  unfold Float64.of_int in Ei, Ej. cbn [binary_normalize] in Ei, Ej.
  unfold binary_round in Ei, Ej.
  destruct (shl_align pi 0 _) as [mi ei] eqn:Ai.
  destruct (shl_align pj 0 _) as [mj ej] eqn:Aj.
  apply shl_align_spec in Ai as [Vi _]. apply shl_align_spec in Aj as [Vj _].
  rewrite Rmult_1_r in Vi, Vj.
  assert (Hfi : binary_round_aux Float64.prec Float64.emax false (Zpos mi) ei
                  loc_Exact = fi)
    by (destruct (binary_round_aux _ _ false (Zpos mi) ei loc_Exact);
        try discriminate; congruence).
  assert (Hfj : binary_round_aux Float64.prec Float64.emax false (Zpos mj) ej
                  loc_Exact = fj)
    by (destruct (binary_round_aux _ _ false (Zpos mj) ej loc_Exact);
        try discriminate; congruence).
  rewrite <- Hfi, <- Hfj.
  apply round_mono; try lia.
  - rewrite Vi, Vj. apply IZR_le. lia.
  - rewrite Hfi. destruct fi; try reflexivity.
    rewrite Hfi in Ei. discriminate.
  - rewrite Hfj. destruct fj; try reflexivity.
    rewrite Hfj in Ej. discriminate.
Qed.

(** [x * step] grows with [x]. *)
Lemma mul_mono x y step :
  nonneg_finite x -> nonneg_finite y -> nonneg_finite step ->
  (SF2R x <= SF2R y)%R ->
  is_infinity (SFmul Float64.prec Float64.emax x step) = false ->
  is_infinity (SFmul Float64.prec Float64.emax y step) = false ->
  (SF2R (SFmul Float64.prec Float64.emax x step)
   <= SF2R (SFmul Float64.prec Float64.emax y step))%R.
Proof.
  intros Hx Hy Hs Hxy Hix Hiy.
  destruct step as [[]| | |[] ms es]; cbn [nonneg_finite] in Hs; try tauto.
  { destruct x as [[]| | |[] mx ex], y as [[]| | |[] my ey];
      cbn [nonneg_finite] in Hx, Hy; try tauto; cbn; lra. }
  destruct x as [[]| | |[] mx ex]; cbn [nonneg_finite] in Hx; try tauto.
  { (* 0 * step *)
    pose proof (mul_value y (S754_finite false ms es) Hy I Hiy) as [_ [H _]].
    cbn [SFmul xorb SF2R]. exact H. }
  destruct y as [[]| | |[] my ey]; cbn [nonneg_finite] in Hy; try tauto.
  { (* a positive x is not below 0 *)
    exfalso. cbn [SF2R] in Hxy.
    pose proof (bpow_pos ex).
    assert (0 < IZR (Zpos mx))%R by (apply IZR_lt; lia). nra. }
  cbn [SFmul xorb] in *. cbn [SF2R] in Hxy.
  apply round_mono; try lia; try assumption.
  rewrite !Pos2Z.inj_mul, !mult_IZR, !bpow_add.
  pose proof (bpow_pos es).
  assert (0 < IZR (Zpos ms))%R by (apply IZR_lt; lia).
  replace (IZR (Zpos mx) * IZR (Zpos ms) * (bpow ex * bpow es))%R
    with ((IZR (Zpos mx) * bpow ex) * (IZR (Zpos ms) * bpow es))%R by ring.
  replace (IZR (Zpos my) * IZR (Zpos ms) * (bpow ey * bpow es))%R
    with ((IZR (Zpos my) * bpow ey) * (IZR (Zpos ms) * bpow es))%R by ring.
  apply Rmult_le_compat_r; [|exact Hxy].
  apply Rmult_le_pos; lra.
Qed.

(** [round(x)] is the value rounded to the nearest integer, ties to even. *)
Lemma py_round_RN x r :
  nonneg_finite x -> Float64.py_round x = Ok r ->
  RN (SF2R x) 0 (IZR r * bpow 0).
Proof.
  destruct x as [[]| | |[] m e]; cbn [nonneg_finite]; try tauto; intros _.
  - cbn [Float64.py_round SF2R]. intros [= <-].
    replace 0%R with (IZR 0 * bpow 0)%R at 1 by (cbn; lra).
    apply RN_exact.
  - cbn [Float64.py_round SF2R]. intros [= <-].
    destruct (0 <=? e) eqn:Ee.
    + apply Z.leb_le in Ee.
      rewrite (bpow_IZR e), <- mult_IZR by lia.
      replace (IZR (Zpos m * 2 ^ e)) with (IZR (Zpos m * 2 ^ e) * bpow 0)%R
        at 1 by (cbn; lra).
      apply RN_exact.
    + apply Z.leb_gt in Ee.
      pose proof (rne_shift_spec (Zpos m) (- e) ltac:(lia) ltac:(lia))
        as (Ha & Hb & Hc).
      replace 0 with (e + - e) by lia.
      apply RN_of_Z; try lia. intros [H | H]; apply Hc; lia.
Qed.

Lemma py_round_mono x y rx ry :
  nonneg_finite x -> nonneg_finite y -> (SF2R x <= SF2R y)%R ->
  Float64.py_round x = Ok rx -> Float64.py_round y = Ok ry ->
  rx <= ry.
Proof.
  intros Hx Hy Hxy Ex Ey.
  pose proof (RN_mono _ _ _ _ _ (py_round_RN x rx Hx Ex)
                (py_round_RN y ry Hy Ey) Hxy) as H.
  change (bpow 0) with 1%R in H. rewrite !Rmult_1_r in H.
  now apply le_IZR.
Qed.

(** The offsets grow with the index. *)
Lemma offset_mono step i j xi xj ri rj :
  nonneg_finite step -> 0 <= i <= j ->
  Float64.int_mul i step = Ok xi -> Float64.int_mul j step = Ok xj ->
  Float64.py_round xi = Ok ri -> Float64.py_round xj = Ok rj ->
  ri <= rj.
Proof.
  intros Hs Hij Exi Exj Eri Erj.
  unfold Float64.int_mul, rbind in Exi, Exj.
  destruct (Float64.of_int i) as [fi|] eqn:Efi; [|discriminate].
  destruct (Float64.of_int j) as [fj|] eqn:Efj; [|discriminate].
  injection Exi as <-. injection Exj as <-.
  pose proof (of_int_mono i j fi fj Hij Efi Efj) as Hf.
  apply of_int_value in Efi as (Hni & _); [|lia].
  apply of_int_value in Efj as (Hnj & _); [|lia].
  assert (Hii : is_infinity (SFmul Float64.prec Float64.emax fi step) = false).
  { destruct (SFmul _ _ fi step); try reflexivity. discriminate Eri. }
  assert (Hij' : is_infinity (SFmul Float64.prec Float64.emax fj step) = false).
  { destruct (SFmul _ _ fj step); try reflexivity. discriminate Erj. }
  pose proof (mul_value fi step Hni Hs Hii) as [Hxi _].
  pose proof (mul_value fj step Hnj Hs Hij') as [Hxj _].
  apply (py_round_mono _ _ _ _ Hxi Hxj); try assumption.
  now apply mul_mono.
Qed.

End NearestEven.

(* ===================================================================== *)
(** ** Date sampler: the order of the sampled dates *)

Section DedupFacts.

Lemma ascending_snoc out d :
  ascending out ->
  Forall (fun o => date_of o < date_of d) out ->
  ascending (out ++ [d]).
Proof.
  induction out as [|o out IH]; intros Ha Hlt; [exact I|].
  apply Forall_cons in Hlt as [Ho Hlt].
  destruct out as [|o' out'].
  - cbn. split; [exact Ho | exact I].
  - cbn in Ha |- *. destruct Ha as [Hoo Ha]. split; [exact Hoo|].
    apply IH; assumption.
Qed.

Lemma ascending_NoDup l : ascending l -> NoDup (map date_of l).
Proof.
  assert (H : forall l, ascending l ->
            match l with
            | [] => True
            | d :: l' => Forall (fun o => date_of d < date_of o) l'
            end /\ NoDup (map date_of l)).
  { clear l. induction l as [|d l IH]; intros Ha.
    - split; [exact I | constructor].
    - destruct l as [|d' l'].
      + split; [constructor|]. cbn [map]. apply NoDup_cons.
        split; [apply not_elem_of_nil | constructor].
      + cbn [ascending] in Ha. destruct Ha as [Hlt Ha].
        destruct (IH Ha) as [Hall Hnd].
        assert (Hd : Forall (fun o => date_of d < date_of o) (d' :: l')).
        { constructor; [exact Hlt|].
          eapply Forall_impl; [exact Hall|]. cbn. intros; lia. }
        split; [exact Hd|].
        change (map date_of (d :: d' :: l'))
          with (date_of d :: map date_of (d' :: l')).
        apply NoDup_cons. split; [|exact Hnd].
        intros Hin. apply list_elem_of_In, in_map_iff in Hin as (o & Ho & Hino).
        rewrite List.Forall_forall in Hd. specialize (Hd o Hino). lia. }
  intros Ha. apply (H l Ha).
Qed.


Lemma seen_matches_step acc d :
  seen_matches acc -> seen_matches (dedup_step acc d).
Proof.
  destruct acc as [seen out]. unfold seen_matches, dedup_step. cbn [fst snd].
  intros H. destruct (decide (date_of d ∈ seen)); cbn [fst snd]; [exact H|].
  intros z. rewrite elem_of_union, elem_of_singleton, map_app, in_app_iff.
  cbn [map In]. rewrite H. intuition congruence.
Qed.

Lemma dedup_ascending ds : forall acc,
  seen_matches acc -> ascending acc.2 ->
  Forall (fun o => Forall (date_le o) ds) acc.2 ->
  StronglySorted date_le ds ->
  ascending (foldl dedup_step acc ds).2.
Proof.
  induction ds as [|d ds IH]; intros acc Hseen Hasc Hle Hsorted;
    cbn [foldl]; [exact Hasc|].
  apply StronglySorted_inv in Hsorted as [Hsorted Hd].
  apply IH; [now apply seen_matches_step | | | exact Hsorted].
  - destruct acc as [seen out]. unfold dedup_step. cbn [fst snd] in *.
    destruct (decide (date_of d ∈ seen)) as [Hin | Hnin]; cbn [snd];
      [exact Hasc|].
    apply ascending_snoc; [exact Hasc|].
    rewrite List.Forall_forall in Hle |- *. intros o Ho.
    specialize (Hle o Ho). apply Forall_cons in Hle as [Hod _].
    unfold date_le in Hod.
    assert (date_of o <> date_of d); [|lia].
    intros E. apply Hnin, Hseen. cbn [snd]. rewrite <- E.
    now apply in_map.
  - destruct acc as [seen out]. unfold dedup_step. cbn [fst snd] in *.
    destruct (decide (date_of d ∈ seen)); cbn [snd].
    + eapply Forall_impl; [exact Hle|]. cbn. intros o Ho.
      now apply Forall_cons in Ho as [_ Ho].
    + apply Forall_app. split.
      * eapply Forall_impl; [exact Hle|]. cbn. intros o Ho.
        now apply Forall_cons in Ho as [_ Ho].
      * constructor; [exact Hd | constructor].
Qed.

(** What is in [out] stays, and every date met is in [out] at the end. *)
Lemma dedup_keeps ds : forall acc,
  seen_matches acc ->
  (forall o, In o acc.2 -> In o (foldl dedup_step acc ds).2)
  /\ (forall d, In d ds -> In (date_of d) (map date_of (foldl dedup_step acc ds).2))
  /\ (length (foldl dedup_step acc ds).2 <= length acc.2 + length ds)%nat.
Proof.
  induction ds as [|d ds IH]; intros acc Hseen; cbn [foldl].
  - split; [auto|]. split; [intros d [] | cbn; lia].
  - destruct (IH (dedup_step acc d) (seen_matches_step _ _ Hseen))
      as (Hkeep & Hdates & Hlen).
    assert (Hstep : (forall o, In o acc.2 -> In o (dedup_step acc d).2)
                    /\ In (date_of d) (map date_of (dedup_step acc d).2)
                    /\ (length (dedup_step acc d).2 <= S (length acc.2))%nat).
    { destruct acc as [seen out]. unfold dedup_step. cbn [fst snd] in *.
      destruct (decide (date_of d ∈ seen)) as [Hin | Hnin]; cbn [snd].
      - split; [auto|]. split; [now apply Hseen | lia].
      - split; [intros o Ho; apply in_app_iff; now left|].
        split.
        + rewrite map_app. apply in_app_iff. right. now left.
        + rewrite length_app. cbn. lia. }
    destruct Hstep as (Hs1 & Hs2 & Hs3).
    split; [intros o Ho; apply Hkeep, Hs1, Ho|]. split.
    + intros d' [<- | Hd'].
      * apply in_map_iff in Hs2 as (o & Ho & Hino).
        rewrite <- Ho. apply in_map. now apply Hkeep.
      * now apply Hdates.
    + cbn [length]. lia.
Qed.

End DedupFacts.

Section SamplerOrder.

Lemma seq_sorted k : forall s,
  StronglySorted Z.le (map Z.of_nat (seq s k)).
Proof.
  induction k as [|k IH]; intros s; cbn [seq map]; constructor.
  - apply IH.
  - rewrite List.Forall_forall. intros z Hz.
    apply in_map_iff in Hz as (j & <- & Hj). apply in_seq in Hj. lia.
Qed.

Lemma range_sorted n : StronglySorted Z.le (range n).
Proof. apply seq_sorted. Qed.

Lemma Forall2_sorted {A B} (R : A -> B -> Prop) (leA : A -> A -> Prop)
    (leB : B -> B -> Prop) l l' :
  Forall2 R l l' -> StronglySorted leA l ->
  (forall a a' b b', leA a a' -> R a b -> R a' b' -> leB b b') ->
  StronglySorted leB l'.
Proof.
  intros H. induction H as [|a b l l' Hab Hll IH]; intros Hs Hmono;
    constructor.
  - apply IH; [|exact Hmono]. now apply StronglySorted_inv in Hs.
  - apply StronglySorted_inv in Hs as [_ Ha].
    clear IH. induction Hll as [|a' b' l l' Hab' _ IH']; constructor.
    + apply Forall_cons in Ha as [Ha _]. exact (Hmono _ _ _ _ Ha Hab Hab').
    + apply IH'. now apply Forall_cons in Ha as [_ Ha].
Qed.

Lemma sorted_replace_head {A} (R : A -> A -> Prop) x y l :
  StronglySorted R (x :: l) -> Forall (R y) l -> StronglySorted R (y :: l).
Proof.
  intros H Hy. apply StronglySorted_inv in H as [H _]. now constructor.
Qed.

Lemma sorted_replace_last {A} (R : A -> A -> Prop) y l :
  StronglySorted R l -> Forall (fun x => R x y) l ->
  StronglySorted R (<[pred (length l) := y]> l).
Proof.
  induction l as [|x l IH]; intros Hs Hy; [constructor|].
  apply StronglySorted_inv in Hs as [Hs Hx].
  apply Forall_cons in Hy as [Hxy Hy].
  destruct l as [|x' l'].
  - cbn. constructor; constructor.
  - change (pred (length (x :: x' :: l'))) with (S (pred (length (x' :: l')))).
    cbn [insert list_insert]. constructor.
    + apply IH; assumption.
    + apply Forall_insert; assumption.
Qed.

Variables (start end_ : datetime).
Hypothesis Hstart : valid_datetime start.

Lemma sample_inv step i d :
  sample start step i = Ok d ->
  exists x r,
    Float64.int_mul i step = Ok x /\ Float64.py_round x = Ok r
    /\ d = mk_datetime (ordinal start + r) (tod start).
Proof.
  unfold sample, rbind.
  destruct (Float64.int_mul i step) as [x|] eqn:Ex; [|discriminate].
  destruct (Float64.py_round x) as [r|] eqn:Er; [|discriminate].
  unfold timedelta_of_days.
  destruct ((-999999999 <=? r) && (r <=? 999999999)); [|discriminate].
  intros Hd. apply dt_add_days in Hd; [|exact Hstart]. eauto.
Qed.

Lemma sample_mono step i j d d' :
  nonneg_finite step -> 0 <= i <= j ->
  sample start step i = Ok d -> sample start step j = Ok d' ->
  date_le d d'.
Proof.
  intros Hs Hij Hd Hd'.
  apply sample_inv in Hd as (x & r & Ex & Er & ->).
  apply sample_inv in Hd' as (x' & r' & Ex' & Er' & ->).
  unfold date_le, date_of. cbn [ordinal].
  pose proof (offset_mono step i j x x' r r' Hs Hij Ex Ex' Er Er'). lia.
Qed.

End SamplerOrder.

Lemma seq_sorted_nonneg k : forall s,
  StronglySorted (fun a b => 0 <= a <= b) (map Z.of_nat (seq s k)).
Proof.
  induction k as [|k IH]; intros s; cbn [seq map]; constructor.
  - apply IH.
  - rewrite List.Forall_forall. intros z Hz.
    apply in_map_iff in Hz as (j & <- & Hj). apply in_seq in Hj. lia.
Qed.

Lemma dt_le_date a b : dt_le a b -> date_le a b.
Proof. unfold dt_le, date_le, date_of. lia. Qed.

(** For [n >= 3] the list returned is strictly ascending by calendar date,
    so without repeated dates; it holds [start], it holds the date of
    [end] (and [end] itself when the two share their time of day, as two
    parsed dates do), and it has at most [n] entries. *)
Lemma sampler_three_or_more (start end_ : datetime) (n : Z)
    (l : list datetime) :
  valid_datetime start -> valid_datetime end_ -> dt_le start end_ ->
  3 <= n ->
  evenly_spaced_dates start end_ n = Ok l ->
  ascending l
  /\ NoDup (map date_of l)
  /\ In start l
  /\ In (date_of end_) (map date_of l)
  /\ (tod start = tod end_ -> In end_ l)
  /\ Z.of_nat (length l) <= n.
Proof.
  intros Hs He Hle Hn. unfold evenly_spaced_dates.
  pose proof (delta_days_nonneg _ _ Hs He Hle) as HD.
  pose proof (delta_days_bound _ _ Hs He) as HD1.
  destruct (n <? 2) eqn:E2; [bools; lia|].
  destruct (td_days (dt_sub end_ start) <? 0) eqn:E0; [bools; lia|].
  destruct (n =? 2) eqn:En; [bools; lia|].
  unfold rbind.
  destruct (Float64.int_truediv _ (n - 1)) as [step|] eqn:Estep;
    [|discriminate].
  destruct (rmap (sample start step) (range n)) as [ds|] eqn:Eds;
    [|discriminate].
  intros [= <-].
  apply rmap_Forall2 in Eds.
  assert (Hk : 0 < n - 1) by lia.
  pose proof (int_truediv_value _ _ _ HD Hk Estep) as (Hnn & _).
  (* the sampled dates, before the end points are forced *)
  assert (Hlen : length ds = Z.to_nat n).
  { rewrite <- (Forall2_length _ _ _ Eds). apply range_length. }
  assert (Hin : Forall (fun d => dt_le start d /\ dt_le d end_) ds).
  { apply (Forall2_Forall_image _ _ _ _ Eds).
    intros i d Hi Hd. apply range_bounds in Hi.
    apply (sample_in_interval start end_ Hs He step (n - 1) i d);
      auto; lia. }
  assert (Htod : Forall (fun d => tod d = tod start) ds).
  { apply (Forall2_Forall_image _ _ _ _ Eds).
    intros i d _ Hd. apply (sample_inv start Hs) in Hd as (x & r & _ & _ & ->).
    reflexivity. }
  assert (Hsorted : StronglySorted date_le ds).
  { apply (Forall2_sorted _ (fun a b => 0 <= a <= b) _ _ _ Eds).
    - apply seq_sorted_nonneg.
    - intros i j d d' Hij Hd Hd'.
      exact (sample_mono start Hs step i j d d' Hnn Hij Hd Hd'). }
  destruct ds as [|d0 [|d1 t]]; [cbn in Hlen; lia | cbn in Hlen; lia|].
  cbn [insert list_insert].
  change (<[0%nat:=start]> (d0 :: d1 :: t)) with (start :: d1 :: t).
  set (ds1 := start :: d1 :: t).
  apply Forall_cons in Hin as [_ Hin]. apply Forall_cons in Htod as [_ Htod].
  assert (Hin1 : Forall (fun d => dt_le start d /\ dt_le d end_) ds1).
  { constructor; [split; [apply dt_le_refl | exact Hle] | exact Hin]. }
  assert (Hsorted1 : StronglySorted date_le ds1).
  { apply (sorted_replace_head _ d0); [exact Hsorted|].
    eapply Forall_impl; [exact Hin|]. cbn. intros d [H _].
    now apply dt_le_date. }
  set (ds2 := <[pred (length ds1) := end_]> ds1).
  assert (Hsorted2 : StronglySorted date_le ds2).
  { apply sorted_replace_last; [exact Hsorted1|].
    eapply Forall_impl; [exact Hin1|]. cbn. intros d [_ H].
    now apply dt_le_date. }
  assert (Hlen2 : length ds2 = Z.to_nat n).
  { subst ds2 ds1. rewrite length_insert. cbn [length] in *. lia. }
  assert (Hend2 : In end_ ds2).
  { apply list_elem_of_In. apply (list_elem_of_lookup_2 _ (pred (length ds1))).
    apply list_lookup_insert_eq. subst ds1. cbn. lia. }
  assert (Hhead2 : exists t2, ds2 = start :: t2).
  { subst ds2 ds1. cbn. eauto. }
  assert (Htod2 : tod start = tod end_ ->
                  Forall (fun d => tod d = tod start) ds2).
  { intros E. apply Forall_insert; [|now symmetry].
    constructor; [reflexivity | exact Htod]. }
  clearbody ds2. clear Hsorted Hsorted1 Hin Hin1 Htod Hlen.
  unfold dedup_by_date.
  assert (Hseen0 : seen_matches ((∅ : gset Z), ([] : list datetime))).
  { intros z. cbn. split; [intros H; now apply not_elem_of_empty in H | tauto]. }
  pose proof (dedup_keeps ds2 _ Hseen0) as (_ & Hdates & Hlength).
  cbn [snd length] in Hlength.
  assert (Hasc : ascending (foldl dedup_step (∅, []) ds2).2).
  { apply dedup_ascending; try assumption; constructor. }
  split; [exact Hasc|]. split; [now apply ascending_NoDup|].
  split; [|split; [|split]].
  - destruct Hhead2 as [t2 ->]. cbn [foldl].
    assert (Hseen1 : seen_matches (dedup_step (∅, []) start))
      by now apply seen_matches_step.
    apply (dedup_keeps t2 _ Hseen1).
    unfold dedup_step. destruct (decide (date_of start ∈ (∅ : gset Z))) as [H|_].
    + now apply not_elem_of_empty in H.
    + now left.
  - now apply Hdates.
  - intros E. specialize (Hdates end_ Hend2).
    apply in_map_iff in Hdates as (o & Ho & Hino).
    assert (Hto : tod o = tod start).
    { pose proof (dedup_by_date_Forall _ _ (Htod2 E)) as Hall.
      unfold dedup_by_date in Hall.
      rewrite List.Forall_forall in Hall. now apply Hall. }
    replace end_ with o; [exact Hino|].
    destruct o, end_. unfold date_of in Ho. cbn in *. congruence.
  - lia.
Qed.

(** With [n = 2] and two different days the two end points are ascending,
    too: of all the inputs with [start <= end] and [n >= 2], only [n = 2]
    on one and the same day gives a repeated date. *)
Lemma sampler_two_distinct_days (start end_ : datetime) :
  valid_datetime start -> valid_datetime end_ ->
  date_of start < date_of end_ ->
  evenly_spaced_dates start end_ 2 = Ok [start; end_]
  /\ ascending [start; end_]
  /\ NoDup (map date_of [start; end_]).
Proof.
  intros Hs He Hlt.
  assert (Hle : dt_le start end_) by (left; exact Hlt).
  assert (Hasc : ascending [start; end_]) by (cbn; auto).
  split; [|split; [exact Hasc | now apply ascending_NoDup]].
  unfold evenly_spaced_dates.
  pose proof (delta_days_nonneg _ _ Hs He Hle) as Hd.
  apply Z.ltb_ge in Hd. now rewrite Hd.
Qed.

(* ===================================================================== *)
(** * Further properties of the code *)

(** ** Validator: normal forms *)

Section CurrencyNormalForm.
Import PyStr.

Lemma lstrip_fixed s :
  (forall c, head s = Some c -> isspace c = false) -> lstrip s = s.
Proof.
  destruct s as [|c s]; [reflexivity|]. intros H. cbn [lstrip].
  now rewrite (H c eq_refl).
Qed.

Lemma rstrip_app a b :
  rstrip (a ++ b)
  = match rstrip b with
    | [] => rstrip a
    | t => a ++ t
    end.
Proof.
  induction a as [|c a IH]; cbn [app rstrip].
  - now destruct (rstrip b).
  - rewrite IH. destruct (rstrip b) as [|x t]; [reflexivity|].
    now destruct a.
Qed.

Lemma rstrip_fixed s :
  (forall c, last s = Some c -> isspace c = false) -> rstrip s = s.
Proof.
  induction s as [|c s IH]; [reflexivity|]. intros H. cbn [rstrip].
  destruct s as [|x s].
  - cbn. now rewrite (H c eq_refl).
  - rewrite IH by (intros y Hy; apply H; exact Hy). reflexivity.
Qed.

Lemma letters_first_last s :
  all_chars is_letter s = true ->
  (forall c, head s = Some c -> isspace c = false)
  /\ (forall c, last s = Some c -> isspace c = false).
Proof.
  rewrite all_chars_In. intros H. split; intros c Hc;
    apply letter_not_space, H.
  - destruct s; [discriminate|]. injection Hc as <-. now left.
  - apply last_Some in Hc as [l' ->]. apply in_or_app. right. now left.
Qed.

Lemma upper_empty s : upper s = "" <-> s = "".
Proof.
  destruct s as [|c s]; [tauto|]. cbn [upper]. split; [|discriminate].
  intros H. apply app_eq_nil in H as [H _].
  now destruct (upper_char_nonempty c).
Qed.

Lemma lstrip_upper_comm s : lstrip (upper s) = upper (lstrip s).
Proof.
  induction s as [|c s IH]; [reflexivity|]. cbn [upper lstrip].
  destruct (isspace c) eqn:E.
  - rewrite (upper_char_space c E). cbn [app lstrip]. now rewrite E.
  - cbn [upper]. apply lstrip_fixed. intros x Hx.
    apply (upper_char_not_space c x E).
    pose proof (upper_char_nonempty c) as Hn.
    destruct (upper_char c) as [|y u]; [congruence|].
    injection Hx as <-. now left.
Qed.

Lemma rstrip_upper_char c :
  rstrip (upper_char c) = if isspace c then [] else upper_char c.
Proof.
  destruct (isspace c) eqn:E.
  - rewrite (upper_char_space c E). cbn. now rewrite E.
  - apply rstrip_fixed. intros x Hx.
    apply (upper_char_not_space c x E).
    apply last_Some in Hx as [l' ->]. apply in_or_app. right. now left.
Qed.

Lemma rstrip_upper_comm s : rstrip (upper s) = upper (rstrip s).
Proof.
  induction s as [|c s IH]; [reflexivity|]. cbn [upper rstrip].
  rewrite rstrip_app, IH.
  destruct (rstrip s) as [|x t] eqn:E.
  - cbn [upper]. rewrite rstrip_upper_char.
    destruct (isspace c); [reflexivity|]. cbn [upper]. now rewrite app_nil_r.
  - destruct (upper (x :: t)) as [|y u] eqn:Eu.
    + apply (proj1 (upper_empty _)) in Eu. discriminate Eu.
    + cbn [upper] in *. now rewrite Eu.
Qed.

Lemma strip_upper_comm s : strip (upper s) = upper (strip s).
Proof. unfold strip. now rewrite lstrip_upper_comm, rstrip_upper_comm. Qed.

Lemma lstrip_blank a s : blank a -> lstrip (a ++ s) = lstrip s.
Proof.
  unfold blank. induction a as [|c a IH]; [reflexivity|].
  cbn [all_chars app lstrip]. intros H. bools. rewrite H. auto.
Qed.

Lemma rstrip_blank b : blank b -> rstrip b = "".
Proof.
  unfold blank. induction b as [|c b IH]; [reflexivity|].
  cbn [all_chars rstrip]. intros H. bools.
  rewrite IH by assumption. now rewrite H.
Qed.

Lemma strip_padded a s b : blank a -> blank b -> strip (a ++ s ++ b) = strip s.
Proof.
  intros Ha Hb. unfold strip. rewrite lstrip_blank by assumption.
  destruct (lstrip_spec s) as (a' & Hs & Ha' & _).
  rewrite Hs at 1. rewrite <- app_assoc.
  rewrite (lstrip_blank a') by exact Ha'.
  destruct (lstrip s) as [|c t] eqn:E.
  - cbn [app]. assert (Hl : blank (lstrip b)).
    { destruct (lstrip_spec b) as (b' & Hb' & _ & _). unfold blank in *.
      rewrite Hb' in Hb. rewrite all_chars_app in Hb.
      now apply andb_true_iff in Hb as [_ Hb]. }
    now rewrite (rstrip_blank _ Hl).
  - assert (Hc : isspace c = false).
    { destruct (lstrip_spec s) as (_ & _ & _ & H). apply H.
      now rewrite E. }
    cbn [app lstrip]. rewrite Hc.
    change (c :: t ++ b) with ((c :: t) ++ b). rewrite (rstrip_app (c :: t) b).
    now rewrite (rstrip_blank b Hb).
Qed.

End CurrencyNormalForm.

(** An accepted code is its own normal form: validating it again, under
    any field name, returns it unchanged. *)
Theorem validate_currency_normal_form (code field field' c : str) :
  validate_currency code field = Ok c ->
  validate_currency c field' = Ok c.
Proof.
  intros H. apply validate_currency_Ok in H as (_ & Hc & Hlen & Hl).
  apply validate_currency_Ok. split; [|split; [|split]]; try assumption.
  - intros ->. discriminate Hlen.
  - destruct (letters_first_last c Hl) as [Hh Ht].
    unfold PyStr.strip.
    rewrite (lstrip_fixed c Hh), (rstrip_fixed c Ht).
    rewrite Hc at 2. rewrite upper_idem. exact Hc.
Qed.

Lemma validate_currency_normal_form_witness :
  validate_currency "USD" "To" = Ok "USD".
Proof.
  apply (validate_currency_normal_form " usd " "From" "To" "USD").
  vm_compute. reflexivity.
Defined.

(** The verdict on a code depends neither on the case of its letters nor
    on white space around it. *)
Theorem validate_currency_case_and_padding (code field : str) :
  (forall code', PyStr.upper code' = PyStr.upper code ->
                 validate_currency code' field = validate_currency code field)
  /\ (forall a b, code <> "" -> blank a -> blank b ->
                  validate_currency (a ++ code ++ b) field
                  = validate_currency code field).
Proof.
  split.
  - intros code' Hu. unfold validate_currency.
    assert (Ht : PyStr.truthy code' = PyStr.truthy code).
    { destruct code as [|x code], code' as [|y code']; try reflexivity.
      - apply (proj1 (upper_empty _)) in Hu. discriminate Hu.
      - symmetry in Hu. apply (proj1 (upper_empty _)) in Hu. discriminate Hu. }
    rewrite Ht, <- !strip_upper_comm, Hu. reflexivity.
  - intros a b Hne Ha Hb. unfold validate_currency.
    rewrite strip_padded by assumption.
    assert (Ht : PyStr.truthy (a ++ code ++ b) = true).
    { destruct a; [|reflexivity]. cbn [app].
      destruct code; [congruence | reflexivity]. }
    rewrite Ht. destruct code; [congruence | reflexivity].
Qed.
(** ** Request builder *)

Section UrlFacts.
Import Fmt PyStr.

Lemma rstrip_slash_slashes b : slashes b -> rstrip_slash b = "".
Proof.
  unfold slashes. induction b as [|c b IH]; [reflexivity|].
  cbn [all_chars rstrip_slash]. intros H.
  apply andb_true_iff in H as [H1 H2]. rewrite IH by assumption.
  now rewrite H1.
Qed.

Lemma rstrip_slash_app s b : slashes b -> rstrip_slash (s ++ b) = rstrip_slash s.
Proof.
  intros Hb. induction s as [|c s IH].
  - now apply rstrip_slash_slashes.
  - cbn [app rstrip_slash]. now rewrite IH.
Qed.

(** What [rstrip] leaves: the string is the result followed by slashes,
    and the result does not end with one. *)
Lemma rstrip_slash_spec s :
  (exists b, slashes b /\ s = rstrip_slash s ++ b)
  /\ (forall p, rstrip_slash s <> p ++ "/").
Proof.
  induction s as [|c s [(b & Hb & Hs) Hend]].
  - split; [exists ""; split; reflexivity|].
    intros [|x p]; discriminate.
  - cbn [rstrip_slash]. destruct (rstrip_slash s) as [|y t] eqn:E.
    + destruct (c =? char "/") eqn:Ec.
      * split; [|intros [|x p]; discriminate].
        exists (c :: b). split.
        -- unfold slashes. cbn [all_chars]. rewrite Ec. exact Hb.
        -- cbn [app] in *. now rewrite <- Hs.
      * split.
        -- exists b. split; [exact Hb|]. cbn [app] in *. now rewrite <- Hs.
        -- intros [|x p]; cbn [app].
           ++ intros [= ->]. discriminate Ec.
           ++ intros [= _ H]. destruct p; discriminate H.
    + split.
      * exists b. split; [exact Hb|]. cbn [app] in *. now rewrite <- Hs.
      * intros [|x p]; cbn [app]; [discriminate|].
        intros [= _ H]. now apply (Hend p).
Qed.

End UrlFacts.

(** The request URL is the base without its trailing slashes, one slash,
    and the query: the number of slashes the base ends with does not
    matter, and an empty date is an absent one. *)
Theorem build_url_one_slash (base_url from_cur to_cur : str)
    (date_str : option str) :
  build_url base_url from_cur to_cur date_str
  = Fmt.rstrip_slash base_url ++ "/" ++ query_of from_cur to_cur date_str
  /\ (forall p, Fmt.rstrip_slash base_url <> p ++ "/")
  /\ (forall b, slashes b ->
        build_url (base_url ++ b) from_cur to_cur date_str
        = build_url base_url from_cur to_cur date_str)
  /\ build_url base_url from_cur to_cur (Some "")
     = build_url base_url from_cur to_cur None.
Proof.
  assert (H1 : forall base ds,
             build_url base from_cur to_cur ds
             = Fmt.rstrip_slash base ++ "/" ++ query_of from_cur to_cur ds).
  { intros base ds. unfold build_url, query_of.
    destruct ds as [ds|]; [destruct (PyStr.truthy ds)|];
      cbn [app Fmt.lstrip_slash PyStr.char Z.eqb Pos.eqb];
      rewrite <- ?app_assoc, ?app_nil_r; reflexivity. }
  split; [apply H1|]. split; [apply rstrip_slash_spec|]. split.
  - intros b Hb. rewrite !H1. now rewrite rstrip_slash_app.
  - reflexivity.
Qed.
(** ** Output files *)

Section FileNames.

Lemma length_3 (s : str) :
  length s = 3%nat -> exists a b c, s = [a; b; c].
Proof.
  destruct s as [|a [|b [|c [|d s]]]]; try discriminate. eauto.
Qed.

Lemma json_path_inj f t ds f' t' ds' :
  length f = 3%nat -> length t = 3%nat ->
  length f' = 3%nat -> length t' = 3%nat ->
  json_path f t ds = json_path f' t' ds' ->
  f = f' /\ t = t' /\ ds = ds'.
Proof.
  intros Hf Ht Hf' Ht' H.
  apply length_3 in Hf as (a & b & c & ->).
  apply length_3 in Ht as (a1 & b1 & c1 & ->).
  apply length_3 in Hf' as (a' & b' & c' & ->).
  apply length_3 in Ht' as (a1' & b1' & c1' & ->).
  unfold json_path in H. cbn [app] in H.
  injection H as -> -> -> -> -> -> H.
  apply app_inv_tail in H. now subst.
Qed.

(** A name that starts with a slash is absolute: the directory is
    dropped. *)
Lemma join_absolute dir name :
  head name = Some (PyStr.char "/") ->
  head (Path.join dir name) = Some (PyStr.char "/").
Proof.
  destruct name as [|c name]; [discriminate|]. intros [= ->].
  unfold Path.join. cbn [PyStr.char]. rewrite Z.eqb_refl.
  now destruct (_ =? _)%nat.
Qed.

Lemma no_null (l : str) : existsb (Z.eqb 0) l = false <-> ~ In 0 l.
Proof.
  split.
  - intros E Hin. assert (X : existsb (Z.eqb 0) l = true).
    { apply existsb_exists. exists 0. split; [exact Hin | reflexivity]. }
    congruence.
  - intros Hn. destruct (existsb (Z.eqb 0) l) eqn:E; [|reflexivity].
    apply existsb_exists in E as (c & Hc & E). apply Z.eqb_eq in E.
    subst c. contradiction.
Qed.

End FileNames.

(** [save_json] asks for the directory, opens the file named after the
    two codes and the date string, and dumps the payload into it.  It
    changes nothing but the output directory.  It returns the path
    exactly when the file system carries out all it is asked (the
    directory, the opening, the writing), the name can be encoded and
    holds no null character, and the payload can be encoded; the file
    then holds the payload and every other file is as before.  When it
    raises, the directory is unchanged unless the dump was cut short, by
    the file system or by a string of the payload that cannot be encoded.
    With plain parts the path is [data/FROM_TO_date.json], and two queries
    with three-letter codes share it only when they agree on both codes
    and on the date string; a first part that starts with a slash gives
    an absolute path, outside the directory. *)
Theorem save_json_spec (payload : pyval) (f t date_str : str) (w : world) :
  let path := Path.join DATA_DIR (f ++ "_" ++ t ++ "_" ++ date_str ++ ".json") in
  let r := (save_json payload f t date_str w).1 in
  let w' := (save_json payload f t date_str w).2 in
  (stdout w' = stdout w /\ log w' = log w /\ posts w' = posts w
   /\ fs w' = fs w)
  /\ (forall p,
        r = Ok p <->
        p = path
        /\ fs w (files w) (Mkdir DATA_DIR) = true
        /\ PyStr.all_chars Path.fs_char path = true
        /\ ~ In 0 path
        /\ fs w (files w) (Open path) = true
        /\ fs w (files w) (Write path) = true
        /\ encodable payload = true)
  /\ (forall p, r = Ok p ->
        files w' = <[path := FileJson payload]> (files w))
  /\ (forall e, r = Err e ->
        (e = OSError \/ e = ValueError \/ e = UnicodeEncodeError)
        /\ (files w' = files w
            \/ (files w' = <[path := FileCut payload]> (files w)
                /\ (e = OSError /\ fs w (files w) (Write path) = false
                    \/ e = UnicodeEncodeError /\ encodable payload = false))))
  /\ (plain_name f -> plain_name t -> plain_name date_str ->
      path = json_path f t date_str)
  /\ (head f = Some (PyStr.char "/") -> head path = Some (PyStr.char "/"))
  /\ (forall f' t' date_str',
        length f = 3%nat -> length t = 3%nat ->
        length f' = 3%nat -> length t' = 3%nat ->
        json_path f' t' date_str' = json_path f t date_str ->
        f' = f /\ t' = t /\ date_str' = date_str).
Proof.
  intros path r w'. subst r w'.
  assert (Hplain : plain_name f -> plain_name t -> plain_name date_str ->
                   path = json_path f t date_str).
  { intros Hf Ht Hd. subst path.
    destruct (file_name_plain f t date_str Hf Ht Hd) as (Hp & Hne & Hdot).
    cbv zeta in Hp, Hne, Hdot.
    destruct (plain_name_chars _ Hp) as (Hs & _ & _).
    now apply join_plain. }
  assert (Habs : head f = Some (PyStr.char "/") ->
                 head path = Some (PyStr.char "/")).
  { intros Hh. subst path. apply join_absolute.
    destruct f as [|c f']; [discriminate | exact Hh]. }
  assert (Hinj : forall f' t' date_str',
             length f = 3%nat -> length t = 3%nat ->
             length f' = 3%nat -> length t' = 3%nat ->
             json_path f' t' date_str' = json_path f t date_str ->
             f' = f /\ t' = t /\ date_str' = date_str).
  { intros f' t' d' H1 H2 H3 H4 H5.
    now apply (json_path_inj f' t' d' f t date_str). }
  unfold save_json, bind, mkdir, write_file, ret. fold path.
  destruct (fs w (files w) (Mkdir DATA_DIR)) eqn:E1.
  2:{ cbn [fst snd]. split; [auto|]. split.
      { intros p. split; [discriminate|]. intros (_ & H & _). discriminate H. }
      split; [discriminate|]. split; [intros e [= <-]; auto|]. auto. }
  destruct (PyStr.all_chars Path.fs_char path) eqn:E2; cbn [negb].
  2:{ cbn [fst snd]. split; [auto|]. split.
      { intros p. split; [discriminate|]. intros (_ & _ & H & _).
        discriminate H. }
      split; [discriminate|]. split; [intros e [= <-]; auto|]. auto. }
  destruct (existsb (Z.eqb 0) path) eqn:E3.
  { cbn [fst snd]. split; [auto|]. split.
    { intros p. split; [discriminate|]. intros (_ & _ & _ & H & _).
      apply no_null in H. congruence. }
    split; [discriminate|]. split; [intros e [= <-]; auto|]. auto. }
  apply no_null in E3.
  destruct (fs w (files w) (Open path)) eqn:E4; cbn [negb].
  2:{ cbn [fst snd]. split; [auto|]. split.
      { intros p. split; [discriminate|]. intros (_ & _ & _ & _ & H & _).
        discriminate H. }
      split; [discriminate|]. split; [intros e [= <-]; auto|]. auto. }
  destruct (fs w (files w) (Write path)) eqn:E6; cbn [negb].
  2:{ cbn [fst snd set_file files stdout log posts fs].
      split; [auto|]. split.
      { intros p. split; [discriminate|].
        intros (_ & _ & _ & _ & _ & H & _). discriminate H. }
      split; [discriminate|]. split; [intros e [= <-]; auto 10|]. auto. }
  destruct (encodable payload) eqn:E5; cbn [fst snd set_file files stdout log
                                             posts fs].
  - split; [auto|]. split.
    { intros p. split; [intros [= <-]; auto 10 | now intros (-> & _)]. }
    split; [reflexivity|]. split; [discriminate|]. auto.
  - split; [auto|]. split.
    { intros p. split; [discriminate|].
      intros (_ & _ & _ & _ & _ & _ & H). discriminate H. }
    split; [discriminate|]. split; [intros e [= <-]; auto 10|]. auto.
Qed.
(** ** Service client: every outcome *)


(** The failures below the envelope, in the order the code tests for
    them: a request that raised is a network error carrying the exception
    text; a reply with a 4xx or 5xx status is an HTTP error carrying the
    status and the body (never an empty text), whatever the body holds; a
    body that is not JSON, or is JSON but not an object, is a protocol
    error. *)
Theorem call_service_transport_errors
    (service : list (str * str) -> str -> str -> post_outcome)
    (url key : str) (w : world) :
  let o := service (posts w) url key in
  let r := (call_service service url key w).1 in
  (forall e, r = Err (SystemExit (MsgNetwork e)) <-> o = PostRaises e)
  /\ (forall c details,
        r = Err (SystemExit (MsgHttp c details)) <->
        exists resp,
          o = PostReturns resp /\ resp_ok resp = false
          /\ c = status_code resp /\ details = http_details (text resp))
  /\ (r = Err (SystemExit MsgInvalidJson) <->
      exists resp,
        o = PostReturns resp /\ resp_ok resp = true /\ json_body resp = None)
  /\ (r = Err (SystemExit MsgUnexpectedPayload) <->
      exists resp p,
        o = PostReturns resp /\ resp_ok resp = true
        /\ json_body resp = Some p /\ forall kvs, p <> PDict kvs)
  /\ (forall body, http_details body <> "").
Proof.
  cbn zeta. unfold call_service, bind, requests_post, logger_error, raise, ret.
  assert (Hd : forall body, http_details body <> "").
  { intros body. unfold http_details.
    destruct (PyStr.strip body); cbn; discriminate. }
  destruct (service (posts w) url key) as [e0 | resp] eqn:Eo; cbn.
  { split; [|split; [|split; [|split]]]; try exact Hd.
    - intros e. split; congruence.
    - intros c d. split; [discriminate | intros (? & ? & _); discriminate].
    - split; [discriminate | intros (? & ? & _); discriminate].
    - split; [discriminate | intros (? & ? & ? & _); discriminate]. }
  destruct (resp_ok resp) eqn:Eok; cbn.
  2:{ split; [|split; [|split; [|split]]]; try exact Hd.
      - intros e. split; discriminate.
      - intros c d. fold (http_details (text resp)). split.
        + intros [= <- <-]. exists resp. auto.
        + intros (resp' & [= <-] & _ & -> & ->). reflexivity.
      - split; [discriminate | intros (? & [= <-] & ? & _); congruence].
      - split; [discriminate | intros (? & ? & [= <-] & ? & _); congruence]. }
  destruct (json_body resp) as [payload|] eqn:Eb; cbn.
  2:{ split; [|split; [|split; [|split]]]; try exact Hd.
      - intros e. split; discriminate.
      - intros c d. split;
          [discriminate | intros (? & [= <-] & ? & _); congruence].
      - split; [intros _; exists resp; auto | reflexivity].
      - split; [discriminate | intros (? & ? & [= <-] & _ & ? & _); congruence]. }
  assert (Hrest :
            (forall e, PostReturns resp = PostRaises e -> False)
            /\ (forall resp0, PostReturns resp = PostReturns resp0 ->
                  resp_ok resp0 = false -> False)
            /\ (forall resp0, PostReturns resp = PostReturns resp0 ->
                  json_body resp0 = None -> False)).
  { split; [discriminate|]. split; intros resp0 [= <-]; congruence. }
  destruct Hrest as (Hn & Hh & Hj).
  destruct payload as [ | | | | | | kvs]; cbn.
  7:{ destruct (truthy (default PNone (dict_get kvs "error"))); cbn;
        (split; [|split; [|split; [|split]]]; try exact Hd;
         [ intros e; split; [discriminate | intros H; destruct (Hn _ H)]
         | intros c d; split;
             [discriminate | intros (r0 & H & H' & _); destruct (Hh _ H H')]
         | split; [discriminate
                  | intros (r0 & H & _ & H'); destruct (Hj _ H H')]
         | split; [discriminate|];
           intros (r0 & p & [= <-] & _ & H & H');
           rewrite Eb in H; injection H as <-; now destruct (H' kvs) ]). }
  all: split; [|split; [|split; [|split]]]; try exact Hd;
    [ intros e; split; [discriminate | intros H; destruct (Hn _ H)]
    | intros c d; split;
        [discriminate | intros (r0 & H & H' & _); destruct (Hh _ H H')]
    | split; [discriminate
             | intros (r0 & H & _ & H'); destruct (Hj _ H H')]
    | split; [|reflexivity]; intros _; eexists resp, _;
      repeat split; [exact Eok | exact Eb | discriminate] ].
Qed.

(** ** Range warning *)

Section WarnFacts.

Lemma dt_leb_le a b : dt_leb a b = true <-> dt_le a b.
Proof.
  unfold dt_leb, dt_le. rewrite orb_true_iff, andb_true_iff.
  rewrite Z.ltb_lt, Z.eqb_eq, Z.leb_le. reflexivity.
Qed.

End WarnFacts.

(** [warn_if_out_of_range] never fails and changes nothing but the
    console, where it prints one line exactly when it is enabled and the
    moment lies outside the closed range from 2025-01-01 00:00 to
    2025-09-15 00:00. For a midnight, as [parse_date] returns, that is the
    calendar date being outside 2025-01-01..2025-09-15; a later time on
    2025-09-15 is outside the range. *)
Theorem warn_if_out_of_range_spec (d : datetime) (enabled : bool) (w : world) :
  let inside := dt_le RANGE_FIRST d /\ dt_le d RANGE_LAST in
  (exists lines,
      warn_if_out_of_range d enabled w = (Ok tt, printed w lines)
      /\ (enabled = true /\ ~ inside -> lines = [OutWarnRange (date_of d)])
      /\ (enabled = false \/ inside -> lines = []))
  /\ (tod d = 0 ->
      (inside <->
       Calendar.ymd2ord 2025 1 1 <= date_of d <= Calendar.ymd2ord 2025 9 15))
  /\ (date_of d = Calendar.ymd2ord 2025 9 15 -> 0 < tod d -> ~ inside).
Proof.
  intros inside. split; [|split].
  - exists (range_warning d enabled). split; [apply warn_prints|].
    unfold range_warning. subst inside.
    destruct (dt_leb RANGE_FIRST d && dt_leb d RANGE_LAST) eqn:E.
    + apply andb_true_iff in E as [E1 E2]. apply dt_leb_le in E1, E2.
      rewrite andb_false_r. split; [|reflexivity].
      intros [_ H]. destruct H. now split.
    + split.
      * intros [-> _]. reflexivity.
      * intros [-> | [H1 H2]]; [reflexivity|].
        apply dt_leb_le in H1, H2. rewrite H1, H2 in E. discriminate E.
  - intros Ht. subst inside. unfold dt_le, RANGE_FIRST, RANGE_LAST, date_of.
    cbn [ordinal tod]. lia.
  - intros Hd Ht. subst inside. unfold dt_le, RANGE_LAST, date_of in *.
    cbn [ordinal tod]. lia.
Qed.

(** ** Orchestrator: the stages of one query *)

Section RunOneCases.
Variable service : list (str * str) -> str -> str -> post_outcome.

Lemma validation_kind m :
  is_validation_message m = true -> kind_of m = InvalidArgument.
Proof. destruct m; cbn; congruence. Qed.

Lemma call_service_Err url key w e :
  (call_service service url key w).1 = Err e ->
  exists m, e = SystemExit m /\ is_service_message m = true.
Proof.
  destruct (call_service service url key w) as [r w'] eqn:E.
  apply call_service_effects in E as (_ & _ & _ & H). cbn [fst]. apply H.
Qed.

End RunOneCases.


(** ** Date sampler: when it fails *)

Section SamplerErrors.

Lemma rbind_Err {A B} (r : res A) (k : A -> res B) e (P : exn -> Prop) :
  rbind r k = Err e ->
  (forall e', r = Err e' -> P e') ->
  (forall a e', r = Ok a -> k a = Err e' -> P e') ->
  P e.
Proof.
  destruct r as [a|e0]; cbn; intros H H1 H2.
  - exact (H2 a e eq_refl H).
  - injection H as <-. now apply H1.
Qed.

Lemma rmap_Err {A B} (f : A -> res B) l e (P : exn -> Prop) :
  rmap f l = Err e ->
  (forall a e', f a = Err e' -> P e') -> P e.
Proof.
  intros H Hf. induction l as [|a l IH]; [discriminate|].
  cbn [rmap] in H. unfold rbind in H.
  destruct (f a) as [b|e0] eqn:Ea.
  - destruct (rmap f l) as [bs|e1]; [discriminate|].
    injection H as <-. now apply IH.
  - injection H as <-. exact (Hf a e0 Ea).
Qed.

Lemma int_truediv_Err a b e :
  Float64.int_truediv a b = Err e -> not_an_exit e.
Proof.
  unfold Float64.int_truediv.
  destruct (b =? 0); [intros [= <-]; discriminate|].
  destruct (SFdiv _ _ _ _); try discriminate. intros [= <-]. discriminate.
Qed.

Lemma sample_Err start step i e :
  sample start step i = Err e -> not_an_exit e.
Proof.
  unfold sample, Float64.int_mul, Float64.of_int. intros H.
  apply (rbind_Err _ _ _ not_an_exit H); clear H.
  - intros e' H. apply (rbind_Err _ _ _ not_an_exit H); clear H.
    + intros e''. destruct (binary_normalize _ _ _ _ _); try discriminate.
      intros [= <-]. discriminate.
    + discriminate.
  - intros x e' _ H. apply (rbind_Err _ _ _ not_an_exit H); clear H.
    + intros e''. unfold Float64.py_round.
      destruct x; try discriminate; intros [= <-]; discriminate.
    + intros k e'' _ H. apply (rbind_Err _ _ _ not_an_exit H); clear H.
      * intros e3. unfold timedelta_of_days.
        destruct (_ && _); [discriminate|]. intros [= <-]. discriminate.
      * intros td e3 _. unfold dt_add.
        destruct (_ && _); [discriminate|]. intros [= <-]. discriminate.
Qed.

(** Why the sampler fails, when it does. *)
Lemma sampler_Err start end_ n e :
  evenly_spaced_dates start end_ n = Err e ->
  (n < 2 /\ e = SystemExit MsgNumDates)
  \/ (2 <= n /\ td_days (dt_sub end_ start) < 0
      /\ e = SystemExit MsgEndBeforeStart)
  \/ (3 <= n /\ 0 <= td_days (dt_sub end_ start) /\ not_an_exit e).
Proof.
  unfold evenly_spaced_dates.
  destruct (n <? 2) eqn:E2; bools; [intros [= <-]; left; auto|].
  destruct (td_days (dt_sub end_ start) <? 0) eqn:E0; bools;
    [intros [= <-]; right; left; auto|].
  destruct (n =? 2) eqn:En; bools; [discriminate|].
  intros H. right. right. split; [lia|]. split; [lia|].
  apply (rbind_Err _ _ _ not_an_exit H); clear H.
  - intros e'. apply int_truediv_Err.
  - intros step e' _ H. apply (rbind_Err _ _ _ not_an_exit H); clear H.
    + intros e'' H. apply (rmap_Err _ _ _ not_an_exit H).
      intros i e3. apply sample_Err.
    + discriminate.
Qed.

Lemma delta_days_neg a b :
  valid_datetime a -> valid_datetime b ->
  (td_days (dt_sub b a) < 0 <-> dt_lt b a).
Proof.
  intros Ha Hb. rewrite delta_days_eq by assumption. unfold dt_lt.
  destruct (tod a <=? tod b) eqn:E; bools; lia.
Qed.

Lemma dt_le_or_lt a b : dt_le a b \/ dt_lt b a.
Proof. unfold dt_le, dt_lt. lia. Qed.

Lemma dt_le_not_lt a b : dt_le a b -> dt_lt b a -> False.
Proof. unfold dt_le, dt_lt. lia. Qed.

End SamplerErrors.

(** What the sampler does with its arguments. A count below 2 is
    rejected first, whatever the dates; otherwise an end before the start
    (by the time of day, too) is rejected; and every other call, for a
    count up to [2^970], returns a list. No other [SystemExit] leaves the
    sampler. *)
Theorem sampler_outcome (start end_ : datetime) (n : Z) :
  valid_datetime start -> valid_datetime end_ ->
  let r := evenly_spaced_dates start end_ n in
  (r = Err (SystemExit MsgNumDates) <-> n < 2)
  /\ (r = Err (SystemExit MsgEndBeforeStart) <-> 2 <= n /\ dt_lt end_ start)
  /\ (forall m, r = Err (SystemExit m) ->
        m = MsgNumDates \/ m = MsgEndBeforeStart)
  /\ (n <= 2 ^ 970 -> ((exists l, r = Ok l) <-> 2 <= n /\ dt_le start end_)).
Proof.
  intros Hs He r.
  assert (Herr : forall e, r = Err e ->
            (n < 2 /\ e = SystemExit MsgNumDates)
            \/ (2 <= n /\ dt_lt end_ start /\ e = SystemExit MsgEndBeforeStart)
            \/ (3 <= n /\ dt_le start end_ /\ not_an_exit e)).
  { intros e H. apply sampler_Err in H as [H | [(H1 & H2 & H3) | (H1 & H2 & H3)]].
    - now left.
    - right. left. apply delta_days_neg in H2; auto.
    - right. right. split; [exact H1|]. split; [|exact H3].
      destruct (dt_le_or_lt start end_) as [Hle | Hlt]; [exact Hle|].
      apply delta_days_neg in Hlt; auto. lia. }
  assert (Hsmall : n < 2 -> r = Err (SystemExit MsgNumDates)).
  { intros Hn. subst r. unfold evenly_spaced_dates.
    apply Z.ltb_lt in Hn. now rewrite Hn. }
  assert (Hrev : 2 <= n -> dt_lt end_ start ->
                 r = Err (SystemExit MsgEndBeforeStart)).
  { intros Hn Hlt. subst r. unfold evenly_spaced_dates.
    apply Z.ltb_ge in Hn. rewrite Hn.
    apply delta_days_neg in Hlt; auto. apply Z.ltb_lt in Hlt.
    now rewrite Hlt. }
  split; [|split; [|split]].
  - split; [|exact Hsmall].
    intros H. apply Herr in H as [[H _] | [(_ & _ & H) | (_ & _ & H)]];
      [exact H | discriminate H | now destruct (H MsgNumDates)].
  - split; [|intros [H1 H2]; now apply Hrev].
    intros H. apply Herr in H as [[_ H] | [(H1 & H2 & _) | (_ & _ & H)]];
      [discriminate H | auto | now destruct (H MsgEndBeforeStart)].
  - intros m H. apply Herr in H as [[_ H] | [(_ & _ & H) | (_ & _ & H)]].
    + left. congruence.
    + right. congruence.
    + now destruct (H m).
  - intros Hn. split.
    + intros [l Hl]. assert (H2 : 2 <= n).
      { destruct (Z.lt_ge_cases n 2) as [H|H]; [|exact H].
        rewrite (Hsmall H) in Hl. discriminate Hl. }
      split; [exact H2|].
      destruct (dt_le_or_lt start end_) as [Hle | Hlt]; [exact Hle|].
      rewrite (Hrev H2 Hlt) in Hl. discriminate Hl.
    + intros [H2 Hle]. now apply sampler_returns.
Qed.

Lemma sampler_outcome_witness :
  evenly_spaced_dates day_2025_01_31 day_2025_01_01 5
  = Err (SystemExit MsgEndBeforeStart).
Proof.
  apply (sampler_outcome day_2025_01_31 day_2025_01_01 5).
  - unfold valid_datetime. vm_compute. intuition discriminate.
  - unfold valid_datetime. vm_compute. intuition discriminate.
  - split; [lia|]. left. vm_compute. reflexivity.
Defined.

(** ** Orchestrator: arguments of [main] *)

Section MainFacts.
Variable service : list (str * str) -> str -> str -> post_outcome.

(** The three stages of batch mode that can fail, and the loop. *)
Lemma main_batch_cases a w :
  batch_args_given a ->
  main service a w
  = match parse_date (opt_str (start_date a)) "start-date" with
    | Err x => (Err x, w)
    | Ok s =>
        match parse_date (opt_str (end_date a)) "end-date" with
        | Err x => (Err x, w)
        | Ok e =>
            match evenly_spaced_dates s e (default 0 (num_dates a)) with
            | Err x => (Err x, w)
            | Ok dates =>
                for_each dates (fun d =>
                  try_except_SystemExit
                    (run_one service (opt_str (from_cur a))
                       (opt_str (to_cur a)) (Fmt.strftime_ymd d)
                       (base_url a) (api_key a) (warn_outside_range a))
                    (fun ex => print (OutFailed (date_of d) ex)))
                  (printed w
                     [OutBatch (from_cur a) (to_cur a) (date_of s)
                        (date_of e) (length dates)])
            end
        end
    end.
Proof.
  unfold batch_args_given. intros Hargs. unfold main. rewrite Hargs.
  cbn [negb].
  assert (Hst : opt_truthy (start_date a) = true)
    by (repeat (apply andb_true_iff in Hargs as [Hargs ?]); assumption).
  rewrite Hst. cbn [orb]. unfold bind, lift.
  destruct (parse_date (opt_str (start_date a)) "start-date"); [|reflexivity].
  destruct (parse_date (opt_str (end_date a)) "end-date"); [|reflexivity].
  destruct (evenly_spaced_dates _ _ _); reflexivity.
Qed.

Lemma run_one_exit from_cur to_cur date_str base_url api_key warn w m :
  (run_one service from_cur to_cur date_str base_url api_key warn w).1
  = Err (SystemExit m) ->
  is_validation_message m = true \/ is_service_message m = true.
Proof.
  destruct (run_one service from_cur to_cur date_str base_url api_key warn w)
    as [r w'] eqn:E.
  apply run_one_effects in E as (l & _ & _ & H). cbn [fst]. intros ->.
  destruct H as (_ & [(_ & m' & [= <-] & H) | (f & t & p & w1 & w2 & _ & H)]);
    [exact H|].
  destruct H as [([=] & _) | [([=] & _) | ([=] & _)]].
Qed.

(** The loop of the batch never ends in a [SystemExit]. *)
Lemma for_each_no_exit from_cur to_cur base_url api_key warn dates w m :
  (for_each dates
     (fun d =>
        try_except_SystemExit
          (run_one service from_cur to_cur (Fmt.strftime_ymd d) base_url
             api_key warn)
          (fun ex => print (OutFailed (date_of d) ex))) w).1
  <> Err (SystemExit m).
Proof.
  destruct (for_each_attempt service from_cur to_cur base_url api_key warn
              dates w) as (l & k & _ & _ & _ & H).
  intros E. rewrite E in H. destruct H as (_ & [([=] & _) | ([=] & _)]).
Qed.

End MainFacts.

(** The two usage errors. [main] asks for the batch arguments exactly
    when one of start date, end date and count is given but not all five
    batch arguments are, and for the single-query arguments exactly when
    none of the three is given and one of From, To and date is missing;
    an argument counts as given when it is true in Python's sense, so a
    count of 0 is a missing count. In both cases nothing has been
    printed, logged, sent or written. *)
Theorem main_usage_errors
    (service : list (str * str) -> str -> str -> post_outcome)
    (a : args) (w : world) :
  let r := (main service a w).1 in
  (r = Err (SystemExit MsgBatchArgs) <->
   batch_requested a /\ ~ batch_args_given a)
  /\ (r = Err (SystemExit MsgSingleArgs) <->
      ~ batch_requested a /\ ~ single_args_given a)
  /\ (r = Err (SystemExit MsgBatchArgs) \/ r = Err (SystemExit MsgSingleArgs) ->
      (main service a w).2 = w)
  /\ (num_dates a = Some 0 -> ~ batch_args_given a).
Proof.
  intros r.
  assert (Hzero : num_dates a = Some 0 -> ~ batch_args_given a).
  { unfold batch_args_given. intros ->. cbn. rewrite andb_false_r.
    discriminate. }
  destruct (opt_truthy (start_date a) || opt_truthy (end_date a)
            || num_truthy (num_dates a)) eqn:Eb.
  - (* batch mode *)
    assert (Hb : batch_requested a) by exact Eb.
    destruct (opt_truthy (from_cur a) && opt_truthy (to_cur a)
              && opt_truthy (start_date a) && opt_truthy (end_date a)
              && num_truthy (num_dates a)) eqn:Eg.
    + (* all five given: the failures are those of the dates *)
      assert (Hg : batch_args_given a) by exact Eg.
      assert (Hr : forall m, r = Err (SystemExit m) ->
                is_validation_message m = true
                \/ m = MsgNumDates \/ m = MsgEndBeforeStart).
      { intros m. subst r. rewrite (main_batch_cases service a w Hg).
        destruct (parse_date (opt_str (start_date a)) "start-date")
          as [s|x] eqn:Es.
        2:{ intros [= ->]. apply parse_date_Err in Es as [= ->]. now left. }
        destruct (parse_date (opt_str (end_date a)) "end-date")
          as [e|x] eqn:Ee.
        2:{ intros [= ->]. apply parse_date_Err in Ee as [= ->]. now left. }
        destruct (evenly_spaced_dates s e (default 0 (num_dates a)))
          as [dates|x] eqn:Ed.
        2:{ intros [= ->].
            apply sampler_Err in Ed
              as [[_ [= <-]] | [(_ & _ & [= <-]) | (_ & _ & H)]]; auto.
            now destruct (H m). }
        intros H. now apply for_each_no_exit in H. }
      split; [|split; [|split; [|exact Hzero]]].
      * split; [|intros [_ H]; now destruct H].
        intros H. apply Hr in H as [H | [H | H]]; discriminate H.
      * split; [|intros [H _]; now destruct H].
        intros H. apply Hr in H as [H | [H | H]]; discriminate H.
      * intros [H | H]; apply Hr in H as [H | [H | H]]; discriminate H.
    + (* an argument is missing *)
      assert (Hg : ~ batch_args_given a).
      { unfold batch_args_given. rewrite Eg. discriminate. }
      assert (Hm : main service a w = (Err (SystemExit MsgBatchArgs), w)).
      { unfold main. rewrite Eb, Eg. reflexivity. }
      subst r. rewrite Hm. cbn [fst snd].
      split; [|split; [|split; [|exact Hzero]]].
      * split; auto.
      * split; [discriminate | intros [H _]; now destruct H].
      * reflexivity.
  - (* single mode *)
    assert (Hb : ~ batch_requested a).
    { unfold batch_requested. rewrite Eb. discriminate. }
    assert (Hng : ~ batch_args_given a).
    { unfold batch_args_given. intros H.
      apply andb_true_iff in H as [H1 H2].
      apply orb_false_iff in Eb as [_ Eb]. congruence. }
    destruct (opt_truthy (from_cur a) && opt_truthy (to_cur a)
              && opt_truthy (date a)) eqn:Eg.
    + assert (Hm : main service a w
                   = run_one service (opt_str (from_cur a))
                       (opt_str (to_cur a)) (opt_str (date a)) (base_url a)
                       (api_key a) (warn_outside_range a) w).
      { unfold main. rewrite Eb, Eg. reflexivity. }
      assert (Hr : forall m, r = Err (SystemExit m) ->
                is_validation_message m = true
                \/ is_service_message m = true).
      { intros m H. subst r. rewrite Hm in H.
        now apply run_one_exit in H. }
      assert (Hsg : single_args_given a) by exact Eg.
      split; [|split; [|split; [|exact Hzero]]].
      * split; [|intros [H _]; now destruct Hb].
        intros H. apply Hr in H as [H | H]; discriminate H.
      * split; [|intros [_ H]; now destruct H].
        intros H. apply Hr in H as [H | H]; discriminate H.
      * intros [H | H]; apply Hr in H as [H | H]; discriminate H.
    + assert (Hsg : ~ single_args_given a).
      { unfold single_args_given. rewrite Eg. discriminate. }
      assert (Hm : main service a w = (Err (SystemExit MsgSingleArgs), w)).
      { unfold main. rewrite Eb, Eg. reflexivity. }
      subst r. rewrite Hm. cbn [fst snd].
      split; [|split; [|split; [|exact Hzero]]].
      * split; [discriminate | intros [H _]; now destruct Hb].
      * split; auto.
      * reflexivity.
Qed.


(** ** The loop that removes repeated dates *)

Section DedupSpec.

(** The loop from any state: what it appends to [out]. *)
Lemma dedup_fold ds : forall (seen : gset Z) (out : list datetime),
  exists ext,
    (foldl dedup_step (seen, out) ds).2 = out ++ ext
    /\ sublist ext ds
    /\ NoDup (map date_of ext)
    /\ (forall d, In d ext <->
          exists ds1 ds2,
            ds = ds1 ++ d :: ds2 /\ (date_of d ∉ seen)
            /\ ~ In (date_of d) (map date_of ds1)).
Proof.
  induction ds as [|d ds IH]; intros seen out.
  - exists []. cbn. rewrite app_nil_r. split; [reflexivity|].
    split; [constructor|]. split; [constructor|].
    intros d. split; [intros []|]. intros (ds1 & ds2 & H & _).
    destruct ds1; discriminate H.
  - cbn [foldl]. unfold dedup_step at 2.
    destruct (decide (date_of d ∈ seen)) as [Hin | Hnin].
    + destruct (IH seen out) as (ext & Hres & Hsub & Hnd & Hiff).
      exists ext. split; [exact Hres|]. split; [now apply sublist_cons|].
      split; [exact Hnd|]. intros x. rewrite Hiff. split.
      * intros (ds1 & ds2 & -> & Hx & Hx1). exists (d :: ds1), ds2.
        split; [reflexivity|]. split; [exact Hx|]. cbn [map In].
        intros [E | H]; [|now apply Hx1]. apply Hx. now rewrite <- E.
      * intros (ds1 & ds2 & H & Hx & Hx1). destruct ds1 as [|d' ds1].
        -- injection H as -> ->. now destruct Hx.
        -- injection H as -> ->. exists ds1, ds2. split; [reflexivity|].
           split; [exact Hx|]. intros Hi. apply Hx1. cbn [map In]. now right.
    + destruct (IH ({[date_of d]} ∪ seen) (out ++ [d]))
        as (ext & Hres & Hsub & Hnd & Hiff).
      exists (d :: ext). split; [now rewrite Hres, <- app_assoc|].
      split; [now apply sublist_skip|]. split.
      * cbn [map]. apply NoDup_cons. split; [|exact Hnd].
        intros Hi. apply list_elem_of_In, in_map_iff in Hi as (x & Ex & Hx).
        apply Hiff in Hx as (_ & _ & _ & Hx & _). apply Hx.
        rewrite Ex, elem_of_union, elem_of_singleton. now left.
      * intros x. cbn [In]. rewrite Hiff. split.
        -- intros [<- | (ds1 & ds2 & -> & Hx & Hx1)].
           ++ exists [], ds. split; [reflexivity|]. split; [exact Hnin|].
              intros [].
           ++ rewrite elem_of_union, elem_of_singleton in Hx.
              exists (d :: ds1), ds2. split; [reflexivity|].
              split; [intros H; apply Hx; now right|]. cbn [map In].
              intros [E | H]; [|now apply Hx1]. apply Hx. now left.
        -- intros (ds1 & ds2 & H & Hx & Hx1). destruct ds1 as [|d' ds1].
           ++ injection H as -> ->. now left.
           ++ injection H as -> ->. right. exists ds1, ds2.
              split; [reflexivity|]. cbn [map In] in Hx1. split.
              ** rewrite elem_of_union, elem_of_singleton. intros [E | H].
                 --- apply Hx1. left. now symmetry.
                 --- now apply Hx.
              ** intros Hi. apply Hx1. now right.
Qed.

(** A list without repeated dates goes through the loop unchanged. *)
Lemma dedup_fold_id ds : forall (seen : gset Z) (out : list datetime),
  NoDup (map date_of ds) ->
  (forall d, In d ds -> date_of d ∉ seen) ->
  (foldl dedup_step (seen, out) ds).2 = out ++ ds.
Proof.
  induction ds as [|d ds IH]; intros seen out Hnd Hseen.
  - cbn. now rewrite app_nil_r.
  - cbn [foldl]. unfold dedup_step at 2.
    cbn [map] in Hnd. apply NoDup_cons in Hnd as [Hd Hnd].
    destruct (decide (date_of d ∈ seen)) as [Hin | Hnin].
    + now destruct (Hseen d (or_introl eq_refl)).
    + rewrite IH; [now rewrite <- app_assoc | exact Hnd |].
      intros x Hx. rewrite elem_of_union, elem_of_singleton.
      intros [E | H].
      * apply Hd. rewrite <- E. apply list_elem_of_In. now apply in_map.
      * apply (Hseen x); [now right | exact H].
Qed.

(** A list without repeated dates is returned as it is. *)
Lemma dedup_by_date_id ds :
  NoDup (map date_of ds) -> dedup_by_date ds = ds.
Proof.
  intros H. unfold dedup_by_date.
  apply (dedup_fold_id ds ∅ [] H). intros d _. apply not_elem_of_empty.
Qed.

End DedupSpec.

(** The loop that removes repeated dates, on any list: what it returns is
    the input with some entries left out, in the same order; no two of its
    entries share a calendar date; and it holds exactly the entries that
    come first with their date. A list without repeated dates is returned
    as it is, so that the loop changes nothing when run twice. *)
Theorem dedup_by_date_spec (ds : list datetime) :
  let out := dedup_by_date ds in
  sublist out ds
  /\ NoDup (map date_of out)
  /\ (forall d, In d out <-> first_of_its_date ds d)
  /\ (NoDup (map date_of ds) -> out = ds)
  /\ dedup_by_date out = out.
Proof.
  intros out. subst out. unfold dedup_by_date.
  destruct (dedup_fold ds ∅ []) as (ext & Hres & Hsub & Hnd & Hiff).
  rewrite Hres. cbn [app].
  split; [exact Hsub|]. split; [exact Hnd|]. split; [|split].
  - intros d. rewrite Hiff. unfold first_of_its_date. split.
    + intros (ds1 & ds2 & H & _ & H1). eauto.
    + intros (ds1 & ds2 & H & H1). exists ds1, ds2.
      split; [exact H|]. split; [apply not_elem_of_empty | exact H1].
  - intros H.
    pose proof (dedup_fold_id ds ∅ [] H
                  (fun d _ => not_elem_of_empty (date_of d))) as Hid.
    rewrite Hres in Hid. exact Hid.
  - apply (dedup_fold_id ext ∅ [] Hnd).
    intros d _. apply not_elem_of_empty.
Qed.

(** ** Calendar: ordinals and formatted dates *)

Section CalendarFacts.
Import Calendar.

Lemma all_upto_spec k f z :
  all_upto k f = true -> 0 <= z < Z.of_nat k -> f z = true.
Proof.
  induction k as [|k IH]; intros H Hz; [lia|].
  cbn [all_upto] in H. apply andb_true_iff in H as [H1 H2].
  destruct (Z.eq_dec z (Z.of_nat k)) as [-> | Hne]; [exact H1|].
  apply IH; [exact H2 | lia].
Qed.

Lemma year_table a b c :
  0 <= a <= 3 -> 0 <= b <= 24 -> 0 <= c <= 3 ->
  year_index_ok a b c = true.
Proof.
  intros Ha Hb Hc.
  assert (H : all_upto 4 (fun a =>
                all_upto 25 (fun b =>
                  all_upto 4 (fun c => year_index_ok a b c))) = true)
    by (vm_compute; reflexivity).
  apply (all_upto_spec _ _ a) in H; [|lia].
  apply (all_upto_spec _ _ b) in H; [|lia].
  apply (all_upto_spec _ _ c) in H; [exact H | lia].
Qed.

Lemma leap_end_table a b :
  0 <= a <= 3 -> 0 <= b <= 23 -> leap_end_ok a b = true.
Proof.
  intros Ha Hb.
  assert (H : all_upto 4 (fun a => all_upto 24 (fun b => leap_end_ok a b))
              = true)
    by (vm_compute; reflexivity).
  apply (all_upto_spec _ _ a) in H; [|lia].
  apply (all_upto_spec _ _ b) in H; [exact H | lia].
Qed.

Lemma month_day_table leapyear n :
  0 <= n < 365 -> month_day_ok leapyear n = true.
Proof.
  intros Hn.
  assert (H : all_upto 365 (month_day_ok true)
              && all_upto 365 (month_day_ok false) = true)
    by (vm_compute; reflexivity).
  apply andb_true_iff in H as [Ht Hf].
  destruct leapyear; [apply (all_upto_spec _ _ n) in Ht
                     | apply (all_upto_spec _ _ n) in Hf]; auto; lia.
Qed.

(** [ord2ymd], with its second half named. *)
Lemma ord2ymd_unfold n :
  ord2ymd n
  = let n0 := n - 1 in
    let n400 := n0 / DI400Y in
    let r := n0 mod DI400Y in
    let n100 := r / DI100Y in
    let r1 := r mod DI100Y in
    let n4 := r1 / DI4Y in
    let r2 := r1 mod DI4Y in
    let n1 := r2 / 365 in
    let r3 := r2 mod 365 in
    let year := n400 * 400 + 1 + n100 * 100 + n4 * 4 + n1 in
    if (n1 =? 4) || (n100 =? 4) then (year - 1, 12, 31)
    else
      let '(m, d) :=
        month_day ((n1 =? 3) && (negb (n4 =? 24) || (n100 =? 3))) r3 in
      (year, m, d).
Proof.
  unfold ord2ymd, month_day. cbv zeta.
  destruct ((_ =? 4) || (_ =? 4)); [reflexivity|].
  destruct (_ <? _); reflexivity.
Qed.

(** The days of the first 400 years. *)
Lemma ord2ymd_first_period r :
  0 <= r < DI400Y ->
  let '(y, m, d) := ord2ymd (r + 1) in
  1 <= y <= 400
  /\ (r <= 145730 -> y <= 399)
  /\ (72683 <= r -> 200 <= y)
  /\ 1 <= m <= 12 /\ 1 <= d <= days_in_month y m
  /\ ymd2ord y m d = r + 1.
Proof.
  intros Hr. rewrite ord2ymd_unfold. unfold DI400Y, DI100Y, DI4Y in *.
  cbv zeta. replace (r + 1 - 1) with r by lia.
  rewrite (Z.div_small r 146097), (Z.mod_small r 146097) by lia.
  pose proof (Z.div_mod r 36524 ltac:(lia)) as E1.
  pose proof (Z.mod_pos_bound r 36524 ltac:(lia)) as B1.
  set (a := r / 36524) in *. set (r1 := r mod 36524) in *.
  pose proof (Z.div_mod r1 1461 ltac:(lia)) as E2.
  pose proof (Z.mod_pos_bound r1 1461 ltac:(lia)) as B2.
  set (b := r1 / 1461) in *. set (r2 := r1 mod 1461) in *.
  pose proof (Z.div_mod r2 365 ltac:(lia)) as E3.
  pose proof (Z.mod_pos_bound r2 365 ltac:(lia)) as B3.
  set (c := r2 / 365) in *. set (r3 := r2 mod 365) in *.
  clearbody a r1 b r2 c r3.
  assert (Ha : 0 <= a <= 4) by lia.
  assert (Hb : 0 <= b <= 24) by lia.
  assert (Hc : 0 <= c <= 4) by lia.
  destruct ((c =? 4) || (a =? 4)) eqn:Eend.
  - (* the last day of a leap year *)
    apply orb_true_iff in Eend as [Ec | Ea]; bools.
    + assert (Hb' : b <= 23) by lia. assert (Ha' : a <= 3) by lia.
      pose proof (leap_end_table a b ltac:(lia) ltac:(lia)) as Ht.
      unfold leap_end_ok in Ht. bools.
      replace (0 * 400 + 1 + a * 100 + b * 4 + c - 1)
        with (100 * a + 4 * b + 4) by lia.
      rewrite Ht.
      change (days_in_month (100 * a + 4 * b + 4) 12) with 31.
      repeat split; lia.
    + assert (b = 0 /\ c = 0 /\ r = 146096) as (-> & -> & ->) by lia.
      subst a. vm_compute. repeat split; congruence.
  - apply orb_false_iff in Eend as [Ec Ea]. bools.
    pose proof (year_table a b c ltac:(lia) ltac:(lia) ltac:(lia)) as Ht.
    unfold year_index_ok in Ht. cbv zeta in Ht.
    apply andb_true_iff in Ht as [Hd Hl]. bools.
    apply Bool.eqb_prop in Hl.
    replace (0 * 400 + 1 + a * 100 + b * 4 + c)
      with (1 + 100 * a + 4 * b + c) by lia.
    rewrite <- Hl.
    pose proof (month_day_table (is_leap (1 + 100 * a + 4 * b + c)) r3 B3)
      as Hm.
    unfold month_day_ok in Hm.
    destruct (month_day _ r3) as [m d].
    repeat (apply andb_true_iff in Hm as [Hm ?]). bools.
    unfold days_in_month, ymd2ord, days_before_month. rewrite Hd.
    repeat split; lia.
Qed.

Lemma ord2ymd_period q r :
  0 <= r < DI400Y ->
  ord2ymd (1 + DI400Y * q + r)
  = let '(y, m, d) := ord2ymd (r + 1) in (y + 400 * q, m, d).
Proof.
  intros Hr. unfold ord2ymd.
  replace (1 + DI400Y * q + r - 1) with (r + q * DI400Y) by lia.
  replace (r + 1 - 1) with r by lia.
  assert (H0 : DI400Y <> 0) by (unfold DI400Y; lia).
  rewrite Z.div_add, Z.mod_add by exact H0.
  rewrite (Z.div_small r DI400Y), (Z.mod_small r DI400Y) by lia.
  cbv zeta.
  destruct ((_ =? 4) || (_ =? 4)); [f_equal; f_equal; lia|].
  destruct (_ <? _); f_equal; f_equal; lia.
Qed.

Lemma is_leap_period y q : is_leap (y + 400 * q) = is_leap y.
Proof.
  unfold is_leap.
  replace (y + 400 * q) with (y + (100 * q) * 4) at 1 by lia.
  replace (y + 400 * q) with (y + (4 * q) * 100) at 1 by lia.
  replace (y + 400 * q) with (y + q * 400) by lia.
  now rewrite !Z.mod_add by lia.
Qed.

Lemma days_before_year_period y q :
  days_before_year (y + 400 * q) = days_before_year y + DI400Y * q.
Proof.
  unfold days_before_year, DI400Y. cbv zeta.
  replace ((y + 400 * q - 1) / 4) with ((y - 1) / 4 + 100 * q).
  2:{ replace (y + 400 * q - 1) with (y - 1 + (100 * q) * 4) by lia.
      now rewrite Z.div_add by lia. }
  replace ((y + 400 * q - 1) / 100) with ((y - 1) / 100 + 4 * q).
  2:{ replace (y + 400 * q - 1) with (y - 1 + (4 * q) * 100) by lia.
      now rewrite Z.div_add by lia. }
  replace ((y + 400 * q - 1) / 400) with ((y - 1) / 400 + q).
  2:{ replace (y + 400 * q - 1) with (y - 1 + q * 400) by lia.
      now rewrite Z.div_add by lia. }
  ring.
Qed.

Lemma ymd2ord_period y m d q :
  ymd2ord (y + 400 * q) m d = ymd2ord y m d + DI400Y * q.
Proof.
  unfold ymd2ord, days_before_month.
  rewrite days_before_year_period, is_leap_period. lia.
Qed.

Lemma days_in_month_period y m q :
  days_in_month (y + 400 * q) m = days_in_month y m.
Proof. unfold days_in_month. now rewrite is_leap_period. Qed.

(** [ord2ymd] on the ordinals of [date]: it returns a calendar day, the
    one [ymd2ord] maps back to the ordinal. *)
Lemma ord2ymd_spec n :
  1 <= n <= MAXORDINAL ->
  let '(y, m, d) := ord2ymd n in
  1 <= y <= 9999 /\ 1 <= m <= 12 /\ 1 <= d <= days_in_month y m
  /\ ymd2ord y m d = n
  /\ (Calendar.ymd2ord 1000 1 1 <= n -> 1000 <= y).
Proof.
  intros Hn.
  set (q := (n - 1) / DI400Y). set (r := (n - 1) mod DI400Y).
  assert (H0 : 0 < DI400Y) by (unfold DI400Y; lia).
  assert (Hr : 0 <= r < DI400Y) by (apply Z.mod_pos_bound; exact H0).
  assert (Hdm : n - 1 = DI400Y * q + r) by (apply Z.div_mod; lia).
  assert (Hq : 0 <= q <= 24).
  { subst q. unfold MAXORDINAL, DI400Y in *. split.
    - apply Z.div_pos; lia.
    - assert ((n - 1) / 146097 < 25); [|lia].
      apply Z.div_lt_upper_bound; lia. }
  replace n with (1 + DI400Y * q + r) by lia.
  rewrite ord2ymd_period by exact Hr.
  pose proof (ord2ymd_first_period r Hr) as Hc.
  destruct (ord2ymd (r + 1)) as [[y m] d].
  destruct Hc as (Hy & Hy1 & Hy2 & Hm & Hd & Ho).
  rewrite days_in_month_period, ymd2ord_period.
  unfold MAXORDINAL, DI400Y in *.
  change (ymd2ord 1000 1 1) with 364878.
  repeat split; lia.
Qed.

End CalendarFacts.

Section ParsedDates.
Import Calendar.

Lemma month_end_table y m :
  1 <= y <= 400 -> 1 <= m <= 12 -> month_end_ok y m = true.
Proof.
  intros Hy Hm.
  assert (H : all_upto 400 (fun y =>
                all_upto 12 (fun m => month_end_ok (y + 1) (m + 1))) = true)
    by (vm_compute; reflexivity).
  apply (all_upto_spec _ _ (y - 1)) in H; [|lia].
  apply (all_upto_spec _ _ (m - 1)) in H; [|lia].
  now replace (y - 1 + 1) with y in H by lia;
    replace (m - 1 + 1) with m in H by lia.
Qed.

Lemma ymd2ord_range y m d :
  1 <= y <= 9999 -> 1 <= m <= 12 -> 1 <= d <= days_in_month y m ->
  1 <= ymd2ord y m d <= MAXORDINAL.
Proof.
  intros Hy Hm Hd.
  set (q := (y - 1) / 400). set (y0 := (y - 1) mod 400 + 1).
  assert (Hy0 : 1 <= y0 <= 400).
  { subst y0. pose proof (Z.mod_pos_bound (y - 1) 400 ltac:(lia)). lia. }
  assert (Hyq : y = y0 + 400 * q).
  { subst y0 q. pose proof (Z.div_mod (y - 1) 400 ltac:(lia)). lia. }
  assert (Hq : 0 <= q <= 24).
  { subst q. split; [apply Z.div_pos; lia|].
    assert ((y - 1) / 400 < 25); [|lia]. apply Z.div_lt_upper_bound; lia. }
  pose proof (month_end_table y0 m Hy0 Hm) as Ht.
  unfold month_end_ok in Ht.
  repeat (apply andb_true_iff in Ht as [Ht ?]). bools.
  rewrite Hyq in Hd |- *. rewrite days_in_month_period in Hd.
  rewrite ymd2ord_period. unfold DI400Y, MAXORDINAL.
  unfold ymd2ord in *.
  destruct (y0 =? 400) eqn:E400; bools; lia.
Qed.

(** What [parse_date] returns is a [datetime]: a midnight between
    [date.min] and [date.max]. *)
Lemma parse_date_valid s field d :
  parse_date s field = Ok d -> valid_datetime d /\ tod d = 0.
Proof.
  intros H. apply parse_date_lenient in H as (y & m & dd & Hl & Hy & Hd & ->).
  destruct Hl as (ys & ms & ds & _ & Fy & Fm & Fd).
  apply year_field_range in Fy. apply month_field_range in Fm.
  apply day_field_range in Fd.
  unfold valid_datetime, US_PER_DAY. cbn [ordinal tod].
  pose proof (ymd2ord_range y m dd ltac:(lia) Fm ltac:(lia)). lia.
Qed.

End ParsedDates.

(** ** Calendar: from a date string to the ordinal and back *)

Section CalendarInverse.
Import Calendar.

Lemma days_before_year_mono y y' :
  y <= y' -> days_before_year y <= days_before_year y'.
Proof.
  intros H. unfold days_before_year. cbv zeta.
  Z.div_mod_to_equations. lia.
Qed.

Lemma year_length y :
  days_before_year (y + 1)
  = days_before_year y + 365 + (if is_leap y then 1 else 0).
Proof.
  unfold days_before_year, is_leap. cbv zeta.
  replace (y + 1 - 1) with y by lia.
  destruct (y mod 4 =? 0) eqn:E4; destruct (y mod 100 =? 0) eqn:E100;
    destruct (y mod 400 =? 0) eqn:E400; cbn [andb orb negb]; bools;
    Z.div_mod_to_equations; lia.
Qed.

Lemma month_cases m :
  1 <= m <= 12 ->
  m = 1 \/ m = 2 \/ m = 3 \/ m = 4 \/ m = 5 \/ m = 6
  \/ m = 7 \/ m = 8 \/ m = 9 \/ m = 10 \/ m = 11 \/ m = 12.
Proof. lia. Qed.

Lemma day_of_year_range y m d :
  1 <= m <= 12 -> 1 <= d <= days_in_month y m ->
  1 <= days_before_month y m + d <= 365 + (if is_leap y then 1 else 0).
Proof.
  intros Hm. unfold days_in_month, days_before_month.
  apply month_cases in Hm.
  destruct (is_leap y);
    repeat (destruct Hm as [-> | Hm]); try subst m; cbn; lia.
Qed.

Lemma day_of_year_inj y m d m' d' :
  1 <= m <= 12 -> 1 <= d <= days_in_month y m ->
  1 <= m' <= 12 -> 1 <= d' <= days_in_month y m' ->
  days_before_month y m + d = days_before_month y m' + d' ->
  m = m' /\ d = d'.
Proof.
  intros Hm Hd Hm' Hd'. revert Hd Hd'.
  unfold days_in_month, days_before_month.
  apply month_cases in Hm. apply month_cases in Hm'.
  destruct (is_leap y);
    repeat (destruct Hm as [-> | Hm]); try subst m;
    repeat (destruct Hm' as [-> | Hm']); try subst m'; cbn; lia.
Qed.

Lemma ymd2ord_inj y m d y' m' d' :
  1 <= m <= 12 -> 1 <= d <= days_in_month y m ->
  1 <= m' <= 12 -> 1 <= d' <= days_in_month y' m' ->
  ymd2ord y m d = ymd2ord y' m' d' ->
  y = y' /\ m = m' /\ d = d'.
Proof.
  intros Hm Hd Hm' Hd' E. unfold ymd2ord in E.
  pose proof (day_of_year_range y m d Hm Hd) as R.
  pose proof (day_of_year_range y' m' d' Hm' Hd') as R'.
  pose proof (year_length y) as L. pose proof (year_length y') as L'.
  assert (Hy : y = y').
  { destruct (Z.lt_trichotomy y y') as [H | [H | H]]; [|exact H|].
    - pose proof (days_before_year_mono (y + 1) y' ltac:(lia)). lia.
    - pose proof (days_before_year_mono (y' + 1) y ltac:(lia)). lia. }
  subst y'. split; [reflexivity|].
  apply (day_of_year_inj y); auto. lia.
Qed.

(** The calendar day of an ordinal, the other way round. *)
Lemma ord2ymd_ymd2ord y m d :
  1 <= y <= 9999 -> 1 <= m <= 12 -> 1 <= d <= days_in_month y m ->
  ord2ymd (ymd2ord y m d) = (y, m, d).
Proof.
  intros Hy Hm Hd.
  pose proof (ymd2ord_range y m d Hy Hm Hd) as Hr.
  pose proof (ord2ymd_spec _ Hr) as Hs.
  destruct (ord2ymd (ymd2ord y m d)) as [[y' m'] d'].
  destruct Hs as (_ & Hm' & Hd' & E & _).
  apply ymd2ord_inj in E as (-> & -> & ->); auto.
Qed.

(** A day from 1000-01-01 on lies in a year from 1000 on. *)
Lemma year_from_1000 y m d :
  1 <= m <= 12 -> 1 <= d <= days_in_month y m ->
  ORDINAL_YEAR_1000 <= ymd2ord y m d -> 1000 <= y.
Proof.
  intros Hm Hd Ho. unfold ORDINAL_YEAR_1000 in Ho.
  change (ymd2ord 1000 1 1) with 364878 in Ho.
  destruct (Z.le_gt_cases 1000 y) as [H | H]; [exact H | exfalso].
  pose proof (day_of_year_range y m d Hm Hd) as R.
  pose proof (year_length y) as L.
  pose proof (days_before_year_mono (y + 1) 1000 ltac:(lia)) as M.
  change (days_before_year 1000) with 364877 in M.
  unfold ymd2ord in Ho. lia.
Qed.

End CalendarInverse.

Section FormatFacts.
Import PyStr Strptime DateFormat Fmt.

Lemma digit_char_range z : 48 <= digit_char z <= 57.
Proof.
  unfold digit_char. pose proof (Z.mod_pos_bound z 10 ltac:(lia)). lia.
Qed.

Lemma is_digit_digit_char z : is_digit (digit_char z) = true.
Proof. apply ascii_digit_is_digit, digit_char_range. Qed.

Lemma ascii_digit_digit_char z : ascii_digit (digit_char z) = true.
Proof. apply ascii_digit_spec, digit_char_range. Qed.

Lemma dig_digit_char z : dig (digit_char z) = z mod 10.
Proof.
  destruct (ascii_digit_is_digit _ (digit_char_range z)) as [_ ->].
  unfold digit_char. lia.
Qed.

Lemma year_field_four_digits y :
  0 <= y <= 9999 -> year_field (four_digits y) y.
Proof.
  intros Hy.
  pose proof (year_digits _ _ _ _
                (is_digit_digit_char (y / 1000))
                (is_digit_digit_char (y / 100))
                (is_digit_digit_char (y / 10))
                (is_digit_digit_char y)) as H.
  rewrite !dig_digit_char in H.
  replace (1000 * ((y / 1000) mod 10) + 100 * ((y / 100) mod 10)
           + 10 * ((y / 10) mod 10) + y mod 10) with y in H; [exact H|].
  clear H. Z.div_mod_to_equations. lia.
Qed.

Lemma month_field_two_digits m :
  1 <= m <= 12 -> month_field (two_digits m) m.
Proof.
  intros Hm.
  assert (E : 10 * ((m / 10) mod 10) + m mod 10 = m)
    by (Z.div_mod_to_equations; lia).
  pose proof (month_two _ _ (ascii_digit_digit_char (m / 10))
                (ascii_digit_digit_char m)) as H.
  rewrite !dig_digit_char, E in H. apply H. lia.
Qed.

Lemma day_field_two_digits d :
  1 <= d <= 31 -> day_field (two_digits d) d.
Proof.
  intros Hd.
  assert (E : 10 * ((d / 10) mod 10) + d mod 10 = d)
    by (Z.div_mod_to_equations; lia).
  pose proof (day_two _ _ (ascii_digit_digit_char (d / 10))
                (is_digit_digit_char d)
                (or_introl (ascii_digit_digit_char d))) as H.
  rewrite !dig_digit_char, E in H. apply H. lia.
Qed.

Lemma days_in_month_le y m : Calendar.days_in_month y m <= 31.
Proof.
  unfold Calendar.days_in_month, Calendar.DAYS_IN_MONTH.
  destruct (_ && _); [lia|].
  destruct m as [|[[[[]|[]|]|[[]|[]|]|]|[[[]|[]|]|[[]|[]|]|]|]|]; lia.
Qed.

(** From the year 1000 on a year is written with four digits. *)
Lemma format_year_four y : 1000 <= y -> format_year y = four_digits y.
Proof.
  intros H. unfold format_year.
  destruct (Z.ltb_spec y 10); [lia|].
  destruct (Z.ltb_spec y 100); [lia|].
  destruct (Z.ltb_spec y 1000); [lia | reflexivity].
Qed.

Lemma strict_ymd_format y m d :
  strict_ymd (four_digits y ++ "-" ++ two_digits m ++ "-" ++ two_digits d)
  = true.
Proof.
  unfold four_digits, two_digits. cbn [app strict_ymd char].
  rewrite !ascii_digit_digit_char. reflexivity.
Qed.

(** The date of an ordinal from 1000-01-01 on, as [strftime] writes
    it. *)
Lemma strftime_ymd_four d :
  ORDINAL_YEAR_1000 <= ordinal d <= Calendar.MAXORDINAL ->
  exists y m dd,
    Calendar.ord2ymd (ordinal d) = (y, m, dd)
    /\ 1000 <= y <= 9999 /\ 1 <= m <= 12
    /\ 1 <= dd <= Calendar.days_in_month y m
    /\ Calendar.ymd2ord y m dd = ordinal d
    /\ strftime_ymd d
       = four_digits y ++ "-" ++ two_digits m ++ "-" ++ two_digits dd.
Proof.
  intros Ho.
  assert (H1 : 1 <= ordinal d <= Calendar.MAXORDINAL).
  { unfold ORDINAL_YEAR_1000 in Ho.
    change (Calendar.ymd2ord 1000 1 1) with 364878 in Ho. lia. }
  pose proof (ord2ymd_spec (ordinal d) H1) as Hs.
  unfold strftime_ymd.
  destruct (Calendar.ord2ymd (ordinal d)) as [[y m] dd].
  destruct Hs as (Hy & Hm & Hd & Hord & _).
  assert (Hy' : 1000 <= y).
  { apply (year_from_1000 y m dd Hm Hd). rewrite Hord. lia. }
  exists y, m, dd. rewrite (format_year_four y Hy').
  repeat split; try lia; reflexivity.
Qed.

End FormatFacts.

(** Formatting and parsing back. *)
Lemma parse_date_strftime (d : datetime) (field : str) :
  ORDINAL_YEAR_1000 <= ordinal d <= Calendar.MAXORDINAL ->
  parse_date (Fmt.strftime_ymd d) field = Ok (mk_datetime (ordinal d) 0).
Proof.
  intros Ho.
  destruct (strftime_ymd_four d Ho) as (y & m & dd & _ & Hy & Hm & Hd & Hord & ->).
  pose proof (days_in_month_le y m) as Hle.
  apply parse_date_lenient. exists y, m, dd.
  split; [|split; [lia|]; split; [lia|]; now rewrite Hord].
  exists (Fmt.four_digits y), (Fmt.two_digits m), (Fmt.two_digits dd).
  split; [reflexivity|]. split; [apply year_field_four_digits; lia|].
  split; [now apply month_field_two_digits|].
  apply day_field_two_digits. lia.
Qed.

(** A date formatted with [%Y-%m-%d] is in the strict form (four, two and
    two digits), and [parse_date] reads it back as the midnight of the
    same day; so two days are never written alike. (Years from 1000 on,
    which every platform writes with four digits.) *)
Theorem strftime_parse_round_trip (d : datetime) (field : str) :
  ORDINAL_YEAR_1000 <= ordinal d <= Calendar.MAXORDINAL ->
  DateFormat.strict_ymd (Fmt.strftime_ymd d) = true
  /\ parse_date (Fmt.strftime_ymd d) field = Ok (mk_datetime (ordinal d) 0)
  /\ (forall d',
        ORDINAL_YEAR_1000 <= ordinal d' <= Calendar.MAXORDINAL ->
        Fmt.strftime_ymd d' = Fmt.strftime_ymd d -> date_of d' = date_of d).
Proof.
  intros Ho. split; [|split].
  - destruct (strftime_ymd_four d Ho) as (y & m & dd & _ & _ & _ & _ & _ & ->).
    apply strict_ymd_format.
  - now apply parse_date_strftime.
  - intros d' Ho' E.
    pose proof (parse_date_strftime d field Ho) as H.
    pose proof (parse_date_strftime d' field Ho') as H'.
    rewrite E, H in H'. now injection H'.
Qed.

Lemma strftime_parse_round_trip_witness :
  parse_date "2025-01-31" "date" = Ok day_2025_01_31.
Proof.
  apply (strftime_parse_round_trip day_2025_01_31 "date").
  vm_compute. split; discriminate.
Defined.

Section StrictFormat.
Import PyStr Strptime DateFormat Fmt.

Lemma digit_char_dig a z :
  ascii_digit a = true -> z mod 10 = dig a -> digit_char z = a.
Proof.
  intros Ha Hz. apply ascii_digit_spec in Ha.
  destruct (ascii_digit_is_digit a Ha) as [_ Hd].
  unfold digit_char. lia.
Qed.

Lemma two_digits_chars a b :
  ascii_digit a = true -> ascii_digit b = true ->
  two_digits (10 * dig a + dig b) = [a; b].
Proof.
  intros Ha Hb. pose proof (dig_range a). pose proof (dig_range b).
  unfold two_digits.
  rewrite (digit_char_dig a), (digit_char_dig b); auto;
    Z.div_mod_to_equations; lia.
Qed.

Lemma four_digits_chars a b c d :
  ascii_digit a = true -> ascii_digit b = true ->
  ascii_digit c = true -> ascii_digit d = true ->
  four_digits (1000 * dig a + 100 * dig b + 10 * dig c + dig d)
  = [a; b; c; d].
Proof.
  intros Ha Hb Hc Hd.
  pose proof (dig_range a). pose proof (dig_range b).
  pose proof (dig_range c). pose proof (dig_range d).
  unfold four_digits, two_digits.
  rewrite (digit_char_dig a), (digit_char_dig b), (digit_char_dig c),
    (digit_char_dig d); auto; Z.div_mod_to_equations; lia.
Qed.

(** A string in the strict form that the format accepts is the padded
    writing of its three numbers. *)
Lemma strict_lenient s y m d :
  strict_ymd s = true -> lenient_ymd s y m d ->
  s = four_digits y ++ "-" ++ two_digits m ++ "-" ++ two_digits d.
Proof.
  intros Hstrict (ys & ms & ds & -> & Hy & Hm & Hd).
  destruct Hy as [a b c e Ha Hb Hc He].
  destruct Hm as [m1 m2 Hm1 Hm2 Hmr | m1 Hm1 Hmr].
  - destruct Hd as [d1 d2 Hd1 Hd2 Hor Hdr | d1 Hd1 Hdr | d1 Hd1 Hdr];
      cbn [app strict_ymd] in Hstrict; try discriminate Hstrict.
    + rewrite !andb_true_iff in Hstrict.
      destruct Hstrict as [[[[[[[[[Sa Sb] Sc] Se] _] _] _] _] _] Sd2].
      rewrite (four_digits_chars a b c e), (two_digits_chars m1 m2),
        (two_digits_chars d1 d2) by assumption.
      reflexivity.
    + rewrite !andb_true_iff in Hstrict.
      destruct Hstrict as [[_ H] _]. vm_compute in H. discriminate H.
  - exfalso. cbn [app strict_ymd] in Hstrict.
    destruct ds as [|x1 [|x2 [|x3 [|x4 ds]]]];
      cbn [app] in Hstrict; try discriminate Hstrict.
    rewrite !andb_true_iff in Hstrict.
    destruct Hstrict as [[[[_ H] _] _] _]. vm_compute in H. discriminate H.
Qed.

End StrictFormat.

(** A date string in the strict form that [parse_date] accepts is given
    back by [%Y-%m-%d] as it was: parsing loses nothing of it. (Years
    from 1000 on, which every platform writes with four digits.) *)
Theorem parse_strftime_round_trip (s field : str) (d : datetime) :
  parse_date s field = Ok d ->
  ORDINAL_YEAR_1000 <= ordinal d ->
  DateFormat.strict_ymd s = true ->
  Fmt.strftime_ymd d = s.
Proof.
  intros Hp Ho Hstrict.
  apply parse_date_lenient in Hp as (y & m & dd & Hl & Hy & Hd & ->).
  pose proof Hl as (ys & ms & ds & _ & Fy & Fm & Fd).
  apply year_field_range in Fy. apply month_field_range in Fm.
  apply day_field_range in Fd. cbn [ordinal] in Ho.
  assert (Hy' : 1000 <= y) by (apply (year_from_1000 y m dd); auto; lia).
  unfold Fmt.strftime_ymd. cbn [ordinal].
  rewrite ord2ymd_ymd2ord by lia.
  rewrite (format_year_four y Hy').
  symmetry. now apply strict_lenient.
Qed.

Lemma parse_strftime_round_trip_witness :
  Fmt.strftime_ymd day_2025_01_31 = "2025-01-31".
Proof.
  apply (parse_strftime_round_trip "2025-01-31" "date").
  - vm_compute. reflexivity.
  - vm_compute. discriminate.
  - reflexivity.
Defined.
(** ** Batch mode: the requests sent *)


Section SamplerDates.

(** Every sampled date lies between the two end points. *)
Lemma sampler_between start end_ n l :
  valid_datetime start -> valid_datetime end_ ->
  evenly_spaced_dates start end_ n = Ok l ->
  Forall (fun d => dt_le start d /\ dt_le d end_) l.
Proof.
  intros Hs He. unfold evenly_spaced_dates.
  destruct (n <? 2) eqn:E2; [discriminate|].
  destruct (td_days (dt_sub end_ start) <? 0) eqn:E0; [discriminate|].
  bools.
  assert (Hle : dt_le start end_).
  { destruct (dt_le_or_lt start end_) as [H | H]; [exact H|].
    apply delta_days_neg in H; auto. lia. }
  assert (Hstart : dt_le start start /\ dt_le start end_)
    by (split; [apply dt_le_refl | exact Hle]).
  assert (Hend : dt_le start end_ /\ dt_le end_ end_)
    by (split; [exact Hle | apply dt_le_refl]).
  destruct (n =? 2) eqn:En.
  - intros [= <-].
    apply Forall_cons. split; [exact Hstart|].
    apply Forall_cons. split; [exact Hend | apply Forall_nil_2].
  - bools. unfold rbind.
    destruct (Float64.int_truediv _ (n - 1)) as [step|] eqn:Estep;
      [|discriminate].
    destruct (rmap (sample start step) (range n)) as [ds|] eqn:Eds;
      [|discriminate].
    intros [= <-]. apply dedup_by_date_Forall.
    apply Forall_insert; [|exact Hend].
    apply Forall_insert; [|exact Hstart].
    apply rmap_Forall2 in Eds.
    apply (Forall2_Forall_image _ _ _ _ Eds).
    intros i d Hi Hd. apply range_bounds in Hi.
    apply (sample_in_interval start end_ Hs He step (n - 1) i d);
      auto; lia.
Qed.

End SamplerDates.

Section BatchRequests.
Variable service : list (str * str) -> str -> str -> post_outcome.
Variables (from_cur to_cur base_url api_key : str) (warn : bool).

(** The body of the loop of [main]. *)
Let attempt (d : datetime) : M unit :=
  try_except_SystemExit
    (run_one service from_cur to_cur (Fmt.strftime_ymd d) base_url api_key
       warn)
    (fun ex => print (OutFailed (date_of d) ex)).

(** With valid codes, each turn of the loop sends one request. *)
Lemma attempt_posts f t d w :
  validate_currency from_cur "From" = Ok f ->
  validate_currency to_cur "To" = Ok t ->
  ORDINAL_YEAR_1000 <= ordinal d <= Calendar.MAXORDINAL ->
  posts (attempt d w).2
  = posts w
    ++ [(build_url base_url f t (Some (Fmt.strftime_ymd d)), api_key)].
Proof.
  intros Hf Ht Hd.
  unfold attempt, try_except_SystemExit. rewrite run_one_cases, Hf, Ht.
  rewrite (parse_date_strftime d "date" Hd). cbn zeta.
  set (url := build_url base_url f t (Some (Fmt.strftime_ymd d))).
  set (w1 := printed w _).
  pose proof (call_service_posts service url api_key w1) as [Hposts _].
  pose proof (call_service_Err service url api_key w1) as Herr.
  destruct (call_service service url api_key w1) as [[payload|e] w2];
    cbn [fst snd] in *.
  - destruct (save_outcome payload _ w2) as [[p|e] w3] eqn:Es;
      apply save_outcome_effects in Es as (_ & _ & Sp & _);
      [|destruct e]; cbn [fst snd posts printed print]; now rewrite Sp.
  - destruct (Herr e eq_refl) as (m & -> & _). exact Hposts.
Qed.

(** The loop sends one request per date, in order, up to and including
    the first date whose file cannot be written. *)
Lemma for_each_posts f t dates :
  validate_currency from_cur "From" = Ok f ->
  validate_currency to_cur "To" = Ok t ->
  Forall (fun d => ORDINAL_YEAR_1000 <= ordinal d <= Calendar.MAXORDINAL)
    dates ->
  forall w,
  exists k,
    posts (for_each dates attempt w).2
    = posts w
      ++ map (fun d => (build_url base_url f t (Some (Fmt.strftime_ymd d)),
                        api_key)) (take k dates)
    /\ match (for_each dates attempt w).1 with
       | Ok _ => k = length dates
       | Err x => (0 < k <= length dates)%nat /\ write_failure service w x
       end.
Proof.
  intros Hf Ht Hall. induction Hall as [|d dates Hd _ IH]; intros w.
  - exists 0%nat. cbn. now rewrite app_nil_r.
  - cbn [for_each]. unfold bind at 1 2.
    pose proof (attempt_posts f t d w Hf Ht Hd) as Hp.
    destruct (attempt_cases service from_cur to_cur base_url api_key warn d w)
      as (l & _ & Hfs & Hc).
    change (try_except_SystemExit _ _ w) with (attempt d w) in Hfs, Hc.
    destruct (attempt d w) as [[[]|x] w1]; cbn [fst snd] in *.
    + destruct (IH w1) as (k & Hk & Hr). exists (S k).
      cbn [take map]. split.
      { rewrite Hk, Hp, <- app_assoc. reflexivity. }
      destruct (for_each dates attempt w1).1 as [[]|x].
      * cbn [length]. now rewrite Hr.
      * destruct Hr as (Hr & Hw). split; [cbn [length]; lia|].
        unfold write_failure, willing in *. rewrite Hfs in Hw. exact Hw.
    + exists 1%nat. cbn [take map]. rewrite take_0. split; [exact Hp|].
      destruct Hc as [_ Hw]. split; [cbn [length]; lia | exact Hw].
Qed.

(** With a code that is not valid, the loop only prints. *)
Lemma for_each_invalid m dates :
  (validate_currency from_cur "From" = Err (SystemExit m)
   \/ (exists f, validate_currency from_cur "From" = Ok f
                 /\ validate_currency to_cur "To" = Err (SystemExit m))) ->
  forall w,
    for_each dates attempt w
    = (Ok tt, printed w (map (fun d => OutFailed (date_of d) m) dates)).
Proof.
  intros Hbad. induction dates as [|d dates IH]; intros w.
  - cbn. unfold ret, printed. rewrite app_nil_r. now destruct w.
  - cbn [for_each map]. unfold bind at 1.
    assert (Hstep : attempt d w = (Ok tt, printed w [OutFailed (date_of d) m])).
    { unfold attempt, try_except_SystemExit. rewrite run_one_cases.
      destruct Hbad as [-> | (f & -> & ->)]; reflexivity. }
    rewrite Hstep, IH. unfold printed. cbn [files stdout log posts fs].
    now rewrite <- app_assoc.
Qed.

End BatchRequests.





(** ** Rounding: how far a computed float lies from the exact value *)

Section RoundingBelow.

Lemma shift_ge a n e :
  0 <= a -> 0 <= n ->
  (IZR a * bpow e <= IZR (a / 2 ^ n) * bpow (e + n) + bpow (e + n))%R.
Proof.
  intros Ha Hn. rewrite bpow_add, (bpow_IZR n) by assumption.
  assert (Hp : 0 < 2 ^ n) by (apply Z.pow_pos_nonneg; lia).
  assert (H : a <= a / 2 ^ n * 2 ^ n + 2 ^ n).
  { pose proof (Z.div_mod a (2 ^ n) ltac:(lia)).
    pose proof (Z.mod_pos_bound a (2 ^ n) Hp). lia. }
  apply IZR_le in H. rewrite plus_IZR, mult_IZR in H.
  pose proof (bpow_pos e). nra.
Qed.

(** The last place of a number, against the number itself, zero
    included. *)
Lemma fexp_bound_0 mx ex :
  0 <= mx ->
  (bpow (F (Zdigits2 mx + ex))
   <= (IZR mx * bpow ex + bpow ex) * u52 + eta)%R.
Proof.
  intros Hm. pose proof (bpow_pos ex) as Hp. pose proof (bpow_pos (-52)) as Hu.
  fold u52 in Hu.
  destruct (Z.eq_dec mx 0) as [-> | Hne].
  - cbn [Zdigits2]. rewrite fexp_eq.
    eapply Rle_trans; [apply bpow_max|]. fold eta.
    replace (0 + ex - 53) with (ex + -53) by lia. rewrite bpow_add.
    assert (bpow (-53) <= u52)%R by (apply bpow_le; lia).
    rewrite Rmult_0_l, Rplus_0_l.
    assert (bpow ex * bpow (-53) <= bpow ex * u52)%R
      by (apply Rmult_le_compat_l; lra).
    lra.
  - pose proof (fexp_bound mx ex ltac:(lia)) as H.
    assert (0 <= bpow ex * u52)%R by (apply Rmult_le_pos; lra).
    lra.
Qed.

(** How far below the exact value a rounded result can lie. *)
Lemma bra_core_lower mx ex lx m e :
  0 <= mx -> bra_core mx ex lx = (m, e) ->
  let U := bpow (Z.max ex (F (Zdigits2 mx + ex))) in
  (IZR mx * bpow ex
   <= IZR m * bpow e + 2 * U + (IZR mx * bpow ex + 2 * U) * u52 + eta)%R.
Proof.
  intros Hmx. unfold bra_core, shr_fexp.
  set (n1 := F (Zdigits2 mx + ex) - ex).
  destruct (shr (shr_record_of_loc mx lx) ex n1) as [mrs1 e1] eqn:E1.
  apply shr_spec in E1 as [He1 Hm1];
    [|rewrite shr_record_of_loc_m; assumption].
  rewrite shr_record_of_loc_m in Hm1.
  set (m1 := round_nearest_even (shr_m mrs1) (loc_of_shr_record mrs1)).
  set (n2 := F (Zdigits2 m1 + e1) - e1).
  destruct (shr (shr_record_of_loc m1 loc_Exact) e1 n2) as [mrs2 e2] eqn:E2.
  assert (Hms : 0 <= shr_m mrs1)
    by (rewrite Hm1; apply Z.div_pos; [lia | apply Z.pow_pos_nonneg; lia]).
  pose proof (rne_bounds (shr_m mrs1) (loc_of_shr_record mrs1)) as [Hr1 Hr2].
  fold m1 in Hr1, Hr2.
  assert (Hm1' : 0 <= m1) by lia.
  apply shr_spec in E2 as [He2 Hm2]; [|exact Hm1'].
  cbn [shr_m shr_record_of_loc] in Hm2.
  intros [= <- <-]. cbv zeta.
  assert (Hmax : Z.max ex (F (Zdigits2 mx + ex)) = e1) by lia.
  rewrite Hmax.
  (* the two shifts *)
  assert (B1 : (IZR mx * bpow ex <= IZR (shr_m mrs1) * bpow e1 + bpow e1)%R).
  { rewrite Hm1, He1. apply shift_ge; lia. }
  assert (B2 : (IZR m1 * bpow e1 <= IZR (shr_m mrs2) * bpow e2 + bpow e2)%R).
  { rewrite Hm2, He2. apply shift_ge; lia. }
  assert (B1' : (IZR (shr_m mrs1) * bpow e1 <= IZR mx * bpow ex)%R).
  { rewrite Hm1, He1. apply shift_le; lia. }
  (* the last place after the rounding *)
  assert (He2' : (bpow e2 <= bpow e1 + bpow (F (Zdigits2 m1 + e1)))%R).
  { replace e2 with (Z.max e1 (F (Zdigits2 m1 + e1))) by lia.
    apply bpow_max. }
  pose proof (fexp_bound_0 m1 e1 Hm1') as Hf.
  apply IZR_le in Hr1, Hr2. rewrite plus_IZR in Hr2.
  pose proof (bpow_pos e1) as P1. pose proof (bpow_pos (-52)) as Hu.
  fold u52 in Hu.
  assert (Hm1R : (IZR m1 * bpow e1 <= IZR mx * bpow ex + bpow e1)%R) by nra.
  assert (Hm1L : (IZR (shr_m mrs1) * bpow e1 <= IZR m1 * bpow e1)%R)
    by (apply Rmult_le_compat_r; lra).
  assert (Hfu : ((IZR m1 * bpow e1 + bpow e1) * u52
                 <= (IZR mx * bpow ex + 2 * bpow e1) * u52)%R)
    by (apply Rmult_le_compat_r; lra).
  lra.
Qed.

Lemma binary_round_aux_lower mx ex lx :
  0 <= mx ->
  let x := binary_round_aux Float64.prec Float64.emax false mx ex lx in
  let U := bpow (Z.max ex (F (Zdigits2 mx + ex))) in
  is_infinity x = false ->
  (IZR mx * bpow ex
   <= SF2R x + 2 * U + (IZR mx * bpow ex + 2 * U) * u52 + eta)%R.
Proof.
  intros Hmx x U. subst x. rewrite binary_round_aux_core.
  destruct (bra_core mx ex lx) as [m e] eqn:E.
  pose proof (bra_core_bound _ _ _ _ _ Hmx E) as (Hm & _).
  apply bra_core_lower in E; [|exact Hmx]. fold U in E.
  destruct m as [|p|p]; [| |lia].
  - intros _. cbn [SF2R]. rewrite Rmult_0_l in E. exact E.
  - destruct (e <=? Float64.emax - Float64.prec); [|discriminate].
    intros _. cbn [SF2R]. exact E.
Qed.

(** The quotient of two integers, from below. *)
Lemma int_truediv_lower D k x :
  0 <= D -> 0 < k -> Float64.int_truediv D k = Ok x ->
  (IZR D * (1 - 5 * u52) - 5 * eta * IZR k <= SF2R x * IZR k)%R.
Proof.
  intros HD Hk. unfold Float64.int_truediv.
  destruct (k =? 0) eqn:Ek; [apply Z.eqb_eq in Ek; lia|].
  assert (HkR : (0 < IZR k)%R) by (now apply IZR_lt).
  pose proof (bpow_pos (-1074)) as Heta. fold eta in Heta.
  pose proof (bpow_pos (-52)) as Hu. fold u52 in Hu.
  destruct D as [|pD|pD]; [| |lia]; destruct k as [|pk|pk]; try lia.
  - cbn [Float64.exact SFdiv xorb]. intros [= <-]. cbn [SF2R]. nra.
  - cbn [Float64.exact SFdiv xorb].
    destruct (SFdiv_core_binary _ _ (Zpos pD) 0 (Zpos pk) 0) as [[q e] l] eqn:Ec.
    pose proof (div_core_spec _ _ _ _ _ Ec) as [He Hq].
    apply div_core_bound in Ec as (Hq0 & HqR & Hulp).
    set (x0 := binary_round_aux _ _ false q e l).
    intros Hx.
    assert (Hinf : is_infinity x0 = false)
      by (destruct x0; try reflexivity; discriminate).
    assert (x0 = x) by (destruct x0; try discriminate; congruence). subst x.
    pose proof (binary_round_aux_lower q e l Hq0 Hinf) as Hlow.
    fold x0 in Hlow. cbv zeta in Hlow.
    set (U := bpow (Z.max e (F (Zdigits2 q + e)))) in *.
    (* the quotient is less than one unit below D / k *)
    assert (HqL : (IZR (Zpos pD) <= IZR q * bpow e * IZR (Zpos pk)
                                    + U * IZR (Zpos pk))%R).
    { assert (He0 : e <= 0) by lia.
      assert (Hp : 0 < 2 ^ (- e)) by (apply Z.pow_pos_nonneg; lia).
      assert (Hz : Zpos pD * 2 ^ (- e) <= q * Zpos pk + Zpos pk).
      { pose proof (Z.div_mod (Zpos pD * 2 ^ (- e)) (Zpos pk) ltac:(lia)).
        pose proof (Z.mod_pos_bound (Zpos pD * 2 ^ (- e)) (Zpos pk)
                      ltac:(lia)).
        rewrite <- Hq in *. lia. }
      apply IZR_le in Hz. rewrite plus_IZR, !mult_IZR in Hz.
      rewrite <- (bpow_IZR (- e)) in Hz by lia.
      assert (Hone : (bpow (- e) * bpow e = 1)%R).
      { rewrite <- bpow_add. replace (- e + e) with 0 by lia. reflexivity. }
      pose proof (bpow_pos e) as Pe.
      assert (H1 : (IZR (Zpos pD) * bpow (- e) * bpow e
                    <= (IZR q * IZR (Zpos pk) + IZR (Zpos pk)) * bpow e)%R)
        by (apply Rmult_le_compat_r; lra).
      rewrite Rmult_assoc, Hone, Rmult_1_r in H1.
      assert (HeU : (bpow e <= U)%R) by (apply bpow_le; lia).
      assert (bpow e * IZR (Zpos pk) <= U * IZR (Zpos pk))%R
        by (apply Rmult_le_compat_r; lra).
      lra. }
    assert (HU0 : (0 < U)%R) by apply bpow_pos.
    set (K := IZR (Zpos pk)) in *. set (Dr := IZR (Zpos pD)) in *.
    assert (HD0 : (0 < Dr)%R) by (apply IZR_lt; lia).
    (* multiply the bound on the rounding by k *)
    assert (HlowK : (IZR q * bpow e * K
                     <= SF2R x0 * K + 2 * (U * K)
                        + (IZR q * bpow e * K * u52 + 2 * (U * K * u52))
                        + eta * K)%R).
    { assert (IZR q * bpow e * K
              <= (SF2R x0 + 2 * U + (IZR q * bpow e + 2 * U) * u52 + eta)
                 * K)%R by (apply Rmult_le_compat_r; lra).
      lra. }
    replace (Dr * (1 - 5 * u52) - 5 * eta * K)%R
      with (Dr - 5 * (Dr * u52) - 5 * (eta * K))%R by ring.
    assert (HEK : (0 < eta * K)%R) by (apply Rmult_lt_0_compat; lra).
    assert (HDu : (0 < Dr * u52)%R) by (apply Rmult_lt_0_compat; lra).
    assert (Hu1 : (u52 <= / 4503599627370496)%R)
      by (rewrite u52_val; lra).
    assert (HUKu : (U * K * u52 <= (Dr * u52 + eta * K) * / 4503599627370496)%R).
    { apply Rmult_le_compat; try lra; apply Rmult_le_pos; lra. }
    assert (HVu : (IZR q * bpow e * K * u52 <= Dr * u52)%R)
      by (apply Rmult_le_compat_r; lra).
    set (V := (IZR q * bpow e * K)%R) in *. clearbody V.
    set (UK := (U * K)%R) in *. clearbody UK.
    set (SK := (SF2R x0 * K)%R) in *. clearbody SK.
    set (EK := (eta * K)%R) in *. clearbody EK.
    set (Du := (Dr * u52)%R) in *. clearbody Du.
    set (Vu := (V * u52)%R) in *. clearbody Vu.
    set (UKu := (UK * u52)%R) in *. clearbody UKu.
    lra.
Qed.

(** One exact operation, rounded: the result from below. *)
Lemma round_exact_lower mx ex :
  0 < mx ->
  let x := binary_round_aux Float64.prec Float64.emax false mx ex loc_Exact in
  is_infinity x = false ->
  (IZR mx * bpow ex * (1 - u52) - eta <= SF2R x)%R.
Proof.
  intros Hmx x Hinf.
  pose proof (binary_round_aux_RN mx ex Hmx Hinf) as [_ (z & _ & _ & H & _)].
  fold x in H.
  pose proof (fexp_bound mx ex Hmx) as Hf.
  pose proof (bpow_pos (-1074)) as Heta. fold eta in Heta.
  assert (0 <= IZR mx * bpow ex * u52)%R.
  { apply Rmult_le_pos; [apply Rmult_le_pos|].
    - apply IZR_le. lia.
    - pose proof (bpow_pos ex). lra.
    - pose proof (bpow_pos (-52)). unfold u52. lra. }
  lra.
Qed.

Lemma of_int_lower i x :
  0 <= i -> Float64.of_int i = Ok x ->
  (IZR i * (1 - u52) - eta <= SF2R x)%R.
Proof.
  intros Hi. unfold Float64.of_int.
  pose proof (bpow_pos (-1074)) as Heta. fold eta in Heta.
  destruct i as [|p|p]; [| |lia].
  - cbn [binary_normalize]. intros [= <-]. cbn [SF2R]. lra.
  - cbn [binary_normalize]. unfold binary_round.
    destruct (shl_align p 0 _) as [mz ez] eqn:Ea.
    apply shl_align_spec in Ea as [Hv _].
    set (x0 := binary_round_aux _ _ false (Zpos mz) ez loc_Exact).
    intros Hx.
    assert (Hinf : is_infinity x0 = false)
      by (destruct x0; try reflexivity; discriminate).
    assert (x0 = x) by (destruct x0; try discriminate; congruence). subst x.
    pose proof (round_exact_lower (Zpos mz) ez ltac:(lia) Hinf) as H.
    fold x0 in H. rewrite Hv, Rmult_1_r in H. exact H.
Qed.

Lemma mul_lower x y :
  nonneg_finite x -> nonneg_finite y ->
  is_infinity (SFmul Float64.prec Float64.emax x y) = false ->
  (SF2R x * SF2R y * (1 - u52) - eta
   <= SF2R (SFmul Float64.prec Float64.emax x y))%R.
Proof.
  pose proof (bpow_pos (-1074)) as Heta. fold eta in Heta.
  destruct x as [[]| | |[] mx ex], y as [[]| | |[] my ey];
    cbn [nonneg_finite]; try tauto; intros _ _;
    cbn [SFmul xorb SF2R].
  1-3: intros _; rewrite ?Rmult_0_l, ?Rmult_0_r, ?Rmult_0_l; lra.
  intros Hinf.
  pose proof (round_exact_lower (Zpos (mx * my)) (ex + ey) ltac:(lia) Hinf)
    as H.
  assert (HV : (IZR (Zpos (mx * my)) * bpow (ex + ey)
                = IZR (Zpos mx) * bpow ex * (IZR (Zpos my) * bpow ey))%R)
    by (rewrite Pos2Z.inj_mul, mult_IZR, bpow_add; ring).
  rewrite HV in H. exact H.
Qed.

(** The float computed for index [i], times [k], against [i * D]: three
    roundings away, less than [k / 2^25] in all. *)
Lemma product_near D k i (vi vs X : R) :
  0 <= D <= Calendar.MAXORDINAL - 1 -> 0 <= i <= k -> 0 < k ->
  i < 2 ^ 1024 ->
  (0 <= vi)%R -> (0 <= vs)%R ->
  (IZR i * (1 - u52) - eta <= vi <= IZR i * (1 + u52) + eta)%R ->
  (IZR D * (1 - 5 * u52) - 5 * eta * IZR k <= vs * IZR k
   <= IZR D * (1 + u52) + eta * IZR k)%R ->
  (vi * vs * (1 - u52) - eta <= X <= vi * vs * (1 + u52) + eta)%R ->
  (IZR i * IZR D - IZR k * / 33554432 <= X * IZR k
   <= IZR i * IZR D + IZR k * / 33554432)%R.
Proof.
  intros HD Hi Hk Hi2 Hvi0 Hvs0 [Hvi1 Hvi2] [Hs1 Hs2] [HX1 HX2].
  pose proof eta_small as [He0 He1].
  pose proof (eta_times_int i ltac:(lia)) as HB.
  assert (HDr : (0 <= IZR D <= 3652058)%R).
  { unfold Calendar.MAXORDINAL in HD.
    split; [apply IZR_le; lia|]. apply IZR_le. lia. }
  assert (HI : (0 <= IZR i <= IZR k)%R) by (split; apply IZR_le; lia).
  assert (HK : (1 <= IZR k)%R) by (apply IZR_le; lia).
  rewrite u52_val in *.
  set (Dr := IZR D) in *. set (I := IZR i) in *. set (K := IZR k) in *.
  set (a := (/ 4503599627370496)%R) in *.
  assert (Ha : (a = / 4503599627370496)%R) by reflexivity.
  clearbody Dr I K a.
  set (T := (vs * K)%R) in *.
  assert (HT0 : (0 <= T)%R) by (apply Rmult_le_pos; lra).
  (* the products that occur *)
  assert (Hp : (0 <= I * Dr <= K * 3652058)%R).
  { split; [apply Rmult_le_pos; lra|]. apply Rmult_le_compat; lra. }
  assert (HbK : (0 <= eta * I * K <= / 1125899906842624 * K)%R).
  { split; [apply Rmult_le_pos; [apply Rmult_le_pos|]; lra|].
    apply Rmult_le_compat_r; lra. }
  assert (HeD : (0 <= eta * Dr <= / 1125899906842624 * 3652058)%R).
  { split; [apply Rmult_le_pos; lra|]. apply Rmult_le_compat; lra. }
  assert (HeK : (0 <= eta * K <= / 1125899906842624 * K)%R).
  { split; [apply Rmult_le_pos; lra|]. apply Rmult_le_compat_r; lra. }
  assert (HeeK : (0 <= eta * eta * K <= / 1125899906842624 * K)%R).
  { split; [apply Rmult_le_pos; [apply Rmult_le_pos|]; lra|].
    apply Rmult_le_compat_r; [lra|].
    assert (eta * eta <= / 1125899906842624 * 1)%R
      by (apply Rmult_le_compat; lra).
    lra. }
  (* W = vi * T against I * Dr *)
  assert (HW : (vi * T - I * Dr = (vi - I) * T + I * (T - Dr))%R) by ring.
  assert (H1u : ((vi - I) * T
                 <= (a * I + eta) * (Dr * (1 + a) + eta * K))%R).
  { apply Rle_trans with ((a * I + eta) * T)%R.
    - apply Rmult_le_compat_r; lra.
    - apply Rmult_le_compat_l; lra. }
  assert (H1l : (- ((a * I + eta) * (Dr * (1 + a) + eta * K))
                 <= (vi - I) * T)%R).
  { apply Rle_trans with (- ((a * I + eta) * T))%R.
    - apply Ropp_le_contravar. apply Rmult_le_compat_l; lra.
    - replace (- ((a * I + eta) * T))%R with ((- (a * I + eta)) * T)%R
        by ring.
      apply Rmult_le_compat_r; lra. }
  assert (H2u : (I * (T - Dr) <= I * (a * Dr + eta * K))%R)
    by (apply Rmult_le_compat_l; lra).
  assert (H2l : (I * (- (5 * a * Dr + 5 * eta * K)) <= I * (T - Dr))%R)
    by (apply Rmult_le_compat_l; lra).
  assert (Hexp1 : ((a * I + eta) * (Dr * (1 + a) + eta * K)
                   = a * (1 + a) * (I * Dr) + a * (eta * I * K)
                     + (1 + a) * (eta * Dr) + eta * eta * K)%R) by ring.
  assert (Hexp2 : (I * (a * Dr + eta * K)
                   = a * (I * Dr) + eta * I * K)%R) by ring.
  assert (Hexp3 : (I * (- (5 * a * Dr + 5 * eta * K))
                   = - (5 * a * (I * Dr) + 5 * (eta * I * K)))%R) by ring.
  rewrite Hexp1 in H1u, H1l. rewrite Hexp2 in H2u. rewrite Hexp3 in H2l.
  (* X * K against W *)
  assert (HXu : (X * K <= vi * T * (1 + a) + eta * K)%R).
  { replace (vi * T * (1 + a) + eta * K)%R
      with ((vi * vs * (1 + a) + eta) * K)%R by (unfold T; ring).
    apply Rmult_le_compat_r; lra. }
  assert (HXl : (vi * T * (1 - a) - eta * K <= X * K)%R).
  { replace (vi * T * (1 - a) - eta * K)%R
      with ((vi * vs * (1 - a) - eta) * K)%R by (unfold T; ring).
    apply Rmult_le_compat_r; lra. }
  set (W := (vi * T)%R) in *. clearbody W.
  set (XK := (X * K)%R) in *. clearbody XK.
  set (t1 := ((vi - I) * T)%R) in *. clearbody t1.
  set (t2 := (I * (T - Dr))%R) in *. clearbody t2.
  set (p := (I * Dr)%R) in *. clearbody p.
  set (bK := (eta * I * K)%R) in *. clearbody bK.
  set (eD := (eta * Dr)%R) in *. clearbody eD.
  set (eK := (eta * K)%R) in *. clearbody eK.
  set (eeK := (eta * eta * K)%R) in *. clearbody eeK.
  subst a. lra.
Qed.

(** The offset computed for index [i] is [i * D / k] rounded to an
    integer, up to the error of the three float operations: in integers,
    [2^25 * |r * k - i * D| <= (2^24 + 1) * k]. *)
Lemma offset_error D k step i x r :
  0 <= D <= Calendar.MAXORDINAL - 1 -> 0 <= i <= k -> 0 < k ->
  Float64.int_truediv D k = Ok step ->
  Float64.int_mul i step = Ok x ->
  Float64.py_round x = Ok r ->
  33554432 * (r * k - i * D) <= 16777217 * k
  /\ 33554432 * (i * D - r * k) <= 16777217 * k.
Proof.
  intros HD Hi Hk Hstep Hx Hr.
  pose proof (int_truediv_lower D k step ltac:(lia) Hk Hstep) as Hsl.
  apply int_truediv_value in Hstep as (Hnns & Hs0 & Hs); [|lia|lia].
  unfold Float64.int_mul, rbind in Hx.
  destruct (Float64.of_int i) as [fi|] eqn:Efi; [|discriminate].
  injection Hx as <-.
  pose proof (of_int_lower i fi ltac:(lia) Efi) as Hil.
  apply of_int_value in Efi as (Hnni & Hvi & Hi2); [|lia].
  assert (Hinf : is_infinity (SFmul Float64.prec Float64.emax fi step) = false).
  { destruct (SFmul _ _ fi step); try reflexivity. discriminate Hr. }
  pose proof (mul_lower fi step Hnni Hnns Hinf) as Hxl.
  pose proof (mul_value fi step Hnni Hnns Hinf) as (Hnnx & [Hx0 Hx1]).
  pose proof (product_near D k i (SF2R fi) (SF2R step) _ HD Hi Hk Hi2
                (proj1 Hvi) Hs0 (conj Hil (proj2 Hvi)) (conj Hsl Hs)
                (conj Hxl Hx1)) as [Hn1 Hn2].
  pose proof (py_round_RN _ _ Hnnx Hr) as (z & _ & Hr1 & Hr2 & _).
  change (bpow 0) with 1%R in Hr1, Hr2. rewrite Rmult_1_r in Hr1, Hr2.
  assert (HK : (0 < IZR k)%R) by (apply IZR_lt; lia).
  set (X := SF2R (SFmul Float64.prec Float64.emax fi step)) in *.
  assert (Hr1K : (2 * (IZR r * IZR k - X * IZR k) <= IZR k)%R).
  { replace (2 * (IZR r * IZR k - X * IZR k))%R
      with (2 * (IZR r - X) * IZR k)%R by ring.
    replace (IZR k) with (1 * IZR k)%R at 2 by ring.
    apply Rmult_le_compat_r; lra. }
  assert (Hr2K : (2 * (X * IZR k - IZR r * IZR k) <= IZR k)%R).
  { replace (2 * (X * IZR k - IZR r * IZR k))%R
      with (2 * (X - IZR r) * IZR k)%R by ring.
    replace (IZR k) with (1 * IZR k)%R at 2 by ring.
    apply Rmult_le_compat_r; lra. }
  split; apply le_IZR;
    rewrite !mult_IZR, minus_IZR, !mult_IZR;
    set (XK := (X * IZR k)%R) in *; clearbody XK;
    set (RK := (IZR r * IZR k)%R) in *; clearbody RK;
    set (P := (IZR i * IZR D)%R) in *; clearbody P; lra.
Qed.

(** The offset of index [i] is less than one day from [i * D / k]. *)
Lemma offset_close D k step i x r :
  0 <= D <= Calendar.MAXORDINAL - 1 -> 0 <= i <= k -> 0 < k ->
  Float64.int_truediv D k = Ok step ->
  Float64.int_mul i step = Ok x ->
  Float64.py_round x = Ok r ->
  Z.abs (r * k - i * D) < k.
Proof.
  intros HD Hi Hk Hstep Hx Hr.
  pose proof (offset_error D k step i x r HD Hi Hk Hstep Hx Hr) as [H1 H2].
  set (A := r * k) in *. set (B := i * D) in *. lia.
Qed.

(** The first offset is 0 and the last one is [D]. *)
Lemma offset_ends D k step :
  0 <= D <= Calendar.MAXORDINAL - 1 -> 0 < k ->
  Float64.int_truediv D k = Ok step ->
  (forall x r, Float64.int_mul 0 step = Ok x -> Float64.py_round x = Ok r ->
               r = 0)
  /\ (forall x r, Float64.int_mul k step = Ok x -> Float64.py_round x = Ok r ->
                  r = D).
Proof.
  intros HD Hk Hstep. split; intros x r Hx Hr.
  - pose proof (offset_close D k step 0 x r HD ltac:(lia) Hk Hstep Hx Hr) as H.
    rewrite Z.mul_0_l, Z.sub_0_r in H. nia.
  - pose proof (offset_close D k step k x r HD ltac:(lia) Hk Hstep Hx Hr) as H.
    replace (r * k - k * D) with ((r - D) * k) in H by ring. nia.
Qed.

(** With at least one day per step the offsets grow strictly. *)
Lemma offset_strict D k step i j xi xj ri rj :
  0 <= D <= Calendar.MAXORDINAL - 1 -> 0 < k -> k <= D ->
  0 <= i -> i < j -> j <= k ->
  Float64.int_truediv D k = Ok step ->
  Float64.int_mul i step = Ok xi -> Float64.int_mul j step = Ok xj ->
  Float64.py_round xi = Ok ri -> Float64.py_round xj = Ok rj ->
  ri < rj.
Proof.
  intros HD Hk HkD Hi Hij Hj Hstep Exi Exj Eri Erj.
  pose proof (offset_error D k step i xi ri HD ltac:(lia) Hk Hstep Exi Eri)
    as [Hi1 Hi2].
  pose proof (offset_error D k step j xj rj HD ltac:(lia) Hk Hstep Exj Erj)
    as [Hj1 Hj2].
  unfold Calendar.MAXORDINAL in HD.
  destruct (Z.eq_dec D k) as [-> | Hne].
  - (* one day per step: every offset is its index *)
    assert (ri = i) by nia. assert (rj = j) by nia. lia.
  - assert (Hd : D <= (j - i) * D) by nia.
    assert (0 < (rj - ri) * k); [|nia].
    replace ((rj - ri) * k)
      with ((rj * k - j * D) - (ri * k - i * D) + (j - i) * D) by ring.
    set (A := ri * k) in *. set (B := i * D) in *.
    set (A' := rj * k) in *. set (B' := j * D) in *.
    set (C := (j - i) * D) in *. lia.
Qed.

(** With less than one day per step the offsets grow by at most 1. *)
Lemma offset_step D k step i xi xj ri rj :
  0 <= D <= Calendar.MAXORDINAL - 1 -> D < k ->
  0 <= i -> i + 1 <= k ->
  Float64.int_truediv D k = Ok step ->
  Float64.int_mul i step = Ok xi -> Float64.int_mul (i + 1) step = Ok xj ->
  Float64.py_round xi = Ok ri -> Float64.py_round xj = Ok rj ->
  rj <= ri + 1.
Proof.
  intros HD HDk Hi Hj Hstep Exi Exj Eri Erj.
  assert (Hk : 0 < k) by lia.
  pose proof (offset_error D k step i xi ri HD ltac:(lia) Hk Hstep Exi Eri)
    as [Hi1 Hi2].
  pose proof (offset_error D k step (i + 1) xj rj HD ltac:(lia) Hk Hstep
                Exj Erj) as [Hj1 Hj2].
  unfold Calendar.MAXORDINAL in HD.
  assert ((rj - ri) * k < 2 * k); [|nia].
  replace ((rj - ri) * k)
    with ((rj * k - (i + 1) * D) - (ri * k - i * D) + D) by ring.
  set (A := ri * k) in *. set (B := i * D) in *.
  set (A' := rj * k) in *. set (B' := (i + 1) * D) in *. lia.
Qed.

End RoundingBelow.

(** ** Date sampler: spacing and number of the dates *)

Section SamplerStructure.

Lemma range_lookup n j i :
  range n !! j = Some i <-> i = Z.of_nat j /\ (j < Z.to_nat n)%nat.
Proof.
  unfold range. change (map Z.of_nat (seq 0 (Z.to_nat n)))
    with (Z.of_nat <$> seq 0 (Z.to_nat n)).
  rewrite list_lookup_fmap, fmap_Some. split.
  - intros (j' & Hj & ->). apply lookup_seq in Hj as [-> Hj]. auto.
  - intros [-> Hj]. exists j. split; [|reflexivity].
    now apply lookup_seq_lt.
Qed.

Lemma offset_functional step j r r' :
  offset_of step j r -> offset_of step j r' -> r = r'.
Proof. intros (x & Hx & Hr) (x' & Hx' & Hr'). congruence. Qed.

Variables (start end_ : datetime) (n : Z) (step : spec_float).
Variable ds : list datetime.
Hypothesis Hs : valid_datetime start.
Hypothesis He : valid_datetime end_.
Hypothesis Hord : ordinal start <= ordinal end_.
Hypothesis Htod : tod start <= tod end_.
Hypothesis Hn : 3 <= n.

Let D := td_days (dt_sub end_ start).

Hypothesis Hstep : Float64.int_truediv D (n - 1) = Ok step.
Hypothesis Hds :
  Forall2 (fun i d => sample start step i = Ok d) (range n) ds.

Let ds2 := <[pred (length (<[0%nat := start]> ds)) := end_]>
             (<[0%nat := start]> ds).

Lemma days_between : D = ordinal end_ - ordinal start.
Proof.
  subst D. rewrite delta_days_eq by assumption.
  apply Z.leb_le in Htod. rewrite Htod. lia.
Qed.

Lemma days_range : 0 <= D <= Calendar.MAXORDINAL - 1.
Proof.
  rewrite days_between. destruct Hs as [Hs1 _], He as [He1 _]. lia.
Qed.

Lemma ds_length : length ds = Z.to_nat n.
Proof. rewrite <- (Forall2_length _ _ _ Hds). apply range_length. Qed.

(** The entry of index [j], before the end points are forced. *)
Lemma ds_offset j :
  (j < Z.to_nat n)%nat ->
  exists d r,
    ds !! j = Some d /\ offset_of step j r
    /\ d = mk_datetime (ordinal start + r) (tod start) /\ 0 <= r <= D.
Proof.
  intros Hj.
  assert (Hr : range n !! j = Some (Z.of_nat j)) by (apply range_lookup; auto).
  destruct (Forall2_lookup_l _ _ _ _ _ Hds Hr) as (d & Hd & Hsample).
  destruct (sample_inv start Hs _ _ _ Hsample) as (x & r & Hx & Hrd & ->).
  exists (mk_datetime (ordinal start + r) (tod start)), r.
  split; [exact Hd|]. split; [exists x; auto|]. split; [reflexivity|].
  apply (offset_bound D (n - 1) step (Z.of_nat j) x r); auto;
    try apply days_range; lia.
Qed.

Lemma ds2_length : length ds2 = Z.to_nat n.
Proof. subst ds2. rewrite !length_insert. apply ds_length. Qed.

(** The entry of index [j] of the list that is deduplicated: its date is
    [start] plus the offset of [j], also at the two ends. *)
Lemma ds2_lookup j d :
  ds2 !! j = Some d ->
  (j < Z.to_nat n)%nat
  /\ exists r,
       offset_of step j r /\ date_of d = ordinal start + r /\ 0 <= r <= D.
Proof.
  intros Hd.
  assert (Hj : (j < Z.to_nat n)%nat)
    by (rewrite <- ds2_length; now apply lookup_lt_Some in Hd).
  split; [exact Hj|].
  destruct (ds_offset j Hj) as (d' & r & Hd' & Hoff & -> & Hr).
  exists r. split; [exact Hoff|]. split; [|exact Hr].
  pose proof ds_length as Hlen. pose proof days_range as HD.
  subst ds2. rewrite length_insert, Hlen in Hd.
  destruct (decide (j = pred (Z.to_nat n))) as [-> | Hlast].
  - (* the last entry is [end_] *)
    rewrite list_lookup_insert_eq in Hd by (rewrite length_insert; lia).
    injection Hd as <-.
    assert (r = D); [|unfold date_of; rewrite days_between in *; lia].
    destruct Hoff as (x & Hx & Hrd).
    destruct (offset_ends D (n - 1) step HD ltac:(lia) Hstep) as [_ Hend].
    apply (Hend x r); [|exact Hrd].
    replace (n - 1) with (Z.of_nat (pred (Z.to_nat n))) by lia. exact Hx.
  - rewrite list_lookup_insert_ne in Hd by auto.
    destruct (decide (j = 0%nat)) as [-> | Hfirst].
    + (* the first entry is [start] *)
      rewrite list_lookup_insert_eq in Hd by lia.
      injection Hd as <-.
      assert (r = 0); [|unfold date_of; lia].
      destruct Hoff as (x & Hx & Hrd).
      destruct (offset_ends D (n - 1) step HD ltac:(lia) Hstep) as [Hfst _].
      now apply (Hfst x r).
    + rewrite list_lookup_insert_ne in Hd by auto.
      rewrite Hd' in Hd. injection Hd as <-. reflexivity.
Qed.

Lemma ds2_total j :
  (j < Z.to_nat n)%nat -> exists d, ds2 !! j = Some d.
Proof.
  intros Hj. apply lookup_lt_is_Some_2. now rewrite ds2_length.
Qed.

(** Every index has its offset. *)
Lemma offset_total j :
  (j < Z.to_nat n)%nat -> exists r, offset_of step j r /\ 0 <= r <= D.
Proof.
  intros Hj. destruct (ds_offset j Hj) as (d & r & _ & Hoff & _ & Hr). eauto.
Qed.

(** What the deduplication returns has the dates of [ds2]. *)
Lemma dedup_dates :
  (forall d, In d (dedup_by_date ds2) -> In d ds2)
  /\ (forall d, In d ds2 ->
        In (date_of d) (map date_of (dedup_by_date ds2)))
  /\ NoDup (map date_of (dedup_by_date ds2)).
Proof.
  unfold dedup_by_date.
  destruct (dedup_fold ds2 ∅ []) as (ext & Hres & Hsub & Hnd & Hiff).
  rewrite Hres. cbn [app]. split; [|split; [|exact Hnd]].
  - intros d Hd. apply list_elem_of_In.
    eapply elem_of_sublist; [|exact Hsub]. now apply list_elem_of_In.
  - intros d Hd.
    assert (Hseen0 : seen_matches ((∅ : gset Z), ([] : list datetime))).
    { intros z. cbn. split; [intros H; now apply not_elem_of_empty in H|].
      tauto. }
    pose proof (dedup_keeps ds2 _ Hseen0) as (_ & Hdates & _).
    rewrite Hres in Hdates. now apply Hdates.
Qed.

(** Each entry of the result is near one of the [n] positions, and each
    position has an entry near it. *)
Lemma positions_met :
  (forall d, In d (dedup_by_date ds2) ->
     exists i, 0 <= i <= n - 1 /\ near_position start end_ n i d)
  /\ (forall i, 0 <= i <= n - 1 ->
        exists d, In d (dedup_by_date ds2) /\ near_position start end_ n i d).
Proof.
  pose proof days_range as HD. pose proof days_between as HDb.
  destruct dedup_dates as (Hin & Hdates & _).
  assert (Hnear : forall j d,
            ds2 !! j = Some d -> near_position start end_ n (Z.of_nat j) d).
  { intros j d Hd. apply ds2_lookup in Hd as (Hj & r & (x & Hx & Hr) & Hdate & _).
    unfold near_position. rewrite Hdate. unfold date_of. rewrite <- HDb.
    replace (ordinal start + r - ordinal start) with r by lia.
    apply (offset_close D (n - 1) step (Z.of_nat j) x r); auto; lia. }
  split.
  - intros d Hd. apply Hin, list_elem_of_In, list_elem_of_lookup_1 in Hd.
    destruct Hd as [j Hj]. exists (Z.of_nat j). split; [|now apply Hnear].
    apply lookup_lt_Some in Hj. rewrite ds2_length in Hj. lia.
  - intros i Hi.
    destruct (ds2_total (Z.to_nat i) ltac:(lia)) as [d Hd].
    pose proof (Hnear _ _ Hd) as Hnd. rewrite Z2Nat.id in Hnd by lia.
    apply list_elem_of_lookup_2, list_elem_of_In, Hdates in Hd.
    apply in_map_iff in Hd as (o & Ho & Hino).
    exists o. split; [exact Hino|].
    unfold near_position in *. now rewrite Ho.
Qed.

(** With at least one day per step no two entries share their date. *)
Lemma ds2_distinct :
  n - 1 <= D -> NoDup (map date_of ds2).
Proof.
  intros Hk. pose proof days_range as HD.
  change (map date_of ds2) with (date_of <$> ds2).
  apply NoDup_alt. intros i j z Hi Hj.
  rewrite list_lookup_fmap, fmap_Some in Hi, Hj.
  destruct Hi as (di & Hi & ->). destruct Hj as (dj & Hj & Hz).
  apply ds2_lookup in Hi as (Hin & ri & (xi & Hxi & Hri) & Hdi & _).
  apply ds2_lookup in Hj as (Hjn & rj & (xj & Hxj & Hrj) & Hdj & _).
  assert (Hlt : forall a b xa xb ra rb,
            (a < b)%nat -> (b < Z.to_nat n)%nat ->
            Float64.int_mul (Z.of_nat a) step = Ok xa ->
            Float64.int_mul (Z.of_nat b) step = Ok xb ->
            Float64.py_round xa = Ok ra -> Float64.py_round xb = Ok rb ->
            ra < rb).
  { intros a b xa xb ra rb Hab Hb Ha1 Hb1 Ha2 Hb2.
    apply (offset_strict D (n - 1) step (Z.of_nat a) (Z.of_nat b) xa xb);
      auto; lia. }
  destruct (Nat.lt_trichotomy i j) as [Hij | [Hij | Hij]]; [|exact Hij|].
  - pose proof (Hlt i j _ _ _ _ Hij Hjn Hxi Hxj Hri Hrj). lia.
  - pose proof (Hlt j i _ _ _ _ Hij Hin Hxj Hxi Hrj Hri). lia.
Qed.

(** With less than one day per step every day of the interval is met. *)
Lemma offsets_cover :
  D < n - 1 ->
  forall v, 0 <= v <= D ->
  exists j, (j < Z.to_nat n)%nat /\ offset_of step j v.
Proof.
  intros Hk. pose proof days_range as HD.
  assert (Hupto : forall j, (j < Z.to_nat n)%nat ->
            exists r, offset_of step j r
                      /\ forall v, 0 <= v <= r ->
                           exists j', (j' <= j)%nat /\ offset_of step j' v).
  { induction j as [|j IH]; intros Hj.
    - destruct (offset_total 0%nat Hj) as (r & Hoff & Hr).
      exists r. split; [exact Hoff|]. intros v Hv.
      assert (r = 0).
      { destruct Hoff as (x & Hx & Hrd).
        destruct (offset_ends D (n - 1) step HD ltac:(lia) Hstep) as [H0 _].
        now apply (H0 x r). }
      exists 0%nat. split; [lia|]. replace v with r by lia. exact Hoff.
    - destruct (IH ltac:(lia)) as (r & Hoff & Hcov).
      destruct (offset_total (S j) Hj) as (r' & Hoff' & Hr').
      exists r'. split; [exact Hoff'|]. intros v Hv.
      assert (Hstep1 : r' <= r + 1).
      { destruct Hoff as (x & Hx & Hrd), Hoff' as (x' & Hx' & Hrd').
        apply (offset_step D (n - 1) step (Z.of_nat j) x x'); auto; try lia.
        replace (Z.of_nat j + 1) with (Z.of_nat (S j)) by lia. exact Hx'. }
      destruct (Z.le_gt_cases v r) as [Hle | Hgt].
      + destruct (Hcov v ltac:(lia)) as (j' & Hj' & Hv').
        exists j'. split; [lia | exact Hv'].
      + exists (S j). split; [lia|]. replace v with r' by lia. exact Hoff'. }
  intros v Hv.
  destruct (Hupto (pred (Z.to_nat n)) ltac:(lia)) as (r & Hoff & Hcov).
  assert (r = D).
  { destruct Hoff as (x & Hx & Hrd).
    destruct (offset_ends D (n - 1) step HD ltac:(lia) Hstep) as [_ Hend].
    apply (Hend x r); [|exact Hrd].
    replace (n - 1) with (Z.of_nat (pred (Z.to_nat n))) by lia. exact Hx. }
  subst r. destruct (Hcov v Hv) as (j' & Hj' & Hv').
  exists j'. split; [lia | exact Hv'].
Qed.

(** The number of entries of the result. *)
Lemma dedup_length :
  Z.of_nat (length (dedup_by_date ds2)) = Z.min n (D + 1).
Proof.
  pose proof days_range as HD.
  destruct dedup_dates as (Hin & Hdates & Hnd).
  destruct (Z.le_gt_cases (n - 1) D) as [Hk | Hk].
  - (* nothing is dropped *)
    rewrite (dedup_by_date_id ds2 (ds2_distinct Hk)), ds2_length. lia.
  - (* the dates are all the days from [start] to [end_] *)
    assert (Hperm : map date_of (dedup_by_date ds2)
                    ≡ₚ seqZ (ordinal start) (D + 1)).
    { apply NoDup_Permutation; [exact Hnd | apply NoDup_seqZ|].
      intros z. rewrite elem_of_seqZ, list_elem_of_In, in_map_iff. split.
      - intros (d & <- & Hd).
        apply Hin, list_elem_of_In, list_elem_of_lookup_1 in Hd as [j Hj].
        apply ds2_lookup in Hj as (_ & r & _ & -> & Hr). lia.
      - intros Hz.
        destruct (offsets_cover Hk (z - ordinal start) ltac:(lia))
          as (j & Hj & Hoff).
        destruct (ds2_total j Hj) as [d Hd].
        pose proof (ds2_lookup _ _ Hd) as (_ & r & Hoff' & Hdate & _).
        pose proof (offset_functional _ _ _ _ Hoff Hoff'). subst r.
        apply list_elem_of_lookup_2, list_elem_of_In, Hdates in Hd.
        apply in_map_iff in Hd as (o & Ho & Hino).
        exists o. split; [lia | exact Hino]. }
    apply Permutation_length in Hperm.
    rewrite length_map, length_seqZ in Hperm. lia.
Qed.

End SamplerStructure.

(** The sampled dates are evenly spaced: every date returned lies less
    than one day from one of the [n] positions
    [start + i * (end - start) / (n - 1)], [0 <= i <= n - 1], and every
    one of these positions has a returned date less than one day from it.
    (The two ends at the same time of day, as two parsed dates are.) *)
Theorem sampler_evenly_spaced (start end_ : datetime) (n : Z)
    (l : list datetime) :
  valid_datetime start -> valid_datetime end_ -> dt_le start end_ ->
  tod start <= tod end_ -> 2 <= n ->
  evenly_spaced_dates start end_ n = Ok l ->
  (forall d, In d l ->
     exists i, 0 <= i <= n - 1 /\ near_position start end_ n i d)
  /\ (forall i, 0 <= i <= n - 1 ->
        exists d, In d l /\ near_position start end_ n i d).
Proof.
  intros Hs He Hle Htod Hn. unfold evenly_spaced_dates.
  assert (Hord : ordinal start <= ordinal end_) by (unfold dt_le in Hle; lia).
  destruct (n <? 2) eqn:E2; [bools; lia|].
  destruct (td_days (dt_sub end_ start) <? 0) eqn:E0; [discriminate|].
  destruct (n =? 2) eqn:En; bools.
  - (* the two end points *)
    intros [= <-]. subst n. unfold near_position. split.
    + intros d [<- | [<- | []]]; [exists 0 | exists 1]; split; lia.
    + intros i Hi. assert (i = 0 \/ i = 1) as [-> | ->] by lia.
      * exists start. split; [now left | lia].
      * exists end_. split; [right; now left | lia].
  - unfold rbind.
    destruct (Float64.int_truediv _ (n - 1)) as [step|] eqn:Estep;
      [|discriminate].
    destruct (rmap (sample start step) (range n)) as [ds|] eqn:Eds;
      [|discriminate].
    intros [= <-]. apply rmap_Forall2 in Eds.
    apply (positions_met start end_ n step ds); auto; lia.
Qed.

Lemma sampler_evenly_spaced_witness :
  exists d,
    In d (map (fun o => mk_datetime (Calendar.ymd2ord 2025 1 1 + o) 0)
            [0; 8; 15; 22; 30])
    /\ near_position day_2025_01_01 day_2025_01_31 5 2 d.
Proof.
  apply (sampler_evenly_spaced day_2025_01_01 day_2025_01_31 5).
  - unfold valid_datetime. vm_compute. intuition discriminate.
  - unfold valid_datetime. vm_compute. intuition discriminate.
  - left. vm_compute. reflexivity.
  - vm_compute. discriminate.
  - lia.
  - vm_compute. reflexivity.
  - lia.
Defined.

(** How many dates come back for [n >= 3]: all [n] of them when the
    interval has at least [n - 1] days, and otherwise one for every day
    from [start] to [end], both included. (The two ends at the same time
    of day, as two parsed dates are.) *)
Theorem sampler_length (start end_ : datetime) (n : Z) (l : list datetime) :
  valid_datetime start -> valid_datetime end_ -> dt_le start end_ ->
  tod start <= tod end_ -> 3 <= n ->
  evenly_spaced_dates start end_ n = Ok l ->
  Z.of_nat (length l) = Z.min n (date_of end_ - date_of start + 1).
Proof.
  intros Hs He Hle Htod Hn. unfold evenly_spaced_dates.
  assert (Hord : ordinal start <= ordinal end_) by (unfold dt_le in Hle; lia).
  destruct (n <? 2) eqn:E2; [bools; lia|].
  destruct (td_days (dt_sub end_ start) <? 0) eqn:E0; [discriminate|].
  destruct (n =? 2) eqn:En; bools; [lia|].
  unfold rbind.
  destruct (Float64.int_truediv _ (n - 1)) as [step|] eqn:Estep;
    [|discriminate].
  destruct (rmap (sample start step) (range n)) as [ds|] eqn:Eds;
    [|discriminate].
  intros [= <-]. apply rmap_Forall2 in Eds.
  rewrite (dedup_length start end_ n step ds Hs He Hord Htod Hn Estep Eds).
  rewrite (days_between start end_ Hs He Htod). reflexivity.
Qed.

Lemma sampler_length_witness :
  Z.of_nat (length (map (fun o => mk_datetime (Calendar.ymd2ord 2025 1 1 + o) 0)
                      [0; 1; 2])) = 3.
Proof.
  apply (sampler_length day_2025_01_01
           (mk_datetime (Calendar.ymd2ord 2025 1 3) 0) 7).
  - unfold valid_datetime. vm_compute. intuition discriminate.
  - unfold valid_datetime. vm_compute. intuition discriminate.
  - left. vm_compute. reflexivity.
  - vm_compute. discriminate.
  - lia.
  - vm_compute. reflexivity.
Defined.

(** ** The files a run writes *)

Section FilesWritten.
Variable service : list (str * str) -> str -> str -> post_outcome.

Lemma only_results_refl w w' :
  files w' = files w -> only_results_written w w'.
Proof. intros H p. left. now rewrite H. Qed.

Lemma only_results_trans w1 w2 w3 :
  only_results_written w1 w2 -> only_results_written w2 w3 ->
  only_results_written w1 w3.
Proof.
  intros H12 H23 p. destruct (H23 p) as [E | H]; [|now right].
  rewrite E. apply H12.
Qed.

Lemma currency_code_valid code field r :
  validate_currency code field = Ok r -> currency_code r.
Proof.
  intros H. apply validate_currency_Ok in H as (_ & Hr & Hl & Ha).
  split; [exact Hl|]. split; [exact Ha|].
  rewrite Hr. apply upper_idem.
Qed.

Lemma run_one_only_results from_cur to_cur date_str base_url api_key warn w :
  only_results_written w
    (run_one service from_cur to_cur date_str base_url api_key warn w).2.
Proof.
  destruct (run_one service from_cur to_cur date_str base_url api_key warn w)
    as [r w'] eqn:E.
  apply run_one_effects in E as (l & _ & _ & H). cbn [snd].
  assert (Hres : forall f t payload w1 w2 c,
             answered service from_cur to_cur date_str base_url api_key w
               f t payload w1 w2 ->
             (c = FileJson payload /\ encodable payload = true
              \/ c = FileCut payload) ->
             files w' = <[json_path f t date_str := c]> (files w) ->
             only_results_written w w').
  { intros f t payload w1 w2 c (Hf & Ht & Hc & _) Hcase Hfiles p.
    rewrite Hfiles.
    destruct (decide (p = json_path f t date_str)) as [-> | Hne].
    - right. exists c. split; [apply lookup_insert_eq|]. split.
      + exists payload. split; [|exact Hcase].
        apply call_service_Ok in Hc as (_ & kvs & -> & _ & Hfalse).
        exists kvs. auto.
      + exists f, t, date_str.
        split; [reflexivity|].
        split; eapply currency_code_valid; eassumption.
    - left. now apply lookup_insert_ne. }
  destruct r as [[]|e].
  - destruct H as (f & t & payload & w1 & w2 & Ha & Henc & Hfiles & _).
    apply (Hres f t payload w1 w2 (FileJson payload)); auto.
  - destruct H as (_ & [(Hfiles & _)
                       | (f & t & payload & w1 & w2 & Ha
                          & [(_ & Hfiles & _)
                            | [(_ & _ & Hfiles) | (_ & _ & Hfiles)]])]).
    + now apply only_results_refl.
    + now apply only_results_refl.
    + apply (Hres f t payload w1 w2 (FileCut payload)); auto.
    + apply (Hres f t payload w1 w2 (FileCut payload)); auto.
Qed.

Lemma for_each_only_results (body : datetime -> M unit) dates :
  (forall d w, only_results_written w (body d w).2) ->
  forall w, only_results_written w (for_each dates body w).2.
Proof.
  intros Hbody. induction dates as [|d dates IH]; intros w.
  - now apply only_results_refl.
  - cbn [for_each]. unfold bind.
    pose proof (Hbody d w) as H1.
    destruct (body d w) as [[[]|e] w1]; cbn [snd] in *; [|exact H1].
    eapply only_results_trans; [exact H1 | apply IH].
Qed.

Lemma main_only_results a w :
  only_results_written w (main service a w).2.
Proof.
  unfold main.
  destruct (opt_truthy (start_date a) || opt_truthy (end_date a)
            || num_truthy (num_dates a)).
  - destruct (negb _); [now apply only_results_refl|].
    unfold bind, lift.
    destruct (parse_date (opt_str (start_date a)) "start-date") as [s|];
      [|now apply only_results_refl].
    destruct (parse_date (opt_str (end_date a)) "end-date") as [e|];
      [|now apply only_results_refl].
    destruct (evenly_spaced_dates s e _) as [dates|];
      [|now apply only_results_refl].
    unfold print at 1.
    eapply only_results_trans;
      [|apply for_each_only_results].
    + now apply only_results_refl.
    + intros d w0. unfold try_except_SystemExit.
      pose proof (run_one_only_results (opt_str (from_cur a))
                    (opt_str (to_cur a)) (Fmt.strftime_ymd d) (base_url a)
                    (api_key a) (warn_outside_range a) w0) as H.
      destruct (run_one _ _ _ _ _ _ _ w0) as [[[]|[m| | | | |]] w1];
        cbn [snd] in *; exact H.
  - destruct (negb _); [now apply only_results_refl|].
    apply run_one_only_results.
Qed.

End FilesWritten.


Section DistinctFiles.

Lemma json_path_date_inj f t s s' :
  json_path f t s = json_path f t s' -> s = s'.
Proof.
  unfold json_path. intros H.
  repeat apply app_inv_head in H. now apply app_inv_tail in H.
Qed.

Lemma NoDup_map_finer {A B C} (g : A -> B) (h : A -> C) (l : list A) :
  (forall x y, In x l -> In y l -> g x = g y -> h x = h y) ->
  NoDup (map h l) -> NoDup (map g l).
Proof.
  induction l as [|a l IH]; intros Hgh Hnd; [constructor|].
  cbn [map] in *. apply NoDup_cons in Hnd as [Ha Hnd].
  apply NoDup_cons. split.
  - intros Hin. apply Ha.
    apply list_elem_of_In, in_map_iff in Hin as (y & Hy & Hyl).
    rewrite (Hgh a y); [|now left | now right | now symmetry].
    apply list_elem_of_In. now apply in_map.
  - apply IH; [|exact Hnd]. intros x y Hx Hy. apply Hgh; now right.
Qed.

End DistinctFiles.

(** In a batch of three or more dates every sampled date has a result
    file of its own: the names [data/F_T_date.json] of the dates returned
    by the sampler are pairwise different, so that no result of a run
    overwrites another. (Start dates from the year 1000 on.) *)
Theorem batch_files_distinct (start end_ : datetime) (n : Z)
    (dates : list datetime) (f t : str) :
  valid_datetime start -> valid_datetime end_ ->
  ORDINAL_YEAR_1000 <= ordinal start -> 3 <= n ->
  evenly_spaced_dates start end_ n = Ok dates ->
  NoDup (map (fun d => json_path f t (Fmt.strftime_ymd d)) dates).
Proof.
  intros Hs He Hy Hn Hd.
  pose proof (sampler_between start end_ n dates Hs He Hd) as Hall.
  assert (Hnd : NoDup (map date_of dates)).
  { revert Hd. unfold evenly_spaced_dates.
    destruct (n <? 2); [discriminate|].
    destruct (td_days (dt_sub end_ start) <? 0); [discriminate|].
    destruct (n =? 2) eqn:En; [bools; lia|].
    unfold rbind.
    destruct (Float64.int_truediv _ _); [|discriminate].
    destruct (rmap _ _); [|discriminate].
    intros [= <-]. unfold dedup_by_date.
    match goal with |- context [foldl dedup_step _ ?l] =>
      destruct (dedup_fold l ∅ []) as (ext & Hres & _ & Hnd & _) end.
    now rewrite Hres. }
  apply (NoDup_map_finer _ date_of); [|exact Hnd].
  intros x y Hx Hyin E. apply json_path_date_inj in E.
  rewrite List.Forall_forall in Hall.
  assert (Hr : forall d, In d dates ->
            ORDINAL_YEAR_1000 <= ordinal d <= Calendar.MAXORDINAL).
  { intros d Hdin. destruct (Hall d Hdin) as [H1 H2].
    destruct He as [He _]. unfold dt_le in *. lia. }
  pose proof (parse_date_strftime x "date" (Hr x Hx)) as Px.
  pose proof (parse_date_strftime y "date" (Hr y Hyin)) as Py.
  rewrite E, Py in Px. now injection Px.
Qed.

Lemma batch_files_distinct_witness :
  NoDup ["data/USD_EUR_2025-01-01.json"; "data/USD_EUR_2025-01-02.json";
         "data/USD_EUR_2025-01-03.json"].
Proof.
  apply (batch_files_distinct day_2025_01_01
           (mk_datetime (Calendar.ymd2ord 2025 1 3) 0) 7
           (map (fun o => mk_datetime (Calendar.ymd2ord 2025 1 1 + o) 0)
              [0; 1; 2]) "USD" "EUR").
  - unfold valid_datetime. vm_compute. intuition discriminate.
  - unfold valid_datetime. vm_compute. intuition discriminate.
  - vm_compute. discriminate.
  - lia.
  - vm_compute. reflexivity.
Defined.

Lemma sampler_three_or_more_witness :
  let l := map (fun o => mk_datetime (Calendar.ymd2ord 2025 1 1 + o) 0)
             [0; 8; 15; 22; 30] in
  ascending l
  /\ NoDup (map date_of l)
  /\ In day_2025_01_01 l
  /\ In (date_of day_2025_01_31) (map date_of l)
  /\ (tod day_2025_01_01 = tod day_2025_01_31 -> In day_2025_01_31 l)
  /\ Z.of_nat (length l) <= 5.
Proof.
  apply (sampler_three_or_more day_2025_01_01 day_2025_01_31 5).
  - unfold valid_datetime. vm_compute. intuition discriminate.
  - unfold valid_datetime. vm_compute. intuition discriminate.
  - left. vm_compute. reflexivity.
  - lia.
  - vm_compute. reflexivity.
Defined.

(** ** Batch mode: the files saved when the service works *)

Section BatchSaved.
Variable service : list (str * str) -> str -> str -> post_outcome.
Variable reply : str -> list (str * pyval).
Variables (from_cur to_cur base_url api_key f t : str) (warn : bool).
Hypothesis Hservice : answers_with service reply.
Hypothesis Hf : validate_currency from_cur "From" = Ok f.
Hypothesis Ht : validate_currency to_cur "To" = Ok t.

(** The URL, the file and the content of the file of one date. *)
Let url (d : datetime) : str :=
  build_url base_url f t (Some (Fmt.strftime_ymd d)).
Let path (d : datetime) : str := json_path f t (Fmt.strftime_ymd d).
Let content (d : datetime) : file := FileJson (PDict (reply (url d))).

Let save (written : gmap str file) (d : datetime) : gmap str file :=
  <[path d := content d]> written.

(** The body of the loop of [main]. *)
Let attempt (d : datetime) : M unit :=
  try_except_SystemExit
    (run_one service from_cur to_cur (Fmt.strftime_ymd d) base_url api_key
       warn)
    (fun ex => print (OutFailed (date_of d) ex)).

Lemma attempt_saves d w :
  ORDINAL_YEAR_1000 <= ordinal d <= Calendar.MAXORDINAL ->
  willing w ->
  exists w',
    attempt d w = (Ok tt, w')
    /\ files w' = save (files w) d /\ log w' = log w /\ fs w' = fs w.
Proof.
  intros Hd W. unfold attempt, try_except_SystemExit.
  rewrite run_one_cases, Hf, Ht, (parse_date_strftime d "date" Hd).
  cbn zeta. fold (url d).
  set (w1 := printed w _).
  destruct (Hservice (posts w1) (url d) api_key) as (Henv & Hclean & Henc).
  rewrite (call_service_envelope _ _ _ _ _ Henv). cbn zeta.
  rewrite Hclean. unfold save_outcome. cbn [posted files fs].
  change (fs w1) with (fs w). rewrite !W, Henc. cbn [negb].
  eexists. split; [reflexivity|].
  split; [reflexivity|]. split; reflexivity.
Qed.

Lemma for_each_saves dates :
  Forall (fun d => ORDINAL_YEAR_1000 <= ordinal d <= Calendar.MAXORDINAL)
    dates ->
  forall w,
  willing w ->
  exists w',
    for_each dates attempt w = (Ok tt, w')
    /\ files w' = foldl save (files w) dates /\ log w' = log w.
Proof.
  induction 1 as [|d dates Hd _ IH]; intros w W.
  - exists w. auto.
  - destruct (attempt_saves d w Hd W) as (w1 & H1 & Hfiles1 & Hlog1 & Hfs1).
    assert (W1 : willing w1) by (intros x op; rewrite Hfs1; apply W).
    destruct (IH w1 W1) as (w2 & H2 & Hfiles2 & Hlog2).
    exists w2. cbn [for_each foldl]. unfold bind. rewrite H1.
    split; [exact H2|]. rewrite Hfiles2, Hfiles1, Hlog2, Hlog1. auto.
Qed.

Lemma path_content d d' : path d = path d' -> content d = content d'.
Proof.
  unfold path, content, url. intros H. apply json_path_date_inj in H.
  now rewrite H.
Qed.

(** A file written several times holds the same content each time. *)
Lemma saved_lookup dates : forall written p c,
  written !! p = Some c \/ (exists d, In d dates /\ path d = p) ->
  (forall d, In d dates -> path d = p -> content d = c) ->
  foldl save written dates !! p = Some c.
Proof.
  induction dates as [|x dates IH]; intros written p c Hsome Hall.
  - destruct Hsome as [H | (d & [] & _)]. exact H.
  - cbn [foldl]. apply IH.
    + unfold save at 1.
      destruct (decide (path x = p)) as [E | Hne].
      * left. rewrite E, lookup_insert_eq. f_equal.
        apply Hall; [now left | exact E].
      * rewrite lookup_insert_ne by exact Hne.
        destruct Hsome as [H | (d & [<- | Hd] & Hp)];
          [now left | now destruct Hne | right; eauto].
    + intros d Hd. apply Hall. now right.
Qed.

Lemma unsaved_lookup dates : forall written p,
  (forall d, In d dates -> path d <> p) ->
  foldl save written dates !! p = written !! p.
Proof.
  induction dates as [|x dates IH]; intros written p Hne; [reflexivity|].
  cbn [foldl]. rewrite IH by (intros d Hd; apply Hne; now right).
  unfold save. apply lookup_insert_ne. apply Hne. now left.
Qed.

End BatchSaved.


